(* ===== verification/_CoqProject ===== *)
-Q . S2P
Prelude.v
Prog.v
GitSys.v
GoStrings.v
GoInt.v
Sha2.v
Regexp.v
Memory.v
Copying.v
Api.v
DeepCopy.v
Aliasing.v
Sys.v
ApiServer.v
Git.v
GoGitProvider.v
GitProviders.v
AzureDevOps.v
HostWrites.v
Strategies.v
PullRequest.v
PullRequestSpec.v
RateLimiter.v
SignVerifier.v
Retry.v
Http.v
PromotionHandler.v
ApprovalHandler.v
Server.v
Protocol.v
Conditions.v
EdgeController.v
Indexing.v
Runner.v
Caches.v
CachesConc.v
LevelController.v
LevelSpec.v
Rollout.v
RolloutOrder.v
StatusTypes.v
Lifecycle.v
Setup.v
