(* ===== verification/Prelude.v ===== *)
(** * Verification of pipeline-controller: root of the development

    pipeline-controller promotes an application through the environments of a
    [Pipeline] resource.  This development models its Go code as executable
    definitions and proves what makes it correct.

    ** The program

    - A reconciler keeps the status of pipelines: either the one driven by
      notifications (controllers/), which checks the clusters of the targets,
      or the level-triggered one (controllers/leveltriggered/), which reads the
      applications of all targets through a cache per cluster and kind, records
      revisions and readiness, and promotes the latest revision itself.
    - A promotion server (server/) takes two webhooks behind a rate limit: a
      notification that a revision was deployed, which promotes it to the next
      environment or records that it waits for an approval, and an approval,
      which promotes what waits.  Both check a signature of the body.
    - A promotion is carried out by a strategy (server/strategy/): an event, or
      a pull request made with git and the API of a hosting service
      (internal/git/).

    ** How the code is modelled

    A function with effects is a term of [prog] (Prog.v), which makes calls of
    the types [sys] (Sys.v) and [git_call] (GitSys.v): the Kubernetes client,
    the clock, the informers, the git client, the hosting services.  The answer
    to a call is arbitrary: a statement [wp p Q] is about every run, whatever
    the outside does, and a trace is the list of the calls with their answers.
    A Go panic is an outcome; [(x, err)] results are [res]; pointers that may be
    nil are options, and reading through nil panics; maps are [gmap]; times are
    nanoseconds in [Z], wrapped to 64 bits where the code converts.  [defer] is
    [deferred], which also runs on a panic.  What a theorem needs of the outside
    is a class with laws and an instance: [ApiServer] (the API server stores
    what it accepts), [ApiMachinery] (helpers of apimachinery), [WorkQueue] (the
    garbage collector's queue), [GitLibs] (URL parsers, client-go's retry
    helper, kyaml's setter), [MetaCopy] (the deep copies of apimachinery's
    metadata), [MapRange] (a range over a map visits each key once, in any
    order), [SaysPromotions] (what the registered strategies were asked to
    promote can be told from their calls).  Logging is left out.

    Objects are values, except in the files on memory: there a pointer, a slice
    or a map is the location of a cell of a heap, with Go's aliasing, and a
    reader relates what is in memory to the values of the other files.

    ** Files

    Foundations:
    - Prelude.v: errors with wrapping, results.
    - Prog.v: programs, runs, [wp], equivalence, execution against a handler.
    - GitSys.v, Sys.v: the calls; ApiServer.v: the API server's promises.
    - Memory.v, Copying.v: memory with pointers, slices and maps, programs on it
      and what the deep copy of an object promises.
    - GoStrings.v, GoInt.v, Regexp.v, Sha2.v: strings, machine integers, the
      regular expressions the code compiles, and SHA-2 with HMAC, as Go's
      standard library has them.

    Components, with the files under src/ they model:
    - Api.v: api/v1alpha1 (types, [GetPromotion], the waiting approvals).
    - DeepCopy.v: api/v1alpha1/zz_generated.deepcopy.go, on memory; Aliasing.v:
      the methods of the status on memory, and on a copy of a cached object.
    - RateLimiter.v: pkg/ratelimiter; Retry.v: pkg/retry;
      Conditions.v: pkg/conditions.
    - SignVerifier.v, Http.v, PromotionHandler.v, ApprovalHandler.v, Server.v:
      server/sign_verifier.go, what the handlers use of net/http,
      promotion_handler.go, approval_handler.go, promotion_server.go and
      opts.go; Lifecycle.v: [Start] of promotion_server.go.
    - Strategies.v: server/strategy/strategy.go and notification/;
      PullRequest.v and PullRequestSpec.v: server/strategy/pullrequest.
    - Git.v, GoGitProvider.v, GitProviders.v, AzureDevOps.v: internal/git (data
      and utils.go; gitprovider.go; github.go, gitlab.go, bitbucket_server.go;
      azure.go, jenkins_scm.go and factory.go); HostWrites.v: what the
      providers write to a service.
    - EdgeController.v: controllers/pipeline_controller.go and
      pipeline_indexing.go.
    - Indexing.v, Runner.v, Caches.v, CachesConc.v, LevelController.v and
      LevelSpec.v: controllers/leveltriggered/indexing.go, runner.go, caching.go
      (one thread; any interleaving of threads, and these with the runner),
      controller.go.
    - Setup.v: main.go, with the goroutine it starts, the [SetupWithManager]
      methods, the start of the garbage collector.

    Across components:
    - Protocol.v: the approval protocol as an abstract machine, its refinement
      by the server, histories of requests, requests at the same time.
    - Rollout.v: the level-triggered reconciler over repeated runs;
      RolloutOrder.v: with promotions that take effect at any time, or never.
    - StatusTypes.v: statuses stay well-formed, whoever writes them.

    ** What the theorems show

    - Approvals: every request to the server is one action of an abstract
      protocol ([server_refines_protocol]), so in every history each approval
      is backed by a notification of its own ([approvals_backed]).
    - Webhooks: the server does more than read only for an authentic request
      ([server_effects_authorised]); a signature is accepted exactly when it is
      the HMAC of the body under the named secret ([signature_accepted_iff]);
      an answer of success means that the right environment was promoted or the
      revision waits ([promotion_success_sound]); an approval acts only on what
      waits and is used once ([approval_sound], [approval_once]).
    - Rate limit and retry: the bound per window and key ([window_bound]), the
      attempts and exact delays ([Exponential_attempts],
      [wait_duration_exact]).
    - Pull requests: what a success has done, in order
      ([pull_request_promoted]), what a promotion may touch
      ([pull_request_within]), that the clone is always removed
      ([clone_directory_removed]), which client is made ([factory_client]), how
      Bitbucket URLs are read ([ParseBitbucketServerURL_roundtrip]), which
      commits a provider writes when it is given some ([commits_written]), and
      that a push request to Azure DevOps holds them
      ([push_request_roundtrip]).
    - Reconcilers: what is recorded and when ([edge_reconcile_spec],
      [level_status_sound]) and the promotion rule ([level_promotion_rule]);
      repeated runs bring a revision to every environment
      ([rollout_converges]), and in no history does one run in an environment
      before all the environments in front were settled on it
      ([rollouts_in_order]); statuses stay free of nil entries
      ([statuses_well_formed]); the indices find exactly the pipelines concerned ([*_exact]).
    - Memory: a deep copy reads as the original and shares nothing with it
      ([DeepCopyObject_isolated]), so the methods of the status, which on memory
      do what they do on values ([status_methods_refine]), leave the objects in
      an informer's cache as they are ([cached_object_untouched]); a shallow
      copy would not do ([shallow_copy_reaches_cache]).
    - Caches: under every interleaving the map and the running caches agree
      ([caches_agree]); the collector removes what is unused
      ([gc_round_collects]), and a watch returns the cache of its cluster and
      kind ([watch_result]); the runner that starts them does what its comment
      says ([runner_sound], [run_can_return]), until the shutdown
      ([run_stuck_after_shutdown]); the threads composed with the runner are
      never stuck but in the runner, before its start and after its end
      ([caches_progress]), and then keep the mutex ([shutdown_keeps_mutex]).
    - Start and stop: what main.go has set up when the manager runs, and the
      status the process ends with, whichever of its goroutines ends it
      ([main_sound]), so that the process refines the protocol
      ([process_refines_protocol]); how the server stops ([start_result]).
    - Several theorems state behaviour that is likely unintended, such as
      [level_patch_clears_approvals], [approval_reset_discards_newer],
      [gc_error_strands_key], [ParseBitbucketServerURL_exact],
      [concurrent_approvals_promote_twice], [main_without_controller],
      [serve_failure_unnoticed].

    ** Bounds

    Nothing is cut off by fuel that could run out: the retry loop recurses on
    [max 1 retries], which is the number of attempts the code makes
    ([Exponential_attempts] covers every count); client-go's retry helper is
    bounded by the four steps of [DefaultBackoff]; the collector's endless loop
    is [gc_loop n], any number of rounds; the cleaner of the rate limiter, the
    threads of CachesConc.v, the goroutines of Runner.v and Lifecycle.v and the
    requests of a history are steps of a relation.  A rollout needs as many
    runs as there are environments still to go.  The constants of SHA-2
    are computed from the first eighty primes, the search being evaluated when
    the file is compiled.

    ** Not modelled

    The generated mock (mock_strategy.go) and test utilities.  Of main.go, the parsing of flags (their values are a record)
    and the logger; of the reconcilers, the delivery of events by
    controller-runtime; getCacheKeys, which only tests use.  Of the libraries
    only what the code observes is modelled, as calls or parameters.  A read of
    the API server is taken to be up to date, while the manager's client reads
    from a cache; Protocol.v shows what an early read allows.  Of [http.Server] Lifecycle.v has what [Start]
    relies on, and of the manager Setup.v the order of its calls: what ends the
    manager's run, and the context shared by the two, are not related there.

    ** Plan

    The parts of the program that decide something are all modelled.  What is
    left is at its edges: what the setters of kyaml do to the bytes of a
    manifest (a parameter here), the reconcilers' other code on memory rather
    than on values (only the methods that write through pointers are), and the
    delivery of events by controller-runtime, which the indices and predicates
    modelled here take part in. *)

From stdpp Require Export base tactics option list strings gmap fin_maps.
From Stdlib Require Export ZArith Lia.

#[export] Set Default Goal Selector "!".
Create HintDb pipeline.
Create Rewrite HintDb pipeline_rw.
#[global] Open Scope string_scope.
#[global] Open Scope list_scope.

(** ** Errors

    A Go [error] is a leaf (made by a library, by [errors.New] or by a
    format without [%w]) or a wrap made by [fmt.Errorf] with [%w].  The kind
    of a leaf is what the code can ask of it with [apierrors.IsNotFound] or
    [errors.Is]; both look through wraps. *)
Inductive err_kind :=
  | EPlain
  | EApiNotFound
  | EGitNotFound
  | EScmNotFound.

#[export] Instance err_kind_eq_dec : EqDecision err_kind.
Proof. solve_decision. Defined.

Inductive error :=
  | ErrLeaf (k : err_kind) (msg : string)
  | ErrWrap (pre : string) (e : error) (post : string).

#[export] Instance error_eq_dec : EqDecision error.
Proof. solve_decision. Defined.

(** [err.Error()] *)
Fixpoint Error (e : error) : string :=
  match e with
  | ErrLeaf _ msg => msg
  | ErrWrap pre e post => pre +:+ Error e +:+ post
  end.

(** [errors.Is] and [errors.As] on the kind of the wrapped leaf *)
Fixpoint err_is (k : err_kind) (e : error) : bool :=
  match e with
  | ErrLeaf k' _ => bool_decide (k = k')
  | ErrWrap _ e _ => err_is k e
  end.

(** [apierrors.IsNotFound] *)
Definition IsNotFound (e : error) : bool := err_is EApiNotFound e.

(** [errors.New] or [fmt.Errorf] without [%w] *)
Definition errorf (msg : string) : error := ErrLeaf EPlain msg.

(** [fmt.Errorf("pre%w", err)] *)
Definition wrapf (pre : string) (e : error) : error := ErrWrap pre e "".

(** ** Results: the pair [(value, error)] of a Go function of which exactly
    one component is meaningful *)
Inductive res (A : Type) :=
  | Ok (a : A)
  | Err (e : error).
Arguments Ok {A} a.
Arguments Err {A} e.

#[export] Instance res_eq_dec `{EqDecision A} : EqDecision (res A).
Proof. solve_decision. Defined.

#[export] Instance res_ret : MRet res := fun A a => Ok a.
#[export] Instance res_bind : MBind res := fun A B f r =>
  match r with Ok a => f a | Err e => Err e end.
#[export] Instance res_fmap : FMap res := fun A B f r =>
  match r with Ok a => Ok (f a) | Err e => Err e end.

Definition is_ok {A} (r : res A) : bool :=
  match r with Ok _ => true | Err _ => false end.

Definition res_to_option {A} (r : res A) : option A :=
  match r with Ok a => Some a | Err _ => None end.


(** ** Logic *)
Lemma and_iff_dep (A B C : Prop) : (A -> (B <-> C)) -> (A /\ B <-> A /\ C).
Proof. tauto. Qed.
