(* ===== verification/Prog.v ===== *)
(** * Programs that call the outside

    The type [prog] in which the effectful Go functions are written, its
    runs, the predicate [wp] that quantifies over every run, and the
    equivalence of programs under which the monad laws hold. *)

From S2P Require Export Prelude.

(** ** Programs

    A program makes calls [E X] to the outside (the API server, the clock, a
    git host), each answered with a value of type [X] the program cannot
    predict, and ends with a value or a Go panic.  Loops of the modelled code
    that end are recursive functions building a [prog]; the ones that do not
    are step relations. *)
Inductive outcome (A : Type) :=
  | Done (a : A)
  | Panicked (why : string).
Arguments Done {A} a.
Arguments Panicked {A} why.

Inductive prog (E : Type -> Type) (A : Type) : Type :=
  | PRet (a : A)
  | PPanic (why : string)
  | PVis {X : Type} (e : E X) (k : X -> prog E A).
Arguments PRet {E A} a.
Arguments PPanic {E A} why.
Arguments PVis {E A X} e k.

(** One call with its answer *)
Inductive event (E : Type -> Type) : Type :=
  | Ev {X : Type} (e : E X) (x : X).
Arguments Ev {E X} e x.

Fixpoint prog_bind_def {E A B} (f : A -> prog E B) (p : prog E A) : prog E B :=
  match p with
  | PRet a => f a
  | PPanic w => PPanic w
  | PVis e k => PVis e (fun x => prog_bind_def f (k x))
  end.

#[export] Instance prog_ret {E} : MRet (prog E) := fun A a => PRet a.
#[export] Instance prog_bind {E} : MBind (prog E) := fun A B f p => prog_bind_def f p.
#[export] Instance prog_fmap {E} : FMap (prog E) :=
  fun A B f p => prog_bind_def (fun a => PRet (f a)) p.

Definition trigger {E : Type -> Type} {X} (e : E X) : prog E X := PVis e PRet.

(** Reading through a pointer: [nil] panics. *)
Definition deref {E A} (p : option A) : prog E A :=
  match p with
  | Some a => PRet a
  | None => PPanic "invalid memory address or nil pointer dereference"
  end.

(** Indexing a slice: out of range panics. *)
Definition index {E A} (l : list A) (i : nat) : prog E A :=
  match l !! i with
  | Some a => PRet a
  | None => PPanic "index out of range"
  end.

(** [defer cleanup()] around the rest of a function: the cleanup runs when it
    returns and when it panics. *)
Fixpoint deferred {E : Type -> Type} {A} (cleanup : prog E unit) (p : prog E A) : prog E A :=
  match p with
  | PRet a => prog_bind_def (fun _ => PRet a) cleanup
  | PPanic w => prog_bind_def (fun _ => PPanic w) cleanup
  | PVis e k => PVis e (fun x => deferred cleanup (k x))
  end.

(** The Go idiom [x, err := f(); if err != nil { h }; k]. *)
Declare Scope prog_scope.
Delimit Scope prog_scope with prog.
Notation "'call' x <- p 'onerr' e => h ; k" :=
  (mbind (fun r => match r with Ok x => k | Err e => h end) p)
  (at level 10, x pattern, p at level 100, e name, h at level 100, k at level 200,
   format "'[v' 'call'  x  <-  p  'onerr'  e  =>  h ; '//' k ']'") : prog_scope.
Notation "'when' b 'return' h ; k" :=
  (if b then h else k)
  (at level 10, b at level 100, h at level 100, k at level 200, only parsing) : prog_scope.
#[global] Open Scope prog_scope.

(** ** Runs

    A run of [p] is the list of the calls it makes with their answers and the
    outcome it ends with, for some behaviour of the outside. *)
Section runs.
Context {E : Type -> Type}.

Inductive runs {A} : prog E A -> list (event E) -> outcome A -> Prop :=
  | runs_ret a : runs (PRet a) [] (Done a)
  | runs_panic w : runs (PPanic w) [] (Panicked w)
  | runs_vis {X} (e : E X) (x : X) k tr o :
      runs (k x) tr o -> runs (PVis e k) (Ev e x :: tr) o.

(** [wp p Q]: every run of [p] satisfies [Q]. *)
Fixpoint wp {A} (p : prog E A) (Q : list (event E) -> outcome A -> Prop) : Prop :=
  match p with
  | PRet a => Q [] (Done a)
  | PPanic w => Q [] (Panicked w)
  | PVis e k => forall x, wp (k x) (fun tr o => Q (Ev e x :: tr) o)
  end.

Lemma wp_runs {A} (p : prog E A) Q :
  wp p Q <-> forall tr o, runs p tr o -> Q tr o.
Proof.
  revert Q. induction p as [a|w|X e k IH]; intros Q; simpl.
  - split; [intros HQ tr o Hr; by inversion Hr|intros H; apply H; constructor].
  - split; [intros HQ tr o Hr; by inversion Hr|intros H; apply H; constructor].
  - split.
    + intros HQ tr o Hr.
      refine (match Hr in runs p tr o return
                match p return Prop with
                | PVis e k => (forall x, wp (k x) (fun tr o => Q (Ev e x :: tr) o)) ->
                    (forall x Q, wp (k x) Q -> forall tr o, runs (k x) tr o -> Q tr o) ->
                    Q tr o
                | _ => True
                end with
              | runs_vis e x k tr o Hr => _
              | _ => I
              end HQ _); [|intros x Q'; apply IH].
      intros HQ' IH'. exact (IH' x _ (HQ' x) _ _ Hr).
    + intros H x. apply IH. intros tr o Hr. apply H. by constructor.
Qed.

Lemma wp_mono {A} (p : prog E A) (Q Q' : list (event E) -> outcome A -> Prop) :
  (forall tr o, Q tr o -> Q' tr o) -> wp p Q -> wp p Q'.
Proof. rewrite !wp_runs. eauto. Qed.

(** What the rest of a run does, after a first part [tr]. *)
Definition wp_then {A B} (f : A -> prog E B)
    (Q : list (event E) -> outcome B -> Prop) tr (o : outcome A) : Prop :=
  match o with
  | Done a => wp (f a) (fun tr' o' => Q (tr ++ tr') o')
  | Panicked w => Q tr (Panicked w)
  end.

Lemma wp_bind {A B} (p : prog E A) (f : A -> prog E B) Q :
  wp (p ≫= f) Q <-> wp p (wp_then f Q).
Proof.
  unfold mbind, prog_bind. revert Q.
  induction p as [a|w|X e k IH]; intros Q; simpl; [done|done|].
  apply forall_proper. intros x. rewrite IH.
  split; apply wp_mono; intros tr [a|w]; done.
Qed.

Lemma wp_trigger {X} (e : E X) Q :
  wp (trigger e) Q <-> forall x, Q [Ev e x] (Done x).
Proof. done. Qed.

Lemma wp_deferred {A} (cleanup : prog E unit) (p : prog E A) Q :
  wp (deferred cleanup p) Q <->
  wp p (fun tr o => wp cleanup (fun tr' o' =>
    Q (tr ++ tr') match o' with Done _ => o | Panicked w => Panicked w end)).
Proof.
  revert Q. induction p as [a|w|X e k IH]; intros Q; simpl.
  - etransitivity; [apply (wp_bind cleanup (fun _ => PRet a))|].
    split; apply wp_mono; intros tr [?|?]; simpl; by rewrite ?app_nil_r.
  - etransitivity; [apply (wp_bind cleanup (fun _ => PPanic w))|].
    split; apply wp_mono; intros tr [?|?]; simpl; by rewrite ?app_nil_r.
  - apply forall_proper. intros x. by rewrite IH.
Qed.

Lemma wp_ret {A} (a : A) (Q : list (event E) -> outcome A -> Prop) :
  wp (mret a) Q <-> Q [] (Done a).
Proof. done. Qed.

(** Runs of compound programs, taken apart *)
Lemma runs_mret {A} (a : A) tr o : runs (mret a) tr o -> tr = [] /\ o = Done a.
Proof. revert tr o. by apply wp_runs. Qed.

Lemma runs_ppanic {A} w tr (o : outcome A) : runs (PPanic w) tr o -> tr = [] /\ o = Panicked w.
Proof. revert tr o. by apply wp_runs. Qed.

Lemma runs_trigger {X} (e : E X) tr o :
  runs (trigger e) tr o -> exists x, tr = [Ev e x] /\ o = Done x.
Proof. revert tr o. apply wp_runs. simpl. eauto. Qed.

Lemma runs_bind {A B} (p : prog E A) (f : A -> prog E B) tr o :
  runs (p ≫= f) tr o ->
  (exists w, runs p tr (Panicked w) /\ o = Panicked w) \/
  (exists a tr1 tr2, runs p tr1 (Done a) /\ runs (f a) tr2 o /\ tr = tr1 ++ tr2).
Proof.
  revert tr o. apply wp_runs, wp_bind, wp_runs. intros tr [a|w] Hp; simpl; [|eauto].
  apply wp_runs. intros tr' o Hf. right. eauto 6.
Qed.

(** Runs in progress: one call, and the calls made so far *)
Inductive prog_step {A} : prog E A -> event E -> prog E A -> Prop :=
  | prog_step_vis {X} (e : E X) (x : X) k : prog_step (PVis e k) (Ev e x) (k x).

Inductive leads {A} : prog E A -> list (event E) -> prog E A -> Prop :=
  | leads_nil p : leads p [] p
  | leads_snoc p tr p' ev p'' : leads p tr p' -> prog_step p' ev p'' -> leads p (tr ++ [ev]) p''.

Lemma wp_prog_step {A} (p p' : prog E A) ev Q :
  prog_step p ev p' -> wp p Q -> wp p' (fun tr o => Q (ev :: tr) o).
Proof. intros Hs. destruct Hs. simpl. auto. Qed.

Lemma wp_leads {A} (p p' : prog E A) tr Q :
  leads p tr p' -> wp p Q -> wp p' (fun tr' o => Q (tr ++ tr') o).
Proof.
  intros Hl. revert Q. induction Hl as [p|p tr p' ev p'' _ IH Hs]; intros Q Hp; [done|].
  eapply wp_mono; [|eapply wp_prog_step; [exact Hs|by apply IH]].
  intros tr' o. simpl. by rewrite <- app_assoc.
Qed.

(** The first part may do anything. *)
Lemma wp_bind_any {A B} (p : prog E A) (f : A -> prog E B) Q :
  (forall tr a, wp (f a) (fun tr' o' => Q (tr ++ tr') o')) ->
  (forall tr w, Q tr (Panicked w)) ->
  wp (p ≫= f) Q.
Proof. intros Hf Hw. apply wp_bind, wp_runs. by intros tr [a|w] _; simpl. Qed.

(** Every call of every run satisfies [P]. *)
Definition calls_only {A} (P : event E -> Prop) (p : prog E A) : Prop :=
  wp p (fun tr _ => Forall P tr).

Lemma calls_only_ret {A} P (a : A) : calls_only P (mret a).
Proof. constructor. Qed.

Lemma calls_only_panic {A} P w : calls_only (A := A) P (PPanic w).
Proof. constructor. Qed.

Lemma calls_only_trigger {X} P (e : E X) : (forall x, P (Ev e x)) -> calls_only P (trigger e).
Proof. intros HP x. by repeat constructor. Qed.

Lemma calls_only_bind {A B} P (p : prog E A) (f : A -> prog E B) :
  calls_only P p -> (forall a, calls_only P (f a)) -> calls_only P (p ≫= f).
Proof.
  intros Hp Hf. apply wp_bind. eapply wp_mono; [|exact Hp]. intros tr [a|w] Htr; simpl; [|done].
  eapply wp_mono; [|apply Hf]. intros tr' o' Htr'. by apply Forall_app.
Qed.

Lemma calls_only_deferred {A} P cleanup (p : prog E A) :
  calls_only P cleanup -> calls_only P p -> calls_only P (deferred cleanup p).
Proof.
  intros Hc Hp. apply wp_deferred. eapply wp_mono; [|exact Hp]. intros tr o Htr.
  eapply wp_mono; [|exact Hc]. intros tr' o' Htr'. by apply Forall_app.
Qed.

Lemma calls_only_index {A} P (l : list A) i : calls_only P (index l i).
Proof. unfold index. by destruct (l !! i); constructor. Qed.

Lemma calls_only_mono {A} (P P' : event E -> Prop) (p : prog E A) :
  (forall ev, P ev -> P' ev) -> calls_only P p -> calls_only P' p.
Proof. intros HP. apply wp_mono. intros tr o Htr. by eapply Forall_impl. Qed.

Lemma runs_deferred {A} cleanup (p : prog E A) tr o :
  runs (deferred cleanup p) tr o ->
  exists tr1 o1 tr2 o2, runs p tr1 o1 /\ runs cleanup tr2 o2 /\ tr = tr1 ++ tr2 /\
    o = match o2 with Done _ => o1 | Panicked w => Panicked w end.
Proof.
  revert tr o. apply wp_runs, wp_deferred, wp_runs. intros tr o Hp.
  apply wp_runs. intros tr' o' Hc. eauto 10.
Qed.

Lemma runs_calls_only {A} P (p : prog E A) tr o : calls_only P p -> runs p tr o -> Forall P tr.
Proof. intros Hp. apply (proj1 (wp_runs _ _) Hp). Qed.

(** A program without calls *)
Lemma runs_silent {A} (p : prog E A) tr o : calls_only (fun _ => False) p -> runs p tr o -> tr = [].
Proof. intros Hp Hr. pose proof (runs_calls_only _ _ _ _ Hp Hr) as Htr. by destruct Htr. Qed.

(** ** Running against a concrete outside

    A handler answers every call and changes its own state. *)
Definition handler (S : Type) := forall X, E X -> S -> X * S.

Fixpoint exec {S A} (h : handler S) (p : prog E A) (s : S) :
    list (event E) * outcome A * S :=
  match p with
  | PRet a => ([], Done a, s)
  | PPanic w => ([], Panicked w, s)
  | PVis e k =>
      let '(x, s1) := h _ e s in
      let '(tr, o, s2) := exec h (k x) s1 in
      (Ev e x :: tr, o, s2)
  end.

Lemma exec_runs {S A} (h : handler S) (p : prog E A) s tr o s' :
  exec h p s = (tr, o, s') -> runs p tr o.
Proof.
  revert s tr. induction p as [a|w|X e k IH]; intros s tr; simpl.
  - intros [= <- <- _]. constructor.
  - intros [= <- <- _]. constructor.
  - destruct (h X e s) as [x s1]. destruct (exec h (k x) s1) as [[tr1 o1] s2] eqn:He.
    intros [= <- <- <-]. constructor. eapply IH, He.
Qed.

Lemma exec_bind {S A B} (h : handler S) (p : prog E A) (f : A -> prog E B) s :
  exec h (p ≫= f) s =
    match exec h p s with
    | (tr, Done a, s1) =>
        let '(tr', o, s2) := exec h (f a) s1 in (tr ++ tr', o, s2)
    | (tr, Panicked w, s1) => (tr, Panicked w, s1)
    end.
Proof.
  unfold mbind, prog_bind. revert s. induction p as [a|w|X e k IH]; intros s; simpl.
  - by destruct (exec h (f a) s) as [[??]?].
  - done.
  - destruct (h X e s) as [x s1]. rewrite IH.
    destruct (exec h (k x) s1) as [[tr1 [a|w]] s2]; [|done].
    by destruct (exec h (f a) s2) as [[??]?].
Qed.

(** The outcome and state without the trace. *)
Definition result {S A} (h : handler S) (p : prog E A) (s : S) : outcome A * S :=
  let '(_, o, s') := exec h p s in (o, s').
End runs.

(** ** Equivalence of programs

    Two programs are equivalent when they make the same calls and continue
    equivalently on every answer. *)
Section equiv.
Context {E : Type -> Type}.

Inductive prog_eq {A} : prog E A -> prog E A -> Prop :=
  | prog_eq_ret a : prog_eq (PRet a) (PRet a)
  | prog_eq_panic w : prog_eq (PPanic w) (PPanic w)
  | prog_eq_vis {X} (e : E X) k1 k2 :
      (forall x, prog_eq (k1 x) (k2 x)) -> prog_eq (PVis e k1) (PVis e k2).

#[export] Instance prog_equiv {A} : Equiv (prog E A) := prog_eq.

#[export] Instance prog_equivalence {A} : Equivalence (≡@{prog E A}).
Proof.
  split.
  - intros p. induction p; by constructor.
  - intros p q H. induction H; by constructor.
  - intros p q r H. revert r. induction H as [a|w|X e k1 k2 Hk IH]; intros r Hr; [done|done|].
    refine (match Hr in prog_eq q r return
              match q return Prop with
              | PVis e k2 => forall k1, (forall x r, prog_eq (k2 x) r -> prog_eq (k1 x) r) ->
                  prog_eq (PVis e k1) r
              | _ => True
              end with
            | prog_eq_vis e k2 k3 Hk' => _
            | _ => I
            end k1 _); [|intros x r'; apply IH].
    intros k1' IH'. constructor. eauto.
Qed.

#[export] Instance bind_proper {A B} :
  Proper (pointwise_relation A (≡) ==> (≡) ==> (≡)) (mbind (M := prog E) (A := A) (B := B)).
Proof.
  intros f g Hfg p q Hpq. unfold mbind, prog_bind.
  induction Hpq; simpl; [apply Hfg|done|by constructor].
Qed.

Lemma bind_ret_l {A B} (a : A) (f : A -> prog E B) : (PRet a ≫= f) = f a.
Proof. done. Qed.

Lemma bind_ret_r {A} (p : prog E A) : p ≫= PRet ≡ p.
Proof. unfold mbind, prog_bind. induction p; simpl; by constructor. Qed.

Lemma bind_assoc {A B C} (p : prog E A) (f : A -> prog E B) (g : B -> prog E C) :
  (p ≫= f) ≫= g ≡ p ≫= (fun a => f a ≫= g).
Proof. unfold mbind, prog_bind. induction p; simpl; [done|done|by constructor]. Qed.

#[export] Instance wp_proper {A} :
  Proper ((≡) ==> pointwise_relation _ (pointwise_relation _ iff) ==> iff) (wp (E := E) (A := A)).
Proof.
  intros p q Hpq. induction Hpq as [a|w|X e k1 k2 _ IH]; intros Q Q' HQ; simpl.
  - apply HQ.
  - apply HQ.
  - apply forall_proper. intros x. apply IH. intros tr o. apply HQ.
Qed.

#[export] Instance exec_proper {S A} (h : handler S) :
  Proper ((≡) ==> (=) ==> (=)) (exec (A := A) h).
Proof.
  intros p q Hpq s ? <-. revert s. induction Hpq as [a|w|X e k1 k2 _ IH]; intros s; simpl; [done|done|].
  destruct (h X e s) as [x s1]. by rewrite IH.
Qed.
End equiv.

Create HintDb prog.
Create Rewrite HintDb prog_rw.
#[export] Hint Resolve runs_ret runs_panic runs_vis : prog.
#[export] Hint Rewrite @bind_ret_l : prog_rw.

(** Take the runs among the hypotheses apart. *)
Ltac runs_step :=
  match goal with
  | H : runs (mret _) _ _ |- _ => apply runs_mret in H as [-> ?]; simplify_eq
  | H : runs (PRet _) _ _ |- _ => apply runs_mret in H as [-> ?]; simplify_eq
  | H : runs (PPanic _) _ _ |- _ => apply runs_ppanic in H as [-> ?]; simplify_eq
  | H : runs (trigger _) _ _ |- _ => apply runs_trigger in H as (? & -> & ?); simplify_eq
  | H : runs (_ ≫= _) _ _ |- _ =>
      let H1 := fresh H in let H2 := fresh H in let Heq := fresh in
      apply runs_bind in H as [(? & H1 & Heq)|(? & ? & ? & H1 & H2 & ->)]; [try discriminate Heq|]
  | H : runs (deferred _ _) _ _ |- _ =>
      let H1 := fresh H in let H2 := fresh H in
      apply runs_deferred in H as (? & ? & ? & ? & H1 & H2 & -> & ?); simplify_eq
  | H : runs match ?x with _ => _ end _ _ |- _ => first [is_var x; destruct x | destruct x eqn:?]
  end.

(** Prove [calls_only]: descend into the program, split on what it branches
    on, and leave the conditions on single calls. *)
Create HintDb calls.
#[export] Hint Resolve calls_only_ret calls_only_panic calls_only_index : calls.
Ltac calls_step :=
  lazymatch goal with
  | |- calls_only _ (_ ≫= _) => apply calls_only_bind; [|intros ?]
  | |- calls_only _ (deferred _ _) => apply calls_only_deferred
  | |- calls_only _ (trigger _) => apply calls_only_trigger; intros ?; try done
  | |- calls_only _ match ?x with _ => _ end =>
      first [is_var x; destruct x | destruct x eqn:?]
  | |- calls_only _ (let _ := _ in _) => cbv zeta
  end.
Ltac calls_tac := repeat first [progress eauto with calls nocore | calls_step].

(** Step through a [wp] goal: introduce the answer of the next call, split on
    the scrutinee the program branches on. *)
Ltac wp_case :=
  match goal with
  | |- context [match ?x with _ => _ end] =>
      lazymatch x with
      | context [match _ with _ => _ end] => fail
      | _ => first [is_var x; destruct x | destruct x eqn:?]
      end
  end.

Ltac wp_step := first [rewrite wp_bind; simpl | progress simpl | intros ? | wp_case].
