(* ===== verification/GitSys.v ===== *)
(** * What the git parts of the program ask of the outside

    The calls of server/strategy/pullrequest and internal/git to the file
    system, to the git client of fluxcd (gogit), to the kyaml pipeline that
    rewrites manifests, and to the hosting services through fluxcd's
    go-git-providers and jenkins-x's go-scm.  The answers are unconstrained.
    Git working copies, clients and repositories are opaque handles. *)

From S2P Require Export Prog.

(** Opaque handles the libraries give out *)
Record handle := Handle { handle_id : N }.

#[export] Instance handle_eq_dec : EqDecision handle.
Proof. solve_decision. Defined.

(** [url.URL]: the parts the program reads, and [String()] *)
Record URL := MkURL {
  url_Host : string;
  url_Path : string;
  url_String : string }.

(** ** kyaml *)

(** [yaml.RNode]: a document; scalars carry their line comment *)
Inductive RNode :=
  | RScalar (v comment : string)
  | RSeqNode (l : list RNode)
  | RMapNode (m : list (string * RNode)).

(** [setters2.Set]: the name of the setter, and the definitions of its schema,
    each with the setter name and value of its extension *)
Record SettersSet := MkSettersSet {
  set_Name : string;
  set_Definitions : list (string * (string * string)) }.

(** ** go-git-providers (package [gitprovider]) *)
Record OrgRepositoryRef := MkOrgRepositoryRef {
  or_Domain : string;
  or_Organization : string;
  or_SubOrganizations : list string;
  or_RepositoryName : string;
  or_Key : string }.

(** [gitprovider.UserRepositoryRef]: the fields the program reads *)
Record UserRepositoryRef := MkUserRepositoryRef {
  ur_Domain : string;
  ur_RepositoryName : string }.

(** [gitprovider.PullRequestInfo] *)
Record PullRequestInfo := MkPullRequestInfo {
  pri_Title : string;
  pri_Description : string;
  pri_WebURL : string;
  pri_Merged : bool;
  pri_SourceBranch : string;
  pri_Number : Z }.

(** [gitprovider.TreeEntry] *)
Record GGPTreeEntry := MkGGPTreeEntry {
  gte_Path : string;
  gte_Type : string;
  gte_Size : Z;
  gte_SHA : string;
  gte_URL : string }.

(** [gitprovider.ClientOption] *)
Inductive ClientOption :=
  | COAuth2Token (token : string)
  | CODomain (domain : string)
  | COConditionalRequests (b : bool).

(** ** go-scm (package [scm]) *)

(** [scm.PullRequest]: the fields the program reads *)
Record ScmPullRequest := MkScmPullRequest {
  spr_Title : string;
  spr_Body : string;
  spr_Link : string;
  spr_Merged : bool;
  spr_Source : string;
  spr_Number : Z }.

(** [scm.PullRequestInput] *)
Record ScmPullRequestInput := MkScmPullRequestInput {
  spi_Title : string;
  spi_Head : string;
  spi_Base : string;
  spi_Body : string }.

(** [scm.Repository]: the fields the program reads *)
Record ScmRepository := MkScmRepository {
  srp_Namespace : string;
  srp_Name : string;
  srp_FullName : string }.

(** [scm.FileEntry] *)
Record ScmFileEntry := MkScmFileEntry {
  sfe_Name : string;
  sfe_Path : string;
  sfe_Type : string;
  sfe_Size : Z;
  sfe_Sha : string;
  sfe_Link : string }.

(** [scm.ContentParams] *)
Record ScmContentParams := MkScmContentParams {
  scp_Ref : string;
  scp_Branch : string;
  scp_Message : string;
  scp_Data : string;
  scp_Sha : string }.

(** The JSON body of a push to Azure DevOps (jenkins_scm.go: [refUpdate],
    [change], [commitRef], [contentCreateUpdate]) *)
Record refUpdate := MkRefUpdate {
  ru_Name : string;
  ru_OldObjectID : string }.

Record change := MkChange {
  ch_ChangeType : string;
  ch_ItemPath : string;
  ch_Content : string;
  ch_ContentType : string }.

Record commitRef := MkCommitRef {
  cm_Comment : string;
  cm_Changes : list change;
  cm_CommitID : string;
  cm_URL : string }.

Record contentCreateUpdate := MkContentCreateUpdate {
  ccu_RefUpdates : list refUpdate;
  ccu_Commits : list commitRef }.

(** [scm.Request]: the body is the value that is encoded into it *)
Record ScmRequest := MkScmRequest {
  srq_Method : string;
  srq_Path : string;
  srq_Header : list (string * list string);
  srq_Body : contentCreateUpdate }.

(** [scm.Response]: the status, and the [azure.Error] its body decodes to *)
Record ScmResponse := MkScmResponse {
  srs_Status : Z;
  srs_AzureError : string }.

(** ** The calls *)
Inductive git_call : Type -> Type :=
  (* package os *)
  | MkdirTemp (dir pattern : string) : git_call (res string)
  | RemoveAll (dir : string) : git_call (res unit)
  (* fluxcd/pkg/git and its gogit client *)
  | NewAuthOptions (u : URL) (credentials : gmap string string) : git_call (res handle)
  | GogitNewClient (dir : string) (authOpts : handle) : git_call (res handle)
  | Clone (c : handle) (url branch : string) : git_call (res string)
  | Close (c : handle) : git_call unit
  | SwitchBranch (c : handle) (branch : string) : git_call (res unit)
  | IsClean (c : handle) : git_call (res bool)
  | GogitCommit (c : handle) (message author : string) (when_ : Z) : git_call (res string)
  | Push (c : handle) : git_call (res unit)
  (* kyaml: the reference used by all setters, and the execution of a pipeline
     that reads the files of [inPath] with the token, applies the filter and
     writes to [outPath] *)
  | SetShortHandRef (ref : string) : git_call unit
  | KioExecute (inPath token outPath : string) (filter : list RNode -> res (list RNode)) :
      git_call (res unit)
  (* go-git-providers: clients *)
  | GithubNewClient (opts : list ClientOption) : git_call (res handle)
  | GitlabNewClient (token tokenType : string) (opts : list ClientOption) : git_call (res handle)
  | NewStashClient (username token : string) (opts : list ClientOption) : git_call (res handle)
  | ClientSupportedDomain (client : handle) : git_call string
  (* go-git-providers: repositories *)
  | OrgRepositoriesGet (client : handle) (ref : OrgRepositoryRef) : git_call (res handle)
  | RepoIdentity (repo : handle) : git_call (string * string)
  | CommitsListPage (repo : handle) (branch : string) : git_call (res (list string))
  | CommitsCreate (repo : handle) (branch message : string)
      (files : list (string * option string)) : git_call (res string)
  | BranchesCreate (repo : handle) (branch sha : string) : git_call (res unit)
  | TreesList (repo : handle) (sha path : string) (recursive : bool) :
      git_call (res (list GGPTreeEntry))
  | PullRequestsCreate (repo : handle) (title branch baseBranch description : string) :
      git_call (res PullRequestInfo)
  | PullRequestsList (repo : handle) : git_call (res (list PullRequestInfo))
  | PullRequestsEdit (repo : handle) (number : Z) (title : string) :
      git_call (res PullRequestInfo)
  (* go-scm *)
  | ScmNewClient (driver serverURL token : string) : git_call (res handle)
  | ScmRepositoriesFind (client : handle) (fullName : string) : git_call (res ScmRepository)
  | ScmListCommits (client : handle) (fullName ref path : string) : git_call (res (list string))
  | ScmCreateRef (client : handle) (fullName ref sha : string) : git_call (res unit)
  | ScmContentsList (client : handle) (repo path ref : string) : git_call (res (list ScmFileEntry))
  | ScmContentsCreate (client : handle) (repo path : string) (params : ScmContentParams) :
      git_call (res unit)
  | ScmContentsUpdate (client : handle) (repo path : string) (params : ScmContentParams) :
      git_call (res unit)
  | ScmDo (client : handle) (request : ScmRequest) : git_call (res ScmResponse)
  | ScmPullRequestsCreate (client : handle) (repo : string) (input : ScmPullRequestInput) :
      git_call (res ScmPullRequest)
  | ScmPullRequestsList (client : handle) (repo : string) : git_call (res (list ScmPullRequest))
  | ScmPullRequestsUpdate (client : handle) (repo : string) (number : Z)
      (input : ScmPullRequestInput) : git_call (res ScmPullRequest).

(** A host that refuses everything *)
Definition git_offline {X} (g : git_call X) : X :=
  let unreachable := ErrLeaf EPlain "unreachable" in
  match g in git_call X return X with
  | MkdirTemp _ _ => Err unreachable
  | RemoveAll _ => Err unreachable
  | NewAuthOptions _ _ => Err unreachable
  | GogitNewClient _ _ => Err unreachable
  | Clone _ _ _ => Err unreachable
  | Close _ => tt
  | SwitchBranch _ _ => Err unreachable
  | IsClean _ => Err unreachable
  | GogitCommit _ _ _ _ => Err unreachable
  | Push _ => Err unreachable
  | SetShortHandRef _ => tt
  | KioExecute _ _ _ _ => Err unreachable
  | GithubNewClient _ => Err unreachable
  | GitlabNewClient _ _ _ => Err unreachable
  | NewStashClient _ _ _ => Err unreachable
  | ClientSupportedDomain _ => ""
  | OrgRepositoriesGet _ _ => Err unreachable
  | RepoIdentity _ => ("", "")
  | CommitsListPage _ _ => Err unreachable
  | CommitsCreate _ _ _ _ => Err unreachable
  | BranchesCreate _ _ _ => Err unreachable
  | TreesList _ _ _ _ => Err unreachable
  | PullRequestsCreate _ _ _ _ _ => Err unreachable
  | PullRequestsList _ => Err unreachable
  | PullRequestsEdit _ _ _ => Err unreachable
  | ScmNewClient _ _ _ => Err unreachable
  | ScmRepositoriesFind _ _ => Err unreachable
  | ScmListCommits _ _ _ _ => Err unreachable
  | ScmCreateRef _ _ _ _ => Err unreachable
  | ScmContentsList _ _ _ _ => Err unreachable
  | ScmContentsCreate _ _ _ _ => Err unreachable
  | ScmContentsUpdate _ _ _ _ => Err unreachable
  | ScmDo _ _ => Err unreachable
  | ScmPullRequestsCreate _ _ _ => Err unreachable
  | ScmPullRequestsList _ _ => Err unreachable
  | ScmPullRequestsUpdate _ _ _ _ => Err unreachable
  end.
