(* ===== verification/GoStrings.v ===== *)
(** * The string functions the program takes from Go's standard library

    Strings are byte strings; [strings.Split] is modelled for the one-byte
    separators the program uses.  Formatting with [%q] and HTML escaping are
    written out for ASCII, which is what they change; other bytes are copied. *)

From S2P Require Export Prelude.
From Stdlib Require Import Ascii.
From stdpp Require Import strings.

Abbreviation ascii := Ascii.ascii.

(** ** Bytes of a string *)
Fixpoint bytes_of (s : string) : list ascii :=
  match s with
  | "" => []
  | String c s => c :: bytes_of s
  end.

Fixpoint of_bytes (l : list ascii) : string :=
  match l with
  | [] => ""
  | c :: l => String c (of_bytes l)
  end.

(** [strings.Contains(s, string(c))] *)
Fixpoint Contains (c : ascii) (s : string) : bool :=
  match s with
  | "" => false
  | String d s => if decide (c = d) then true else Contains c s
  end.

(** [strings.HasPrefix] and [strings.TrimPrefix] *)
Fixpoint HasPrefix (s prefix : string) {struct prefix} : bool :=
  match prefix, s with
  | "", _ => true
  | String c p, String d s => if decide (c = d) then HasPrefix s p else false
  | String _ _, "" => false
  end.

Fixpoint drop_bytes (n : nat) (s : string) : string :=
  match n, s with
  | S n, String _ s => drop_bytes n s
  | _, _ => s
  end.

Definition TrimPrefix (s prefix : string) : string :=
  if HasPrefix s prefix then drop_bytes (String.length prefix) s else s.

(** [strings.Split(s, string(c))] *)
Fixpoint Split (c : ascii) (s : string) : list string :=
  match s with
  | "" => [""]
  | String d s =>
      if decide (c = d) then "" :: Split c s
      else match Split c s with
           | [] => [String d ""]
           | w :: ws => String d w :: ws
           end
  end.

(** [strings.Join(l, string(c))] *)
Fixpoint Join (c : ascii) (l : list string) : string :=
  match l with
  | [] => ""
  | [w] => w
  | w :: ws => w +:+ String c (Join c ws)
  end.

Definition slash : ascii := "/"%char.
Definition colon : ascii := ":"%char.
Definition eq_sign : ascii := "="%char.

(** [fmt.Sprintf("%x", b)]: two lower-case hexadecimal digits a byte *)
Definition hex_digit (n : N) : ascii :=
  ascii_of_N (if (n <? 10)%N then 48 + n else 87 + n)%N.

Definition hex_byte (b : N) : string :=
  String (hex_digit (b / 16)) (String (hex_digit (b mod 16)) "").

Fixpoint hex_string (l : list N) : string :=
  match l with
  | [] => ""
  | b :: l => hex_byte b +:+ hex_string l
  end.

(** [template.HTMLEscape] *)
Definition html_escape_byte (c : ascii) : string :=
  match N_of_ascii c with
  | 0 => of_bytes [ascii_of_N 239; ascii_of_N 191; ascii_of_N 189]
  | 34 => "&#34;"
  | 39 => "&#39;"
  | 38 => "&amp;"
  | 60 => "&lt;"
  | 62 => "&gt;"
  | _ => String c ""
  end%N.

Fixpoint HTMLEscape (s : string) : string :=
  match s with
  | "" => ""
  | String c s => html_escape_byte c +:+ HTMLEscape s
  end.

(** [fmt.Sprintf("%q", s)] *)
Definition quote_byte (c : ascii) : string :=
  match N_of_ascii c with
  | 7 => "\a" | 8 => "\b" | 12 => "\f" | 10 => "\n" | 13 => "\r" | 9 => "\t" | 11 => "\v"
  | 34 => of_bytes [ascii_of_N 92; ascii_of_N 34]
  | 92 => "\\"
  | n => if (n <? 32)%N || (n =? 127)%N then "\x" +:+ hex_byte n else String c ""
  end%N.

Fixpoint quote_bytes (s : string) : string :=
  match s with
  | "" => ""
  | String c s => quote_byte c +:+ quote_bytes s
  end.

Definition quote (s : string) : string :=
  let dq := String (ascii_of_N 34) "" in dq +:+ quote_bytes s +:+ dq.

(** [str[0:limit]] for a limit that is not negative and in range *)
Definition slice_to (limit : Z) (s : string) : string := String.substring 0 (Z.to_nat limit) s.

Definition len (s : string) : Z := Z.of_nat (String.length s).

(** ** Lemmas *)
Lemma app_cons_str c (s1 s2 : string) : String c s1 +:+ s2 = String c (s1 +:+ s2).
Proof. done. Qed.

Lemma app_nil_str (s : string) : "" +:+ s = s.
Proof. done. Qed.

Lemma app_empty_r s : s +:+ "" = s.
Proof. induction s as [|c s IH]; [done|]. by rewrite app_cons_str, IH. Qed.

Lemma app_assoc_str (s1 s2 s3 : string) : (s1 +:+ s2) +:+ s3 = s1 +:+ (s2 +:+ s3).
Proof. induction s1 as [|c s1 IH]; [done|]. by rewrite !app_cons_str, IH. Qed.

Lemma length_app_str (s1 s2 : string) :
  String.length (s1 +:+ s2) = (String.length s1 + String.length s2)%nat.
Proof. induction s1 as [|c s1 IH]; [done|]. rewrite app_cons_str. simpl. by rewrite IH. Qed.

Lemma Split_not_nil c s : Split c s <> [].
Proof. destruct s as [|d s]; simpl; [done|]. case_decide; [done|]. by destruct (Split c s). Qed.

(** Splitting after a piece without the separator *)
Lemma Split_app c w s : Contains c w = false -> Split c (w +:+ String c s) = w :: Split c s.
Proof.
  induction w as [|d w IH].
  - intros _. rewrite app_nil_str. simpl. by rewrite decide_True.
  - rewrite app_cons_str. simpl. destruct (decide (c = d)); [done|]. intros Hw. by rewrite IH.
Qed.

Lemma Split_single c w : Contains c w = false -> Split c w = [w].
Proof.
  induction w as [|d w IH]; simpl; [done|].
  destruct (decide (c = d)); [done|]. intros Hw. by rewrite IH.
Qed.

Lemma Split_pieces c s : Forall (fun w => Contains c w = false) (Split c s).
Proof.
  induction s as [|d s IH]; simpl; [by repeat constructor|].
  case_decide; [by constructor|].
  destruct (Split c s) as [|w ws]; inversion IH; subst;
    constructor; simpl; rewrite ?decide_False; done.
Qed.

Lemma Join_cons c w ws : ws <> [] -> Join c (w :: ws) = w +:+ String c (Join c ws).
Proof. by destruct ws. Qed.

Lemma Join_Split c s : Join c (Split c s) = s.
Proof.
  induction s as [|d s IH]; [done|]. simpl. case_decide; subst.
  - rewrite Join_cons; [|apply Split_not_nil]. by rewrite IH.
  - destruct (Split c s) as [|w [|w' ws]] eqn:Hs; [by apply Split_not_nil in Hs|..].
    + simpl in *. by rewrite IH.
    + rewrite Join_cons in * by done. by rewrite app_cons_str, IH.
Qed.

Lemma Contains_app c s1 s2 : Contains c (s1 +:+ s2) = Contains c s1 || Contains c s2.
Proof. induction s1 as [|d s1 IH]; [done|]. rewrite app_cons_str. simpl. rewrite IH. by case_decide. Qed.

Lemma HasPrefix_app p s : HasPrefix (p +:+ s) p = true.
Proof.
  induction p as [|c p IH]; [done|]. rewrite app_cons_str. simpl. by rewrite decide_True.
Qed.

Lemma HasPrefix_spec s p : HasPrefix s p = true <-> exists t, s = p +:+ t.
Proof.
  split; [|intros [t ->]; apply HasPrefix_app].
  revert s. induction p as [|c p IH]; intros s; simpl; [intros _; exists s; reflexivity|].
  destruct s as [|d s]; [done|]. destruct (decide (c = d)) as [->|]; [|done].
  intros [t ->]%IH. exists t. reflexivity.
Qed.

Lemma drop_bytes_app p s : drop_bytes (String.length p) (p +:+ s) = s.
Proof. induction p as [|c p IH]; [by destruct s|apply IH]. Qed.

Lemma TrimPrefix_app p s : TrimPrefix (p +:+ s) p = s.
Proof. unfold TrimPrefix. by rewrite HasPrefix_app, drop_bytes_app. Qed.

#[export] Hint Rewrite app_empty_r app_assoc_str app_cons_str : pipeline_rw.
#[export] Hint Resolve Split_not_nil Split_pieces HasPrefix_app : pipeline.

Lemma Split_Join c l :
  l <> [] -> Forall (fun w => Contains c w = false) l -> Split c (Join c l) = l.
Proof.
  intros Hne Hl. induction Hl as [|w l Hw Hl IH]; [done|].
  destruct l as [|w' l]; [by apply Split_single|].
  rewrite Join_cons by done. rewrite Split_app by done. by rewrite IH.
Qed.

(** Two prefixes of one string: one is a prefix of the other. *)
Lemma HasPrefix_comparable s p q :
  HasPrefix s p = true -> HasPrefix s q = true -> HasPrefix p q = true \/ HasPrefix q p = true.
Proof.
  revert s q. induction p as [|c p IH]; intros [|d s] [|e q]; simpl; try tauto; try done.
  repeat case_decide; subst; try done. intros. by eapply IH.
Qed.

(** What comes before the first separator is determined. *)
Lemma sep_inj c a a' s s' :
  Contains c a = false -> Contains c a' = false ->
  a +:+ String c s = a' +:+ String c s' -> a = a' /\ s = s'.
Proof.
  revert a'. induction a as [|d a IH]; intros [|d' a']; simpl; rewrite ?app_nil_str, ?app_cons_str.
  - by intros _ _ [= ->].
  - intros _ Ha [= <- _]. by rewrite decide_True in Ha.
  - intros Ha _ [= -> _]. by rewrite decide_True in Ha.
  - destruct (decide (c = d)); [done|]. destruct (decide (c = d')); [done|].
    intros Ha Ha' [= -> Heq]. by destruct (IH a' Ha Ha' Heq) as [-> ->].
Qed.
