(* ===== verification/GoInt.v ===== *)
(** * Machine integers and floating-point numbers of Go

    [int] and [int64] are [Z] with the wrap-around written out; [float64] is
    the binary64 format of [SpecFloat], on which [math.Pow] with a positive
    integral exponent is the algorithm of Go's [math] package. *)

From S2P Require Export Prelude.
From Stdlib Require Export Floats.SpecFloat.

(** ** 64-bit integers *)
#[local] Open Scope Z_scope.

Definition two63 : Z := 2 ^ 63.

Definition wrap64 (x : Z) : Z := (x + two63) mod (2 * two63) - two63.

Definition int64 (x : Z) : Prop := - two63 <= x < two63.

Definition time_Second : Z := 1000000000.
Definition time_Millisecond : Z := 1000000.

(** ** Binary64 *)
Definition prec : Z := 53.
Definition emax : Z := 1024.

Definition float64 (z : Z) : spec_float := binary_normalize prec emax z 0 false.
Definition fmul (x y : spec_float) : spec_float := SFmul prec emax x y.
Definition fadd (x y : spec_float) : spec_float := SFadd prec emax x y.

(** [x < y]; false when either is NaN *)
Definition fltb (x y : spec_float) : bool := SFltb x y.

Definition float_half : spec_float := S754_finite false 4503599627370496 (-53).

(** [math.Frexp], [math.Ldexp] *)
Definition Frexp (x : spec_float) : spec_float * Z := SFfrexp prec emax x.
Definition Ldexp (x : spec_float) (e : Z) : spec_float := SFldexp prec emax x e.

(** The loop of [math.Pow] over the bits of the exponent *)
Fixpoint pow_loop (i : positive) (x1 : spec_float) (xe : Z) (a1 : spec_float) (ae : Z) :
    spec_float * Z :=
  if bool_decide (xe < - 2 ^ 12)%Z || bool_decide (2 ^ 12 < xe)%Z then (a1, ae + xe)%Z
  else
    let next i a1 ae :=
      let x2 := fmul x1 x1 in
      if fltb x2 float_half then pow_loop i (fadd x2 x2) (2 * xe - 1) a1 ae
      else pow_loop i x2 (2 * xe) a1 ae in
    match i with
    | xH => (fmul a1 x1, ae + xe)%Z
    | xO i => next i a1 ae
    | xI i => next i (fmul a1 x1) (ae + xe)%Z
    end.

(** [math.Pow(x, y)] for [y] the float of a positive integer *)
Definition Pow (x : spec_float) (y : positive) : spec_float :=
  let odd := match y with xO _ => false | _ => true end in
  if SFeqb x (float64 1) then float64 1
  else if bool_decide (y = 1%positive) then x
  else match x with
       | S754_nan => S754_nan
       | S754_zero _ => if odd then x else S754_zero false
       | S754_infinity s => S754_infinity (s && odd)
       | S754_finite _ _ _ =>
           let '(x1, xe) := Frexp x in
           let '(a1, ae) := pow_loop y x1 xe (float64 1) 0 in
           Ldexp a1 ae
       end.

(** [int64(x)]: truncation towards zero; out of range the language leaves the
    result to the implementation, and this is what amd64 gives. *)
Definition trunc (x : spec_float) : option Z :=
  match x with
  | S754_zero _ => Some 0%Z
  | S754_finite s m e =>
      let a := if (0 <=? e)%Z then (Z.pos m * 2 ^ e)%Z else (Z.pos m / 2 ^ (- e))%Z in
      Some (if s then - a else a)%Z
  | _ => None
  end.

Definition int64_of_float (x : spec_float) : Z :=
  match trunc x with
  | Some z => if bool_decide (- two63 <= z < two63)%Z then z else (- two63)%Z
  | None => (- two63)%Z
  end.

Example pow_2_10 : Pow (float64 2) 10 = float64 1024.
Proof. vm_compute. reflexivity. Qed.

Example pow_3_7 : Pow (float64 3) 7 = float64 2187.
Proof. vm_compute. reflexivity. Qed.

Example pow_overflow : Pow (float64 10) 400 = S754_infinity false.
Proof. vm_compute. reflexivity. Qed.

Example pow_negative : Pow (float64 (-2)) 3 = float64 (-8).
Proof. vm_compute. reflexivity. Qed.

Lemma wrap64_id x : int64 x -> wrap64 x = x.
Proof.
  unfold int64, wrap64, two63. intros Hx. rewrite Z.mod_small; lia.
Qed.
