(* ===== verification/Sha2.v ===== *)
(** * SHA-2 and HMAC

    The hash functions [crypto/sha256] and [crypto/sha512] and the construction
    [crypto/hmac] as FIPS 180-4 and RFC 2104 define them, executable, on lists
    of bytes.  The signature check of the promotion server uses them through
    [hmac.New] and [mac.Sum(nil)]. *)

From S2P Require Export GoStrings.
From Stdlib Require Import NArith.

(** ** Words of [w] bits *)
Section word.
Context (w : N).

Definition wrap (x : N) : N := N.land x (N.ones w).
Definition wadd (x y : N) : N := wrap (x + y).
Definition wnot (x : N) : N := N.lxor x (N.ones w).
Definition rotr (n x : N) : N := N.lor (N.shiftr x n) (wrap (N.shiftl x (w - n))).
End word.

(** What tells the two word sizes of SHA-2 apart *)
Record sha2_params := MkSha2 {
  sha_w : N;
  sha_len_bytes : nat;
  sha_block : nat;
  sha_K : list N;
  sha_Sigma0 : N * N * N;
  sha_Sigma1 : N * N * N;
  sha_sigma0 : N * N * N;
  sha_sigma1 : N * N * N }.

Section sha2.
Context (p : sha2_params).
Let w := sha_w p.

Definition big_sigma (r : N * N * N) (x : N) : N :=
  let '(a, b, c) := r in N.lxor (N.lxor (rotr w a x) (rotr w b x)) (rotr w c x).
Definition small_sigma (r : N * N * N) (x : N) : N :=
  let '(a, b, c) := r in N.lxor (N.lxor (rotr w a x) (rotr w b x)) (N.shiftr x c).
Definition Ch x y z := N.lxor (N.land x y) (N.land (wnot w x) z).
Definition Maj x y z := N.lxor (N.lxor (N.land x y) (N.land x z)) (N.land y z).

(** [n] bytes of a number, most significant first *)
Fixpoint be_bytes (n : nat) (x : N) : list N :=
  match n with
  | O => []
  | S n => be_bytes n (x / 256)%N ++ [(x mod 256)%N]
  end.

Definition be_word (l : list N) : N := foldl (fun acc b => acc * 256 + b)%N 0%N l.

Fixpoint chunks (k : nat) (fuel : nat) (l : list N) : list (list N) :=
  match fuel, l with
  | S fuel, _ :: _ => firstn k l :: chunks k fuel (skipn k l)
  | _, _ => []
  end.

(** Padding: a one bit, zeros up to the length field, the length in bits *)
Definition pad (msg : list N) : list N :=
  let n := length msg in
  let used := (n + 1 + sha_len_bytes p)%nat in
  let zeros := ((sha_block p - used mod sha_block p) mod sha_block p)%nat in
  msg ++ [128%N] ++ replicate zeros 0%N ++ be_bytes (sha_len_bytes p) (8 * N.of_nat n).

(** The message schedule, newest word first; [k] words are still to come. *)
Fixpoint schedule (k : nat) (ws : list N) : list N :=
  match k with
  | O => ws
  | S k =>
      let at_ i := nth i ws 0%N in
      let x := wadd w (wadd w (small_sigma (sha_sigma1 p) (at_ 1%nat)) (at_ 6%nat))
                      (wadd w (small_sigma (sha_sigma0 p) (at_ 14%nat)) (at_ 15%nat)) in
      schedule k (x :: ws)
  end.

Definition round (st : list N) (kw : N * N) : list N :=
  match st with
  | [a; b; c; d; e; f; g; h] =>
      let T1 := wadd w (wadd w (wadd w h (big_sigma (sha_Sigma1 p) e)) (Ch e f g))
                       (wadd w (fst kw) (snd kw)) in
      let T2 := wadd w (big_sigma (sha_Sigma0 p) a) (Maj a b c) in
      [wadd w T1 T2; a; b; c; wadd w d T1; e; f; g]
  | _ => st
  end.

Definition compress (st : list N) (block : list N) : list N :=
  let words := be_word <$> chunks (N.to_nat (w / 8)) 16 block in
  let ws := rev (schedule (length (sha_K p) - 16) (rev words)) in
  zip_with (wadd w) st (foldl round st (combine (sha_K p) ws)).

Definition sha2 (iv : list N) (out : nat) (msg : list N) : list N :=
  let padded := pad msg in
  let st := foldl compress iv (chunks (sha_block p) (length padded) padded) in
  firstn out (concat (be_bytes (N.to_nat (w / 8)) <$> st)).
End sha2.

(** ** The constants

    FIPS 180-4 takes them from the fractional parts of the cube and square roots
    of the first primes; they are computed here the same way. *)

(** The first [k] primes from [n] on, by trial division, within [fuel] *)
Fixpoint primes_from (fuel k : nat) (n : N) (found : list N) : list N :=
  match fuel, k with
  | S fuel, S k' =>
      if forallb (fun q => negb (n mod q =? 0)%N) found
      then primes_from fuel k' (n + 1) (found ++ [n])
      else primes_from fuel k (n + 1) found
  | _, _ => found
  end.

(** The largest [r] below [2 ^ bits] with [r ^ 3 <= x] *)
Fixpoint cbrt (bits : nat) (acc x : N) : N :=
  match bits with
  | O => acc
  | S bits =>
      let r := (acc + 2 ^ N.of_nat bits)%N in
      cbrt bits (if (r * r * r <=? x)%N then r else acc) x
  end.

(** The first [w] bits of the fractional part of a root *)
Definition frac_cbrt (w n : N) : N := (cbrt (N.to_nat w + 4) 0 (n * 2 ^ (3 * w)) mod 2 ^ w)%N.
Definition frac_sqrt (w n : N) : N := (N.sqrt (n * 2 ^ (2 * w)) mod 2 ^ w)%N.

Definition primes80 : list N := Eval vm_compute in primes_from 500 80 2 [].
Definition K256 : list N := Eval vm_compute in frac_cbrt 32 <$> take 64 primes80.
Definition K512 : list N := Eval vm_compute in frac_cbrt 64 <$> primes80.

Definition params256 := MkSha2 32 8 64 K256 (2, 13, 22)%N (6, 11, 25)%N (7, 18, 3)%N (17, 19, 10)%N.
Definition params512 := MkSha2 64 16 128 K512 (28, 34, 39)%N (14, 18, 41)%N (1, 8, 7)%N (19, 61, 6)%N.

Definition IV256 : list N := Eval vm_compute in frac_sqrt 32 <$> take 8 primes80.
Definition IV512 : list N := Eval vm_compute in frac_sqrt 64 <$> take 8 primes80.
Definition IV384 : list N := Eval vm_compute in frac_sqrt 64 <$> take 8 (drop 8 primes80).
Definition IV224 : list N := Eval vm_compute in (fun x => x mod 2 ^ 32)%N <$> IV384.

(** [hash.Hash]: the block size and the sum of a message *)
Record hash := MkHash { hash_block : nat; hash_sum : list N -> list N }.

Definition SHA224 := MkHash 64 (sha2 params256 IV224 28).
Definition SHA256 := MkHash 64 (sha2 params256 IV256 32).
Definition SHA384 := MkHash 128 (sha2 params512 IV384 48).
Definition SHA512 := MkHash 128 (sha2 params512 IV512 64).

(** [hmac.New(h, key)] fed with the payload *)
Definition HMAC (h : hash) (key payload : list N) : list N :=
  let key := if decide (hash_block h < length key)%nat then hash_sum h key else key in
  let key := key ++ replicate (hash_block h - length key) 0%N in
  hash_sum h ((N.lxor 92 <$> key) ++ hash_sum h ((N.lxor 54 <$> key) ++ payload)).

(** [[]byte(s)] *)
Definition byte_values (s : string) : list N := Ascii.N_of_ascii <$> bytes_of s.

(** ** Known answers *)
Example sha256_abc : hex_string (hash_sum SHA256 (byte_values "abc")) =
  "ba7816bf8f01cfea414140de5dae2223b00361a396177a9cb410ff61f20015ad".
Proof. vm_compute. reflexivity. Qed.

Example sha512_empty : hex_string (hash_sum SHA512 []) =
  "cf83e1357eefb8bdf1542850d66d8007d620e4050b5715dc83f4a921d36ce9ce47d0d13c5d85f2b0ff8318d2877eec2f63b931bd47417a81a538327af927da3e".
Proof. vm_compute. reflexivity. Qed.

Example hmac_sha224 : hex_string (HMAC SHA224 (byte_values "Jefe") (byte_values "what do ya want for nothing?")) =
  "a30e01098bc6dbbf45690f3a7e9e6d0f8bbea2a39e6148008fd05e44".
Proof. vm_compute. reflexivity. Qed.

Example hmac_sha256 : hex_string (HMAC SHA256 (byte_values "Jefe") (byte_values "what do ya want for nothing?")) =
  "5bdcc146bf60754e6a042426089575c75a003f089d2739839dec58b964ec3843".
Proof. vm_compute. reflexivity. Qed.

Example hmac_sha384 : hex_string (HMAC SHA384 (byte_values "Jefe") (byte_values "what do ya want for nothing?")) =
  "af45d2e376484031617f78d2b58a6b1b9c7ef464f5a01b47e42ec3736322445e8e2240ca5e69e2c78b3239ecfab21649".
Proof. vm_compute. reflexivity. Qed.

Example hmac_sha512 : hex_string (HMAC SHA512 (byte_values "Jefe") (byte_values "what do ya want for nothing?")) =
  "164b7a7bfcf819e2e395fbe73b56e0a387bd64222e831fd610270cd7ea2505549758bf75c05a994a6d034f65f8f0e6fdcaeab1a34d4a6b4b636e070a38bce737".
Proof. vm_compute. reflexivity. Qed.

Example hmac_long_key : hex_string (HMAC SHA256 (replicate 131 107%N) (byte_values "abc")) =
  "9e8f3782f349f42411b8e7e0546210f6ae2b0a54c05cf4e33e3aabc55c66fb15".
Proof. vm_compute. reflexivity. Qed.
