(* ===== verification/Regexp.v ===== *)
(** * The regular expressions of the program

    A backtracking matcher for the shape of expression the program compiles
    with [regexp.MustCompile]: literals, greedy repetition of a byte class,
    optional parts, concatenation and numbered groups.  Trying the alternatives
    in priority order at each start position from the left is Go's
    leftmost-first semantics; [None] for a group is an unmatched one. *)

From S2P Require Export GoStrings.
From Stdlib Require Import Ascii.
From stdpp Require Import strings.

Inductive re :=
  | RLit (w : string)
  | RPlus (cls : ascii -> bool)
  | ROpt (r : re)
  | RSeq (r1 r2 : re)
  | RCap (i : nat) (r : re).

Abbreviation caps := (gmap nat string).

(** The part of [s] consumed when [rest] is what remains of it *)
Definition consumed (s rest : string) : string :=
  String.substring 0 (String.length s - String.length rest) s.

(** Greedy: the longest repetition first *)
Fixpoint match_plus {B} (cls : ascii -> bool) (s : string) (k : string -> option B) : option B :=
  match s with
  | "" => None
  | String c s' =>
      if cls c then
        match match_plus cls s' k with
        | Some b => Some b
        | None => k s'
        end
      else None
  end.

Fixpoint re_match {B} (r : re) (m : caps) (s : string) (k : caps -> string -> option B) :
    option B :=
  match r with
  | RLit w => if HasPrefix s w then k m (drop_bytes (String.length w) s) else None
  | RPlus cls => match_plus cls s (k m)
  | ROpt r =>
      match re_match r m s k with
      | Some b => Some b
      | None => k m s
      end
  | RSeq r1 r2 => re_match r1 m s (fun m s => re_match r2 m s k)
  | RCap i r => re_match r m s (fun m' s' => k (<[i := consumed s s']> m') s')
  end.

(** [re.FindStringSubmatch(s)]: [None] is the nil slice *)
Fixpoint find_submatch (r : re) (s : string) : option caps :=
  match re_match r ∅ s (fun m _ => Some m) with
  | Some m => Some m
  | None =>
      match s with
      | "" => None
      | String _ s' => find_submatch r s'
      end
  end.

(** ** Paths of segments

    [([^/]+)/.../([^/]+)] with [n + 1] groups. *)
Definition not_slash (c : ascii) : bool := bool_decide (c <> slash).

Fixpoint segments_re (i n : nat) : re :=
  match n with
  | O => RCap i (RPlus not_slash)
  | S n => RSeq (RCap i (RPlus not_slash)) (RSeq (RLit "/") (segments_re (S i) n))
  end.

(** The reference: the first run of [n + 1] consecutive non-empty pieces of
    the path split at slashes. *)
Fixpoint leading (n : nat) (l : list string) : option (list string) :=
  match l with
  | [] => None
  | w :: l =>
      if bool_decide (w = "") then None
      else match n with
           | O => Some [w]
           | S n => cons w <$> leading n l
           end
  end.

Fixpoint first_window (n : nat) (l : list string) : option (list string) :=
  match l with
  | [] => None
  | w :: l' =>
      match leading n l with
      | Some ws => Some ws
      | None => first_window n l'
      end
  end.

Definition path_groups (n : nat) (m : caps) : list string :=
  (fun i => default "" (m !! i)) <$> seq 1 (S n).

(** ** The matcher on paths agrees with the reference *)

(** The first piece of a path and what follows it *)
Fixpoint seg (s : string) : string :=
  match s with
  | "" => ""
  | String c s => if decide (slash = c) then "" else String c (seg s)
  end.

Fixpoint seg_rest (s : string) : string :=
  match s with
  | "" => ""
  | String c s' => if decide (slash = c) then s else seg_rest s'
  end.

Lemma seg_app s : s = seg s +:+ seg_rest s.
Proof.
  induction s as [|c s IH]; simpl; [done|]. case_decide; [done|].
  rewrite app_cons_str. by f_equal.
Qed.

Lemma seg_rest_cases s : seg_rest s = "" \/ exists r, seg_rest s = String slash r.
Proof.
  induction s as [|c s IH]; simpl; [by left|]. case_decide; subst; [right; by eexists|done].
Qed.

Lemma seg_slash w r : Contains slash w = false ->
  seg (w +:+ String slash r) = w /\ seg_rest (w +:+ String slash r) = String slash r.
Proof.
  induction w as [|c w IH]; [by intros _; rewrite app_nil_str|]. rewrite app_cons_str. simpl.
  destruct (decide (slash = c)); [done|]. intros [-> ->]%IH. done.
Qed.

Lemma Split_seg s :
  Split slash s = seg s :: match seg_rest s with "" => [] | String _ r => Split slash r end.
Proof.
  induction s as [|c s IH]; [done|]. cbn [Split seg seg_rest]. case_decide as Hc; [done|].
  by rewrite IH.
Qed.

Lemma substring_app w r : String.substring 0 (String.length w) (w +:+ r) = w.
Proof.
  induction w as [|c w IH]; [by destruct r|]. rewrite app_cons_str. cbn. by rewrite IH.
Qed.

Lemma consumed_seg s : consumed s (seg_rest s) = seg s.
Proof.
  unfold consumed. rewrite (seg_app s) at 1 3. rewrite length_app_str.
  replace (_ + _ - _)%nat with (String.length (seg s)) by lia. apply substring_app.
Qed.

(** A greedy piece takes everything up to the slash when its continuation
    either accepts there or rejects everything that starts with another byte. *)
Lemma match_plus_seg {B} (k : string -> option B) s :
  k (seg_rest s) <> None \/ (forall c s', not_slash c = true -> k (String c s') = None) ->
  match_plus not_slash s k = if bool_decide (seg s = "") then None else k (seg_rest s).
Proof.
  intros Hk. revert Hk. induction s as [|c s IH]; [done|]. cbn [match_plus seg seg_rest].
  unfold not_slash at 2. destruct (decide (slash = c)) as [Hc|Hc].
  - by rewrite bool_decide_false by naive_solver.
  - intros Hk. rewrite bool_decide_true by done. rewrite (IH Hk).
    rewrite (bool_decide_false (String c (seg s) = "")) by done.
    case_bool_decide as Hseg.
    + f_equal. rewrite (seg_app s) at 1. by rewrite Hseg.
    + destruct (k (seg_rest s)) eqn:Hr; [done|].
      destruct Hk as [Hk|Hk]; [done|]. destruct s as [|d s]; [done|].
      cbn [seg] in Hseg. destruct (decide (slash = d)); [done|]. apply Hk.
      unfold not_slash. rewrite bool_decide_true; [done|congruence].
Qed.

Fixpoint put_groups (i : nat) (ws : list string) (m : caps) : caps :=
  match ws with
  | [] => m
  | w :: ws => put_groups (S i) ws (<[i := w]> m)
  end.

Lemma re_match_segments i n m s :
  re_match (segments_re i n) m s (fun m _ => Some m) =
    (fun ws => put_groups i ws m) <$> leading n (Split slash s).
Proof.
  revert i m s. induction n as [|n IH]; intros i m s; rewrite Split_seg; simpl.
  - rewrite match_plus_seg by by left. case_bool_decide; [done|]. by rewrite consumed_seg.
  - rewrite match_plus_seg.
    + case_bool_decide; [done|]. rewrite consumed_seg.
      destruct (seg_rest_cases s) as [->|[r ->]]; [by destruct n|].
      cbn. rewrite IH. by destruct (leading n (Split slash r)).
    + right. intros c s' Hc%bool_decide_eq_true. cbn.
      by rewrite decide_False by done.
Qed.

Lemma leading_tail_None n c w ws :
  leading n (String c w :: ws) = None ->
  first_window n (String c w :: ws) = first_window n (w :: ws).
Proof.
  intros H. cbn [first_window]. rewrite H. destruct n as [|n]; [done|].
  cbn [leading] in H |- *. rewrite bool_decide_false in H by done.
  case_bool_decide; [done|]. by destruct (leading n ws).
Qed.

Lemma find_submatch_segments n s :
  find_submatch (segments_re 1 n) s =
    (fun ws => put_groups 1 ws ∅) <$> first_window n (Split slash s).
Proof.
  induction s as [|c s IH]; cbn [find_submatch]; rewrite re_match_segments.
  - simpl. by destruct n.
  - cbn [Split]. case_decide as Hc.
    + rewrite IH. cbn. by destruct n.
    + destruct (Split slash s) as [|w ws] eqn:Hs; [by apply Split_not_nil in Hs|].
      destruct (leading n (String c w :: ws)) as [l|] eqn:Hl.
      * cbn [first_window]. by rewrite Hl.
      * rewrite (leading_tail_None _ _ _ _ Hl). apply IH.
Qed.

Lemma length_leading n l ws : leading n l = Some ws -> length ws = S n.
Proof.
  revert l ws. induction n as [|n IH]; intros [|w l] ws; simpl; try case_bool_decide; try done.
  - by intros [= <-].
  - destruct (leading n l) as [ws'|] eqn:Hl; [|done]. intros [= <-]. simpl. f_equal. eauto.
Qed.

Lemma length_first_window n l ws : first_window n l = Some ws -> length ws = S n.
Proof.
  induction l as [|w l IH]; cbn; [done|]. destruct (leading n (w :: l)) as [ws'|] eqn:Hl; [|done].
  intros [= <-]. by eapply length_leading.
Qed.

Lemma lookup_put_groups i ws m j :
  put_groups i ws m !! j = if decide (i ≤ j < i + length ws)%nat then ws !! (j - i)%nat else m !! j.
Proof.
  revert i m. induction ws as [|w ws IH]; intros i m; simpl.
  - by rewrite decide_False by lia.
  - rewrite IH. destruct (decide (i = j)) as [->|Hij].
    + rewrite decide_False by lia. rewrite decide_True by lia.
      rewrite lookup_insert_eq. by replace (j - j)%nat with 0%nat by lia.
    + rewrite lookup_insert_ne by done. repeat case_decide; try lia; [|done].
      by replace (j - i)%nat with (S (j - S i)) by lia.
Qed.

Lemma path_groups_put n ws : length ws = S n -> path_groups n (put_groups 1 ws ∅) = ws.
Proof.
  intros Hlen. unfold path_groups. apply list_eq. intros i.
  rewrite list_lookup_fmap. destruct (decide (i < S n)%nat) as [Hi|Hi].
  - rewrite lookup_seq_lt by done. simpl. rewrite lookup_put_groups, decide_True by lia.
    replace (S i - 1)%nat with i by lia.
    destruct (lookup_lt_is_Some_2 ws i) as [w Hw]; [lia|]. by rewrite Hw.
  - rewrite lookup_seq_ge by lia. symmetry. apply lookup_ge_None. lia.
Qed.

(** The regular expression of [n + 1] path segments finds the first run of
    that many consecutive non-empty pieces, and nothing else. *)
Lemma find_segments n s :
  path_groups n <$> find_submatch (segments_re 1 n) s = first_window n (Split slash s).
Proof.
  rewrite find_submatch_segments. destruct (first_window n (Split slash s)) as [ws|] eqn:H; [|done].
  simpl. f_equal. apply path_groups_put. by eapply length_first_window.
Qed.

Lemma leading_spec n l ws :
  leading n l = Some ws <->
  length ws = S n /\ Forall (fun w => w <> "") ws /\ exists l', l = ws ++ l'.
Proof.
  revert l ws. induction n as [|n IH]; intros [|w l] ws; simpl.
  - split; [done|]. intros (Hl & _ & l' & Hw). by destruct ws.
  - case_bool_decide as Hw; split; try done.
    + intros (Hl & Hf & l' & Heq). destruct ws as [|w' ws]; simplify_eq/=. by inversion Hf.
    + intros [= <-]. split_and!; [done|by repeat constructor|by exists l].
    + intros (Hl & Hf & l' & Heq). destruct ws as [|w' [|]]; by simplify_eq/=.
  - split; [done|]. intros (Hl & _ & l' & Hw). by destruct ws.
  - case_bool_decide as Hw; split; try done.
    + intros (Hl & Hf & l' & Heq). destruct ws as [|w' ws]; simplify_eq/=. by inversion Hf.
    + destruct (leading n l) as [ws'|] eqn:Hld; [|done]. intros [= <-].
      apply IH in Hld as (Hl & Hf & l' & ->). split_and!; [simpl; lia|by constructor|by exists l'].
    + intros (Hl & Hf & l' & Heq). destruct ws as [|w' ws]; simplify_eq/=.
      inversion Hf; subst. assert (leading n (ws ++ l') = Some ws) as ->; [|done].
      apply IH. split_and!; [lia|done|by exists l'].
Qed.

Lemma first_window_nonempty n l ws :
  first_window n l = Some ws -> Forall (fun w => w <> "") ws.
Proof.
  induction l as [|w l IH]; cbn; [done|]. destruct (leading n (w :: l)) as [ws'|] eqn:Hl; [|done].
  intros [= <-]. by apply leading_spec in Hl as (_ & ? & _).
Qed.

Lemma first_window_skip_empty n l : first_window n ("" :: l) = first_window n l.
Proof. cbn [first_window]. by destruct n. Qed.

(** A list of non-empty pieces is its own first window. *)
Lemma first_window_all l :
  l <> [] -> Forall (fun w => w <> "") l -> first_window (length l - 1) l = Some l.
Proof.
  intros Hne Hl. assert (leading (length l - 1) l = Some l) as H.
  - destruct l as [|w l]; [done|]. clear Hne. simpl. rewrite Nat.sub_0_r. revert w Hl.
    induction l as [|w' l IH]; intros w Hl; inversion_clear Hl as [|?? Hw Hl'];
      cbn [leading length]; rewrite bool_decide_false by done; [done|]. by rewrite IH.
  - destruct l; [done|]. cbn [first_window]. by rewrite H.
Qed.

(** ** Greedy repetition, in general *)
Lemma consumed_app w r : consumed (w +:+ r) r = w.
Proof.
  unfold consumed. rewrite length_app_str.
  replace (_ + _ - _)%nat with (String.length w) by lia. apply substring_app.
Qed.

(** No proper suffix of [v] is accepted. *)
Definition rejects_after {B} (k : string -> option B) (v : string) : Prop :=
  forall c u w, v = String c u +:+ w -> k w = None.

Lemma rejects_after_tail {B} (k : string -> option B) c v :
  rejects_after k (String c v) -> k v = None /\ rejects_after k v.
Proof.
  intros Hk. split; [by apply (Hk c "")|]. intros d u w ->. by apply (Hk c (String d u)).
Qed.

Lemma match_plus_none {B} cls (k : string -> option B) v :
  rejects_after k v -> match_plus cls v k = None.
Proof.
  induction v as [|c v IH]; simpl; [done|]. intros [Hv Hk]%rejects_after_tail.
  rewrite (IH Hk), Hv. by destruct (cls c).
Qed.

(** Greedy repetition takes [u] when what follows it is accepted there and
    nowhere later. *)
Lemma match_plus_exact {B} cls (k : string -> option B) u v b :
  u <> "" -> Forall (fun c => cls c = true) (bytes_of u) -> k v = Some b -> rejects_after k v ->
  match_plus cls (u +:+ v) k = Some b.
Proof.
  intros Hu Hcls Hk Hlater. induction u as [|c u IH]; [done|]. rewrite app_cons_str. simpl in *.
  inversion Hcls as [|? ? Hc Hcls']; subst. rewrite Hc. destruct u as [|d u].
  - rewrite app_nil_str, match_plus_none; done.
  - by rewrite (IH ltac:(done) Hcls').
Qed.
