(* ===== verification/Memory.v ===== *)
(** * Memory: pointers, slices and maps that may be shared

    Most of the development represents a Go value by what it reads as.  This
    file has what is needed where sharing matters: a heap of cells, programs
    that allocate, read and write them, and readers, which turn a value in
    memory into what it stands for and list the cells they looked at. *)

From S2P Require Export Prog.

Abbreviation loc := positive (only parsing).

(** A cell of the heap holds a value of one of the types that are allocated. *)
Class Stored (V T : Type) := {
  cell_of : T -> V;
  of_cell : V -> option T;
  of_cell_of x : of_cell (cell_of x) = Some x }.

(** The zero value of a type *)
Class Zero (T : Type) := zero : T.

(** [range] over a map visits every entry once, in any order. *)
Class MapRange := {
  range {A} : gmap string A -> list (string * A);
  range_perm {A} (m : gmap string A) : range m ≡ₚ map_to_list m }.

#[export] Instance sorted_range : MapRange := {|
  range A := map_to_list;
  range_perm A m := Permutation_refl (map_to_list m) |}.

(** A slice: the array it points into, where it begins, its length and its
    capacity.  The nil slice is [None]. *)
Record slice := MkSlice { sl_arr : loc; sl_off : nat; sl_len : nat; sl_cap : nat }.

Abbreviation heap := (gmap positive).

(** ** Programs on a heap *)
Definition mem (V A : Type) := heap V -> outcome A * heap V.

Section mem.
Context {V : Type}.

#[export] Instance mem_ret : MRet (mem V) := fun A a h => (Done a, h).
#[export] Instance mem_bind : MBind (mem V) := fun A B f p h =>
  match p h with
  | (Done a, h') => f a h'
  | (Panicked w, h') => (Panicked w, h')
  end.

Definition mem_panic {A} (w : string) : mem V A := fun h => (Panicked w, h).

(** What is not allocated, or not of the type, cannot be accessed. *)
Definition bad_access {A} : mem V A := mem_panic "invalid memory address".

Definition nil_dereference {A} : mem V A :=
  mem_panic "invalid memory address or nil pointer dereference".

Definition alloc `{Stored V T} (x : T) : mem V loc := fun h =>
  let l := fresh (dom h : gset loc) in (Done l, <[l := cell_of x]> h).

Definition load T `{Stored V T} (l : loc) : mem V T := fun h =>
  match h !! l ≫= of_cell with
  | Some x => (Done x, h)
  | None => bad_access h
  end.

Definition store `{Stored V T} (l : loc) (x : T) : mem V unit := fun h =>
  match h !! l with
  | Some _ => (Done tt, <[l := cell_of x]> h)
  | None => bad_access h
  end.

(** [s[i]] and [s[i] = x] *)
Definition elem T `{Stored V (list T)} (s : slice) (i : nat) : mem V T :=
  a ← load (list T) (sl_arr s);
  if decide (i < sl_len s) then
    match a !! (sl_off s + i) with Some x => mret x | None => bad_access end
  else mem_panic "index out of range".

Definition set_elem `{Stored V (list T)} (s : slice) (i : nat) (x : T) : mem V unit :=
  a ← load (list T) (sl_arr s);
  if decide (i < sl_len s) then store (sl_arr s) (<[sl_off s + i := x]> a)
  else mem_panic "index out of range".

(** [make([]T, n)] *)
Definition make_slice T `{Zero T, Stored V (list T)} (n : nat) : mem V slice :=
  l ← alloc (replicate n (zero : T));
  mret (MkSlice l 0 n n).

(** [m[k] = x] for a map that is not nil *)
Definition set_key `{Stored V (gmap string T)} (m : loc) (k : string) (x : T) : mem V unit :=
  a ← load (gmap string T) m;
  store m (<[k := x]> a).

(** *** The total correctness of a run: it returns, in [Q] *)
Definition mwp {A} (p : mem V A) (h : heap V) (Q : A -> heap V -> Prop) : Prop :=
  match p h with
  | (Done a, h') => Q a h'
  | (Panicked _, _) => False
  end.

Lemma mwp_ret {A} (a : A) h Q : mwp (mret a) h Q <-> Q a h.
Proof. done. Qed.

Lemma mwp_bind {A B} (p : mem V A) (f : A -> mem V B) h Q :
  mwp (p ≫= f) h Q <-> mwp p h (fun a h' => mwp (f a) h' Q).
Proof. unfold mwp, mbind, mem_bind. by destruct (p h) as [[a|w] h']. Qed.

Lemma mwp_mono {A} (p : mem V A) h (Q Q' : A -> heap V -> Prop) :
  (forall a h', Q a h' -> Q' a h') -> mwp p h Q -> mwp p h Q'.
Proof. unfold mwp. destruct (p h) as [[a|w] h']; eauto. Qed.

Lemma mwp_bind_assoc {A B C} (p : mem V A) (f : A -> mem V B) (g : B -> mem V C) h Q :
  mwp (p ≫= f) h (fun b h' => mwp (g b) h' Q) -> mwp (p ≫= fun a => f a ≫= g) h Q.
Proof.
  rewrite !mwp_bind. apply mwp_mono. intros a h'. by rewrite mwp_bind.
Qed.

Lemma load_bind {A} `{Stored V T} l (x : T) (f : T -> mem V A) h :
  h !! l ≫= of_cell = Some x -> (load T l ≫= f) h = f x h.
Proof. intros Hl. unfold mbind, mem_bind, load. by rewrite Hl. Qed.

Lemma mwp_load `{Stored V T} l (x : T) h Q :
  h !! l = Some (cell_of x) -> Q x h -> mwp (load T l) h Q.
Proof. unfold mwp, load. intros ->. simpl. by rewrite of_cell_of. Qed.

Lemma mwp_load' `{Stored V T} l (x : T) h Q :
  h !! l ≫= of_cell = Some x -> Q x h -> mwp (load T l) h Q.
Proof. unfold mwp, load. by intros ->. Qed.

Lemma mwp_store `{Stored V T} l (x : T) h Q :
  is_Some (h !! l) -> Q tt (<[l := cell_of x]> h) -> mwp (store l x) h Q.
Proof. unfold mwp, store. by intros [c ->]. Qed.

Lemma mwp_alloc `{Stored V T} (x : T) h Q :
  (forall l, h !! l = None -> Q l (<[l := cell_of x]> h)) -> mwp (alloc x) h Q.
Proof. unfold mwp, alloc. intros HQ. apply HQ, (not_elem_of_dom_1 (D := gset loc)), is_fresh. Qed.

End mem.

Arguments mwp : simpl never.

(** ** Readers

    A reader gives what a value in memory stands for, with the cells it looked
    at, in the order it came to them; it fails on what is not allocated. *)
Definition rd (V A : Type) := heap V -> option (A * list loc).

Section rd.
Context {V : Type}.

#[export] Instance rd_ret : MRet (rd V) := fun A a h => Some (a, []).
#[export] Instance rd_bind : MBind (rd V) := fun A B f r h =>
  '(a, ls) ← r h; '(b, ls') ← f a h; Some (b, ls ++ ls').

Definition rd_fail {A} : rd V A := fun _ => None.

Definition rd_load T `{Stored V T} (l : loc) : rd V T := fun h =>
  x ← h !! l ≫= of_cell; Some (x, [l]).

Fixpoint rd_list {A B} (r : A -> rd V B) (l : list A) : rd V (list B) :=
  match l with
  | [] => mret []
  | x :: l => b ← r x; bs ← rd_list r l; mret (b :: bs)
  end.

(** Readers of a pointer, a slice and a map, given a reader of what is there.
    What they give tells nil from empty. *)
Definition rd_ptr {T A} `{Stored V T} (r : T -> rd V A) (p : option loc) : rd V (option A) :=
  match p with
  | None => mret None
  | Some l => x ← rd_load T l; a ← r x; mret (Some a)
  end.

Definition rd_slice {T A} `{Stored V (list T)} (r : T -> rd V A) (s : option slice) :
    rd V (option (list A)) :=
  match s with
  | None => mret None
  | Some s =>
      a ← rd_load (list T) (sl_arr s);
      if decide (sl_off s + sl_len s <= length a) then
        xs ← rd_list r (take (sl_len s) (drop (sl_off s) a));
        mret (Some xs)
      else rd_fail
  end.

Definition rd_entry {T A} (r : T -> rd V A) (m : gmap string T) (k : string) : rd V (string * A) :=
  match m !! k with
  | Some x => a ← r x; mret (k, a)
  | None => rd_fail
  end.

Definition rd_map {T A} `{Stored V (gmap string T)} (r : T -> rd V A) (m : option loc) :
    rd V (option (gmap string A)) :=
  match m with
  | None => mret None
  | Some l =>
      m ← rd_load (gmap string T) l;
      kvs ← rd_list (rd_entry r m) (elements (dom m));
      mret (Some (list_to_map kvs))
  end.

(** A reader depends on the cells it lists, and on nothing else. *)
Class Local {A} (r : rd V A) : Prop := {
  local_dom h a ls : r h = Some (a, ls) -> forall l, l ∈ ls -> is_Some (h !! l);
  local_agree h a ls h' : r h = Some (a, ls) ->
    (forall l, l ∈ ls -> h' !! l = h !! l) -> r h' = Some (a, ls) }.

Lemma rd_bind_Some {A B} (r : rd V A) (f : A -> rd V B) h b ls :
  (r ≫= f) h = Some (b, ls) <->
  exists a ls1 ls2, r h = Some (a, ls1) /\ f a h = Some (b, ls2) /\ ls = ls1 ++ ls2.
Proof.
  unfold mbind, rd_bind. split.
  - destruct (r h) as [[a ls1]|] eqn:Hr; simpl; [|done].
    destruct (f a h) as [[b' ls2]|] eqn:Hf; simpl; [|done]. naive_solver.
  - intros (a & ls1 & ls2 & -> & Hf & ->). simpl. by rewrite Hf.
Qed.

Lemma rd_ret_Some {A} (a b : A) h ls : mret (M := rd V) a h = Some (b, ls) <-> b = a /\ ls = [].
Proof. unfold mret, rd_ret. naive_solver. Qed.

Lemma rd_load_Some `{Stored V T} l x h ls :
  rd_load T l h = Some (x, ls) <-> h !! l ≫= of_cell = Some x /\ ls = [l].
Proof. unfold rd_load. destruct (h !! l ≫= of_cell); naive_solver. Qed.

#[export] Instance local_ret {A} (a : A) : Local (mret a).
Proof. split; unfold mret, rd_ret; intros; simplify_eq; [set_solver|done]. Qed.

#[export] Instance local_fail {A} : Local (A := A) rd_fail.
Proof. by split. Qed.

#[export] Instance local_bind {A B} (r : rd V A) (f : A -> rd V B) :
  Local r -> (forall a, Local (f a)) -> Local (r ≫= f).
Proof.
  intros Hr Hf. split.
  - intros h b ls (a & ls1 & ls2 & H1 & H2 & ->)%rd_bind_Some l [?|?]%elem_of_app;
      eauto using local_dom.
  - intros h b ls h' (a & ls1 & ls2 & H1 & H2 & ->)%rd_bind_Some Hh'. apply rd_bind_Some.
    exists a, ls1, ls2. split_and!; [| |done].
    + eapply local_agree; [done|]. intros l Hl. apply Hh'. set_solver.
    + eapply local_agree; [done|]. intros l Hl. apply Hh'. set_solver.
Qed.

#[export] Instance local_load `{Stored V T} l : Local (rd_load T l).
Proof.
  split.
  - intros h x ls [Hx ->]%rd_load_Some l' ->%list_elem_of_singleton.
    destruct (h !! l); [eauto|done].
  - intros h x ls h' [Hx ->]%rd_load_Some Hh'. apply rd_load_Some.
    by rewrite Hh' by set_solver.
Qed.

#[export] Instance local_list {A B} (r : A -> rd V B) l :
  (forall x, Local (r x)) -> Local (rd_list r l).
Proof. intros Hr. induction l; simpl; apply _. Qed.

#[export] Instance local_ptr {T A} `{Stored V T} (r : T -> rd V A) p :
  (forall x, Local (r x)) -> Local (rd_ptr r p).
Proof. intros Hr. destruct p; simpl; apply _. Qed.

#[export] Instance local_slice {T A} `{Stored V (list T)} (r : T -> rd V A) s :
  (forall x, Local (r x)) -> Local (rd_slice r s).
Proof.
  intros Hr. destruct s as [s|]; simpl; [|apply _].
  apply local_bind; [apply _|]. intros a. case_decide; apply _.
Qed.

#[export] Instance local_entry {T A} (r : T -> rd V A) m k :
  (forall x, Local (r x)) -> Local (rd_entry r m k).
Proof. intros Hr. unfold rd_entry. destruct (m !! k); apply _. Qed.

#[export] Instance local_map {T A} `{Stored V (gmap string T)} (r : T -> rd V A) m :
  (forall x, Local (r x)) -> Local (rd_map r m).
Proof. intros Hr. destruct m; simpl; apply _. Qed.

Lemma rd_list_cons {A B} (r : A -> rd V B) x l h bs ls :
  rd_list r (x :: l) h = Some (bs, ls) <-> exists b ls1 bs' ls2,
    r x h = Some (b, ls1) /\ rd_list r l h = Some (bs', ls2) /\ bs = b :: bs' /\ ls = ls1 ++ ls2.
Proof.
  simpl. rewrite rd_bind_Some. split.
  - intros (b & ls1 & ? & Hx & (bs' & ls2 & ? & Hr & [-> ->]%rd_ret_Some & ->)%rd_bind_Some & ->).
    rewrite app_nil_r. by exists b, ls1, bs', ls2.
  - intros (b & ls1 & bs' & ls2 & Hx & Hr & -> & ->). exists b, ls1, ls2. split_and!; [done| |done].
    apply rd_bind_Some. exists bs', ls2, []. by rewrite app_nil_r.
Qed.

Lemma rd_list_perm {A B} (r : A -> rd V B) l l' h bs ls :
  l ≡ₚ l' -> rd_list r l h = Some (bs, ls) ->
  exists bs' ls', rd_list r l' h = Some (bs', ls') /\ bs ≡ₚ bs' /\ ls ≡ₚ ls'.
Proof.
  intros Hl. revert bs ls. induction Hl as [|x l l' _ IH|x y l|l l' l'' _ IH _ IH']; intros bs ls Hr.
  - eauto.
  - apply rd_list_cons in Hr as (b & ls1 & bs1 & ls2 & Hx & Hr & -> & ->).
    destruct (IH _ _ Hr) as (bs' & ls' & Hr' & Hbs & Hls). exists (b :: bs'), (ls1 ++ ls').
    split_and!; [|by rewrite Hbs|by rewrite Hls]. apply rd_list_cons. by exists b, ls1, bs', ls'.
  - apply rd_list_cons in Hr as (b & ls1 & ? & ? & Hx & Hr & -> & ->).
    apply rd_list_cons in Hr as (b' & ls2 & bs & ls3 & Hy & Hr & -> & ->).
    exists (b' :: b :: bs), (ls2 ++ ls1 ++ ls3). split_and!; [|constructor|].
    + apply rd_list_cons. exists b', ls2, (b :: bs), (ls1 ++ ls3). split_and!; [done| |done..].
      apply rd_list_cons. by exists b, ls1, bs, ls3.
    + rewrite !app_assoc. by rewrite (Permutation_app_comm ls1).
  - destruct (IH _ _ Hr) as (bs1 & ls1 & Hr1 & Hb1 & Hl1).
    destruct (IH' _ _ Hr1) as (bs2 & ls2 & Hr2 & Hb2 & Hl2). exists bs2, ls2.
    split_and!; [done|by transitivity bs1|by transitivity ls1].
Qed.

Lemma rd_list_app {A B} (r : A -> rd V B) l1 l2 h bs ls :
  rd_list r (l1 ++ l2) h = Some (bs, ls) <-> exists bs1 ls1 bs2 ls2,
    rd_list r l1 h = Some (bs1, ls1) /\ rd_list r l2 h = Some (bs2, ls2) /\
    bs = bs1 ++ bs2 /\ ls = ls1 ++ ls2.
Proof.
  revert bs ls. induction l1 as [|x l1 IH]; intros bs ls; cbn [app].
  - split; [intros Hr; by exists [], [], bs, ls|].
    by intros (bs1 & ls1 & bs2 & ls2 & [-> ->]%rd_ret_Some & Hr & -> & ->).
  - rewrite rd_list_cons. split.
    + intros (b & ls1 & bs' & ls' & Hx & (bs1 & ls2 & bs2 & ls3 & H1 & H2 & -> & ->)%IH & -> & ->).
      exists (b :: bs1), (ls1 ++ ls2), bs2, ls3. rewrite rd_list_cons, <- app_assoc.
      split_and!; [|done..]. by exists b, ls1, bs1, ls2.
    + intros (? & ? & bs2 & ls3 & (b & ls1 & bs1 & ls2 & Hx & H1 & -> & ->)%rd_list_cons & H2 & -> & ->).
      exists b, ls1, (bs1 ++ bs2), (ls2 ++ ls3). rewrite <- app_assoc. split_and!; [done| |done..].
      apply IH. by exists bs1, ls2, bs2, ls3.
Qed.

Lemma rd_entries_keys {T A} (r : T -> rd V A) m ks h kas ls :
  rd_list (rd_entry r m) ks h = Some (kas, ls) -> kas.*1 = ks.
Proof.
  revert kas ls. induction ks as [|k ks IH]; intros kas ls Hr.
  - by apply rd_ret_Some in Hr as [-> ->].
  - apply rd_bind_Some in Hr as (ka & ls1 & ls2 & Hx & Hr & ->).
    apply rd_bind_Some in Hr as (kas' & ls3 & ls4 & Hr & [-> ->]%rd_ret_Some & ->).
    unfold rd_entry in Hx. destruct (m !! k); [|done].
    apply rd_bind_Some in Hx as (a & ? & ? & _ & [-> ->]%rd_ret_Some & ->).
    simpl. f_equal. eauto.
Qed.

(** What reads stays readable when the heap grows. *)
Lemma local_mono {A} (r : rd V A) `{!Local r} h h' a ls :
  r h = Some (a, ls) -> h ⊆ h' -> r h' = Some (a, ls).
Proof.
  intros Hr Hsub. eapply local_agree; [done|]. intros l Hl.
  destruct (local_dom _ _ _ Hr _ Hl) as [c Hc]. rewrite Hc. by eapply lookup_weaken.
Qed.

(** ... and when a cell it does not use is written. *)
Lemma local_insert {A} (r : rd V A) `{!Local r} h l c a ls :
  r h = Some (a, ls) -> l ∉ ls -> r (<[l := c]> h) = Some (a, ls).
Proof.
  intros Hr Hl. eapply local_agree; [done|]. intros l' Hl'. apply lookup_insert_ne. set_solver.
Qed.

(** Writing a cell of one element changes that element only. *)
Lemma rd_list_update {A B} (r : A -> rd V B) l x h o c b b' lx bs ls :
  (forall x, Local (r x)) -> x ∈ l -> rd_list r l h = Some (bs, ls) -> NoDup ls ->
  r x h = Some (b, lx) -> o ∈ lx -> r x (<[o := c]> h) = Some (b', lx) ->
  exists pre post, bs = pre ++ b :: post /\ o ∈ ls /\
    rd_list r l (<[o := c]> h) = Some (pre ++ b' :: post, ls).
Proof.
  intros HL Hx Hr Hnd Hb Ho Hb'. apply list_elem_of_split in Hx as (l1 & l2 & ->).
  apply rd_list_app in Hr as (bs1 & ls1 & ? & ? & H1 & Hr & -> & ->).
  apply rd_list_cons in Hr as (? & ? & bs2 & ls2 & Hb2 & H2 & -> & ->).
  rewrite Hb in Hb2. injection Hb2 as <- <-.
  apply NoDup_app in Hnd as (_ & Hd1 & Hnd). apply NoDup_app in Hnd as (_ & Hd2 & _).
  exists bs1, bs2. split_and!; [done|set_solver|]. apply rd_list_app.
  exists bs1, ls1, (b' :: bs2), (lx ++ ls2). split_and!; [| |done|done].
  - apply local_insert; [apply _|done|]. intros Hin. apply (Hd1 _ Hin). set_solver.
  - apply rd_list_cons. exists b', lx, bs2, ls2. split_and!; [done| |done..].
    apply local_insert; [apply _|done|]. intros Hin. apply (Hd2 o); set_solver.
Qed.

Lemma list_to_map_update {A} (pre post : list (string * A)) k x y :
  NoDup (pre ++ (k, x) :: post).*1 ->
  (list_to_map (pre ++ (k, y) :: post) : gmap string A) =
    <[k := y]> (list_to_map (pre ++ (k, x) :: post)).
Proof.
  intros Hnd.
  assert (forall z, (list_to_map (pre ++ (k, z) :: post) : gmap string A) =
    <[k := z]> (list_to_map (pre ++ post))) as Hmid.
  { intros z. transitivity (list_to_map ((k, z) :: pre ++ post) : gmap string A); [|done].
    apply list_to_map_proper.
    - revert Hnd. by rewrite !fmap_app.
    - symmetry. apply Permutation_middle. }
  by rewrite !Hmid, insert_insert_eq.
Qed.

(** The entries of a map that reads as [vm] *)
Lemma rd_map_inv {T A} `{Stored V (gmap string T)} (r : T -> rd V A) m h vm ls :
  rd_map r (Some m) h = Some (Some vm, ls) ->
  exists es kas ls', h !! m ≫= of_cell = Some es /\ ls = m :: ls' /\ vm = list_to_map kas /\
    rd_list (rd_entry r es) (elements (dom es)) h = Some (kas, ls') /\ NoDup kas.*1.
Proof.
  simpl. intros (es & ls1 & ls2 & [Hes ->]%rd_load_Some & Hr & ->)%rd_bind_Some.
  apply rd_bind_Some in Hr as (kas & ls' & ? & Hr & [[= ->] ->]%rd_ret_Some & ->).
  exists es, kas, ls'. rewrite app_nil_r. split_and!; [done..|].
  rewrite (rd_entries_keys _ _ _ _ _ _ Hr). apply NoDup_elements.
Qed.

Lemma rd_map_Some {T A} `{Stored V (gmap string T)} (r : T -> rd V A) m h es kas ls :
  h !! m ≫= of_cell = Some es ->
  rd_list (rd_entry r es) (elements (dom es)) h = Some (kas, ls) ->
  rd_map r (Some m) h = Some (Some (list_to_map kas), m :: ls).
Proof.
  intros Hes Hr. simpl. apply rd_bind_Some. exists es, [m], ls.
  split_and!; [by apply rd_load_Some| |done]. apply rd_bind_Some. exists kas, ls, [].
  by rewrite app_nil_r.
Qed.

Lemma rd_entries_lookup {T A} (r : T -> rd V A) es ks h kas ls k y :
  rd_list (rd_entry r es) ks h = Some (kas, ls) -> k ∈ ks -> es !! k = Some y ->
  exists a lx, r y h = Some (a, lx) /\ (k, a) ∈ kas /\ rd_entry r es k h = Some ((k, a), lx) /\
    (NoDup ls -> NoDup lx).
Proof.
  intros Hr (ks1 & ks2 & ->)%list_elem_of_split Hk.
  apply rd_list_app in Hr as (? & ? & ? & ? & _ & Hr & -> & ->).
  apply rd_list_cons in Hr as (ka & lx & ? & ? & Hx & _ & -> & ->). pose proof Hx as Hx'.
  unfold rd_entry in Hx. rewrite Hk in Hx.
  apply rd_bind_Some in Hx as (a & lx' & ? & Hx & [-> ->]%rd_ret_Some & ->).
  rewrite app_nil_r in Hx' |- *. exists a, lx'. split_and!; [done|set_solver|done|].
  by intros (_ & _ & (? & _ & _)%NoDup_app)%NoDup_app.
Qed.

Lemma rd_entry_insert_ne {T A} (r : T -> rd V A) es k k' y :
  k <> k' -> rd_entry r (<[k := y]> es) k' = rd_entry r es k'.
Proof. intros Hk. unfold rd_entry. by rewrite lookup_insert_ne. Qed.

(** A key is set whose value is made of other cells. *)
Lemma rd_map_insert {T A} `{Stored V (gmap string T)} (r : T -> rd V A) m h h' vm ls es k y a ly :
  (forall x, Local (r x)) -> rd_map r (Some m) h = Some (Some vm, ls) -> NoDup ls ->
  h !! m ≫= of_cell = Some es -> es !! k = None ->
  h' !! m = Some (cell_of (<[k := y]> es)) -> (forall l, l ∈ ls -> l <> m -> h' !! l = h !! l) ->
  r y h' = Some (a, ly) ->
  exists ls', rd_map r (Some m) h' = Some (Some (<[k := a]> vm), ls') /\ ls' ≡ₚ ly ++ ls.
Proof.
  intros HL (es' & kas & ls' & Hes & -> & -> & Hr & Hnd)%rd_map_inv Hls Hes' Hk Hm Hh' Hy.
  rewrite Hes in Hes'. injection Hes' as <-. apply NoDup_cons in Hls as [Hmls _].
  assert (elements (dom (<[k := y]> es')) ≡ₚ k :: elements (dom es')) as Hkeys.
  { rewrite dom_insert_L. apply elements_union_singleton. by apply not_elem_of_dom. }
  assert (rd_list (rd_entry r (<[k := y]> es')) (k :: elements (dom es')) h' =
    Some ((k, a) :: kas, ly ++ ls')) as Hall.
  { apply rd_list_cons. exists (k, a), ly, kas, ls'. split_and!; [| |done..].
    - unfold rd_entry. rewrite lookup_insert_eq. apply rd_bind_Some. exists a, ly, [].
      by rewrite app_nil_r.
    - assert (forall ks, k ∉ ks -> rd_list (rd_entry r (<[k := y]> es')) ks =
        rd_list (rd_entry r es') ks) as Hsame.
      { intros ks. induction ks as [|k' ks IH]; intros Hks; simpl; [done|].
        rewrite IH, rd_entry_insert_ne by set_solver. done. }
      rewrite Hsame by (rewrite elem_of_elements; by apply not_elem_of_dom).
      eapply local_agree; [exact Hr|]. intros l Hl. apply Hh'; [by right|]. intros ->. done. }
  destruct (rd_list_perm _ _ _ _ _ _ (symmetry Hkeys) Hall) as (kas2 & ls2 & Hr2 & Hkas2 & Hls2).
  exists (m :: ls2). split.
  - erewrite rd_map_Some; [|by rewrite Hm; simpl; rewrite of_cell_of|exact Hr2].
    do 3 f_equal. symmetry. change (<[k := a]> (list_to_map kas)) with
      (list_to_map ((k, a) :: kas) : gmap string A). apply list_to_map_proper; [|done].
    rewrite fmap_cons. constructor; [|done]. cbn [fst].
    rewrite (rd_entries_keys _ _ _ _ _ _ Hr), elem_of_elements.
    by apply not_elem_of_dom.
  - rewrite <- Hls2. apply Permutation_middle.
Qed.

(** The value of a key changes in one of its own cells. *)
Lemma rd_map_update {T A} `{Stored V (gmap string T)} (r : T -> rd V A) m h vm ls es k y o c :
  (forall x, Local (r x)) -> rd_map r (Some m) h = Some (Some vm, ls) -> NoDup ls ->
  h !! m ≫= of_cell = Some es -> es !! k = Some y ->
  exists b lx, r y h = Some (b, lx) /\ vm !! k = Some b /\ NoDup lx /\
    forall b', o ∈ lx -> r y (<[o := c]> h) = Some (b', lx) ->
      o ∈ ls /\ rd_map r (Some m) (<[o := c]> h) = Some (Some (<[k := b']> vm), ls).
Proof.
  intros HL (es' & kas & ls' & Hes & -> & -> & Hr & Hnd)%rd_map_inv Hls Hes' Hk.
  rewrite Hes in Hes'. injection Hes' as <-. apply NoDup_cons in Hls as [Hmls Hls].
  assert (k ∈ elements (dom es')) as Hin.
  { apply elem_of_elements, elem_of_dom. eauto. }
  destruct (rd_entries_lookup _ _ _ _ _ _ _ _ Hr Hin Hk) as (b & lx & Hb & Hkb & Hentry & Hlx).
  exists b, lx. split_and!; [done|by apply elem_of_list_to_map_1|by apply Hlx|]. intros b' Ho Hb'.
  destruct (rd_list_update (rd_entry r es') (elements (dom es')) k h o c (k, b) (k, b') lx kas ls')
    as (pre & post & -> & Hols & Hr'); [apply _|done..| |].
  { unfold rd_entry. rewrite Hk. apply rd_bind_Some. exists b', lx, []. by rewrite app_nil_r. }
  split; [by right|]. erewrite rd_map_Some; [|rewrite lookup_insert_ne; [exact Hes|]|exact Hr'].
  - do 3 f_equal. by apply list_to_map_update.
  - by intros ->.
Qed.
End rd.
