(* ===== verification/Copying.v ===== *)
(** * Copying what lies in memory

    [copies f r] says that [f] makes a deep copy of what the reader [r] reads.
    It is proved for the copying of a pointer, of a slice and of a map, as the
    generated code does it, from the copying of what they hold. *)

From S2P Require Export Memory.

(** ** What a deep copy is

    [fresh_in h r h' a]: in [h'] the reader gives [a] out of cells that are all
    new since [h], none of them used twice. *)
Section copies.
Context {V : Type}.

Definition fresh_in {A} (h : heap V) (r : rd V A) (h' : heap V) (a : A) : Prop :=
  exists ls, r h' = Some (a, ls) /\ NoDup ls /\ forall l, l ∈ ls -> h !! l = None.

(** A deep copy keeps every cell there was, and reads as the original out of
    new cells. *)
Definition copies {T A} (f : T -> mem V T) (r : T -> rd V A) : Prop :=
  forall h x a ls, r x h = Some (a, ls) ->
    mwp (f x) h (fun y h' => h ⊆ h' /\ fresh_in h (r y) h' a).

Lemma fresh_ret {A} h h' (a : A) : fresh_in h (mret a) h' a.
Proof. exists []. split_and!; [done|constructor|set_solver]. Qed.

Lemma fresh_mono {A} h h' h'' (r : rd V A) a :
  Local r -> fresh_in h r h' a -> h' ⊆ h'' -> fresh_in h r h'' a.
Proof. intros ? (ls & Hr & ? & ?) Hsub. exists ls. split_and!; eauto using local_mono. Qed.

(** Freshness since a later heap is freshness since an earlier one. *)
Lemma fresh_since {A} h0 h h' (r : rd V A) a :
  (forall l, h !! l = None -> h0 !! l = None) -> fresh_in h r h' a -> fresh_in h0 r h' a.
Proof. intros Hsub (ls & Hr & Hnd & Hls). exists ls. split_and!; eauto. Qed.

Lemma fresh_insert {A} h h' (r : rd V A) a l c :
  Local r -> fresh_in h r h' a -> is_Some (h !! l) -> fresh_in h r (<[l := c]> h') a.
Proof.
  intros ? (ls & Hr & Hnd & Hls) [c' Hc]. exists ls. split_and!; [|done..].
  apply local_insert; [apply _|done|]. intros Hl. specialize (Hls l Hl). congruence.
Qed.

(** First one part is made, then the other, while the new cells of the first
    stay as they are. *)
Lemma fresh_bind_agree {A B} h h1 h2 (r : rd V A) (k : A -> rd V B) a b :
  Local r -> (forall l, h1 !! l = None -> h !! l = None) -> fresh_in h r h1 a ->
  (forall l c, h !! l = None -> h1 !! l = Some c -> h2 !! l = Some c) ->
  fresh_in h1 (k a) h2 b -> fresh_in h (r ≫= k) h2 b.
Proof.
  intros HL Hdom (ls1 & Hr1 & Hnd1 & Hf1) Hagree (ls2 & Hr2 & Hnd2 & Hf2).
  exists (ls1 ++ ls2). split_and!.
  - apply rd_bind_Some. exists a, ls1, ls2. split_and!; [|done..].
    eapply local_agree; [done|]. intros l Hl. destruct (local_dom _ _ _ Hr1 _ Hl) as [c Hc].
    rewrite Hc. auto.
  - apply NoDup_app. split_and!; [done| |done]. intros l Hl Hl2.
    destruct (local_dom _ _ _ Hr1 _ Hl) as [c Hc]. specialize (Hf2 l Hl2). congruence.
  - intros l [Hl|Hl]%elem_of_app; eauto.
Qed.

Lemma fresh_bind {A B} h h1 h2 (r : rd V A) (k : A -> rd V B) a b :
  Local r -> h ⊆ h1 -> fresh_in h r h1 a -> h1 ⊆ h2 -> fresh_in h1 (k a) h2 b ->
  fresh_in h (r ≫= k) h2 b.
Proof.
  intros HL Hsub Hr Hsub' Hk. eapply fresh_bind_agree; [done| |done| |done].
  - intros l Hl. by eapply lookup_weaken_None.
  - intros l c _ Hl. by eapply lookup_weaken.
Qed.

Lemma fresh_map {A B} h h' (r : rd V A) (g : A -> B) a :
  fresh_in h r h' a -> fresh_in h (x ← r; mret (g x)) h' (g a).
Proof.
  intros (ls & Hr & Hnd & Hls). exists ls. split_and!; [|done..]. apply rd_bind_Some.
  exists a, ls, []. split_and!; [done..|by rewrite app_nil_r].
Qed.

(** A new cell, with what hangs below it *)
Lemma fresh_load {A} `{Stored V T} h h1 l (y : T) (k : T -> rd V A) a :
  h !! l = None -> h1 !! l = Some (cell_of y) -> fresh_in (<[l := cell_of y]> h) (k y) h1 a ->
  fresh_in h (rd_load T l ≫= k) h1 a.
Proof.
  intros Hl Hl1 (ls & Hr & Hnd & Hls). exists (l :: ls). split_and!.
  - apply rd_bind_Some. exists y, [l], ls. split_and!; [|done..].
    apply rd_load_Some. by rewrite Hl1; simpl; rewrite of_cell_of.
  - constructor; [|done]. intros Hin. specialize (Hls _ Hin). by rewrite lookup_insert_eq in Hls.
  - intros l' [->|Hl']%elem_of_cons; [done|]. specialize (Hls _ Hl').
    rewrite lookup_insert_None in Hls. by destruct Hls.
Qed.

Lemma copies_ret {T A} (r : T -> A) : copies mret (fun x => mret (r x) : rd V A).
Proof.
  intros h x a ls [-> ->]%rd_ret_Some. apply mwp_ret. split; [done|apply fresh_ret].
Qed.

(** [isolated h h' r r' a]: both readers give [a], the heap has only grown, the
    second reads new cells, none twice; writing to those leaves what the first
    reads alone, and writing to any cell there was leaves what the second reads
    alone. *)
Definition isolated {A} (h h' : heap V) (r r' : rd V A) (a : A) : Prop :=
  h ⊆ h' /\ exists ls ls', r h' = Some (a, ls) /\ r' h' = Some (a, ls') /\ NoDup ls' /\
    (forall l, l ∈ ls' -> h !! l = None) /\
    (forall h2, (forall l, l ∉ ls' -> h2 !! l = h' !! l) -> r h2 = Some (a, ls)) /\
    (forall h2, (forall l, h !! l = None -> h2 !! l = h' !! l) -> r' h2 = Some (a, ls')).

Lemma copies_isolated {T A} (f : T -> mem V T) (r : T -> rd V A) h x a ls :
  (forall x, Local (r x)) -> copies f r -> r x h = Some (a, ls) ->
  mwp (f x) h (fun y h' => isolated h h' (r x) (r y) a).
Proof.
  intros HL Hf Hr. eapply mwp_mono; [|by eapply Hf]. cbv beta.
  intros y h' (Hsub & ls' & Hr' & Hnd & Hls'). split; [done|]. exists ls, ls'. split_and!.
  - by eapply local_mono.
  - done.
  - done.
  - done.
  - intros h2 Hh2. eapply local_agree; [exact Hr|]. intros l Hl.
    destruct (local_dom _ _ _ Hr _ Hl) as [c Hc]. rewrite Hc, Hh2.
    + by eapply lookup_weaken.
    + intros Hl'. specialize (Hls' l Hl'). congruence.
  - intros h2 Hh2. eapply local_agree; [exact Hr'|]. intros l Hl. by apply Hh2, Hls'.
Qed.

(** Copying one part of a value, before the rest *)
Lemma mwp_copy {T A B} (f : T -> mem V T) (r : T -> rd V A) h0 h x a ls (k : T -> mem V B) Q :
  copies f r -> Local (r x) -> r x h0 = Some (a, ls) -> h0 ⊆ h ->
  (forall y h', h ⊆ h' -> fresh_in h (r y) h' a -> mwp (k y) h' Q) ->
  mwp (f x ≫= k) h Q.
Proof.
  intros Hf HL Hr Hsub Hk. apply mwp_bind. eapply mwp_mono; [|eapply Hf, local_mono, Hsub; done].
  cbv beta. intros y h' [??]. eauto.
Qed.
End copies.

(** ** Copying a pointer, a slice, a map *)
Section copy.
Context {V : Type}.

(** [if in != nil { out = new(T); in.DeepCopyInto(out) }], where [f] is
    [DeepCopyInto] *)
Definition copy_ptr {T} `{Zero T, Stored V T} (f : T -> mem V T) (in_ : option loc) :
    mem V (option loc) :=
  match in_ with
  | None => mret None
  | Some in_ =>
      out ← alloc (zero : T);
      x ← load T in_;
      y ← f x;
      store out y;;
      mret (Some out)
  end.

(** [for i := range in { in[i].DeepCopyInto(&out[i]) }], from index [i], with
    [n] more to go *)
Fixpoint copy_elems {T} `{Stored V (list T)} (f : T -> mem V T) (in_ out : slice) (i n : nat) :
    mem V unit :=
  match n with
  | O => mret tt
  | S n =>
      x ← elem T in_ i;
      y ← f x;
      set_elem out i y;;
      copy_elems f in_ out (S i) n
  end.

(** [if in != nil { out = make([]T, len(in)); for i := range in { ... } }] *)
Definition copy_slice {T} `{Zero T, Stored V (list T)} (f : T -> mem V T) (in_ : option slice) :
    mem V (option slice) :=
  match in_ with
  | None => mret None
  | Some in_ =>
      out ← make_slice T (sl_len in_);
      copy_elems f in_ out 0 (sl_len in_);;
      mret (Some out)
  end.

Lemma copies_ptr {T A} `{Zero T, Stored V T} (f : T -> mem V T) (r : T -> rd V A) :
  (forall x, Local (r x)) -> copies f r -> copies (copy_ptr f) (rd_ptr r).
Proof.
  intros HL Hf h p a ls Hr. destruct p as [l|]; simpl in *.
  2: { apply rd_ret_Some in Hr as [-> ->]. apply mwp_ret. split; [done|apply fresh_ret]. }
  apply rd_bind_Some in Hr as (x & ls1 & ls2 & [Hl ->]%rd_load_Some & Hr & ->).
  apply rd_bind_Some in Hr as (b & ls3 & ls4 & Hr & [-> ->]%rd_ret_Some & ->).
  apply mwp_bind, mwp_alloc. intros out Hout.
  assert (h ⊆ <[out := cell_of (zero : T)]> h) as Hsub by by apply insert_subseteq.
  apply mwp_bind. eapply mwp_load'.
  { rewrite lookup_insert_ne; [exact Hl|]. intros ->. by rewrite Hout in Hl. }
  eapply mwp_copy; [exact Hf|apply _|exact Hr|exact Hsub|]. intros y h1 Hh1 Hy.
  assert (h1 !! out = Some (cell_of (zero : T))) as Hout1.
  { eapply lookup_weaken; [|exact Hh1]. apply lookup_insert_eq. }
  assert (<[out := cell_of y]> h ⊆ <[out := cell_of y]> h1) as Hsub1.
  { rewrite <- (insert_insert_eq h out (cell_of y) (cell_of (zero : T))). by apply insert_mono. }
  apply mwp_bind, mwp_store; [by eauto|]. apply mwp_ret. split.
  { transitivity (<[out := cell_of y]> h); [by apply insert_subseteq|done]. }
  eapply fresh_load; [done|apply lookup_insert_eq|].
  apply (fresh_map _ _ _ Some).
  eapply fresh_insert in Hy; [|apply _|by rewrite lookup_insert_eq; eauto].
  destruct Hy as (ls & Hy & Hnd & Hls). exists ls. split_and!; [exact Hy|done|].
  intros l' Hl'. specialize (Hls l' Hl'). rewrite !lookup_insert_None in Hls |- *. naive_solver.
Qed.

Lemma copy_elems_runs {T A} `{Zero T, Stored V (list T)} (f : T -> mem V T) (r : T -> rd V A)
    in_ arr o h0 :
  (forall x, Local (r x)) -> copies f r ->
  h0 !! o = None -> h0 !! sl_arr in_ ≫= of_cell = Some arr ->
  forall todo ys h bs ls,
  take (length todo) (drop (sl_off in_ + length ys) arr) = todo ->
  length ys + length todo = sl_len in_ -> rd_list r todo h0 = Some (bs, ls) ->
  h0 ⊆ h -> h !! o = Some (cell_of (ys ++ replicate (length todo) zero)) ->
  mwp (copy_elems f in_ (MkSlice o 0 (sl_len in_) (sl_len in_)) (length ys) (length todo)) h
    (fun _ h' => exists zs, length zs = length todo /\ h' !! o = Some (cell_of (ys ++ zs)) /\
      (forall l c, l <> o -> h !! l = Some c -> h' !! l = Some c) /\
      fresh_in h (rd_list r zs) h' bs).
Proof.
  intros HL Hf Ho Harr todo. induction todo as [|x todo IH]; intros ys h bs ls Htake Hlen Hr Hsub Hho.
  - simpl in *. apply rd_ret_Some in Hr as [-> ->]. apply mwp_ret. exists [].
    split_and!; [done|done|done|apply fresh_ret].
  - simpl in Hlen, Hho. apply rd_list_cons in Hr as (b & ls1 & bs' & ls3 & Hx & Hr & -> & ->).
    assert (arr !! (sl_off in_ + length ys) = Some x) as Hix.
    { rewrite <- (Nat.add_0_r (_ + _)), <- lookup_drop.
      transitivity (take (length (x :: todo)) (drop (sl_off in_ + length ys) arr) !! 0).
      - symmetry. apply lookup_take_lt. simpl. lia.
      - by rewrite Htake. }
    cbn [length copy_elems]. apply mwp_bind. unfold elem. apply mwp_bind. eapply mwp_load'.
    { destruct (h0 !! sl_arr in_) eqn:Hin; [|done]. by erewrite lookup_weaken by eauto. }
    rewrite decide_True by lia. rewrite Hix. apply mwp_ret.
    eapply mwp_copy; [exact Hf|apply _|exact Hx|exact Hsub|]. intros y h1 Hh1 Hy.
    apply mwp_bind. unfold set_elem. apply mwp_bind. eapply mwp_load.
    { by eapply lookup_weaken. }
    simpl. rewrite decide_True by lia. apply mwp_store.
    { exists (cell_of (ys ++ replicate (S (length todo)) zero)). by eapply lookup_weaken. }
    replace (<[length ys := y]> _) with ((ys ++ [y]) ++ replicate (length todo) zero).
    2: { rewrite insert_app_r_alt by lia. rewrite Nat.sub_diag. by rewrite <- app_assoc. }
    replace (S (length ys)) with (length (ys ++ [y])) by (rewrite length_app; simpl; lia).
    eapply mwp_mono; [|eapply (IH (ys ++ [y])); [| |exact Hr| |apply lookup_insert_eq]].
    + cbv beta. intros _ h' (zs & Hzs & Hh' & Hagree & Hfresh). exists (y :: zs). split_and!.
      * simpl. by rewrite Hzs.
      * by rewrite Hh', <- app_assoc.
      * intros l c Hl Hc. apply Hagree; [done|]. rewrite lookup_insert_ne by done.
        by eapply lookup_weaken.
      * eapply (fresh_bind_agree h h1); [apply _| |exact Hy| |].
        -- intros l Hl. by eapply lookup_weaken_None.
        -- intros l c Hl Hc. apply Hagree; [by intros ->; rewrite Hho in Hl|].
           rewrite lookup_insert_ne; [done|]. by intros ->; rewrite Hho in Hl.
        -- apply (fresh_map _ _ _ (cons b)). eapply fresh_since; [|exact Hfresh].
           by intros l [? _]%lookup_insert_None.
    + rewrite (drop_S _ _ _ Hix) in Htake. simpl in Htake. injection Htake as Htake.
      rewrite length_app. simpl. by rewrite Nat.add_1_r, Nat.add_succ_r.
    + rewrite length_app. simpl. lia.
    + apply insert_subseteq_r; [done|]. by transitivity h.
Qed.

Lemma copies_slice {T A} `{Zero T, Stored V (list T)} (f : T -> mem V T) (r : T -> rd V A) :
  (forall x, Local (r x)) -> copies f r -> copies (copy_slice f) (rd_slice r).
Proof.
  intros HL Hf h p a ls Hr. destruct p as [s|]; simpl in *.
  2: { apply rd_ret_Some in Hr as [-> ->]. apply mwp_ret. split; [done|apply fresh_ret]. }
  apply rd_bind_Some in Hr as (arr & ls1 & ls2 & [Hl ->]%rd_load_Some & Hr & ->).
  case_decide as Hlen; [|done].
  apply rd_bind_Some in Hr as (bs & ls3 & ls4 & Hr & [-> ->]%rd_ret_Some & ->).
  unfold make_slice. apply mwp_bind, mwp_bind, mwp_alloc. intros o Ho.
  apply mwp_ret, mwp_bind.
  set (todo := take (sl_len s) (drop (sl_off s) arr)) in *.
  assert (length todo = sl_len s) as Htodo.
  { unfold todo. rewrite length_take, length_drop. lia. }
  pose proof (copy_elems_runs f r s arr o h HL Hf Ho Hl todo []) as Hrun.
  cbn [length app] in Hrun. rewrite Nat.add_0_r, Htodo in Hrun.
  eapply mwp_mono; [|eapply Hrun].
  - cbv beta. intros _ h' (zs & Hzs & Hh' & Hagree & Hfresh). apply mwp_ret. split.
    + apply map_subseteq_spec. intros l c Hc. apply Hagree; [congruence|].
      by rewrite lookup_insert_ne by congruence.
    + simpl. eapply fresh_load; [done|exact Hh'|]. rewrite decide_True by (simpl; lia).
      rewrite drop_0, <- Hzs, firstn_all. apply (fresh_map _ _ _ Some).
      eapply fresh_since; [|exact Hfresh]. intros l. rewrite !lookup_insert_None. tauto.
  - done.
  - done.
  - exact Hr.
  - by apply insert_subseteq.
  - apply lookup_insert_eq.
Qed.

(** [for key, val := range in { ... out[key] = outVal }] over a map of
    pointers *)
Fixpoint copy_entries {T} `{Zero T, Stored V T, Stored V (gmap string (option loc))}
    (f : T -> mem V T) (entries : list (string * option loc)) (out : loc) : mem V unit :=
  match entries with
  | [] => mret tt
  | (key, val) :: entries =>
      outVal ← match val with
               | None => set_key out key (None : option loc);; mret None
               | Some _ => copy_ptr f val
               end;
      set_key out key (outVal : option loc);;
      copy_entries f entries out
  end.

(** [if in != nil { out = make(map[string]*T); for ... }] *)
Definition copy_map {T} `{MapRange, Zero T, Stored V T, Stored V (gmap string (option loc))}
    (f : T -> mem V T) (in_ : option loc) : mem V (option loc) :=
  match in_ with
  | None => mret None
  | Some in_ =>
      out ← alloc (∅ : gmap string (option loc));
      m ← load (gmap string (option loc)) in_;
      copy_entries f (range m) out;;
      mret (Some out)
  end.

Lemma mwp_set_key `{Stored V (gmap string T)} o (m : gmap string T) k x h Q :
  h !! o = Some (cell_of m) -> Q tt (<[o := cell_of (<[k := x]> m)]> h) ->
  mwp (set_key o k x) h Q.
Proof.
  intros Ho HQ. unfold set_key. apply mwp_bind. eapply mwp_load; [exact Ho|].
  apply mwp_store; [by eauto|done].
Qed.

(** The new value of one entry *)
Lemma copy_value_runs {T A} `{Zero T, Stored V T, Stored V (gmap string (option loc))}
    (f : T -> mem V T) (r : T -> rd V A) o h0 key val a ls (m : gmap string (option loc)) h :
  (forall x, Local (r x)) -> copies f r -> h0 !! o = None ->
  rd_ptr r val h0 = Some (a, ls) -> h0 ⊆ h -> h !! o = Some (cell_of m) ->
  mwp (outVal ← match val with
               | None => set_key o key (None : option loc);; mret None
               | Some _ => copy_ptr f val
               end;
       set_key o key (outVal : option loc)) h
    (fun _ h' => exists y, h' !! o = Some (cell_of (<[key := y]> m)) /\
      (forall l c, l <> o -> h !! l = Some c -> h' !! l = Some c) /\
      fresh_in h (rd_ptr r y) h' a).
Proof.
  intros HL Hf Ho Hr Hsub Hho. apply mwp_bind. destruct val as [l|].
  - eapply mwp_mono; [|eapply copies_ptr; [exact HL|exact Hf|exact (local_mono _ _ _ _ _ Hr Hsub)]].
    cbv beta. intros y h1 [Hh1 Hy]. eapply mwp_set_key; [by eapply lookup_weaken|].
    exists y. split_and!; [apply lookup_insert_eq| |].
    + intros l' c Hl' Hc. rewrite lookup_insert_ne by done. by eapply lookup_weaken.
    + apply fresh_insert; [apply _|done|eauto].
  - simpl in Hr. apply rd_ret_Some in Hr as [-> ->]. apply mwp_bind.
    eapply mwp_set_key; [exact Hho|]. apply mwp_ret.
    eapply mwp_set_key; [apply lookup_insert_eq|]. exists None.
    rewrite !insert_insert_eq. split_and!; [apply lookup_insert_eq| |apply fresh_ret].
    intros l' c Hl' Hc. by rewrite lookup_insert_ne.
Qed.

Lemma copy_entries_runs {T A} `{Zero T, Stored V T, Stored V (gmap string (option loc))}
    (f : T -> mem V T) (r : T -> rd V A) o h0 (mi : gmap string (option loc)) :
  (forall x, Local (r x)) -> copies f r -> h0 !! o = None ->
  forall kvs mo h kas ls,
  NoDup kvs.*1 -> (forall k p, (k, p) ∈ kvs -> mi !! k = Some p) ->
  rd_list (rd_entry (rd_ptr r) mi) kvs.*1 h0 = Some (kas, ls) ->
  h0 ⊆ h -> h !! o = Some (cell_of mo) ->
  mwp (copy_entries f kvs o) h (fun _ h' => exists mo' : gmap string (option loc),
    h' !! o = Some (cell_of mo') /\
    (forall k, k ∈ dom mo' <-> k ∈ dom mo \/ k ∈ kvs.*1) /\
    (forall k, k ∉ kvs.*1 -> mo' !! k = mo !! k) /\
    (forall l c, l <> o -> h !! l = Some c -> h' !! l = Some c) /\
    fresh_in h (rd_list (rd_entry (rd_ptr r) mo') kvs.*1) h' kas).
Proof.
  intros HL Hf Ho kvs. induction kvs as [|[k p] kvs IH]; intros mo h kas ls Hnd Hmi Hr Hsub Hho.
  - simpl in Hr. apply rd_ret_Some in Hr as [-> ->]. apply mwp_ret. exists mo.
    split_and!; [done|set_solver|done|done|apply fresh_ret].
  - apply NoDup_cons in Hnd as [Hk Hnd].
    apply rd_list_cons in Hr as (ka & ls1 & kas' & ls3 & Hx & Hr & -> & ->).
    unfold rd_entry in Hx. cbn [fst] in Hx. rewrite (Hmi k p) in Hx by left.
    apply rd_bind_Some in Hx as (a & ls5 & ls6 & Hx & [-> ->]%rd_ret_Some & ->).
    cbn [copy_entries]. apply mwp_bind_assoc.
    eapply mwp_mono; [|by eapply copy_value_runs]. cbv beta. intros _ h1 (y & Ho1 & Hagree1 & Hy).
    assert (h0 ⊆ h1) as Hsub1.
    { apply map_subseteq_spec. intros l c Hc. apply Hagree1; [congruence|].
      by eapply lookup_weaken. }
    eapply mwp_mono; [|eapply IH; [done| |exact Hr|exact Hsub1|exact Ho1]].
    2: { intros k' p' Hin. apply Hmi. by right. }
    cbv beta. intros _ h' (mo' & Ho' & Hdom & Hother & Hagree & Hfresh). exists mo'. split_and!.
    + done.
    + intros k'. rewrite Hdom, dom_insert. set_solver.
    + intros k' Hk'. rewrite Hother, lookup_insert_ne by set_solver. done.
    + eauto.
    + simpl. eapply (fresh_bind_agree h h1); [apply _| | | |by apply (fresh_map _ _ _ (cons _))].
      * intros l Hl. apply eq_None_not_Some. intros [c Hc].
        destruct (decide (l = o)) as [->|]; [congruence|]. by rewrite (Hagree1 _ _ n Hc) in Hl.
      * unfold rd_entry. rewrite Hother by done. rewrite lookup_insert_eq. by apply (fresh_map _ _ _ (pair k)).
      * intros l c Hl Hc. apply Hagree; [congruence|done].
Qed.

Lemma range_keys `{MapRange} {A} (m : gmap string A) : (range m).*1 ≡ₚ elements (dom m).
Proof.
  apply NoDup_Permutation.
  - rewrite range_perm. apply NoDup_fst_map_to_list.
  - apply NoDup_elements.
  - intros k. rewrite elem_of_elements, elem_of_dom, range_perm, list_elem_of_fmap. split.
    + intros ([k' x] & -> & Hin%elem_of_map_to_list). eauto.
    + intros [x Hx]. exists (k, x). split; [done|]. by apply elem_of_map_to_list.
Qed.

Lemma copies_map {T A} `{MapRange, Zero T, Stored V T, Stored V (gmap string (option loc))}
    (f : T -> mem V T) (r : T -> rd V A) :
  (forall x, Local (r x)) -> copies f r -> copies (copy_map f) (rd_map (rd_ptr r)).
Proof.
  intros HL Hf h p a ls Hr. destruct p as [l|]; simpl in *.
  2: { apply rd_ret_Some in Hr as [-> ->]. apply mwp_ret. split; [done|apply fresh_ret]. }
  apply rd_bind_Some in Hr as (m & ls1 & ls2 & [Hl ->]%rd_load_Some & Hr & ->).
  apply rd_bind_Some in Hr as (kas & ls3 & ls4 & Hr & [-> ->]%rd_ret_Some & ->).
  pose proof (rd_entries_keys _ _ _ _ _ _ Hr) as Hkeys.
  destruct (rd_list_perm _ _ _ _ _ _ (symmetry (range_keys m)) Hr) as (kas1 & ls1 & Hr1 & Hkas1 & _).
  apply mwp_bind, mwp_alloc. intros o Ho. apply mwp_bind. eapply mwp_load'.
  { rewrite lookup_insert_ne; [exact Hl|]. intros ->. by rewrite Ho in Hl. }
  apply mwp_bind. eapply mwp_mono.
  2: { eapply (copy_entries_runs f r o h m HL Hf Ho); [| |exact Hr1| |apply lookup_insert_eq].
       - rewrite range_keys. apply NoDup_elements.
       - intros k p Hin. apply elem_of_map_to_list. by rewrite <- range_perm.
       - by apply insert_subseteq. }
  cbv beta. intros _ h' (mo & Ho' & Hdom & _ & Hagree & (ls & Hr' & Hnd & Hls)). apply mwp_ret. split.
  { apply map_subseteq_spec. intros l' c Hc. apply Hagree; [congruence|].
    by rewrite lookup_insert_ne by congruence. }
  simpl. eapply fresh_load; [done|exact Ho'|].
  assert (dom mo = dom m) as Hdom'.
  { apply set_eq. intros k. rewrite Hdom, range_keys. set_solver. }
  destruct (rd_list_perm _ _ _ _ _ _ (range_keys m) Hr') as (kas2 & ls2 & Hr2 & Hkas2 & Hls2).
  replace (list_to_map kas) with (list_to_map kas2 : gmap string (option A)).
  2: { apply list_to_map_proper; [|by rewrite <- Hkas2, Hkas1].
       rewrite <- Hkas2, <- Hkas1, Hkeys. apply NoDup_elements. }
  apply (fresh_map _ _ _ (fun kvs => Some (list_to_map kvs))). rewrite Hdom'.
  exists ls2. split_and!; [done|by rewrite <- Hls2|]. intros l' Hl'. rewrite <- Hls2 in Hl'.
  specialize (Hls l' Hl'). rewrite !lookup_insert_None in Hls |- *. tauto.
Qed.

(** The method [DeepCopy] of a pointer that is not nil *)
Lemma copy_ptr_isolated {T A} `{Zero T, Stored V T} (f : T -> mem V T) (r : T -> rd V A) h p a ls :
  (forall x, Local (r x)) -> copies f r -> rd_ptr r (Some p) h = Some (a, ls) ->
  mwp (copy_ptr f (Some p)) h (fun o h' => exists c, o = Some c /\ h !! c = None /\
    isolated h h' (rd_ptr r (Some p)) (rd_ptr r (Some c)) a).
Proof.
  intros HL Hf Hr.
  eapply mwp_mono; [|eapply (copies_isolated _ _ _ _ _ _ _ (copies_ptr f r HL Hf) Hr)].
  cbv beta. intros o h' Hiso. assert (exists b, a = Some b) as [b ->].
  { simpl in Hr. apply rd_bind_Some in Hr as (? & ? & ? & _ & Hr & _).
    apply rd_bind_Some in Hr as (? & ? & ? & _ & [-> _]%rd_ret_Some & _). eauto. }
  pose proof Hiso as (_ & _ & ls' & _ & Hr' & _ & Hls' & _). destruct o as [c|]; [|done].
  exists c. split_and!; [done| |done]. apply Hls'. simpl in Hr'.
  apply rd_bind_Some in Hr' as (? & ? & ? & [_ ->]%rd_load_Some & _ & ->). by left.
Qed.
End copy.
