(* ===== verification/Api.v ===== *)
(** * The Pipeline API (api/v1alpha1)

    The custom resource's types with the source's field names (prefixed by the
    type, since Rocq projections share one name space), the promotion lookup
    and the waiting-approval map of the status.  A pointer is an [option]; the
    status' map of pointers is a [gmap] of [option]s, so a JSON [null] entry
    is a value of the model.  Of [metav1.ObjectMeta] and [metav1.Condition]
    the fields the program reads or writes are kept. *)

From S2P Require Export Prog.

(** pipeline_types.go *)
Definition MaxConditionMessageLength : Z := 20000.

(** [DefaultRequeueInterval], in nanoseconds *)
Definition DefaultRequeueInterval : Z := 30 * 60 * 1000000000.

(** conditions.go *)
Definition TargetClusterNotFoundReason := "TargetClusterNotFound".
Definition TargetClusterNotReadyReason := "TargetClusterNotReady".
Definition ReconciliationSucceededReason := "ReconciliationSucceeded".
Definition EnvironmentNotReadyReason := "EnvironmentNotReady".
Definition TargetNotReadableReason := "TargetNotReadable".

(** reference_types.go *)
Record LocalAppReference := MkLocalAppReference {
  app_APIVersion : string;
  app_Kind : string;
  app_Name : string }.

Record CrossNamespaceClusterReference := MkClusterRef {
  cr_APIVersion : string;
  cr_Kind : string;
  cr_Name : string;
  cr_Namespace : string }.

(** [func (s *CrossNamespaceClusterReference) String() string]; the receiver
    is a pointer whose fields are read. *)
Definition ClusterRef_String {E} (s : option CrossNamespaceClusterReference) : prog E string :=
  s ← deref s;
  mret (if bool_decide (cr_Namespace s = "")
        then cr_Kind s +:+ "/" +:+ cr_Name s
        else cr_Kind s +:+ "/" +:+ cr_Namespace s +:+ "/" +:+ cr_Name s).

(** [meta.LocalObjectReference] *)
Record LocalObjectReference := MkLocalRef { ref_Name : string }.

(** [type GitProviderType string] *)
Definition Github := "github".
Definition Gitlab := "gitlab".
Definition BitBucketServer := "bitbucket-server".
Definition AzureDevOps := "azure-devops".

Record PullRequestPromotion := MkPullRequestPromotion {
  prp_Type : string;
  prp_URL : string;
  prp_BaseBranch : string;
  prp_SecretRef : LocalObjectReference }.

Record NotificationPromotion := MkNotificationPromotion {}.

Record Strategy := MkStrategy {
  strat_PullRequest : option PullRequestPromotion;
  strat_Notification : option NotificationPromotion;
  strat_SecretRef : option LocalObjectReference }.

Record Promotion := MkPromotion {
  prom_Manual : bool;
  prom_Strategy : Strategy }.

Record Target := MkTarget {
  tgt_Namespace : string;
  tgt_ClusterRef : option CrossNamespaceClusterReference }.

(** [func (t Target) String() string] *)
Definition Target_String {E} (t : Target) : prog E string :=
  s ← ClusterRef_String (tgt_ClusterRef t);
  mret (s +:+ "_" +:+ tgt_Namespace t).

Record Environment := MkEnvironment {
  env_Name : string;
  env_Targets : list Target;
  env_Promotion : option Promotion }.

Record PipelineSpec := MkPipelineSpec {
  spec_Environments : list Environment;
  spec_AppRef : LocalAppReference;
  spec_Promotion : option Promotion }.

Record WaitingApproval := MkWaitingApproval { wa_Revision : string }.

Record ClusterAppReference := MkClusterAppReference {
  car_LocalAppReference : LocalAppReference;
  car_ClusterRef : option CrossNamespaceClusterReference }.

Record TargetStatus := MkTargetStatus {
  ts_ClusterAppRef : ClusterAppReference;
  ts_Ready : bool;
  ts_Revision : string;
  ts_Error : string }.

Record EnvironmentStatus := MkEnvironmentStatus {
  es_WaitingApproval : WaitingApproval;
  es_Targets : list TargetStatus }.

(** [metav1.Condition] and its [ConditionStatus] strings *)
Record Condition := MkCondition {
  cond_Type : string;
  cond_Status : string;
  cond_Reason : string;
  cond_Message : string }.

Definition ConditionTrue := "True".
Definition ConditionFalse := "False".

Record PipelineStatus := MkPipelineStatus {
  st_ObservedGeneration : Z;
  st_Conditions : list Condition;
  st_Environments : gmap string (option EnvironmentStatus) }.

Record Pipeline := MkPipeline {
  pl_Name : string;
  pl_Namespace : string;
  pl_Generation : Z;
  pl_DeletionTimestamp : option Z;
  pl_Spec : PipelineSpec;
  pl_Status : PipelineStatus }.

#[export] Instance LocalAppReference_eq_dec : EqDecision LocalAppReference.
Proof. solve_decision. Defined.
#[export] Instance ClusterRef_eq_dec : EqDecision CrossNamespaceClusterReference.
Proof. solve_decision. Defined.
#[export] Instance LocalObjectReference_eq_dec : EqDecision LocalObjectReference.
Proof. solve_decision. Defined.
#[export] Instance PullRequestPromotion_eq_dec : EqDecision PullRequestPromotion.
Proof. solve_decision. Defined.
#[export] Instance NotificationPromotion_eq_dec : EqDecision NotificationPromotion.
Proof. solve_decision. Defined.
#[export] Instance Strategy_eq_dec : EqDecision Strategy.
Proof. solve_decision. Defined.
#[export] Instance Promotion_eq_dec : EqDecision Promotion.
Proof. solve_decision. Defined.
#[export] Instance Target_eq_dec : EqDecision Target.
Proof. solve_decision. Defined.
#[export] Instance Environment_eq_dec : EqDecision Environment.
Proof. solve_decision. Defined.
#[export] Instance WaitingApproval_eq_dec : EqDecision WaitingApproval.
Proof. solve_decision. Defined.
#[export] Instance ClusterAppReference_eq_dec : EqDecision ClusterAppReference.
Proof. solve_decision. Defined.
#[export] Instance TargetStatus_eq_dec : EqDecision TargetStatus.
Proof. solve_decision. Defined.
#[export] Instance EnvironmentStatus_eq_dec : EqDecision EnvironmentStatus.
Proof. solve_decision. Defined.
#[export] Instance Condition_eq_dec : EqDecision Condition.
Proof. solve_decision. Defined.

(** The zero values Go gives unset fields *)
Definition zero_WaitingApproval := MkWaitingApproval "".
Definition zero_LocalAppReference := MkLocalAppReference "" "" "".
Definition zero_TargetStatus :=
  MkTargetStatus (MkClusterAppReference zero_LocalAppReference None) false "" "".
Definition zero_Environment := MkEnvironment "" [] None.

(** Assigning one field of a struct *)
Definition set_Environments m (s : PipelineStatus) :=
  MkPipelineStatus (st_ObservedGeneration s) (st_Conditions s) m.
Definition set_Conditions cs (s : PipelineStatus) :=
  MkPipelineStatus (st_ObservedGeneration s) cs (st_Environments s).
Definition set_ObservedGeneration g (s : PipelineStatus) :=
  MkPipelineStatus g (st_Conditions s) (st_Environments s).
Definition set_Status st (p : Pipeline) :=
  MkPipeline (pl_Name p) (pl_Namespace p) (pl_Generation p) (pl_DeletionTimestamp p) (pl_Spec p) st.
Definition set_Error e (t : TargetStatus) :=
  MkTargetStatus (ts_ClusterAppRef t) (ts_Ready t) (ts_Revision t) e.
Definition set_Ready b (t : TargetStatus) :=
  MkTargetStatus (ts_ClusterAppRef t) b (ts_Revision t) (ts_Error t).
Definition set_Revision r (t : TargetStatus) :=
  MkTargetStatus (ts_ClusterAppRef t) (ts_Ready t) r (ts_Error t).
Definition set_ClusterAppRef r (t : TargetStatus) :=
  MkTargetStatus r (ts_Ready t) (ts_Revision t) (ts_Error t).

(** ** Looking up the promotion of an environment *)

(** [func (ps PipelineSpec) GetPromotion(env string) *Promotion]: the loop
    over the environments, then the pipeline's default. *)
Fixpoint GetPromotion_loop (envs : list Environment) (env : string) (dflt : option Promotion) :
    option Promotion :=
  match envs with
  | [] => dflt
  | e :: envs =>
      match env_Promotion e with
      | Some p => if bool_decide (env_Name e = env) then Some p else GetPromotion_loop envs env dflt
      | None => GetPromotion_loop envs env dflt
      end
  end.

Definition GetPromotion (ps : PipelineSpec) (env : string) : option Promotion :=
  GetPromotion_loop (spec_Environments ps) env (spec_Promotion ps).

(** ** The waiting approvals of the status *)

(** [func (p *PipelineStatus) GetWaitingApproval(env string)]: a missing entry
    reads as the zero value, a nil entry panics. *)
Definition GetWaitingApproval {E} (p : PipelineStatus) (env : string) : prog E WaitingApproval :=
  match st_Environments p !! env with
  | None => mret zero_WaitingApproval
  | Some val => es ← deref val; mret (es_WaitingApproval es)
  end.

(** [func (p *PipelineStatus) setWaitingApproval]: an absent entry is created
    without targets, a present one is updated through its pointer. *)
Definition setWaitingApproval {E} (p : PipelineStatus) (env : string) (wa : WaitingApproval) :
    prog E PipelineStatus :=
  match st_Environments p !! env with
  | None =>
      mret (set_Environments (<[env := Some (MkEnvironmentStatus wa [])]> (st_Environments p)) p)
  | Some val =>
      es ← deref val;
      mret (set_Environments
              (<[env := Some (MkEnvironmentStatus wa (es_Targets es))]> (st_Environments p)) p)
  end.

Definition SetWaitingApproval {E} (p : PipelineStatus) (env revision : string) :
    prog E PipelineStatus :=
  setWaitingApproval p env (MkWaitingApproval revision).

Definition ResetWaitingApproval {E} (p : PipelineStatus) (env : string) : prog E PipelineStatus :=
  setWaitingApproval p env zero_WaitingApproval.

(** The revision waiting for approval in an environment, as a reader of the
    status sees it: empty when the environment has no (or a nil) entry. *)
Definition waiting (p : PipelineStatus) (env : string) : string :=
  match st_Environments p !! env with
  | Some (Some es) => wa_Revision (es_WaitingApproval es)
  | _ => ""
  end.

(** The targets recorded for an environment *)
Definition status_targets (p : PipelineStatus) (env : string) : list TargetStatus :=
  match st_Environments p !! env with
  | Some (Some es) => es_Targets es
  | _ => []
  end.

(** No entry of the map is a nil pointer: what the API server stores for a
    status written by this program. *)
Definition no_nil (p : PipelineStatus) : Prop :=
  forall env, st_Environments p !! env <> Some None.

(** The pure update behind [setWaitingApproval] when no entry is nil *)
Definition upd_waiting (p : PipelineStatus) (env revision : string) : PipelineStatus :=
  set_Environments
    (<[env := Some (MkEnvironmentStatus (MkWaitingApproval revision) (status_targets p env))]>
      (st_Environments p)) p.

(** ** Lemmas *)

(** The first environment of that name with a promotion of its own decides. *)
Lemma GetPromotion_first ps env pre e post p :
  spec_Environments ps = pre ++ e :: post ->
  env_Name e = env -> env_Promotion e = Some p ->
  Forall (fun e' => env_Name e' <> env \/ env_Promotion e' = None) pre ->
  GetPromotion ps env = Some p.
Proof.
  unfold GetPromotion. intros -> Hname Hp Hpre.
  induction Hpre as [|e' pre He' Hpre IH]; simpl.
  - rewrite Hp. by rewrite bool_decide_true.
  - destruct (env_Promotion e') as [q|]; [|done].
    rewrite bool_decide_false; [done|]. by destruct He'.
Qed.

Lemma GetPromotion_default ps env :
  Forall (fun e' => env_Name e' <> env \/ env_Promotion e' = None) (spec_Environments ps) ->
  GetPromotion ps env = spec_Promotion ps.
Proof.
  unfold GetPromotion. intros H. induction H as [|e' l He' Hl IH]; simpl; [done|].
  destruct (env_Promotion e') as [q|]; [|done].
  rewrite bool_decide_false; [done|]. by destruct He'.
Qed.

Lemma setWaitingApproval_upd {E} p env rev :
  no_nil p ->
  setWaitingApproval (E := E) p env (MkWaitingApproval rev) = PRet (upd_waiting p env rev).
Proof.
  intros H. unfold setWaitingApproval, upd_waiting, status_targets.
  specialize (H env). by destruct (st_Environments p !! env) as [[es|]|].
Qed.

(** The update makes no call. *)
Lemma setWaitingApproval_pure {E} p env wa :
  (exists st, setWaitingApproval (E := E) p env wa = PRet st) \/
  (exists w, setWaitingApproval (E := E) p env wa = PPanic w).
Proof.
  unfold setWaitingApproval. destruct (st_Environments p !! env) as [[es|]|]; simpl; eauto.
Qed.

Lemma GetWaitingApproval_waiting {E} p env :
  no_nil p ->
  GetWaitingApproval (E := E) p env = PRet (MkWaitingApproval (waiting p env)).
Proof.
  intros H. unfold GetWaitingApproval, waiting. specialize (H env).
  destruct (st_Environments p !! env) as [[[[r] ts]|]|]; done.
Qed.

Lemma waiting_upd p env rev env' :
  waiting (upd_waiting p env rev) env' = if decide (env = env') then rev else waiting p env'.
Proof.
  unfold waiting, upd_waiting. simpl. rewrite lookup_insert. by case_decide.
Qed.

Lemma status_targets_upd p env rev env' :
  status_targets (upd_waiting p env rev) env' = status_targets p env'.
Proof.
  unfold status_targets at 1, upd_waiting. simpl. rewrite lookup_insert. by case_decide; subst.
Qed.

Lemma no_nil_upd p env rev : no_nil p -> no_nil (upd_waiting p env rev).
Proof.
  intros H env'. unfold upd_waiting. simpl. rewrite lookup_insert. by case_decide.
Qed.

Lemma no_nil_empty g cs : no_nil (MkPipelineStatus g cs ∅).
Proof. intros env. simpl. by rewrite lookup_empty. Qed.

#[export] Hint Resolve no_nil_upd no_nil_empty : pipeline.
#[export] Hint Rewrite waiting_upd status_targets_upd : pipeline_rw.
