(* ===== verification/DeepCopy.v ===== *)
(** * Deep copies (api/v1alpha1/zz_generated.deepcopy.go)

    The API types as they lie in memory, with pointers, slices and maps into a
    heap, and the generated functions that copy them.  A reader per type gives
    what a value in memory stands for: a value of [Api], except that nil and
    empty slices and maps are told apart.  Every [DeepCopyInto] [copies] its
    reader, so that a deep copy reads as the original and shares no cell with
    it or with itself.

    [x.DeepCopyInto(out)] begins with [*out = *x], so what it leaves in [*out]
    does not depend on what was there: it is a function that returns what
    [*out] holds in the end.  [DeepCopyInto] of apimachinery's types is a
    parameter. *)

From S2P Require Export Copying Api.

(** [metav1.TypeMeta], which has no pointers *)
Record TypeMeta := MkTypeMeta { tm_Kind : string; tm_APIVersion : string }.

(** ** The types in memory, where they differ from those of [Api] *)
Module Mem.

(** Of [metav1.ObjectMeta] and [metav1.ListMeta] what the program uses *)
Record ObjectMeta := MkObjectMeta {
  om_Name : string;
  om_Namespace : string;
  om_Generation : Z;
  om_DeletionTimestamp : option loc }.

Record ListMeta := MkListMeta {
  lm_ResourceVersion : string;
  lm_Continue : string;
  lm_RemainingItemCount : option loc }.

Record ClusterAppReference := MkClusterAppReference {
  car_LocalAppReference : LocalAppReference;
  car_ClusterRef : option loc }.

Record Strategy := MkStrategy {
  strat_PullRequest : option loc;
  strat_Notification : option loc;
  strat_SecretRef : option loc }.

Record Promotion := MkPromotion {
  prom_Manual : bool;
  prom_Strategy : Strategy }.

Record Target := MkTarget {
  tgt_Namespace : string;
  tgt_ClusterRef : option loc }.

Record Environment := MkEnvironment {
  env_Name : string;
  env_Targets : option slice;
  env_Promotion : option loc }.

Record PipelineSpec := MkPipelineSpec {
  spec_Environments : option slice;
  spec_AppRef : LocalAppReference;
  spec_Promotion : option loc }.

Record TargetStatus := MkTargetStatus {
  ts_ClusterAppRef : ClusterAppReference;
  ts_Ready : bool;
  ts_Revision : string;
  ts_Error : string }.

Record EnvironmentStatus := MkEnvironmentStatus {
  es_WaitingApproval : WaitingApproval;
  es_Targets : option slice }.

Record PipelineStatus := MkPipelineStatus {
  st_ObservedGeneration : Z;
  st_Conditions : option slice;
  st_Environments : option loc }.

Record Pipeline := MkPipeline {
  pl_TypeMeta : TypeMeta;
  pl_ObjectMeta : ObjectMeta;
  pl_Spec : PipelineSpec;
  pl_Status : PipelineStatus }.

Record PipelineList := MkPipelineList {
  pll_TypeMeta : TypeMeta;
  pll_ListMeta : ListMeta;
  pll_Items : option slice }.
End Mem.

(** A cell of the heap: what [new] and [make] allocate *)
Inductive cell :=
  | CTime (t : Z)
  | CInt64 (n : Z)
  | CClusterAppReference (x : Mem.ClusterAppReference)
  | CCrossNamespaceClusterReference (x : CrossNamespaceClusterReference)
  | CEnvironment (x : Mem.Environment)
  | CEnvironmentStatus (x : Mem.EnvironmentStatus)
  | CLocalAppReference (x : LocalAppReference)
  | CLocalObjectReference (x : LocalObjectReference)
  | CNotificationPromotion (x : NotificationPromotion)
  | CPipeline (x : Mem.Pipeline)
  | CPipelineList (x : Mem.PipelineList)
  | CPipelineSpec (x : Mem.PipelineSpec)
  | CPipelineStatus (x : Mem.PipelineStatus)
  | CPromotion (x : Mem.Promotion)
  | CPullRequestPromotion (x : PullRequestPromotion)
  | CStrategy (x : Mem.Strategy)
  | CTarget (x : Mem.Target)
  | CTargetStatus (x : Mem.TargetStatus)
  | CWaitingApproval (x : WaitingApproval)
  | CTargets (a : list Mem.Target)
  | CTargetStatuses (a : list Mem.TargetStatus)
  | CEnvironments (a : list Mem.Environment)
  | CConditions (a : list Condition)
  | CPipelines (a : list Mem.Pipeline)
  | CEnvironmentStatusMap (m : gmap string (option loc)).

(** Two types of integers are allocated. *)
Record int64 := MkInt64 { int64_val : Z }.
Record Time := MkTime { time_ns : Z }.

#[export, refine] Instance stored_Time : Stored cell Time := {|
  cell_of x := CTime (time_ns x);
  of_cell c := match c with CTime t => Some (MkTime t) | _ => None end |}.
Proof. by intros []. Defined.
#[export, refine] Instance stored_int64 : Stored cell int64 := {|
  cell_of x := CInt64 (int64_val x);
  of_cell c := match c with CInt64 n => Some (MkInt64 n) | _ => None end |}.
Proof. by intros []. Defined.
#[export, refine] Instance stored_ClusterAppReference : Stored cell Mem.ClusterAppReference := {|
  cell_of x := CClusterAppReference x;
  of_cell c := match c with CClusterAppReference x => Some x | _ => None end |}.
Proof. done. Defined.
#[export, refine] Instance stored_CrossNamespaceClusterReference : Stored cell CrossNamespaceClusterReference := {|
  cell_of x := CCrossNamespaceClusterReference x;
  of_cell c := match c with CCrossNamespaceClusterReference x => Some x | _ => None end |}.
Proof. done. Defined.
#[export, refine] Instance stored_Environment : Stored cell Mem.Environment := {|
  cell_of x := CEnvironment x;
  of_cell c := match c with CEnvironment x => Some x | _ => None end |}.
Proof. done. Defined.
#[export, refine] Instance stored_EnvironmentStatus : Stored cell Mem.EnvironmentStatus := {|
  cell_of x := CEnvironmentStatus x;
  of_cell c := match c with CEnvironmentStatus x => Some x | _ => None end |}.
Proof. done. Defined.
#[export, refine] Instance stored_LocalAppReference : Stored cell LocalAppReference := {|
  cell_of x := CLocalAppReference x;
  of_cell c := match c with CLocalAppReference x => Some x | _ => None end |}.
Proof. done. Defined.
#[export, refine] Instance stored_LocalObjectReference : Stored cell LocalObjectReference := {|
  cell_of x := CLocalObjectReference x;
  of_cell c := match c with CLocalObjectReference x => Some x | _ => None end |}.
Proof. done. Defined.
#[export, refine] Instance stored_NotificationPromotion : Stored cell NotificationPromotion := {|
  cell_of x := CNotificationPromotion x;
  of_cell c := match c with CNotificationPromotion x => Some x | _ => None end |}.
Proof. done. Defined.
#[export, refine] Instance stored_Pipeline : Stored cell Mem.Pipeline := {|
  cell_of x := CPipeline x;
  of_cell c := match c with CPipeline x => Some x | _ => None end |}.
Proof. done. Defined.
#[export, refine] Instance stored_PipelineList : Stored cell Mem.PipelineList := {|
  cell_of x := CPipelineList x;
  of_cell c := match c with CPipelineList x => Some x | _ => None end |}.
Proof. done. Defined.
#[export, refine] Instance stored_PipelineSpec : Stored cell Mem.PipelineSpec := {|
  cell_of x := CPipelineSpec x;
  of_cell c := match c with CPipelineSpec x => Some x | _ => None end |}.
Proof. done. Defined.
#[export, refine] Instance stored_PipelineStatus : Stored cell Mem.PipelineStatus := {|
  cell_of x := CPipelineStatus x;
  of_cell c := match c with CPipelineStatus x => Some x | _ => None end |}.
Proof. done. Defined.
#[export, refine] Instance stored_Promotion : Stored cell Mem.Promotion := {|
  cell_of x := CPromotion x;
  of_cell c := match c with CPromotion x => Some x | _ => None end |}.
Proof. done. Defined.
#[export, refine] Instance stored_PullRequestPromotion : Stored cell PullRequestPromotion := {|
  cell_of x := CPullRequestPromotion x;
  of_cell c := match c with CPullRequestPromotion x => Some x | _ => None end |}.
Proof. done. Defined.
#[export, refine] Instance stored_Strategy : Stored cell Mem.Strategy := {|
  cell_of x := CStrategy x;
  of_cell c := match c with CStrategy x => Some x | _ => None end |}.
Proof. done. Defined.
#[export, refine] Instance stored_Target : Stored cell Mem.Target := {|
  cell_of x := CTarget x;
  of_cell c := match c with CTarget x => Some x | _ => None end |}.
Proof. done. Defined.
#[export, refine] Instance stored_TargetStatus : Stored cell Mem.TargetStatus := {|
  cell_of x := CTargetStatus x;
  of_cell c := match c with CTargetStatus x => Some x | _ => None end |}.
Proof. done. Defined.
#[export, refine] Instance stored_WaitingApproval : Stored cell WaitingApproval := {|
  cell_of x := CWaitingApproval x;
  of_cell c := match c with CWaitingApproval x => Some x | _ => None end |}.
Proof. done. Defined.
#[export, refine] Instance stored_Targets : Stored cell (list Mem.Target) := {|
  cell_of x := CTargets x;
  of_cell c := match c with CTargets x => Some x | _ => None end |}.
Proof. done. Defined.
#[export, refine] Instance stored_TargetStatuses : Stored cell (list Mem.TargetStatus) := {|
  cell_of x := CTargetStatuses x;
  of_cell c := match c with CTargetStatuses x => Some x | _ => None end |}.
Proof. done. Defined.
#[export, refine] Instance stored_Environments : Stored cell (list Mem.Environment) := {|
  cell_of x := CEnvironments x;
  of_cell c := match c with CEnvironments x => Some x | _ => None end |}.
Proof. done. Defined.
#[export, refine] Instance stored_Conditions : Stored cell (list Condition) := {|
  cell_of x := CConditions x;
  of_cell c := match c with CConditions x => Some x | _ => None end |}.
Proof. done. Defined.
#[export, refine] Instance stored_Pipelines : Stored cell (list Mem.Pipeline) := {|
  cell_of x := CPipelines x;
  of_cell c := match c with CPipelines x => Some x | _ => None end |}.
Proof. done. Defined.
#[export, refine] Instance stored_EnvironmentStatusMap : Stored cell (gmap string (option loc)) := {|
  cell_of x := CEnvironmentStatusMap x;
  of_cell c := match c with CEnvironmentStatusMap x => Some x | _ => None end |}.
Proof. done. Defined.

(** The zero values *)
#[export] Instance zero_Time_ : Zero Time := MkTime 0.
#[export] Instance zero_int64_ : Zero int64 := MkInt64 0.
#[export] Instance zero_LocalAppReference_ : Zero LocalAppReference := zero_LocalAppReference.
#[export] Instance zero_CrossNamespaceClusterReference_ : Zero CrossNamespaceClusterReference := MkClusterRef "" "" "" "".
#[export] Instance zero_LocalObjectReference_ : Zero LocalObjectReference := MkLocalRef "".
#[export] Instance zero_NotificationPromotion_ : Zero NotificationPromotion := MkNotificationPromotion.
#[export] Instance zero_PullRequestPromotion_ : Zero PullRequestPromotion := MkPullRequestPromotion "" "" "" zero.
#[export] Instance zero_WaitingApproval_ : Zero WaitingApproval := zero_WaitingApproval.
#[export] Instance zero_Condition_ : Zero Condition := MkCondition "" "" "" "".
#[export] Instance zero_TypeMeta_ : Zero TypeMeta := MkTypeMeta "" "".
#[export] Instance zero_ObjectMeta_ : Zero Mem.ObjectMeta := Mem.MkObjectMeta "" "" 0 None.
#[export] Instance zero_ListMeta_ : Zero Mem.ListMeta := Mem.MkListMeta "" "" None.
#[export] Instance zero_ClusterAppReference_ : Zero Mem.ClusterAppReference := Mem.MkClusterAppReference zero None.
#[export] Instance zero_Strategy_ : Zero Mem.Strategy := Mem.MkStrategy None None None.
#[export] Instance zero_Promotion_ : Zero Mem.Promotion := Mem.MkPromotion false zero.
#[export] Instance zero_Target_ : Zero Mem.Target := Mem.MkTarget "" None.
#[export] Instance zero_Environment_ : Zero Mem.Environment := Mem.MkEnvironment "" None None.
#[export] Instance zero_PipelineSpec_ : Zero Mem.PipelineSpec := Mem.MkPipelineSpec None zero None.
#[export] Instance zero_TargetStatus_ : Zero Mem.TargetStatus := Mem.MkTargetStatus zero false "" "".
#[export] Instance zero_EnvironmentStatus_ : Zero Mem.EnvironmentStatus := Mem.MkEnvironmentStatus zero None.
#[export] Instance zero_PipelineStatus_ : Zero Mem.PipelineStatus := Mem.MkPipelineStatus 0 None None.
#[export] Instance zero_Pipeline_ : Zero Mem.Pipeline := Mem.MkPipeline zero zero zero zero.
#[export] Instance zero_PipelineList_ : Zero Mem.PipelineList := Mem.MkPipelineList zero zero None.

(** ** What a value in memory stands for

    The types of [Api] where they have no slice or map, and these, which tell
    nil ([None]) from empty, elsewhere. *)
Module Val.
Record ObjectMeta := MkObjectMeta {
  om_Name : string;
  om_Namespace : string;
  om_Generation : Z;
  om_DeletionTimestamp : option Z }.

Record ListMeta := MkListMeta {
  lm_ResourceVersion : string;
  lm_Continue : string;
  lm_RemainingItemCount : option Z }.

Record Environment := MkEnvironment {
  env_Name : string;
  env_Targets : option (list Target);
  env_Promotion : option Promotion }.

Record PipelineSpec := MkPipelineSpec {
  spec_Environments : option (list Environment);
  spec_AppRef : LocalAppReference;
  spec_Promotion : option Promotion }.

Record EnvironmentStatus := MkEnvironmentStatus {
  es_WaitingApproval : WaitingApproval;
  es_Targets : option (list TargetStatus) }.

Record PipelineStatus := MkPipelineStatus {
  st_ObservedGeneration : Z;
  st_Conditions : option (list Condition);
  st_Environments : option (gmap string (option EnvironmentStatus)) }.

Record Pipeline := MkPipeline {
  pl_TypeMeta : TypeMeta;
  pl_ObjectMeta : ObjectMeta;
  pl_Spec : PipelineSpec;
  pl_Status : PipelineStatus }.

Record PipelineList := MkPipelineList {
  pll_TypeMeta : TypeMeta;
  pll_ListMeta : ListMeta;
  pll_Items : option (list Pipeline) }.
End Val.

(** The value of [Api] that is meant, which reads nil as empty *)
Definition api_Environment (e : Val.Environment) : Environment :=
  MkEnvironment (Val.env_Name e) (default [] (Val.env_Targets e)) (Val.env_Promotion e).

Definition api_PipelineSpec (s : Val.PipelineSpec) : PipelineSpec :=
  MkPipelineSpec (api_Environment <$> default [] (Val.spec_Environments s))
    (Val.spec_AppRef s) (Val.spec_Promotion s).

Definition api_EnvironmentStatus (s : Val.EnvironmentStatus) : EnvironmentStatus :=
  MkEnvironmentStatus (Val.es_WaitingApproval s) (default [] (Val.es_Targets s)).

Definition api_PipelineStatus (s : Val.PipelineStatus) : PipelineStatus :=
  MkPipelineStatus (Val.st_ObservedGeneration s) (default [] (Val.st_Conditions s))
    (fmap (M := option) api_EnvironmentStatus <$> default ∅ (Val.st_Environments s)).

Definition api_Pipeline (p : Val.Pipeline) : Pipeline :=
  MkPipeline (Val.om_Name (Val.pl_ObjectMeta p)) (Val.om_Namespace (Val.pl_ObjectMeta p))
    (Val.om_Generation (Val.pl_ObjectMeta p)) (Val.om_DeletionTimestamp (Val.pl_ObjectMeta p))
    (api_PipelineSpec (Val.pl_Spec p)) (api_PipelineStatus (Val.pl_Status p)).

(** ** Readers *)
Abbreviation reader := (rd cell).

(** Values without pointers are what they are. *)
Definition read_flat {A} (x : A) : reader A := mret x.

Definition read_Time (t : Time) : reader Z := mret (time_ns t).
Definition read_int64 (n : int64) : reader Z := mret (int64_val n).

Definition read_ObjectMeta (m : Mem.ObjectMeta) : reader Val.ObjectMeta :=
  ts ← rd_ptr read_Time (Mem.om_DeletionTimestamp m);
  mret (Val.MkObjectMeta (Mem.om_Name m) (Mem.om_Namespace m) (Mem.om_Generation m) ts).

Definition read_ListMeta (m : Mem.ListMeta) : reader Val.ListMeta :=
  n ← rd_ptr read_int64 (Mem.lm_RemainingItemCount m);
  mret (Val.MkListMeta (Mem.lm_ResourceVersion m) (Mem.lm_Continue m) n).

Definition read_ClusterAppReference (x : Mem.ClusterAppReference) : reader ClusterAppReference :=
  r ← rd_ptr (T := CrossNamespaceClusterReference) read_flat (Mem.car_ClusterRef x);
  mret (MkClusterAppReference (Mem.car_LocalAppReference x) r).

Definition read_Strategy (x : Mem.Strategy) : reader Strategy :=
  pr ← rd_ptr (T := PullRequestPromotion) read_flat (Mem.strat_PullRequest x);
  n ← rd_ptr (T := NotificationPromotion) read_flat (Mem.strat_Notification x);
  s ← rd_ptr (T := LocalObjectReference) read_flat (Mem.strat_SecretRef x);
  mret (MkStrategy pr n s).

Definition read_Promotion (x : Mem.Promotion) : reader Promotion :=
  s ← read_Strategy (Mem.prom_Strategy x);
  mret (MkPromotion (Mem.prom_Manual x) s).

Definition read_Target (x : Mem.Target) : reader Target :=
  r ← rd_ptr (T := CrossNamespaceClusterReference) read_flat (Mem.tgt_ClusterRef x);
  mret (MkTarget (Mem.tgt_Namespace x) r).

Definition read_Environment (x : Mem.Environment) : reader Val.Environment :=
  ts ← rd_slice read_Target (Mem.env_Targets x);
  p ← rd_ptr read_Promotion (Mem.env_Promotion x);
  mret (Val.MkEnvironment (Mem.env_Name x) ts p).

Definition read_PipelineSpec (x : Mem.PipelineSpec) : reader Val.PipelineSpec :=
  es ← rd_slice read_Environment (Mem.spec_Environments x);
  p ← rd_ptr read_Promotion (Mem.spec_Promotion x);
  mret (Val.MkPipelineSpec es (Mem.spec_AppRef x) p).

Definition read_TargetStatus (x : Mem.TargetStatus) : reader TargetStatus :=
  r ← read_ClusterAppReference (Mem.ts_ClusterAppRef x);
  mret (MkTargetStatus r (Mem.ts_Ready x) (Mem.ts_Revision x) (Mem.ts_Error x)).

Definition read_EnvironmentStatus (x : Mem.EnvironmentStatus) : reader Val.EnvironmentStatus :=
  ts ← rd_slice read_TargetStatus (Mem.es_Targets x);
  mret (Val.MkEnvironmentStatus (Mem.es_WaitingApproval x) ts).

Definition read_PipelineStatus (x : Mem.PipelineStatus) : reader Val.PipelineStatus :=
  cs ← rd_slice (T := Condition) read_flat (Mem.st_Conditions x);
  es ← rd_map (rd_ptr read_EnvironmentStatus) (Mem.st_Environments x);
  mret (Val.MkPipelineStatus (Mem.st_ObservedGeneration x) cs es).

Definition read_Pipeline (x : Mem.Pipeline) : reader Val.Pipeline :=
  m ← read_ObjectMeta (Mem.pl_ObjectMeta x);
  sp ← read_PipelineSpec (Mem.pl_Spec x);
  st ← read_PipelineStatus (Mem.pl_Status x);
  mret (Val.MkPipeline (Mem.pl_TypeMeta x) m sp st).

Definition read_PipelineList (x : Mem.PipelineList) : reader Val.PipelineList :=
  m ← read_ListMeta (Mem.pll_ListMeta x);
  ps ← rd_slice read_Pipeline (Mem.pll_Items x);
  mret (Val.MkPipelineList (Mem.pll_TypeMeta x) m ps).

#[export] Instance local_flat {A} (x : A) : Local (read_flat x).
Proof. apply _. Qed.
#[export] Instance local_Time x : Local (read_Time x).
Proof. unfold read_Time. apply _. Qed.
#[export] Instance local_int64 x : Local (read_int64 x).
Proof. unfold read_int64. apply _. Qed.
#[export] Instance local_ObjectMeta x : Local (read_ObjectMeta x).
Proof. unfold read_ObjectMeta. apply _. Qed.
#[export] Instance local_ListMeta x : Local (read_ListMeta x).
Proof. unfold read_ListMeta. apply _. Qed.
#[export] Instance local_ClusterAppReference x : Local (read_ClusterAppReference x).
Proof. unfold read_ClusterAppReference. apply _. Qed.
#[export] Instance local_Strategy x : Local (read_Strategy x).
Proof. unfold read_Strategy. apply _. Qed.
#[export] Instance local_Promotion x : Local (read_Promotion x).
Proof. unfold read_Promotion. apply _. Qed.
#[export] Instance local_Target x : Local (read_Target x).
Proof. unfold read_Target. apply _. Qed.
#[export] Instance local_Environment x : Local (read_Environment x).
Proof. unfold read_Environment. apply _. Qed.
#[export] Instance local_PipelineSpec x : Local (read_PipelineSpec x).
Proof. unfold read_PipelineSpec. apply _. Qed.
#[export] Instance local_TargetStatus x : Local (read_TargetStatus x).
Proof. unfold read_TargetStatus. apply _. Qed.
#[export] Instance local_EnvironmentStatus x : Local (read_EnvironmentStatus x).
Proof. unfold read_EnvironmentStatus. apply _. Qed.
#[export] Instance local_PipelineStatus x : Local (read_PipelineStatus x).
Proof. unfold read_PipelineStatus. apply _. Qed.
#[export] Instance local_Pipeline x : Local (read_Pipeline x).
Proof. unfold read_Pipeline. apply _. Qed.
#[export] Instance local_PipelineList x : Local (read_PipelineList x).
Proof. unfold read_PipelineList. apply _. Qed.

(** ** apimachinery's deep copies

    [metav1.ObjectMeta], [metav1.ListMeta] and [metav1.Condition] come with
    generated functions of their own, which make deep copies. *)
Class MetaCopy := {
  ObjectMeta_DeepCopyInto : Mem.ObjectMeta -> mem cell Mem.ObjectMeta;
  ListMeta_DeepCopyInto : Mem.ListMeta -> mem cell Mem.ListMeta;
  Condition_DeepCopyInto : Condition -> mem cell Condition;
  copies_ObjectMeta : copies ObjectMeta_DeepCopyInto read_ObjectMeta;
  copies_ListMeta : copies ListMeta_DeepCopyInto read_ListMeta;
  copies_Condition : copies Condition_DeepCopyInto read_flat }.

Create HintDb copies.
#[export] Hint Resolve copies_ObjectMeta copies_ListMeta copies_Condition : copies.
#[export] Hint Extern 1 (copies (copy_ptr _) _) => apply copies_ptr; [apply _|] : copies.
#[export] Hint Extern 1 (copies (copy_slice _) _) => apply copies_slice; [apply _|] : copies.
#[export] Hint Extern 1 (copies (copy_map _) _) => apply copies_map; [apply _|] : copies.

(** The heaps only grow. *)
Ltac grown :=
  match goal with
  | |- ?a ⊆ ?a => reflexivity
  | H : ?b ⊆ ?c |- ?a ⊆ ?c => transitivity b; [grown|exact H]
  end.

(** Copy a struct part by part: a part is read in the first heap, copied in the
    one there is by then, and stays as it is while the next is copied. *)
Ltac copy_struct f r :=
  intros ? ? ? ? Hr; unfold r in Hr; unfold f;
  repeat (let Hx := fresh "Hx" in apply rd_bind_Some in Hr as (? & ? & ? & Hx & Hr & ->));
  apply rd_ret_Some in Hr as [-> ->];
  repeat (eapply mwp_copy; cycle 2;
          [eassumption | grown | intros ? ? ? ?
          | solve [auto with copies] | apply _]);
  apply mwp_ret; split; [grown|unfold r; simpl];
  repeat (eapply fresh_bind; [apply _| |eassumption| |];
          [grown|grown|]);
  apply fresh_ret.

(** ** The generated functions *)
Section deepcopy.
Context `{MetaCopy, MapRange}.
Abbreviation M := (mem cell).

Definition CrossNamespaceClusterReference_DeepCopyInto (x : CrossNamespaceClusterReference) :
    M CrossNamespaceClusterReference := mret x.

Definition CrossNamespaceClusterReference_DeepCopy : option loc -> M (option loc) :=
  copy_ptr CrossNamespaceClusterReference_DeepCopyInto.

Definition LocalAppReference_DeepCopyInto (x : LocalAppReference) : M LocalAppReference := mret x.

Definition LocalAppReference_DeepCopy : option loc -> M (option loc) :=
  copy_ptr LocalAppReference_DeepCopyInto.

Definition NotificationPromotion_DeepCopyInto (x : NotificationPromotion) :
    M NotificationPromotion := mret x.

Definition NotificationPromotion_DeepCopy : option loc -> M (option loc) :=
  copy_ptr NotificationPromotion_DeepCopyInto.

Definition PullRequestPromotion_DeepCopyInto (x : PullRequestPromotion) :
    M PullRequestPromotion := mret x.

Definition PullRequestPromotion_DeepCopy : option loc -> M (option loc) :=
  copy_ptr PullRequestPromotion_DeepCopyInto.

Definition WaitingApproval_DeepCopyInto (x : WaitingApproval) : M WaitingApproval := mret x.

Definition WaitingApproval_DeepCopy : option loc -> M (option loc) :=
  copy_ptr WaitingApproval_DeepCopyInto.

(** [**out = **in] of a value without pointers *)
Definition assign {T} (x : T) : M T := mret x.

Definition ClusterAppReference_DeepCopyInto (x : Mem.ClusterAppReference) :
    M Mem.ClusterAppReference :=
  r ← copy_ptr (assign (T := CrossNamespaceClusterReference)) (Mem.car_ClusterRef x);
  mret (Mem.MkClusterAppReference (Mem.car_LocalAppReference x) r).

Definition ClusterAppReference_DeepCopy : option loc -> M (option loc) :=
  copy_ptr ClusterAppReference_DeepCopyInto.

Definition Strategy_DeepCopyInto (x : Mem.Strategy) : M Mem.Strategy :=
  pr ← copy_ptr (assign (T := PullRequestPromotion)) (Mem.strat_PullRequest x);
  n ← copy_ptr (assign (T := NotificationPromotion)) (Mem.strat_Notification x);
  s ← copy_ptr (assign (T := LocalObjectReference)) (Mem.strat_SecretRef x);
  mret (Mem.MkStrategy pr n s).

Definition Strategy_DeepCopy : option loc -> M (option loc) := copy_ptr Strategy_DeepCopyInto.

Definition Promotion_DeepCopyInto (x : Mem.Promotion) : M Mem.Promotion :=
  s ← Strategy_DeepCopyInto (Mem.prom_Strategy x);
  mret (Mem.MkPromotion (Mem.prom_Manual x) s).

Definition Promotion_DeepCopy : option loc -> M (option loc) := copy_ptr Promotion_DeepCopyInto.

Definition Target_DeepCopyInto (x : Mem.Target) : M Mem.Target :=
  r ← copy_ptr (assign (T := CrossNamespaceClusterReference)) (Mem.tgt_ClusterRef x);
  mret (Mem.MkTarget (Mem.tgt_Namespace x) r).

Definition Target_DeepCopy : option loc -> M (option loc) := copy_ptr Target_DeepCopyInto.

Definition Environment_DeepCopyInto (x : Mem.Environment) : M Mem.Environment :=
  ts ← copy_slice Target_DeepCopyInto (Mem.env_Targets x);
  p ← copy_ptr Promotion_DeepCopyInto (Mem.env_Promotion x);
  mret (Mem.MkEnvironment (Mem.env_Name x) ts p).

Definition Environment_DeepCopy : option loc -> M (option loc) := copy_ptr Environment_DeepCopyInto.

Definition TargetStatus_DeepCopyInto (x : Mem.TargetStatus) : M Mem.TargetStatus :=
  r ← ClusterAppReference_DeepCopyInto (Mem.ts_ClusterAppRef x);
  mret (Mem.MkTargetStatus r (Mem.ts_Ready x) (Mem.ts_Revision x) (Mem.ts_Error x)).

Definition TargetStatus_DeepCopy : option loc -> M (option loc) :=
  copy_ptr TargetStatus_DeepCopyInto.

Definition EnvironmentStatus_DeepCopyInto (x : Mem.EnvironmentStatus) : M Mem.EnvironmentStatus :=
  ts ← copy_slice TargetStatus_DeepCopyInto (Mem.es_Targets x);
  mret (Mem.MkEnvironmentStatus (Mem.es_WaitingApproval x) ts).

Definition EnvironmentStatus_DeepCopy : option loc -> M (option loc) :=
  copy_ptr EnvironmentStatus_DeepCopyInto.

Definition PipelineSpec_DeepCopyInto (x : Mem.PipelineSpec) : M Mem.PipelineSpec :=
  es ← copy_slice Environment_DeepCopyInto (Mem.spec_Environments x);
  p ← copy_ptr Promotion_DeepCopyInto (Mem.spec_Promotion x);
  mret (Mem.MkPipelineSpec es (Mem.spec_AppRef x) p).

Definition PipelineSpec_DeepCopy : option loc -> M (option loc) :=
  copy_ptr PipelineSpec_DeepCopyInto.

Definition PipelineStatus_DeepCopyInto (x : Mem.PipelineStatus) : M Mem.PipelineStatus :=
  cs ← copy_slice Condition_DeepCopyInto (Mem.st_Conditions x);
  es ← copy_map EnvironmentStatus_DeepCopyInto (Mem.st_Environments x);
  mret (Mem.MkPipelineStatus (Mem.st_ObservedGeneration x) cs es).

Definition PipelineStatus_DeepCopy : option loc -> M (option loc) :=
  copy_ptr PipelineStatus_DeepCopyInto.

Definition Pipeline_DeepCopyInto (x : Mem.Pipeline) : M Mem.Pipeline :=
  m ← ObjectMeta_DeepCopyInto (Mem.pl_ObjectMeta x);
  sp ← PipelineSpec_DeepCopyInto (Mem.pl_Spec x);
  st ← PipelineStatus_DeepCopyInto (Mem.pl_Status x);
  mret (Mem.MkPipeline (Mem.pl_TypeMeta x) m sp st).

Definition Pipeline_DeepCopy : option loc -> M (option loc) := copy_ptr Pipeline_DeepCopyInto.

(** A [runtime.Object] is nil or a pointer of a dynamic type. *)
Inductive Object := OPipeline (p : loc) | OPipelineList (p : loc).

Definition Pipeline_DeepCopyObject (in_ : option loc) : M (option Object) :=
  c ← Pipeline_DeepCopy in_;
  match c with
  | Some c => mret (Some (OPipeline c))
  | None => mret None
  end.

Definition PipelineList_DeepCopyInto (x : Mem.PipelineList) : M Mem.PipelineList :=
  m ← ListMeta_DeepCopyInto (Mem.pll_ListMeta x);
  ps ← copy_slice Pipeline_DeepCopyInto (Mem.pll_Items x);
  mret (Mem.MkPipelineList (Mem.pll_TypeMeta x) m ps).

Definition PipelineList_DeepCopy : option loc -> M (option loc) :=
  copy_ptr PipelineList_DeepCopyInto.

Definition PipelineList_DeepCopyObject (in_ : option loc) : M (option Object) :=
  c ← PipelineList_DeepCopy in_;
  match c with
  | Some c => mret (Some (OPipelineList c))
  | None => mret None
  end.

(** ** They make deep copies *)
Lemma copies_assign {T} : copies (assign (T := T)) read_flat.
Proof. apply (copies_ret id). Qed.
#[local] Hint Resolve copies_assign : copies.

Lemma copies_CrossNamespaceClusterReference : copies CrossNamespaceClusterReference_DeepCopyInto read_flat.
Proof. apply copies_assign. Qed.
Lemma copies_LocalAppReference : copies LocalAppReference_DeepCopyInto read_flat.
Proof. apply copies_assign. Qed.
Lemma copies_NotificationPromotion : copies NotificationPromotion_DeepCopyInto read_flat.
Proof. apply copies_assign. Qed.
Lemma copies_PullRequestPromotion : copies PullRequestPromotion_DeepCopyInto read_flat.
Proof. apply copies_assign. Qed.
Lemma copies_WaitingApproval : copies WaitingApproval_DeepCopyInto read_flat.
Proof. apply copies_assign. Qed.

Lemma copies_ClusterAppReference : copies ClusterAppReference_DeepCopyInto read_ClusterAppReference.
Proof. copy_struct ClusterAppReference_DeepCopyInto read_ClusterAppReference. Qed.
#[local] Hint Resolve copies_ClusterAppReference : copies.

Lemma copies_Strategy : copies Strategy_DeepCopyInto read_Strategy.
Proof. copy_struct Strategy_DeepCopyInto read_Strategy. Qed.
#[local] Hint Resolve copies_Strategy : copies.

Lemma copies_Promotion : copies Promotion_DeepCopyInto read_Promotion.
Proof. copy_struct Promotion_DeepCopyInto read_Promotion. Qed.
#[local] Hint Resolve copies_Promotion : copies.

Lemma copies_Target : copies Target_DeepCopyInto read_Target.
Proof. copy_struct Target_DeepCopyInto read_Target. Qed.
#[local] Hint Resolve copies_Target : copies.

Lemma copies_Environment : copies Environment_DeepCopyInto read_Environment.
Proof. copy_struct Environment_DeepCopyInto read_Environment. Qed.
#[local] Hint Resolve copies_Environment : copies.

Lemma copies_TargetStatus : copies TargetStatus_DeepCopyInto read_TargetStatus.
Proof. copy_struct TargetStatus_DeepCopyInto read_TargetStatus. Qed.
#[local] Hint Resolve copies_TargetStatus : copies.

Lemma copies_EnvironmentStatus : copies EnvironmentStatus_DeepCopyInto read_EnvironmentStatus.
Proof. copy_struct EnvironmentStatus_DeepCopyInto read_EnvironmentStatus. Qed.
#[local] Hint Resolve copies_EnvironmentStatus : copies.

Lemma copies_PipelineSpec : copies PipelineSpec_DeepCopyInto read_PipelineSpec.
Proof. copy_struct PipelineSpec_DeepCopyInto read_PipelineSpec. Qed.
#[local] Hint Resolve copies_PipelineSpec : copies.

Lemma copies_PipelineStatus : copies PipelineStatus_DeepCopyInto read_PipelineStatus.
Proof. copy_struct PipelineStatus_DeepCopyInto read_PipelineStatus. Qed.
#[local] Hint Resolve copies_PipelineStatus : copies.

Lemma copies_Pipeline : copies Pipeline_DeepCopyInto read_Pipeline.
Proof. copy_struct Pipeline_DeepCopyInto read_Pipeline. Qed.
#[local] Hint Resolve copies_Pipeline : copies.

Lemma copies_PipelineList : copies PipelineList_DeepCopyInto read_PipelineList.
Proof. copy_struct PipelineList_DeepCopyInto read_PipelineList. Qed.
#[local] Hint Resolve copies_PipelineList : copies.

(** C14.  The deep copy of nil is nil.  The deep copy of an object that reads as
    [v] is an object of the same type at a new address that reads as [v], nil
    and empty slices and maps told apart; no cell there was has changed, no cell
    of the copy is shared, with the original or within the copy, and later
    writes to the one do not show in the other. *)
Theorem DeepCopyObject_isolated h :
  Pipeline_DeepCopyObject None h = (Done None, h) /\
  PipelineList_DeepCopyObject None h = (Done None, h) /\
  (forall p v ls, rd_ptr read_Pipeline (Some p) h = Some (v, ls) ->
   mwp (Pipeline_DeepCopyObject (Some p)) h (fun o h' => exists c,
     o = Some (OPipeline c) /\ h !! c = None /\
     isolated h h' (rd_ptr read_Pipeline (Some p)) (rd_ptr read_Pipeline (Some c)) v)) /\
  (forall p v ls, rd_ptr read_PipelineList (Some p) h = Some (v, ls) ->
   mwp (PipelineList_DeepCopyObject (Some p)) h (fun o h' => exists c,
     o = Some (OPipelineList c) /\ h !! c = None /\
     isolated h h' (rd_ptr read_PipelineList (Some p)) (rd_ptr read_PipelineList (Some c)) v)).
Proof.
  split_and!; [done..| |].
  - intros p v ls Hr. apply mwp_bind.
    eapply mwp_mono; [|by eapply copy_ptr_isolated; [apply _|apply copies_Pipeline|]].
    cbv beta. intros o h' (c & -> & Hc & Hiso). apply mwp_ret. eauto.
  - intros p v ls Hr. apply mwp_bind.
    eapply mwp_mono; [|by eapply copy_ptr_isolated; [apply _|apply copies_PipelineList|]].
    cbv beta. intros o h' (c & -> & Hc & Hiso). apply mwp_ret. eauto.
Qed.
End deepcopy.

(** ** An instance: apimachinery's copies of the fields that are kept *)
Definition plain_ObjectMeta_DeepCopyInto (x : Mem.ObjectMeta) : mem cell Mem.ObjectMeta :=
  t ← copy_ptr (mret : Time -> mem cell Time) (Mem.om_DeletionTimestamp x);
  mret (Mem.MkObjectMeta (Mem.om_Name x) (Mem.om_Namespace x) (Mem.om_Generation x) t).

Definition plain_ListMeta_DeepCopyInto (x : Mem.ListMeta) : mem cell Mem.ListMeta :=
  n ← copy_ptr (mret : int64 -> mem cell int64) (Mem.lm_RemainingItemCount x);
  mret (Mem.MkListMeta (Mem.lm_ResourceVersion x) (Mem.lm_Continue x) n).

#[export, refine] Instance plain_MetaCopy : MetaCopy := {|
  ObjectMeta_DeepCopyInto := plain_ObjectMeta_DeepCopyInto;
  ListMeta_DeepCopyInto := plain_ListMeta_DeepCopyInto;
  Condition_DeepCopyInto := mret |}.
Proof.
  - pose proof (copies_ret (V := cell) time_ns : copies mret read_Time).
    copy_struct plain_ObjectMeta_DeepCopyInto read_ObjectMeta.
  - pose proof (copies_ret (V := cell) int64_val : copies mret read_int64).
    copy_struct plain_ListMeta_DeepCopyInto read_ListMeta.
  - apply (copies_ret id).
Defined.

(** A pipeline as the level-triggered reconciler leaves it: the status points
    at the cluster reference of the specification, and a list that has it
    twice. *)
Definition sample_memory : Mem.Pipeline :=
  Mem.MkPipeline (MkTypeMeta "Pipeline" "v1alpha1")
    (Mem.MkObjectMeta "podinfo" "default" 1 None)
    (Mem.MkPipelineSpec (Some (MkSlice 3 0 1 1)) zero_LocalAppReference None)
    (Mem.MkPipelineStatus 1 (Some (MkSlice 7 0 1 1)) (Some 6%positive)).

Definition sample_heap : heap cell := {[
  1%positive := CCrossNamespaceClusterReference (MkClusterRef "" "GitopsCluster" "edge" "default");
  2%positive := CTargets [Mem.MkTarget "apps" (Some 1%positive)];
  3%positive := CEnvironments [Mem.MkEnvironment "dev" (Some (MkSlice 2 0 1 1)) None];
  4%positive := CTargetStatuses
    [Mem.MkTargetStatus (Mem.MkClusterAppReference zero_LocalAppReference (Some 1%positive)) true "1.0.0" ""];
  5%positive := CEnvironmentStatus
    (Mem.MkEnvironmentStatus (MkWaitingApproval "2.0.0") (Some (MkSlice 4 0 1 2)));
  6%positive := CEnvironmentStatusMap {["dev" := Some 5%positive; "prod" := None]};
  7%positive := CConditions [MkCondition "Ready" "True" "" ""];
  8%positive := CPipeline sample_memory;
  9%positive := CPipelines [sample_memory; sample_memory];
  10%positive := CPipelineList (Mem.MkPipelineList (MkTypeMeta "PipelineList" "v1alpha1")
    (Mem.MkListMeta "1" "" None) (Some (MkSlice 9 0 2 2))) ]}.

Lemma DeepCopyObject_isolated_witness :
  match rd_ptr read_Pipeline (Some 8%positive) sample_heap,
        rd_ptr read_PipelineList (Some 10%positive) sample_heap with
  | Some (v, ls), Some (w, ls') =>
      ls = [8; 3; 2; 1; 7; 6; 5; 4; 1]%positive /\ length ls' = 18 /\
      mwp (Pipeline_DeepCopyObject (Some 8%positive)) sample_heap (fun o h' => exists c,
        o = Some (OPipeline c) /\ sample_heap !! c = None /\
        isolated sample_heap h' (rd_ptr read_Pipeline (Some 8%positive))
          (rd_ptr read_Pipeline (Some c)) v) /\
      mwp (PipelineList_DeepCopyObject (Some 10%positive)) sample_heap (fun o h' => exists c,
        o = Some (OPipelineList c) /\ sample_heap !! c = None /\
        isolated sample_heap h' (rd_ptr read_PipelineList (Some 10%positive))
          (rd_ptr read_PipelineList (Some c)) w)
  | _, _ => False
  end.
Proof.
  destruct (DeepCopyObject_isolated sample_heap) as (_ & _ & H1 & H2).
  destruct (rd_ptr read_Pipeline _ _) as [[v ls]|] eqn:Hr; [|by vm_compute in Hr].
  destruct (rd_ptr read_PipelineList _ _) as [[w ls']|] eqn:Hr'; [|by vm_compute in Hr'].
  split_and!.
  - apply (f_equal (fmap snd)) in Hr. vm_compute in Hr. by injection Hr as <-.
  - apply (f_equal (fmap (length ∘ snd))) in Hr'. vm_compute in Hr'. injection Hr' as Hn. symmetry. exact Hn.
  - exact (H1 _ _ _ Hr).
  - exact (H2 _ _ _ Hr').
Defined.
