(* ===== verification/Aliasing.v ===== *)
(** * Objects that are shared

    [Api] models the waiting approvals of a status on values, while the code
    (api/v1alpha1/pipeline_types.go) writes through the pointers of a map.  This
    file has the code's methods on memory and shows that on a status that shares
    nothing with itself they do what [Api] says, that an object read from a
    cache is safe to write because it is a deep copy, and that without the copy
    the write would reach the cache. *)

From S2P Require Export DeepCopy.

(** ** The methods on memory (pipeline_types.go)

    The receiver [p] is a pointer to a status: the methods return what it
    points to in the end. *)
Module Heap.
Abbreviation M := (mem cell).
Abbreviation env_map := (gmap string (option loc)).

Definition set_environments m (p : Mem.PipelineStatus) : Mem.PipelineStatus :=
  Mem.MkPipelineStatus (Mem.st_ObservedGeneration p) (Mem.st_Conditions p) m.

(** [(p *PipelineStatus) GetWaitingApproval]; a nil map has no keys. *)
Definition GetWaitingApproval (p : Mem.PipelineStatus) (env : string) : M WaitingApproval :=
  match Mem.st_Environments p with
  | None => mret zero_WaitingApproval
  | Some m =>
      es ← load env_map m;
      match es !! env with
      | None => mret zero_WaitingApproval
      | Some None => nil_dereference
      | Some (Some val) => x ← load Mem.EnvironmentStatus val; mret (Mem.es_WaitingApproval x)
      end
  end.

(** [if p.Environments == nil { p.Environments = make(...) }] *)
Definition ensure_environments (p : Mem.PipelineStatus) : M (Mem.PipelineStatus * loc) :=
  match Mem.st_Environments p with
  | None => m ← alloc (∅ : env_map); mret (set_environments (Some m) p, m)
  | Some m => mret (p, m)
  end.

(** [(p *PipelineStatus) setWaitingApproval]: after the map is there, *)
Definition set_entry (p : Mem.PipelineStatus) (env : string) (wa : WaitingApproval) (m : loc) :
    M Mem.PipelineStatus :=
  es ← load env_map m;
  match es !! env with
  | None =>
      val ← alloc (Mem.MkEnvironmentStatus wa None);
      set_key m env (Some val);;
      mret p
  | Some None => nil_dereference
  | Some (Some val) =>
      x ← load Mem.EnvironmentStatus val;
      store val (Mem.MkEnvironmentStatus wa (Mem.es_Targets x));;
      mret p
  end.

Definition setWaitingApproval (p : Mem.PipelineStatus) (env : string) (wa : WaitingApproval) :
    M Mem.PipelineStatus :=
  '(p, m) ← ensure_environments p;
  set_entry p env wa m.

Definition SetWaitingApproval (p : Mem.PipelineStatus) (env revision : string) :
    M Mem.PipelineStatus :=
  setWaitingApproval p env (MkWaitingApproval revision).

Definition ResetWaitingApproval (p : Mem.PipelineStatus) (env : string) : M Mem.PipelineStatus :=
  setWaitingApproval p env zero_WaitingApproval.

(** [pipeline.Status.SetWaitingApproval(env, revision)] on the pipeline at [p] *)
Definition set_Status st (x : Mem.Pipeline) : Mem.Pipeline :=
  Mem.MkPipeline (Mem.pl_TypeMeta x) (Mem.pl_ObjectMeta x) (Mem.pl_Spec x) st.

Definition update_Status (f : Mem.PipelineStatus -> M Mem.PipelineStatus) (p : loc) : M unit :=
  x ← load Mem.Pipeline p;
  st ← f (Mem.pl_Status x);
  store p (set_Status st x).
End Heap.

(** What a method on values says of the run on memory *)
Definition no_calls : Type -> Type := fun _ => Empty_set.

(** Only cells of [ls], or new ones, have been written. *)
Definition writes_within (ls : list loc) (h h' : heap cell) : Prop :=
  forall l, is_Some (h !! l) -> l ∉ ls -> h' !! l = h !! l.

(** [st] is what the status in memory stands for, it shares nothing with
    itself, and is made of the cells [ls] and of new ones. *)
Definition stands_for (h h' : heap cell) (ls : list loc) (p : Mem.PipelineStatus)
    (st : PipelineStatus) : Prop :=
  exists v ls', read_PipelineStatus p h' = Some (v, ls') /\ NoDup ls' /\
    api_PipelineStatus v = st /\ forall l, l ∈ ls' -> l ∈ ls \/ h !! l = None.

Lemma read_PipelineStatus_inv p h v ls :
  read_PipelineStatus p h = Some (v, ls) <-> exists cs lc es le,
    rd_slice (T := Condition) read_flat (Mem.st_Conditions p) h = Some (cs, lc) /\
    rd_map (rd_ptr read_EnvironmentStatus) (Mem.st_Environments p) h = Some (es, le) /\
    v = Val.MkPipelineStatus (Mem.st_ObservedGeneration p) cs es /\ ls = lc ++ le.
Proof.
  unfold read_PipelineStatus. rewrite rd_bind_Some. split.
  - intros (cs & lc & ? & Hc & (es & le & ? & He & [-> ->]%rd_ret_Some & ->)%rd_bind_Some & ->).
    exists cs, lc, es, le. by rewrite app_nil_r.
  - intros (cs & lc & es & le & Hc & He & -> & ->). exists cs, lc, le. split_and!; [done| |done].
    apply rd_bind_Some. exists es, le, []. by rewrite app_nil_r.
Qed.

Lemma read_EnvironmentStatus_set x wa h v ls :
  read_EnvironmentStatus x h = Some (v, ls) ->
  read_EnvironmentStatus (Mem.MkEnvironmentStatus wa (Mem.es_Targets x)) h =
    Some (Val.MkEnvironmentStatus wa (Val.es_Targets v), ls).
Proof.
  unfold read_EnvironmentStatus. intros (ts & l1 & l2 & Hts & [-> ->]%rd_ret_Some & ->)%rd_bind_Some.
  apply rd_bind_Some. by exists ts, l1, [].
Qed.

Lemma of_cell_map (h : heap cell) m es :
  h !! m ≫= of_cell = Some es -> h !! m = Some (CEnvironmentStatusMap es).
Proof. destruct (h !! m) as [[]|]; simpl; naive_solver. Qed.

Lemma api_lookup vm env :
  (fmap (M := option) api_EnvironmentStatus <$> (vm : gmap string (option Val.EnvironmentStatus)))
    !! env = fmap (M := option) api_EnvironmentStatus <$> vm !! env.
Proof. apply lookup_fmap. Qed.

Section set_entry.
Context (p : Mem.PipelineStatus) (h : heap cell) (m : loc) (es : Heap.env_map).
Context (cs : option (list Condition)) (lc : list loc).
Context (vm : gmap string (option Val.EnvironmentStatus)) (le : list loc).
Context (Hp : Mem.st_Environments p = Some m).
Context (Hc : rd_slice (T := Condition) read_flat (Mem.st_Conditions p) h = Some (cs, lc)).
Context (He : rd_map (rd_ptr read_EnvironmentStatus) (Some m) h = Some (Some vm, le)).
Context (Hnd : NoDup (lc ++ le)) (Hes : h !! m ≫= of_cell = Some es).

Let st vm := api_PipelineStatus (Val.MkPipelineStatus (Mem.st_ObservedGeneration p) cs (Some vm)).

Lemma map_cell : m ∈ le.
Proof. apply rd_map_inv in He as (? & ? & ? & _ & -> & _). by left. Qed.

Lemma vm_lookup env :
  match es !! env with
  | None => vm !! env = None
  | Some y => exists a lx, rd_ptr read_EnvironmentStatus y h = Some (a, lx) /\ vm !! env = Some a
  end.
Proof.
  apply rd_map_inv in He as (es' & kas & ls & Hes' & _ & -> & Hr & Hk).
  rewrite Hes in Hes'. injection Hes' as <-. destruct (es !! env) as [y|] eqn:Hy.
  - destruct (rd_entries_lookup _ _ _ _ _ _ env y Hr) as (a & lx & Ha & Hin & _ & _); [|done|].
    + apply elem_of_elements, elem_of_dom. eauto.
    + exists a, lx. split; [done|]. by apply elem_of_list_to_map_1.
  - apply not_elem_of_list_to_map_1. rewrite (rd_entries_keys _ _ _ _ _ _ Hr), elem_of_elements.
    by apply not_elem_of_dom.
Qed.

(** The entry is absent: a new one is made. *)
Lemma set_entry_absent env wa :
  es !! env = None ->
  mwp (Heap.set_entry p env wa m) h (fun p' h' => writes_within (lc ++ le) h h' /\
    stands_for h h' (lc ++ le) p' (set_Environments
      (<[env := Some (MkEnvironmentStatus wa [])]> (st_Environments (st vm))) (st vm))).
Proof.
  intros Hk. pose proof map_cell as Hm. apply of_cell_map in Hes as Hes'. unfold Heap.set_entry.
  apply mwp_bind. eapply mwp_load'; [exact Hes|]. rewrite Hk. apply mwp_bind, mwp_alloc.
  intros val Hval. assert (m <> val) as Hne by congruence.
  apply mwp_bind. eapply mwp_set_key; [rewrite lookup_insert_ne by done; exact Hes'|]. apply mwp_ret.
  set (h' := <[m := _]> _).
  assert (forall l, is_Some (h !! l) -> l <> m -> h' !! l = h !! l) as Hsame.
  { intros l [c Hl] Hlm. unfold h'. rewrite !lookup_insert_ne by congruence. done. }
  split; [intros l Hl Hls; apply Hsame; [done|set_solver]|].
  assert (rd_ptr read_EnvironmentStatus (Some val) h' =
    Some (Some (Val.MkEnvironmentStatus wa None), [val])) as Hnew.
  { simpl. unfold h'. unfold rd_load, mbind, rd_bind. by rewrite lookup_insert_ne, lookup_insert_eq. }
  apply NoDup_app in Hnd as (Hnd1 & Hdis & Hnd2).
  destruct (rd_map_insert (rd_ptr read_EnvironmentStatus) m h h' vm le es env (Some val)
    (Some (Val.MkEnvironmentStatus wa None)) [val]) as (le' & He' & Hle'); [apply _|done..| | |done|].
  { unfold h'. apply lookup_insert_eq. }
  { intros l Hl Hlm. apply Hsame; [|done]. exact (local_dom _ _ _ He _ Hl). }
  assert (val ∉ lc ++ le) as Hfresh.
  { intros [Hin|Hin]%elem_of_app.
    - apply (local_dom _ _ _ Hc) in Hin as [??]. congruence.
    - apply (local_dom _ _ _ He) in Hin as [??]. congruence. }
  exists (Val.MkPipelineStatus (Mem.st_ObservedGeneration p) cs
    (Some (<[env := Some (Val.MkEnvironmentStatus wa None)]> vm))), (lc ++ le').
  split_and!.
  - apply read_PipelineStatus_inv. exists cs, lc, (Some (<[env := Some (Val.MkEnvironmentStatus wa None)]> vm)), le'.
    rewrite Hp. split_and!; [|done..]. eapply local_agree; [exact Hc|]. intros l Hl.
    apply Hsame; [exact (local_dom _ _ _ Hc _ Hl)|]. intros ->. by apply (Hdis m).
  - apply NoDup_app. split_and!; [done| |].
    + intros l Hl. rewrite Hle'. set_solver.
    + rewrite Hle'. simpl. constructor; [set_solver|done].
  - unfold st, api_PipelineStatus, set_Environments. simpl. f_equal.
    by rewrite fmap_insert.
  - intros l. rewrite Hle'. set_solver.
Qed.

(** The entry is present: it is written through its pointer. *)
Lemma set_entry_present env wa y a :
  es !! env = Some (Some y) -> vm !! env = Some (Some a) ->
  mwp (Heap.set_entry p env wa m) h (fun p' h' => writes_within (lc ++ le) h h' /\
    stands_for h h' (lc ++ le) p' (set_Environments
      (<[env := Some (MkEnvironmentStatus wa (default [] (Val.es_Targets a)))]>
        (st_Environments (st vm))) (st vm))).
Proof.
  intros Hk Ha. apply NoDup_app in Hnd as Hnd'. destruct Hnd' as (_ & Hdis & Hnd2).
  set (b' := Val.MkEnvironmentStatus wa (Val.es_Targets a)).
  pose proof (fun c => rd_map_update (rd_ptr read_EnvironmentStatus) m h vm le es env (Some y) y c
    _ He Hnd2 Hes Hk) as Hupdate.
  destruct (Hupdate (CTargets [])) as (b & lx & Hb & Hvb & Hndx & _).
  rewrite Ha in Hvb. injection Hvb as <-. simpl in Hb.
  apply rd_bind_Some in Hb as (x & ? & ls1 & [Hx ->]%rd_load_Some & Hb & ->).
  apply rd_bind_Some in Hb as (? & ls2 & ? & Hb & [[= <-] ->]%rd_ret_Some & ->).
  unfold Heap.set_entry. apply mwp_bind. eapply mwp_load'; [exact Hes|]. rewrite Hk.
  apply mwp_bind. eapply mwp_load'; [exact Hx|]. apply mwp_bind, mwp_store.
  { destruct (h !! y); [eauto|done]. }
  apply mwp_ret. set (c := cell_of _). destruct (Hupdate c) as (b & lx & Hb2 & _ & _ & Hup).
  assert (rd_ptr read_EnvironmentStatus (Some y) h = Some (Some a, y :: ls2)) as Hb3.
  { simpl. apply rd_bind_Some. exists x, [y], ls2. split_and!; [by apply rd_load_Some| |done].
    apply rd_bind_Some. exists a, ls2, []. by rewrite app_nil_r. }
  rewrite Hb3 in Hb2. injection Hb2 as <- <-. rewrite app_nil_r in Hndx.
  apply NoDup_cons in Hndx as [Hy2 _].
  destruct (Hup (Some b')) as [Hy He']; [by left| |].
  { simpl. apply rd_bind_Some. eexists _, [y], ls2. split_and!; [|apply rd_bind_Some|done].
    - apply rd_load_Some. rewrite lookup_insert_eq. done.
    - exists b', ls2, []. rewrite app_nil_r. split_and!; [|done..].
      apply local_insert; [apply _| |done]. by apply read_EnvironmentStatus_set. }
  split; [intros l Hl Hls; apply lookup_insert_ne; set_solver|].
  exists (Val.MkPipelineStatus (Mem.st_ObservedGeneration p) cs (Some (<[env := Some b']> vm))), (lc ++ le).
  split_and!.
  - apply read_PipelineStatus_inv. exists cs, lc, (Some (<[env := Some b']> vm)), le.
    rewrite Hp. split_and!; [|done..]. apply local_insert; [apply _|done|].
    intros Hl. by apply (Hdis y).
  - done.
  - unfold st, api_PipelineStatus, set_Environments. simpl. f_equal. by rewrite fmap_insert.
  - by left.
Qed.
End set_entry.

(** The run on memory [r] does what [m] says: it returns a status that stands
    for the result, or panics in the same way. *)
Definition does (m : prog no_calls PipelineStatus) (r : Heap.M Mem.PipelineStatus)
    (h : heap cell) (ls : list loc) : Prop :=
  match m with
  | PRet st => mwp r h (fun p' h' => writes_within ls h h' /\ stands_for h h' ls p' st)
  | PPanic w => r h = (Panicked w, h)
  | PVis _ _ => False
  end.

Lemma set_entry_does p h m cs lc vm le env wa :
  Mem.st_Environments p = Some m ->
  rd_slice (T := Condition) read_flat (Mem.st_Conditions p) h = Some (cs, lc) ->
  rd_map (rd_ptr read_EnvironmentStatus) (Some m) h = Some (Some vm, le) -> NoDup (lc ++ le) ->
  does (setWaitingApproval
      (api_PipelineStatus (Val.MkPipelineStatus (Mem.st_ObservedGeneration p) cs (Some vm))) env wa)
    (Heap.set_entry p env wa m) h (lc ++ le).
Proof.
  intros Hp Hc He Hnd. pose proof He as (es & _ & _ & Hes & _)%rd_map_inv.
  pose proof (vm_lookup _ _ _ _ _ He Hes env) as Hlook. unfold does, setWaitingApproval.
  cbn [api_PipelineStatus st_Environments default id Val.st_Environments]. rewrite api_lookup.
  destruct (es !! env) as [[y|]|] eqn:Hk.
  - destruct Hlook as (a & lx & Ha & Hvm). simpl in Ha.
    apply rd_bind_Some in Ha as (? & ? & ? & _ & (b & ? & ? & _ & [-> _]%rd_ret_Some & _)%rd_bind_Some & _).
    rewrite Hvm. simpl. by eapply set_entry_present.
  - destruct Hlook as (a & lx & [= <- <-] & Hvm). rewrite Hvm. simpl.
    unfold Heap.set_entry. rewrite (load_bind _ _ _ _ Hes). by rewrite Hk.
  - rewrite Hlook. simpl. by eapply set_entry_absent.
Qed.

Lemma setWaitingApproval_does p h v ls env wa :
  read_PipelineStatus p h = Some (v, ls) -> NoDup ls ->
  does (setWaitingApproval (api_PipelineStatus v) env wa) (Heap.setWaitingApproval p env wa) h ls.
Proof.
  intros (cs & lc & es & le & Hc & He & -> & ->)%read_PipelineStatus_inv Hnd.
  unfold Heap.setWaitingApproval, Heap.ensure_environments.
  destruct (Mem.st_Environments p) as [m|] eqn:Hp.
  - pose proof He as He'. simpl in He'.
    apply rd_bind_Some in He' as (? & ? & ? & _ & (? & ? & ? & _ & [-> _]%rd_ret_Some & _)%rd_bind_Some & _).
    by apply set_entry_does.
  - injection He as <- <-. rewrite app_nil_r in *. simpl. apply mwp_bind, mwp_bind, mwp_alloc.
    intros m Hm. apply mwp_ret. set (h1 := <[m := _]> h). set (p1 := Heap.set_environments _ p).
    assert (rd_slice (T := Condition) read_flat (Mem.st_Conditions p1) h1 = Some (cs, lc)) as Hc1.
    { eapply local_mono; [apply _|exact Hc|]. by apply insert_subseteq. }
    assert (h1 !! m = Some (CEnvironmentStatusMap ∅)) as Hm1 by apply lookup_insert_eq.
    assert (m ∉ lc) as Hmlc.
    { intros [c Hin]%(local_dom _ _ _ Hc). congruence. }
    eapply mwp_mono; [|apply (set_entry_absent p1 h1 m ∅ cs lc ∅ [m])]; [|done|done| | | |done].
    + cbv beta. intros p' h' [Hw (v' & ls' & Hr & Hnd' & Hv & Hls)]. split.
      * intros l Hl Hll. rewrite (Hw l).
        -- apply lookup_insert_ne. intros ->. by rewrite Hm in Hl; destruct Hl.
        -- unfold h1. destruct (decide (m = l)) as [->|]; [rewrite lookup_insert_eq; eauto|].
           by rewrite lookup_insert_ne.
        -- intros [?| ->%list_elem_of_singleton]%elem_of_app; [done|]. by rewrite Hm in Hl; destruct Hl.
      * exists v', ls'. split_and!; [done|done| |].
        -- rewrite Hv. unfold api_PipelineStatus, set_Environments. simpl. by rewrite !fmap_empty.
        -- intros l Hl. apply Hls in Hl as [Hl|[Hl _]%lookup_insert_None]; [|by right].
           apply elem_of_app in Hl as [?| ->%list_elem_of_singleton]; auto.
    + simpl. unfold rd_load, mbind, rd_bind. rewrite Hm1. simpl. by rewrite dom_empty_L, elements_empty.
    + apply NoDup_app. split_and!; [done| |by apply NoDup_singleton]. set_solver.
    + by rewrite Hm1.
Qed.

(** Reading what waits makes no difference to the heap, and needs no care for
    sharing. *)
Lemma GetWaitingApproval_does p h v ls env :
  read_PipelineStatus p h = Some (v, ls) ->
  Heap.GetWaitingApproval p env h =
    match GetWaitingApproval (E := no_calls) (api_PipelineStatus v) env with
    | PRet wa => (Done wa, h)
    | PPanic w => (Panicked w, h)
    | PVis _ _ => nil_dereference h
    end.
Proof.
  intros (cs & lc & es & le & Hc & He & -> & ->)%read_PipelineStatus_inv.
  unfold Heap.GetWaitingApproval, GetWaitingApproval.
  destruct (Mem.st_Environments p) as [m|]; [|injection He as <- <-; simpl; by rewrite fmap_empty, lookup_empty].
  pose proof He as He'. simpl in He'.
  apply rd_bind_Some in He' as (? & ? & ? & _ & (? & ? & ? & _ & [-> _]%rd_ret_Some & _)%rd_bind_Some & _).
  pose proof He as (es & _ & _ & Hes & _)%rd_map_inv. rewrite (load_bind _ _ _ _ Hes).
  pose proof (vm_lookup _ _ _ _ _ He Hes env) as Hlook.
  cbn [api_PipelineStatus st_Environments default id Val.st_Environments]. rewrite api_lookup.
  destruct (es !! env) as [[y|]|].
  - destruct Hlook as (a & lx & Ha & Hvm). simpl in Ha.
    apply rd_bind_Some in Ha as (st & ? & ? & [Hx _]%rd_load_Some & (b & ? & ? & Hb & [-> _]%rd_ret_Some & _)%rd_bind_Some & _).
    rewrite Hvm, (load_bind _ _ _ _ Hx). unfold read_EnvironmentStatus in Hb.
    by apply rd_bind_Some in Hb as (? & ? & ? & _ & [-> _]%rd_ret_Some & _).
  - destruct Hlook as (a & lx & [= <- <-] & Hvm). by rewrite Hvm.
  - by rewrite Hlook.
Qed.

(** C15.  The methods that read, set and reset a waiting approval through the
    pointers of the status do on memory what [Api] says on values, panics
    included, and write only cells of the status, provided the status shares no
    cell with itself where it is written. *)
Theorem status_methods_refine p h v ls env revision :
  read_PipelineStatus p h = Some (v, ls) ->
  Heap.GetWaitingApproval p env h =
    match GetWaitingApproval (E := no_calls) (api_PipelineStatus v) env with
    | PRet wa => (Done wa, h)
    | PPanic w => (Panicked w, h)
    | PVis _ _ => nil_dereference h
    end /\
  (NoDup ls ->
   does (SetWaitingApproval (api_PipelineStatus v) env revision)
     (Heap.SetWaitingApproval p env revision) h ls /\
   does (ResetWaitingApproval (api_PipelineStatus v) env)
     (Heap.ResetWaitingApproval p env) h ls).
Proof.
  intros Hr. split; [by eapply GetWaitingApproval_does|].
  intros Hnd. split; by apply setWaitingApproval_does.
Qed.

(** ** Objects read from a cache

    The manager's client reads from the cache of an informer and hands out a
    deep copy of the cached object, made with [DeepCopyObject].  The promotion
    webhook then writes the status of what it was given
    (promotion_handler.go, setWaitingApproval; approval_handler.go,
    resetWaitingApproval). *)
Section cached.
Context `{MetaCopy, MapRange}.

Definition update_cached (cached : option loc) (env : string) (wa : WaitingApproval) :
    Heap.M loc :=
  pipeline ← Pipeline_DeepCopyObject cached;
  match pipeline with
  | Some (OPipeline p) => Heap.update_Status (fun st => Heap.setWaitingApproval st env wa) p;; mret p
  | _ => nil_dereference
  end.

Lemma read_Pipeline_inv x h v ls :
  read_Pipeline x h = Some (v, ls) <-> exists m lm sp lsp st lst,
    read_ObjectMeta (Mem.pl_ObjectMeta x) h = Some (m, lm) /\
    read_PipelineSpec (Mem.pl_Spec x) h = Some (sp, lsp) /\
    read_PipelineStatus (Mem.pl_Status x) h = Some (st, lst) /\
    v = Val.MkPipeline (Mem.pl_TypeMeta x) m sp st /\ ls = lm ++ lsp ++ lst.
Proof.
  unfold read_Pipeline. split.
  - intros (m & lm & ? & Hm & (sp & lsp & ? & Hsp &
      (st & lst & ? & Hst & [-> ->]%rd_ret_Some & ->)%rd_bind_Some & ->)%rd_bind_Some & ->)%rd_bind_Some.
    exists m, lm, sp, lsp, st, lst. by rewrite app_nil_r.
  - intros (m & lm & sp & lsp & st & lst & Hm & Hsp & Hst & -> & ->).
    apply rd_bind_Some. exists m, lm, (lsp ++ lst). split_and!; [done| |done].
    apply rd_bind_Some. exists sp, lsp, lst. split_and!; [done| |done].
    apply rd_bind_Some. exists st, lst, []. by rewrite app_nil_r.
Qed.

Lemma rd_ptr_inv {T A} `{Stored cell T} (r : T -> rd cell A) p h a ls :
  rd_ptr r (Some p) h = Some (Some a, ls) <-> exists x lx,
    h !! p ≫= of_cell = Some x /\ r x h = Some (a, lx) /\ ls = p :: lx.
Proof.
  simpl. split.
  - intros (x & ? & ? & [Hx ->]%rd_load_Some & (b & lx & ? & Hr & [[= ->] ->]%rd_ret_Some & ->)%rd_bind_Some & ->)%rd_bind_Some.
    exists x, lx. by rewrite app_nil_r.
  - intros (x & lx & Hx & Hr & ->). apply rd_bind_Some. exists x, [p], lx.
    split_and!; [by apply rd_load_Some| |done]. apply rd_bind_Some. exists a, lx, [].
    by rewrite app_nil_r.
Qed.

(** Updating the status of a pipeline that shares nothing with itself *)
Lemma update_Status_runs c h v ls env wa st :
  rd_ptr read_Pipeline (Some c) h = Some (Some v, ls) -> NoDup ls ->
  setWaitingApproval (E := no_calls) (api_PipelineStatus (Val.pl_Status v)) env wa = PRet st ->
  mwp (Heap.update_Status (fun st => Heap.setWaitingApproval st env wa) c) h (fun _ h' =>
    writes_within ls h h' /\ exists v' ls', rd_ptr read_Pipeline (Some c) h' = Some (Some v', ls') /\
      api_Pipeline v' = set_Status st (api_Pipeline v)).
Proof.
  intros (x & lx & Hx & (m & lm & sp & lsp & stv & lst & Hm & Hsp & Hst & -> & ->)%read_Pipeline_inv & ->)%rd_ptr_inv.
  intros [Hc (_ & Hdm & (_ & Hdsp & Hnd)%NoDup_app)%NoDup_app]%NoDup_cons Hdo.
  pose proof (setWaitingApproval_does _ _ _ _ env wa Hst Hnd) as Hdoes.
  simpl in Hdo. rewrite Hdo in Hdoes. simpl in Hdoes.
  unfold Heap.update_Status. apply mwp_bind. eapply mwp_load'; [exact Hx|].
  apply mwp_bind. eapply mwp_mono; [|exact Hdoes]. cbv beta.
  intros p' h' [Hw (v' & ls' & Hr & _ & Hv' & Hls')].
  assert (is_Some (h !! c)) as Hcs by (destruct (h !! c); [eauto|done]).
  apply mwp_store; [by rewrite Hw by set_solver|].
  assert (forall A (r : rd cell A) a l, Local r -> r h = Some (a, l) -> c ∉ l ->
    (forall l', l' ∈ l -> l' ∉ lst) -> forall y, r (<[c := y]> h') = Some (a, l)) as Hkeep.
  { intros A r a l HL Hra Hcl Hdis y. eapply local_agree; [exact Hra|]. intros l' Hl'.
    rewrite lookup_insert_ne by set_solver. apply Hw; [exact (local_dom _ _ _ Hra _ Hl')|by apply Hdis]. }
  split.
  { intros l Hl Hls. rewrite lookup_insert_ne by set_solver. apply Hw; [done|set_solver]. }
  exists (Val.MkPipeline (Mem.pl_TypeMeta x) m sp v'), (c :: lm ++ lsp ++ ls'). split.
  - apply rd_ptr_inv. exists (Heap.set_Status p' x), (lm ++ lsp ++ ls').
    split_and!; [by rewrite lookup_insert_eq| |done]. apply read_Pipeline_inv.
    exists m, lm, sp, lsp, v', ls'. split_and!; [| | |done..].
    + apply Hkeep; [apply _|done|set_solver|set_solver].
    + apply Hkeep; [apply _|done|set_solver|set_solver].
    + apply local_insert; [apply _|exact Hr|]. intros [?|Hn]%Hls'; [set_solver|].
      rewrite Hn in Hcs. by destruct Hcs.
  - unfold api_Pipeline, set_Status. simpl. by rewrite Hv'.
Qed.

(** C16.  A status update made on what the cache hands out acts on the copy as
    [Api] says, even where the cached object shares cells with itself, and the
    cached object, indeed every cell there was, stays as it is. *)
Theorem cached_object_untouched h p v ls env wa st :
  rd_ptr read_Pipeline (Some p) h = Some (Some v, ls) ->
  setWaitingApproval (E := no_calls) (api_PipelineStatus (Val.pl_Status v)) env wa = PRet st ->
  mwp (update_cached (Some p) env wa) h (fun c h' =>
    h ⊆ h' /\ rd_ptr read_Pipeline (Some p) h' = Some (Some v, ls) /\
    exists v' ls', rd_ptr read_Pipeline (Some c) h' = Some (Some v', ls') /\
      api_Pipeline v' = set_Status st (api_Pipeline v)).
Proof.
  intros Hr Hst. unfold update_cached, Pipeline_DeepCopyObject. apply mwp_bind, mwp_bind.
  eapply mwp_mono; [|by eapply copy_ptr_isolated; [apply _|apply copies_Pipeline|]].
  cbv beta. intros o h1 (c & -> & Hc & Hsub & ls1 & lc & _ & Hrc & Hnd & Hnew & _).
  apply mwp_ret, mwp_bind. eapply mwp_mono; [|by eapply update_Status_runs].
  cbv beta. intros _ h' [Hw Hcopy]. apply mwp_ret.
  assert (h ⊆ h') as Hsub'.
  { apply map_subseteq_spec. intros l x Hl. pose proof (lookup_weaken _ _ _ _ Hl Hsub) as Hl1.
    rewrite Hw; [done|eauto|]. intros Hin. apply Hnew in Hin. congruence. }
  split_and!; [done| |done]. eapply local_mono; [apply _|exact Hr|done].
Qed.

(** ** The base of a merge patch (pipeline_controller.go, patchStatus)

    [patch := client.MergeFrom(pipeline.DeepCopy()); pipeline.Status = newStatus]:
    the patch is the difference between the copy and the pipeline. *)
Definition patch_objects (pipeline : loc) (newStatus : Mem.PipelineStatus) :
    Heap.M (option loc) :=
  base ← Pipeline_DeepCopy (Some pipeline);
  x ← load Mem.Pipeline pipeline;
  store pipeline (Heap.set_Status newStatus x);;
  mret base.

(** The copy keeps the old status, the pipeline has the new one: what
    [EdgeController.patchStatus] hands to the patch. *)
Theorem patch_objects_differ h p v ls newStatus st lst :
  rd_ptr read_Pipeline (Some p) h = Some (Some v, ls) -> NoDup ls ->
  read_PipelineStatus newStatus h = Some (st, lst) -> p ∉ lst ->
  mwp (patch_objects p newStatus) h (fun base h' => exists lb v' ls',
    rd_ptr read_Pipeline base h' = Some (Some v, lb) /\
    rd_ptr read_Pipeline (Some p) h' = Some (Some v', ls') /\
    api_Pipeline v' = set_Status (api_PipelineStatus st) (api_Pipeline v)).
Proof.
  intros Hr Hnd Hst Hp. unfold patch_objects. apply mwp_bind.
  eapply mwp_mono; [|by eapply copy_ptr_isolated; [apply _|apply copies_Pipeline|]].
  cbv beta. intros o h1 (c & -> & Hc & Hsub & ls1 & lc & _ & _ & _ & _ & _ & Hbase).
  apply rd_ptr_inv in Hr as (x & lx & Hx & (m & lm & sp & lsp & stv & lsv & Hm & Hsp & _ & -> & ->)%read_Pipeline_inv & ->).
  apply NoDup_cons in Hnd as [Hpx _].
  assert (is_Some (h !! p)) as [cp Hcp] by (destruct (h !! p); [eauto|done]).
  pose proof (lookup_weaken _ _ _ _ Hcp Hsub) as Hcp1.
  apply mwp_bind. eapply mwp_load'; [by rewrite Hcp1, <- Hcp|].
  apply mwp_bind, mwp_store; [eauto|]. apply mwp_ret.
  exists lc, (Val.MkPipeline (Mem.pl_TypeMeta x) m sp st), (p :: lm ++ lsp ++ lst). split_and!.
  - apply Hbase. intros l Hl. apply lookup_insert_ne. congruence.
  - apply rd_ptr_inv. exists (Heap.set_Status newStatus x), (lm ++ lsp ++ lst).
    split_and!; [by rewrite lookup_insert_eq| |done]. apply read_Pipeline_inv.
    exists m, lm, sp, lsp, st, lst. split_and!; [| | |done..].
    + apply local_insert; [apply _|by eapply local_mono; [apply _|exact Hm|]|set_solver].
    + apply local_insert; [apply _|by eapply local_mono; [apply _|exact Hsp|]|set_solver].
    + apply local_insert; [apply _|by eapply local_mono; [apply _|exact Hst|]|done].
  - done.
Qed.
End cached.

(** ** On a concrete heap *)

(** What waits in an environment of the object at [p], as a reader sees it *)
Definition waits_at (h : heap cell) (p : loc) (env : string) : option string :=
  '(v, _) ← rd_ptr read_Pipeline (Some p) h;
  (fun v => waiting (pl_Status (api_Pipeline v)) env) <$> v.

(** Without the copy, and with a copy of the struct only, as [*out = *in] makes
    it, the update reaches the cached object. *)
Definition shallow_copy (p : loc) : Heap.M loc :=
  x ← load Mem.Pipeline p; alloc x.

Example shallow_copy_reaches_cache :
  let update p := Heap.update_Status (fun st => Heap.SetWaitingApproval st "dev" "3.0.0") p in
  let cached p := fun h => (waits_at h p "dev" : option string) in
  cached 8%positive sample_heap = Some "2.0.0" /\
  cached 8%positive (update 8%positive sample_heap).2 = Some "3.0.0" /\
  cached 8%positive ((c ← shallow_copy 8%positive; update c) sample_heap).2 = Some "3.0.0" /\
  cached 8%positive ((update_cached (Some 8%positive) "dev" (MkWaitingApproval "3.0.0"))
    sample_heap).2 = Some "2.0.0".
Proof. vm_compute. done. Qed.

(** The sample's status shares nothing with itself. *)
Lemma status_methods_refine_witness :
  match read_PipelineStatus (Mem.pl_Status sample_memory) sample_heap with
  | Some (v, ls) =>
      ls = [7; 6; 5; 4; 1]%positive /\
      Heap.GetWaitingApproval (Mem.pl_Status sample_memory) "dev" sample_heap =
        (Done (MkWaitingApproval "2.0.0"), sample_heap) /\
      does (SetWaitingApproval (api_PipelineStatus v) "staging" "3.0.0")
        (Heap.SetWaitingApproval (Mem.pl_Status sample_memory) "staging" "3.0.0") sample_heap ls
  | None => False
  end.
Proof.
  destruct (read_PipelineStatus _ _) as [[v ls]|] eqn:Hr; [|by vm_compute in Hr].
  assert (ls = [7; 6; 5; 4; 1]%positive) as ->.
  { apply (f_equal (fmap snd)) in Hr. vm_compute in Hr. by injection Hr as <-. }
  split_and!; [done|vm_compute; reflexivity|].
  destruct (status_methods_refine _ _ _ _ "staging" "3.0.0" Hr) as [_ Hset].
  apply Hset. apply (bool_decide_unpack _). vm_compute. done.
Defined.

Lemma cached_object_untouched_witness :
  match rd_ptr read_Pipeline (Some 8%positive) sample_heap with
  | Some (Some v, ls) => exists st,
      setWaitingApproval (E := no_calls) (api_PipelineStatus (Val.pl_Status v)) "dev"
        zero_WaitingApproval = PRet st /\
      mwp (update_cached (Some 8%positive) "dev" zero_WaitingApproval) sample_heap (fun c h' =>
        sample_heap ⊆ h' /\ rd_ptr read_Pipeline (Some 8%positive) h' = Some (Some v, ls) /\
        exists v' ls', rd_ptr read_Pipeline (Some c) h' = Some (Some v', ls') /\
          api_Pipeline v' = set_Status st (api_Pipeline v))
  | _ => False
  end.
Proof.
  destruct (rd_ptr read_Pipeline _ _) as [[[v|] ls]|] eqn:Hr; [|by vm_compute in Hr..].
  destruct (setWaitingApproval_pure (E := no_calls) (api_PipelineStatus (Val.pl_Status v)) "dev"
    zero_WaitingApproval) as [[st Hst]|[w Hw]].
  - exists st. split; [exact Hst|]. exact (cached_object_untouched _ _ _ _ _ _ _ Hr Hst).
  - exfalso. apply (f_equal (fmap (fun r => match r.1 with
      | Some v => setWaitingApproval (E := no_calls) (api_PipelineStatus (Val.pl_Status v)) "dev"
          zero_WaitingApproval
      | None => PPanic "" end))) in Hr.
    cbn [fmap option_fmap option_map fst] in Hr. rewrite Hw in Hr. vm_compute in Hr. discriminate Hr.
Defined.
