(* ===== verification/Sys.v ===== *)
(** * What the program asks of the outside

    One constructor of [sys] per call the modelled code makes to code that is
    not part of the repository or that has an effect: the Kubernetes client,
    the event recorder, the clock, the informer caches of controller-runtime,
    the mutex-protected map of caches, and (in GitSys.v) git.  The answers are unconstrained, so
    a statement about every run of a program holds whatever these parts do;
    what the program does rely on is a hypothesis of the theorem that needs
    it. *)

From S2P Require Export Api GitSys.

(** [types.NamespacedName], [client.ObjectKey] *)
Record ObjectKey := MkKey { key_Namespace : string; key_Name : string }.

#[export] Instance ObjectKey_eq_dec : EqDecision ObjectKey.
Proof. solve_decision. Defined.

#[export] Instance ObjectKey_countable : Countable ObjectKey.
Proof.
  refine (inj_countable' (fun k => (key_Namespace k, key_Name k))
            (fun '(ns, n) => MkKey ns n) _).
  by intros [].
Defined.

(** [schema.GroupVersionKind] *)
Record GroupVersionKind := MkGVK { gvk_Group : string; gvk_Version : string; gvk_Kind : string }.

#[export] Instance GVK_eq_dec : EqDecision GroupVersionKind.
Proof. solve_decision. Defined.

#[export] Instance GVK_countable : Countable GroupVersionKind.
Proof.
  refine (inj_countable' (fun k => (gvk_Group k, gvk_Version k, gvk_Kind k))
            (fun '(g, v, k) => MkGVK g v k) _).
  by intros [].
Defined.

(** [corev1.Secret]: the data *)
Abbreviation SecretData := (gmap string string).

(** [clusterctrlv1alpha1.GitopsCluster]: the fields the program reads *)
Record GitopsCluster := MkGitopsCluster {
  gc_Namespace : string;
  gc_Name : string;
  gc_SecretRef : option LocalObjectReference;
  gc_CAPIClusterRef : option LocalObjectReference;
  gc_Conditions : list Condition }.

(** The dynamic values of [unstructured.Unstructured]: Go's [interface{}] as
    JSON decoding fills it *)
Inductive value :=
  | VNil
  | VBool (b : bool)
  | VNumber (z : Z)
  | VString (s : string)
  | VSlice (l : list value)
  | VMap (m : list (string * value)).

(** leveltriggered/caching.go: [clusterAndGVK], [cacheAndCancel] *)
Record clusterAndGVK := MkClusterAndGVK {
  cg_ObjectKey : ObjectKey;
  cg_GroupVersionKind : GroupVersionKind }.

#[export] Instance clusterAndGVK_eq_dec : EqDecision clusterAndGVK.
Proof. solve_decision. Defined.

#[export] Instance clusterAndGVK_countable : Countable clusterAndGVK.
Proof.
  refine (inj_countable' (fun k => (cg_ObjectKey k, cg_GroupVersionKind k))
            (fun '(o, g) => MkClusterAndGVK o g) _).
  by intros [].
Defined.

Record cacheAndCancel := MkCacheAndCancel {
  cc_cache : handle;
  cc_cancel : handle }.

(** ** The calls *)
Inductive sys : Type -> Type :=
  (* controller-runtime client *)
  | GetPipeline (k : ObjectKey) : sys (res Pipeline)
  | GetSecret (k : ObjectKey) : sys (res SecretData)
  | GetCluster (k : ObjectKey) : sys (res GitopsCluster)
  | ListPipelines (index_name index_value : string) : sys (res (list Pipeline))
  | StatusUpdate (p : Pipeline) : sys (res unit)
  | StatusPatch (before after : Pipeline) (owner : string) : sys (res unit)
  (* fluxcd/pkg/runtime/patch: one call of a SerialPatcher *)
  | PatcherPatch (p : Pipeline) (owner : string) : sys (res unit)
  (* event recorder *)
  | Eventf (o : ObjectKey) (eventtype reason message : string) : sys unit
  | AnnotatedEventf (o : ObjectKey) (metadata : list (string * string))
      (eventtype reason message : string) : sys unit
  (* clock; times and durations in nanoseconds *)
  | Now : sys Z
  | Sleep (d : Z) : sys unit
  (* the caches map and its mutex *)
  | LockCaches : sys unit
  | UnlockCaches : sys unit
  | CachesGet (k : clusterAndGVK) : sys (option cacheAndCancel)
  | CachesSet (k : clusterAndGVK) (e : cacheAndCancel) : sys unit
  | CachesDelete (k : clusterAndGVK) : sys unit
  (* client caches and their configuration *)
  | CAPIKubeconfig (k : ObjectKey) : sys (res string)
  | RESTConfigFromKubeConfig (kubeconfig : string) : sys (res handle)
  | LocalClusterConfig : sys handle
  | NewCache (cfg : handle) : sys (res handle)
  | RunnerRun (cache : handle) : sys handle
  | CancelFunc (cancel : handle) : sys unit
  | GetInformer (cache : handle) (gvk : GroupVersionKind) : sys (res handle)
  | AddEventHandler (informer : handle) (cluster : ObjectKey) : sys (res unit)
  | HasSynced (informer : handle) : sys bool
  | CacheRead (cache : handle) (gvk : GroupVersionKind) (k : ObjectKey) : sys (res value)
  (* the reconciler's event channel *)
  | SendEvent (p : Pipeline) : sys unit
  (* gc queue: [QueueGet] answers [None] when it shuts down; an item that is
     not a cache key is [None] *)
  | QueueAdd (k : clusterAndGVK) : sys unit
  | QueueGet : sys (option (option clusterAndGVK))
  | QueueForget (item : option clusterAndGVK) : sys unit
  | QueueDone (item : option clusterAndGVK) : sys unit
  | QueueAddRateLimited (k : clusterAndGVK) : sys unit
  (* the file system, the git client and the hosting services *)
  | Git {X} (g : git_call X) : sys X.

Abbreviation io A := (prog sys A).

(** A call that cannot change what the API server stores or what users see *)
Definition is_read {X} (e : sys X) : bool :=
  match e with
  | GetPipeline _ | GetSecret _ | GetCluster _ | ListPipelines _ _ => true
  | Now | CachesGet _ | LocalClusterConfig | HasSynced _ | CacheRead _ _ _ => true
  | _ => false
  end.

Definition ev_is_read (ev : event sys) : bool := match ev with Ev e _ => is_read e end.

(** Only reads happened *)
Definition reads_only (tr : list (event sys)) : Prop := Forall (fun ev => ev_is_read ev = true) tr.

Lemma reads_only_app tr tr' : reads_only (tr ++ tr') <-> reads_only tr /\ reads_only tr'.
Proof. apply Forall_app. Qed.

#[export] Hint Constructors Forall : pipeline.
#[export] Hint Unfold reads_only : pipeline.

(** The secrets read in a run, with the answers *)
Definition ev_GetSecret (ev : event sys) : option (ObjectKey * res SecretData) :=
  match ev with
  | Ev e x =>
      match e in sys X return X -> option (ObjectKey * res SecretData) with
      | GetSecret k => fun r => Some (k, r)
      | _ => fun _ => None
      end x
  end.

(** The pipelines read in a run, with the answers *)
Definition ev_GetPipeline (ev : event sys) : option (ObjectKey * res Pipeline) :=
  match ev with
  | Ev e x =>
      match e in sys X return X -> option (ObjectKey * res Pipeline) with
      | GetPipeline k => fun r => Some (k, r)
      | _ => fun _ => None
      end x
  end.

(** The status updates of a run, with the answers *)
Definition ev_StatusUpdate (ev : event sys) : option (Pipeline * res unit) :=
  match ev with
  | Ev e x =>
      match e in sys X return X -> option (Pipeline * res unit) with
      | StatusUpdate p => fun r => Some (p, r)
      | _ => fun _ => None
      end x
  end.

(** The clusters read in a run, with the answers *)
Definition ev_GetCluster (ev : event sys) : option (ObjectKey * res GitopsCluster) :=
  match ev with
  | Ev e x =>
      match e in sys X return X -> option (ObjectKey * res GitopsCluster) with
      | GetCluster k => fun r => Some (k, r)
      | _ => fun _ => None
      end x
  end.

(** The status patches of a run: the object before, the object after, with the
    answers *)
Definition ev_StatusPatch (ev : event sys) : option (Pipeline * Pipeline * res unit) :=
  match ev with
  | Ev e x =>
      match e in sys X return X -> option (Pipeline * Pipeline * res unit) with
      | StatusPatch before after _ => fun r => Some (before, after, r)
      | _ => fun _ => None
      end x
  end.

(** The index lookups of a run, with the answers *)
Definition ev_ListPipelines (ev : event sys) : option (string * string * res (list Pipeline)) :=
  match ev with
  | Ev e x =>
      match e in sys X return X -> option (string * string * res (list Pipeline)) with
      | ListPipelines i v => fun r => Some (i, v, r)
      | _ => fun _ => None
      end x
  end.

(** [client.ObjectKeyFromObject] of a pipeline *)
Definition pl_Key (p : Pipeline) : ObjectKey := MkKey (pl_Namespace p) (pl_Name p).

(** [client.IgnoreNotFound] *)
Definition IgnoreNotFound (e : error) : option error := if IsNotFound e then None else Some e.

(** [corev1.EventTypeNormal], [corev1.EventTypeWarning] *)
Definition EventTypeNormal := "Normal".
Definition EventTypeWarning := "Warning".
