(* ===== verification/ApiServer.v ===== *)
(** * What the API server promises

    The class [ApiServer] states what the handlers rely on when they read and
    update pipelines through the Kubernetes client: a read that succeeds gives
    the stored object, a status update that succeeds replaces the status of the
    stored object and nothing else, every other call leaves the stored
    pipelines alone.  Reads and updates may fail at any time, but a read that
    succeeds is up to date, which the cached reads of the manager's client only
    are in the end.  [MapServer] is an
    instance, used to evaluate the handlers on concrete states. *)

From S2P Require Export Sys.

(** The calls that change stored pipelines *)
Definition is_write {X} (e : sys X) : bool :=
  match e with StatusUpdate _ | StatusPatch _ _ _ | PatcherPatch _ _ => true | _ => false end.

Definition no_writes (tr : list (event sys)) : Prop :=
  Forall (fun ev => match ev with Ev e _ => is_write e = false end) tr.

Class ApiServer {S} (h : handler (E := sys) S) := {
  stored : S -> ObjectKey -> option Pipeline;
  api_key s k p : stored s k = Some p -> pl_Key p = k;
  api_get s k p : (h _ (GetPipeline k) s).1 = Ok p -> stored s k = Some p;
  api_update s p : (h _ (StatusUpdate p) s).1 = Ok tt ->
    exists old, stored s (pl_Key p) = Some old /\
      forall k, stored (h _ (StatusUpdate p) s).2 k =
        if decide (k = pl_Key p) then Some (set_Status (pl_Status p) old) else stored s k;
  api_update_err s p e : (h _ (StatusUpdate p) s).1 = Err e ->
    forall k, stored (h _ (StatusUpdate p) s).2 k = stored s k;
  api_other X (e : sys X) s : is_write e = false -> forall k, stored (h _ e s).2 k = stored s k }.

(** The state after a program *)
Definition after {S A} (h : handler (E := sys) S) (p : io A) (s : S)
    (Q : list (event sys) -> outcome A -> S -> Prop) : Prop :=
  let '(tr, o, s') := exec h p s in Q tr o s'.

Section after.
Context {S : Type} (h : handler (E := sys) S).

Lemma after_ret {A} (a : A) s Q : after h (mret a) s Q <-> Q [] (Done a) s.
Proof. done. Qed.

Lemma after_mono {A} (p : io A) s (Q Q' : list (event sys) -> outcome A -> S -> Prop) :
  (forall tr o s', Q tr o s' -> Q' tr o s') -> after h p s Q -> after h p s Q'.
Proof. unfold after. destruct (exec h p s) as [[tr o] s']. eauto. Qed.

Lemma after_bind {A B} (p : io A) (f : A -> io B) s Q :
  after h (p ≫= f) s Q <->
  after h p s (fun tr o s1 =>
    match o with
    | Done a => after h (f a) s1 (fun tr' o' s2 => Q (tr ++ tr') o' s2)
    | Panicked w => Q tr (Panicked w) s1
    end).
Proof.
  unfold after. rewrite exec_bind. destruct (exec h p s) as [[tr [a|w]] s1]; [|done].
  by destruct (exec h (f a) s1) as [[tr' o'] s2].
Qed.

Lemma after_trigger {X} (e : sys X) s Q :
  after h (trigger e) s Q <-> Q [Ev e (h _ e s).1] (Done (h _ e s).1) (h _ e s).2.
Proof. unfold after. simpl. by destruct (h X e s). Qed.

(** Every run satisfies it, so this one does. *)
Lemma after_wp {A} (p : io A) s (Q : list (event sys) -> outcome A -> Prop) :
  wp p Q -> after h p s (fun tr o _ => Q tr o).
Proof.
  intros Hwp. unfold after. destruct (exec h p s) as [[tr o] s'] eqn:He.
  rewrite wp_runs in Hwp. by eapply Hwp, exec_runs.
Qed.

Lemma after_and {A} (p : io A) s (Q Q' : list (event sys) -> outcome A -> S -> Prop) :
  after h p s Q -> after h p s Q' -> after h p s (fun tr o s' => Q tr o s' /\ Q' tr o s').
Proof. unfold after. by destruct (exec h p s) as [[tr o] s']. Qed.

(** The answers of a trace are the handler's, and the state it ends in. *)
Fixpoint consistent (s : S) (tr : list (event sys)) : Prop :=
  match tr with
  | [] => True
  | Ev e x :: tr => x = (h _ e s).1 /\ consistent (h _ e s).2 tr
  end.

Fixpoint final (s : S) (tr : list (event sys)) : S :=
  match tr with
  | [] => s
  | Ev e x :: tr => final (h _ e s).2 tr
  end.

Lemma final_app s tr tr' : final s (tr ++ tr') = final (final s tr) tr'.
Proof. revert s. by induction tr as [|[X e x] tr IH]; simpl. Qed.

Lemma consistent_app s tr tr' :
  consistent s (tr ++ tr') <-> consistent s tr /\ consistent (final s tr) tr'.
Proof.
  revert s. induction tr as [|[X e x] tr IH]; intros s; simpl; [tauto|]. rewrite IH. tauto.
Qed.

(** The run of a program against a handler is the run whose answers are the
    handler's. *)
Lemma exec_consistent {A} (p : io A) s tr o s' :
  exec h p s = (tr, o, s') <-> runs p tr o /\ consistent s tr /\ s' = final s tr.
Proof.
  split.
  - intros He. split; [by eapply exec_runs|]. revert s tr He.
    induction p as [a|w|X e k IH]; intros s tr; simpl; [by intros [= <- _ <-]..|].
    destruct (h X e s) as [x s1] eqn:Hx. destruct (exec h (k x) s1) as [[tr1 o1] s2] eqn:He.
    intros [= <- -> ->]. simpl. rewrite Hx. simpl. by destruct (IH _ _ _ He) as [? ?].
  - intros (Hr & Hc & ->). revert s Hc. induction Hr as [a|w|X e x k tr o Hr IH]; intros s; [done|done|].
    simpl. intros [-> Hc]. destruct (h X e s) as [x s1]. simpl in *. by rewrite IH.
Qed.

Lemma after_runs {A} (p : io A) s tr o Q :
  runs p tr o -> consistent s tr -> after h p s Q -> Q tr o (final s tr).
Proof.
  intros Hr Hc. unfold after. by rewrite (proj2 (exec_consistent p s tr o (final s tr))).
Qed.

(** It is enough to look at the runs whose answers are the handler's. *)
Lemma after_by_runs {A} (p : io A) s Q :
  wp p (fun tr o => consistent s tr -> Q tr o (final s tr)) -> after h p s Q.
Proof.
  rewrite wp_runs. intros HQ. unfold after. destruct (exec h p s) as [[tr o] s'] eqn:He.
  apply exec_consistent in He as (Hr & Hc & ->). by apply HQ.
Qed.

Context `{!ApiServer h}.

Lemma final_no_writes s tr : no_writes tr -> forall k, stored (final s tr) k = stored s k.
Proof.
  intros Hw k. revert s. induction Hw as [|[X e x] tr Hw _ IH]; intros s; simpl; [done|].
  rewrite IH. by apply api_other.
Qed.

(** A run without writes leaves the stored pipelines alone. *)
Lemma after_no_writes {A} (p : io A) s :
  after h p s (fun tr _ s' => no_writes tr -> forall k, stored s' k = stored s k).
Proof.
  unfold after. destruct (exec h p s) as [[tr o] s'] eqn:He.
  apply exec_consistent in He as (_ & _ & ->). apply final_no_writes.
Qed.
End after.

Lemma reads_no_writes tr : reads_only tr -> no_writes tr.
Proof. intros H. eapply Forall_impl; [exact H|]. intros [X e x]. simpl. by destruct e. Qed.

(** ** Reading, updating and writing back one status

    The three helpers [setWaitingApproval], [resetWaitingApproval] of the
    webhooks have this shape. *)
Section write_back.
Context {S : Type} (h : handler (E := sys) S) `{!ApiServer h}.
Context (f : PipelineStatus -> io PipelineStatus) (k : ObjectKey).
Context (Hpure : forall st, (exists st', f st = PRet st') \/ (exists w, f st = PPanic w)).

Definition write_back : io (res unit) :=
  call pipeline <- trigger (GetPipeline k) onerr err => mret (Err err);
  st ← f (pl_Status pipeline);
  trigger (StatusUpdate (set_Status st pipeline)).

(** The update went through: the status of the stored pipeline is [f] of what
    it was, and nothing else changed. *)
Definition wrote_back (s s' : S) : Prop :=
  exists p st', stored s k = Some p /\ f (pl_Status p) = PRet st' /\
    stored s' k = Some (set_Status st' p) /\ forall k', k' <> k -> stored s' k' = stored s k'.

Lemma after_write_back_cases s :
  after h write_back s (fun _ o s' =>
    (o = Done (Ok tt) /\ wrote_back s s') \/
    (o <> Done (Ok tt) /\ forall k', stored s' k' = stored s k')).
Proof.
  unfold write_back. apply after_bind, after_trigger.
  pose proof (api_other _ (GetPipeline k) s eq_refl) as Hsame.
  destruct (h _ (GetPipeline k) s) as [[p|e] s1] eqn:Hget; cbn [fst snd] in *; [|by right].
  assert (stored s k = Some p) as Hp by (apply api_get; by rewrite Hget).
  apply api_key in Hp as Hk. apply after_bind.
  destruct (Hpure (pl_Status p)) as [[st' Hst]|[w Hst]]; rewrite Hst; [|by right].
  apply after_ret. apply after_trigger.
  destruct (h _ (StatusUpdate (set_Status st' p)) s1) as [[[]|e] s2] eqn:Hup; cbn [fst snd].
  2: { right. split; [done|]. intros k'. rewrite <- Hsame.
       pose proof (api_update_err s1 (set_Status st' p) e) as Herr. rewrite Hup in Herr. by apply Herr. }
  left. split; [done|]. exists p, st'. destruct (api_update s1 (set_Status st' p)) as (old & Hold & Hnew).
  { by rewrite Hup. }
  rewrite Hup in Hnew. cbn [snd] in Hnew.
  change (pl_Key (set_Status st' p)) with (pl_Key p) in Hold, Hnew. rewrite Hk, Hsame, Hp in Hold.
  injection Hold as <-. split_and!; [done|done| |].
  - rewrite Hnew, Hk. by rewrite decide_True.
  - intros k' Hk'. rewrite Hnew, decide_False by congruence. apply Hsame.
Qed.

Lemma after_write_back s :
  after h write_back s (fun _ o s' => o = Done (Ok tt) -> wrote_back s s').
Proof.
  eapply after_mono; [|apply after_write_back_cases]. cbv beta. intros tr o s' [[_ Hw]|[Hne _]] Ho; done.
Qed.
End write_back.

(** ** An instance: a map of pipelines, with the secrets beside it *)
Record map_server := MkMapServer {
  ms_pipelines : gmap ObjectKey Pipeline;
  ms_secrets : gmap ObjectKey SecretData }.

Definition err_not_found := ErrLeaf EApiNotFound "not found".

Definition put (p : Pipeline) (s : map_server) : map_server :=
  MkMapServer (<[pl_Key p := p]> (ms_pipelines s)) (ms_secrets s).

Definition map_handler : handler (E := sys) map_server := fun X e s =>
  match e in sys X return X * map_server with
  | GetPipeline k =>
      (match ms_pipelines s !! k with
       | Some p => if decide (pl_Key p = k) then Ok p else Err err_not_found
       | None => Err err_not_found
       end, s)
  | GetSecret k =>
      (match ms_secrets s !! k with Some d => Ok d | None => Err err_not_found end, s)
  | GetCluster _ => (Err err_not_found, s)
  | ListPipelines _ _ => (Ok (map snd (map_to_list (ms_pipelines s))), s)
  | StatusUpdate p =>
      match ms_pipelines s !! pl_Key p with
      | Some old =>
          if decide (pl_Key old = pl_Key p)
          then (Ok tt, put (set_Status (pl_Status p) old) s) else (Err err_not_found, s)
      | None => (Err err_not_found, s)
      end
  | StatusPatch _ after _ => (Ok tt, put after s)
  | PatcherPatch p _ => (Ok tt, put p s)
  | Eventf _ _ _ _ => (tt, s)
  | AnnotatedEventf _ _ _ _ _ => (tt, s)
  | Now => (0%Z, s)
  | Sleep _ => (tt, s)
  | LockCaches => (tt, s)
  | UnlockCaches => (tt, s)
  | CachesGet _ => (None, s)
  | CachesSet _ _ => (tt, s)
  | CachesDelete _ => (tt, s)
  | CAPIKubeconfig _ => (Err err_not_found, s)
  | RESTConfigFromKubeConfig _ => (Err err_not_found, s)
  | LocalClusterConfig => (Handle 0, s)
  | NewCache _ => (Ok (Handle 0), s)
  | RunnerRun _ => (Handle 0, s)
  | CancelFunc _ => (tt, s)
  | GetInformer _ _ => (Ok (Handle 0), s)
  | AddEventHandler _ _ => (Ok tt, s)
  | HasSynced _ => (true, s)
  | CacheRead _ _ _ => (Err err_not_found, s)
  | SendEvent _ => (tt, s)
  | QueueAdd _ => (tt, s)
  | QueueGet => (None, s)
  | QueueForget _ => (tt, s)
  | QueueDone _ => (tt, s)
  | QueueAddRateLimited _ => (tt, s)
  | Git g => (git_offline g, s)
  end.

#[export, refine] Instance map_ApiServer : ApiServer map_handler := {|
  stored s k := p ← ms_pipelines s !! k; if decide (pl_Key p = k) then Some p else None |}.
Proof.
  - intros s k p. destruct (ms_pipelines s !! k) as [q|]; simpl; [|done]. case_decide; naive_solver.
  - intros s k p. simpl. destruct (ms_pipelines s !! k) as [q|]; simpl; [|done].
    case_decide; naive_solver.
  - intros s p. simpl. destruct (ms_pipelines s !! pl_Key p) as [old|] eqn:Hold; simpl; [|done].
    case_decide as Hk; [|done]. intros _. exists old. split; [done|]. intros k. simpl.
    change (pl_Key (set_Status (pl_Status p) old)) with (pl_Key old). rewrite Hk.
    destruct (decide (k = pl_Key p)) as [->|Hne].
    + rewrite lookup_insert_eq. simpl. by rewrite decide_True.
    + by rewrite lookup_insert_ne.
  - intros s p e. simpl. destruct (ms_pipelines s !! pl_Key p) as [old|] eqn:Hold; simpl; [|done].
    by case_decide.
  - intros X e s. by destruct e.
Defined.

(** ** A pipeline to evaluate on

    Three environments; promotions to [prod] wait for an approval, the others
    are announced at once; requests must be signed when [signed]. *)
Definition sample_spec (signed : bool) : PipelineSpec :=
  let strategy := MkStrategy None (Some MkNotificationPromotion)
                    (if signed then Some (MkLocalRef "hmac") else None) in
  MkPipelineSpec
    [MkEnvironment "dev" [MkTarget "dev-ns" None] None;
     MkEnvironment "staging" [MkTarget "staging-ns" None] None;
     MkEnvironment "prod" [MkTarget "prod-ns" None] (Some (MkPromotion true strategy))]
    (MkLocalAppReference "helm.toolkit.fluxcd.io/v2" "HelmRelease" "podinfo")
    (Some (MkPromotion false strategy)).

Definition sample_pipeline (signed : bool) (st : PipelineStatus) : Pipeline :=
  MkPipeline "podinfo" "default" 1 None (sample_spec signed) st.

Definition sample_status : PipelineStatus :=
  MkPipelineStatus 1 []
    {["prod" := Some (MkEnvironmentStatus (MkWaitingApproval "5.0.0") [])]}.

Definition sample_server (signed : bool) : map_server :=
  MkMapServer {[MkKey "default" "podinfo" := sample_pipeline signed sample_status]}
    {[MkKey "default" "hmac" := {["hmac-key" := "s3cr3t"]}]}.
