(* ===== verification/Git.v ===== *)
(** * Git hosting services: shared parts (internal/git)

    The data of the package, the helpers on URLs and domains, the interface
    [Provider], and the operations of [GoGitProvider] that the providers for
    GitHub, GitLab and Bitbucket Server delegate to. *)

From S2P Require Export Regexp Sys.
From S2P Require Export GoStrings.

(** ** Paths, as packages path, filepath and strings have them *)

Fixpoint clean_stack (rooted : bool) (stack ps : list string) : list string :=
  match ps with
  | [] => rev stack
  | p :: ps =>
      if bool_decide (p = "") || bool_decide (p = ".") then clean_stack rooted stack ps
      else if bool_decide (p = "..") then
        match stack with
        | [] => clean_stack rooted (if rooted then [] else [p]) ps
        | top :: below =>
            clean_stack rooted (if bool_decide (top = "..") then p :: stack else below) ps
        end
      else clean_stack rooted (p :: stack) ps
  end.

(** [path.Clean] *)
Definition path_Clean (p : string) : string :=
  let rooted := HasPrefix p "/" in
  let joined := Join slash (clean_stack rooted [] (Split slash p)) in
  if rooted then "/" +:+ joined else if bool_decide (joined = "") then "." else joined.

(** [path.Join] *)
Definition path_Join (elems : list string) : string :=
  match filter (fun e => e <> "") elems with
  | [] => ""
  | elems => path_Clean (Join slash elems)
  end.

(** The directory of [filepath.Split]: everything up to the last slash *)
Fixpoint split_dir (p : string) : string :=
  match p with
  | "" => ""
  | String c p' => if Contains slash p then String c (split_dir p') else ""
  end.

Fixpoint trim_left (c : Ascii.ascii) (s : string) : string :=
  match s with
  | "" => ""
  | String d s' => if decide (c = d) then trim_left c s' else s
  end.

Fixpoint trim_right (c : Ascii.ascii) (s : string) : string :=
  match s with
  | "" => ""
  | String d s' =>
      let t := trim_right c s' in
      if bool_decide (t = "") && bool_decide (c = d) then "" else String d t
  end.

(** [strings.Trim] with a cutset of one byte *)
Definition Trim (c : Ascii.ascii) (s : string) : string := trim_right c (trim_left c s).

(** ** Data: repository.go, pull_request.go, provider.go *)
Record Repository := MkRepository {
  repo_Domain : string;
  repo_Org : string;
  repo_Name : string }.

Record TreeEntry := MkTreeEntry {
  te_Name : string;
  te_Path : string;
  te_Type : string;
  te_Size : Z;
  te_SHA : string;
  te_Link : string }.

(** A nil [Content] deletes the file. *)
Record CommitFile := MkCommitFile {
  cf_Path : string;
  cf_Content : option string }.

Record Commit := MkCommit {
  c_CommitMessage : string;
  c_Files : list CommitFile }.

Record PullRequestInput := MkPullRequestInput {
  pin_RepositoryURL : string;
  pin_Title : string;
  pin_Body : string;
  pin_Head : string;
  pin_Base : string;
  pin_Commits : list Commit }.

Record PullRequest := MkPullRequest {
  pull_Title : string;
  pull_Description : string;
  pull_Link : string;
  pull_Merged : bool;
  pull_Source : string;
  pull_Number : Z }.

Record UpdatePullRequestOptions := MkUpdatePullRequestOptions {
  upo_Title : string;
  upo_Body : string }.

(** The value behind [RawClient()] and [ProviderOption.Client] *)
Inductive raw_client :=
  | GGPClient (client : handle)
  | SCMClient (client : handle)
  | OtherClient.

(** [type Provider interface], after [Setup] *)
Record Provider := MkProvider {
  CreatePullRequest : PullRequestInput -> io (res PullRequest);
  Name : string;
  SupportedDomain : io string;
  GetRepository : string -> io (res Repository);
  GetTreeList : string -> string -> string -> io (res (list TreeEntry));
  ListPullRequests : string -> io (res (list PullRequest));
  UpdatePullRequest : string -> Z -> UpdatePullRequestOptions -> io (res PullRequest);
  RawClient : raw_client }.

(** utils.go *)
Record writeFilesToBranchRequest := MkWriteFiles {
  wf_HeadBranch : string;
  wf_BaseBranch : string;
  wf_Commits : list Commit;
  wf_CreateBranch : bool }.

Record createPullRequestRequest := MkCreatePR {
  cpr_HeadBranch : string;
  cpr_BaseBranch : string;
  cpr_Title : string;
  cpr_Description : string }.

(** The results of the library as the package's own type *)
Definition pull_of_info (i : PullRequestInfo) : PullRequest :=
  MkPullRequest (pri_Title i) (pri_Description i) (pri_WebURL i) (pri_Merged i)
    (pri_SourceBranch i) (pri_Number i).

Definition entry_of_ggp (file : GGPTreeEntry) : TreeEntry :=
  MkTreeEntry "" (gte_Path file) (gte_Type file) (gte_Size file) (gte_SHA file) (gte_URL file).

Definition git {X} (g : git_call X) : io X := trigger (Git g).

(** ** Libraries the package calls

    Parsers of URLs and references, the configuration of viper, the retry
    helper of client-go and the setters of kyaml.  Only the retry helper is
    required to keep a promise: it runs the function, and again after a sleep
    while it fails with an error that may be retried, at most as often as the
    back-off of the package has steps. *)

(** [transport.Endpoint] of go-git: the fields the program reads or sets *)
Record Endpoint := MkEndpoint {
  ep_Protocol : string;
  ep_Host : string;
  ep_Path : string }.

(** [DefaultBackoff] *)
Definition backoff_Steps : nat := 4.
Definition backoff_Duration : Z := 20_000_000.
Definition backoff_Factor : Z := 5.

(** Runs of a retried function: [n] more retries are allowed. *)
Inductive retried {A} (retriable : error -> bool) (fn : io (res A)) :
    nat -> list (event sys) -> outcome (res A) -> Prop :=
  | retried_ok n tr a : runs fn tr (Done (Ok a)) -> retried retriable fn n tr (Done (Ok a))
  | retried_err n tr e : runs fn tr (Done (Err e)) -> n = 0 \/ retriable e = false ->
      retried retriable fn n tr (Done (Err e))
  | retried_panic n tr w : runs fn tr (Panicked w) -> retried retriable fn n tr (Panicked w)
  | retried_again n tr e d tr' o : runs fn tr (Done (Err e)) -> retriable e = true ->
      retried retriable fn n tr' o -> retried retriable fn (S n) (tr ++ Ev (Sleep d) tt :: tr') o.

Class GitLibs := {
  viper_GetString : string -> string;
  NewEndpoint : string -> res Endpoint;
  Endpoint_String : Endpoint -> string;
  ParseOrgRepositoryURL : string -> res OrgRepositoryRef;
  ParseUserRepositoryURL : string -> res UserRepositoryRef;
  url_Parse : string -> res URL;
  SetterDefinitionPrefix : string;
  set_Filter : SettersSet -> RNode -> res RNode;
  OnError : forall {A}, (error -> bool) -> io (res A) -> io (res A);
  OnError_runs {A} retriable (fn : io (res A)) :
    wp (OnError retriable fn) (retried retriable fn (backoff_Steps - 1)) }.

Definition GitHubProviderName := "github".
Definition GitLabProviderName := "gitlab".
Definition BitBucketServerProviderName := "bitbucket-server".
Definition AzureDevOpsProviderName := "azure-devops".
Definition deleteFilesCommitMessage := "Delete old files for resources".

(** ** utils.go *)
Definition AddSchemeToDomain (domain : string) : string :=
  if bool_decide (domain <> "github.com") && bool_decide (domain <> "gitlab.com") &&
     negb (HasPrefix domain "http://") && negb (HasPrefix domain "https://")
  then "https://" +:+ domain else domain.

(** [WithCombinedSubOrgs] works on a copy of the reference. *)
Definition WithCombinedSubOrgs (ref : OrgRepositoryRef) : OrgRepositoryRef :=
  MkOrgRepositoryRef (or_Domain ref) (path_Join (or_Organization ref :: or_SubOrganizations ref))
    [] (or_RepositoryName ref) (or_Key ref).

Definition set_Domain (d : string) (ref : OrgRepositoryRef) : OrgRepositoryRef :=
  MkOrgRepositoryRef d (or_Organization ref) (or_SubOrganizations ref) (or_RepositoryName ref)
    (or_Key ref).

Record ParsedURL := MkParsedURL {
  pu_Domain : string;
  pu_OrganizationName : string;
  pu_RepositoryName : string }.

Section utils.
Context `{GitLibs}.

Definition GetGitProviderUrl (giturl : string) : res string :=
  let repositoryAPIURL := viper_GetString "capi-templates-repository-api-url" in
  if bool_decide (repositoryAPIURL <> "") then Ok repositoryAPIURL
  else match NewEndpoint giturl with
       | Err err => Err err
       | Ok ep =>
           if bool_decide (ep_Protocol ep = "http") || bool_decide (ep_Protocol ep = "https")
           then Ok giturl
           else Ok (Endpoint_String (MkEndpoint "https" (ep_Host ep) (ep_Path ep)))
       end.
End utils.

(** ** Retried functions *)
Section retried.
Context `{GitLibs}.

Lemma retried_calls {A} P retriable (fn : io (res A)) n tr o :
  calls_only P fn -> (forall d x, P (Ev (Sleep d) x)) -> retried retriable fn n tr o -> Forall P tr.
Proof.
  intros Hfn Hsleep. pose proof (proj1 (wp_runs _ _) Hfn) as Hruns. cbv beta in Hruns.
  induction 1; eauto. apply Forall_app. split; [eauto|]. by constructor.
Qed.

Lemma calls_only_OnError {A} P retriable (fn : io (res A)) :
  calls_only P fn -> (forall d x, P (Ev (Sleep d) x)) -> calls_only P (OnError retriable fn).
Proof.
  intros Hfn Hsleep. eapply wp_mono; [|apply OnError_runs]. intros tr o.
  by apply retried_calls.
Qed.

Lemma calls_only_git {X} P (g : git_call X) :
  (forall x, P (Ev (Git g) x)) -> calls_only P (git g).
Proof. apply calls_only_trigger. Qed.
End retried.

Ltac git_calls_step :=
  lazymatch goal with
  | |- calls_only _ (git _) => apply calls_only_git; intros ?; try done
  | |- calls_only _ (OnError _ _) => apply calls_only_OnError; [|intros ? ?; try done]
  end.
Ltac git_calls := repeat first [progress eauto with calls nocore | git_calls_step | calls_step].

(** ** An instance of the libraries

    URLs of the form [https://host/owner/name], a retry helper that sleeps the
    back-off's durations without jitter, and a setter that sets the scalars
    whose comment names its definition. *)
Module StockGit.
Definition err_url := errorf "invalid url".

Definition url_pieces (url : string) : option (string * string * string) :=
  match Split slash url with
  | ["https:"; ""; host; owner; name] => Some (host, owner, name)
  | _ => None
  end.

Fixpoint on_error {A} (n : nat) (d : Z) (retriable : error -> bool) (fn : io (res A)) :
    io (res A) :=
  r ← fn;
  match r with
  | Ok a => mret (Ok a)
  | Err e =>
      match n with
      | O => mret (Err e)
      | S n =>
          if retriable e then trigger (Sleep d);; on_error n (d * backoff_Factor) retriable fn
          else mret (Err e)
      end
  end.

Lemma on_error_retried {A} n d retriable (fn : io (res A)) :
  wp (on_error n d retriable fn) (retried retriable fn n).
Proof.
  revert d. induction n as [|n IH]; intros d; simpl; apply wp_bind, wp_runs;
    intros tr [[a|e]|w] Hr; simpl; rewrite ?app_nil_r; try by constructor.
  - constructor; [done|by left].
  - destruct (retriable e) eqn:He; simpl.
    + intros []. eapply wp_mono; [|apply IH]. intros tr' o Hr'. by econstructor.
    + rewrite app_nil_r. constructor; [done|by right].
Qed.

Fixpoint set_scalars (def value : string) (n : RNode) : RNode :=
  match n with
  | RScalar v c => if bool_decide (c = def) then RScalar value c else RScalar v c
  | RSeqNode l => RSeqNode (map (set_scalars def value) l)
  | RMapNode m => RMapNode (map (fun '(k, n) => (k, set_scalars def value n)) m)
  end.

#[refine] Instance libs : GitLibs := {|
  viper_GetString _ := "";
  NewEndpoint url :=
    match url_pieces url with
    | Some (host, owner, name) => Ok (MkEndpoint "https" host (owner +:+ "/" +:+ name))
    | None => Err err_url
    end;
  Endpoint_String ep := ep_Protocol ep +:+ "://" +:+ ep_Host ep +:+ "/" +:+ ep_Path ep;
  ParseOrgRepositoryURL url :=
    match url_pieces url with
    | Some (host, owner, name) => Ok (MkOrgRepositoryRef host owner [] name "")
    | None => Err err_url
    end;
  ParseUserRepositoryURL url :=
    match url_pieces url with
    | Some (host, owner, name) => Ok (MkUserRepositoryRef host name)
    | None => Err err_url
    end;
  url_Parse url :=
    match url_pieces url with
    | Some (host, owner, name) => Ok (MkURL host ("/" +:+ owner +:+ "/" +:+ name) url)
    | None => Err err_url
    end;
  SetterDefinitionPrefix := "io.k8s.cli.setters.";
  set_Filter set n :=
    Ok (foldl (fun n '(def, (_, value)) => set_scalars def value n) n (set_Definitions set));
  OnError A := on_error (backoff_Steps - 1) backoff_Duration |}.
Proof. intros A retriable fn. apply on_error_retried. Defined.
End StockGit.
