(* ===== verification/GoGitProvider.v ===== *)
(** * GoGitProvider (internal/git/gitprovider.go)

    The operations on repositories, branches, commits and pull requests that
    the providers for GitHub, GitLab and Bitbucket Server share, and the URL
    parsers of utils.go that need them. *)

From S2P Require Export Git.
From Stdlib Require Import Ascii.

(** ** Bitbucket Server URLs *)

(** The regular expression
    [://(?P<host>[^/]+)/(.+/)?(?P<key>[^/]+)/(?P<repo>[^/]+)\.git]; the dot
    matches everything but a newline, and group 0 is the whole match. *)
Definition not_newline (c : ascii) : bool := bool_decide (c <> "010"%char).

Definition bitbucket_re : re :=
  RCap 0 (RSeq (RLit "://") (RSeq (RCap 1 (RPlus not_slash)) (RSeq (RLit "/")
    (RSeq (ROpt (RCap 2 (RSeq (RPlus not_newline) (RLit "/"))))
      (RSeq (RCap 3 (RPlus not_slash)) (RSeq (RLit "/")
        (RSeq (RCap 4 (RPlus not_slash)) (RLit ".git")))))))).

Definition bitbucket_re_String := "://(?P<host>[^/]+)/(.+/)?(?P<key>[^/]+)/(?P<repo>[^/]+)\.git".

(** [re.SubexpNames()] *)
Definition bitbucket_names : list string := [""; "host"; ""; "key"; "repo"].

(** [re.FindStringSubmatch]: nil without a match; a group that did not take
    part is the empty string *)
Definition FindStringSubmatch (r : re) (groups : nat) (s : string) : list string :=
  match find_submatch r s with
  | Some m => (fun i => default "" (m !! i)) <$> seq 0 groups
  | None => []
  end.

(** [for i, name := range re.SubexpNames()] *)
Fixpoint named_groups (match_ : list string) (i : nat) (names : list string)
    (result : gmap string string) : io (gmap string string) :=
  match names with
  | [] => mret result
  | name :: names =>
      if bool_decide (i <> 0) && bool_decide (name <> "") then
        v ← index match_ i; named_groups match_ (S i) names (<[name := v]> result)
      else named_groups match_ (S i) names result
  end.

Definition ParseBitbucketServerURL (url : string) : io (res OrgRepositoryRef) :=
  let match_ := FindStringSubmatch bitbucket_re 5 url in
  result ← named_groups match_ 0 bitbucket_names ∅;
  if bool_decide (size result <> 3) then
    mret (Err (errorf ("unable to parse repository URL " +:+ quote url +:+ " using regex " +:+
                       quote bitbucket_re_String)))
  else
    let get k := default "" (result !! k) in
    mret (Ok (MkOrgRepositoryRef (AddSchemeToDomain (get "host")) (get "key") [] (get "repo")
                (get "key"))).

Section ggp.
Context `{GitLibs}.

(** utils.go *)
Definition ParseURL (provider repoURL : string) : io (res ParsedURL) :=
  if bool_decide (provider = GitHubProviderName) || bool_decide (provider = GitLabProviderName) then
    match ParseUserRepositoryURL repoURL with
    | Err err => mret (Err err)
    | Ok ref => mret (Ok (MkParsedURL (ur_Domain ref) "" (ur_RepositoryName ref)))
    end
  else if bool_decide (provider = BitBucketServerProviderName) then
    call ref <- ParseBitbucketServerURL repoURL onerr err => mret (Err err);
    mret (Ok (MkParsedURL (or_Domain ref) (or_Organization ref) (or_RepositoryName ref)))
  else mret (Ok (MkParsedURL "" "" "")).

(** ** Repositories *)
Definition is_git_not_found (err : error) : bool := err_is EGitNotFound err.

(** The error both lookups report *)
Definition err_get_repository (client : handle) (url : string) (err : error) : io error :=
  domain ← git (ClientSupportedDomain client);
  mret (ErrWrap ("unable to get repository " +:+ quote url +:+ ": ") err
          (", (client domain: " +:+ domain +:+ ")")).

Definition ggp_GetRepository (client : handle) (url : string) : io (res handle) :=
  match ParseOrgRepositoryURL url with
  | Err err => mret (Err (wrapf ("unable to parse url " +:+ quote url +:+ ": ") err))
  | Ok ref =>
      let ref := set_Domain (AddSchemeToDomain (or_Domain ref)) ref in
      let ref := WithCombinedSubOrgs ref in
      call repo <- OnError is_git_not_found (git (OrgRepositoriesGet client ref)) onerr err =>
        (e ← err_get_repository client url err; mret (Err e));
      mret (Ok repo)
  end.

Definition GetBitbucketRepository (client : handle) (url : string) : io (res handle) :=
  call ref <- ParseBitbucketServerURL url onerr err => mret (Err err);
  call repo <- OnError is_git_not_found (git (OrgRepositoriesGet client ref)) onerr err =>
    (e ← err_get_repository client url err; mret (Err e));
  mret (Ok repo).

(** ** Branches and files *)
Definition CreateBranch (repo : handle) (base head : string) : io (res unit) :=
  call commits <- OnError (fun _ => true) (git (CommitsListPage repo base)) onerr err =>
    mret (Err (wrapf ("unable to get most recent commit for branch " +:+ quote base +:+ ": ") err));
  match commits with
  | [] =>
      mret (Err (errorf ("no commits were found for branch " +:+ quote base +:+
                         ", is the repository empty?")))
  | sha :: _ =>
      call _ <- git (BranchesCreate repo head sha) onerr err =>
        mret (Err (wrapf ("unable to create new branch " +:+ quote head +:+ " from commit " +:+
                          quote sha +:+ " in branch " +:+ quote base +:+ ": ") err));
      mret (Ok tt)
  end.

(** [Loop through all the commits and write the files.] *)
Fixpoint write_commits (repo : handle) (head : string) (commits : list Commit) : io (res unit) :=
  match commits with
  | [] => mret (Ok tt)
  | c :: commits =>
      let adapted := (fun f => (cf_Path f, cf_Content f)) <$> c_Files c in
      call _ <- git (CommitsCreate repo head (c_CommitMessage c) adapted) onerr err =>
        mret (Err (wrapf ("unable to commit changes to " +:+ quote head +:+ ": ") err));
      write_commits repo head commits
  end.

Definition WriteFilesToBranch (req : writeFilesToBranchRequest) (repo : handle) : io (res unit) :=
  call _ <- (if wf_CreateBranch req then CreateBranch repo (wf_BaseBranch req) (wf_HeadBranch req)
             else mret (Ok tt)) onerr err => mret (Err err);
  write_commits repo (wf_HeadBranch req) (wf_Commits req).

(** ** Trees *)
Definition ggp_GetTreeList (client : handle) (repoUrl sha path : string) (recursive : bool) :
    io (res (list GGPTreeEntry)) :=
  call repo <- ggp_GetRepository client repoUrl onerr err => mret (Err err);
  call treePaths <- git (TreesList repo sha path recursive) onerr err => mret (Err err);
  mret (Ok treePaths).

(** The files of the request that exist on the branch, once per tree entry of
    the same path *)
Fixpoint GetUpdatedFiles (reqFiles : list CommitFile) (client : handle) (repoURL branch : string) :
    io (res (list CommitFile)) :=
  match reqFiles with
  | [] => mret (Ok [])
  | file :: reqFiles =>
      match cf_Content file with
      | None => GetUpdatedFiles reqFiles client repoURL branch
      | Some _ =>
          call treeEntries <- ggp_GetTreeList client repoURL branch (split_dir (cf_Path file)) true
            onerr err =>
            mret (Err (wrapf ("error getting list of trees in repo: " +:+ repoURL +:+ "@" +:+
                              branch +:+ ": ") err));
          let found := (fun e => MkCommitFile (gte_Path e) None) <$>
                         filter (fun e => gte_Path e = cf_Path file) treeEntries in
          call rest <- GetUpdatedFiles reqFiles client repoURL branch onerr err => mret (Err err);
          mret (Ok (found ++ rest))
      end
  end.

(** ** Pull requests *)
Definition ggp_CreatePullRequest (req : createPullRequestRequest) (repo : handle) :
    io (res PullRequestInfo) :=
  call pr <- git (PullRequestsCreate repo (cpr_Title req) (cpr_HeadBranch req) (cpr_BaseBranch req)
                    (cpr_Description req)) onerr err =>
    mret (Err (wrapf ("unable to create new pull request for branch " +:+
                      quote (cpr_HeadBranch req) +:+ ": ") err));
  mret (Ok pr).

Definition ggp_ListPullRequests (repo : handle) : io (res (list PullRequest)) :=
  call prList <- git (PullRequestsList repo) onerr err => mret (Err err);
  mret (Ok (map pull_of_info prList)).

Definition ggp_UpdatePullRequest (repo : handle) (number : Z) (title : string) :
    io (res PullRequest) :=
  call pr <- git (PullRequestsEdit repo number title) onerr err =>
    mret (Err (wrapf "failed to update existing PR: " err));
  mret (Ok (pull_of_info pr)).
End ggp.

(** ** Bitbucket URLs: what the parser does *)
Lemma calls_only_named_groups P match_ i names result :
  calls_only P (named_groups match_ i names result).
Proof. revert i result. induction names as [|name names IH]; intros i result; simpl; calls_tac. Qed.
#[export] Hint Resolve calls_only_named_groups : calls.

Lemma calls_only_ParseBitbucketServerURL P url : calls_only P (ParseBitbucketServerURL url).
Proof. unfold ParseBitbucketServerURL. calls_tac. Qed.
#[export] Hint Resolve calls_only_ParseBitbucketServerURL : calls.

Definition bitbucket_ref (m : caps) : OrgRepositoryRef :=
  let get i := default "" (m !! i) in
  MkOrgRepositoryRef (AddSchemeToDomain (get 1)) (get 3) [] (get 4) (get 3).


Section ggp_calls.
Context `{GitLibs} (P : event sys -> Prop).
Context (Hsleep : forall d x, P (Ev (Sleep d) x)).
Context (Hdomain : forall client x, P (Ev (Git (ClientSupportedDomain client)) x)).
Context (Hget : forall client ref x, P (Ev (Git (OrgRepositoriesGet client ref)) x)).

Lemma calls_only_GetRepository client url : calls_only P (ggp_GetRepository client url).
Proof. unfold ggp_GetRepository, err_get_repository. git_calls. Qed.

Lemma calls_only_GetBitbucketRepository client url : calls_only P (GetBitbucketRepository client url).
Proof. unfold GetBitbucketRepository, err_get_repository. git_calls. Qed.
End ggp_calls.

Lemma calls_only_ParseURL `{GitLibs} P provider url : calls_only P (ParseURL provider url).
Proof. unfold ParseURL. git_calls. Qed.
#[export] Hint Resolve calls_only_ParseURL : calls.

(** ** Looking up a repository *)
Definition ev_OrgRepositoriesGet (ev : event sys) :
    option (handle * OrgRepositoryRef * res handle) :=
  match ev with
  | Ev e x =>
      match e in sys X return X -> option (handle * OrgRepositoryRef * res handle) with
      | Git g =>
          match g in git_call X return X -> option (handle * OrgRepositoryRef * res handle) with
          | OrgRepositoriesGet client ref => fun r => Some (client, ref, r)
          | _ => fun _ => None
          end
      | _ => fun _ => None
      end x
  end.

(** The requests of a lookup: some that found nothing, then the one that
    decides *)
Definition lookups (client : handle) (ref : OrgRepositoryRef) (tr : list (event sys)) (n : nat)
    (r : res handle) : Prop :=
  exists fails, length fails <= n /\ Forall (fun e => is_git_not_found e = true) fails /\
    omap ev_OrgRepositoriesGet tr = map (fun e => (client, ref, Err e)) fails ++ [(client, ref, r)] /\
    forall e, r = Err e -> length fails = n \/ is_git_not_found e = false.

Lemma retried_lookups client ref n tr o :
  retried is_git_not_found (git (OrgRepositoriesGet client ref)) n tr o ->
  exists r, o = Done r /\ lookups client ref tr n r.
Proof.
  induction 1 as [n tr a Hr|n tr e Hr Hn|n tr w Hr|n tr e d tr' o Hr He _ (r & -> & fails & Hlen & Hall & Heq & Hlast)];
    apply runs_trigger in Hr as (x & -> & [= <-]).
  - eexists. split; [done|]. exists []. split_and!; [simpl; lia|done|done|done].
  - eexists. split; [done|]. exists []. split_and!; [simpl; lia|done|done|].
    intros e' [= <-]. simpl. naive_solver lia.
  - eexists. split; [done|]. exists (e :: fails). split_and!.
    + simpl; lia.
    + by constructor.
    + transitivity ((client, ref, Err e) :: omap ev_OrgRepositoriesGet tr'); [done|by rewrite Heq].
    + intros e' He'. destruct (Hlast _ He'); [left; simpl; lia|by right].
Qed.

Definition wanted_ref (ref : OrgRepositoryRef) : OrgRepositoryRef :=
  WithCombinedSubOrgs (set_Domain (AddSchemeToDomain (or_Domain ref)) ref).

(** Looking up a repository asks for one reference, the parsed one with
    a scheme in its domain and its sub-groups in the organisation, at most four
    times; it asks again only after an answer that nothing was found, and
    returns what the last answer was. *)
Theorem GetRepository_lookup `{GitLibs} client url :
  wp (ggp_GetRepository client url) (fun tr o =>
    match ParseOrgRepositoryURL url with
    | Err e => tr = [] /\ exists pre, o = Done (Err (wrapf pre e))
    | Ok ref =>
        exists r, lookups client (wanted_ref ref) tr 3 r /\
          match r with
          | Ok repo => o = Done (Ok repo)
          | Err e => exists pre post, o = Done (Err (ErrWrap pre e post))
          end
    end).
Proof.
  unfold ggp_GetRepository. destruct (ParseOrgRepositoryURL url) as [ref|e]; [|simpl; eauto].
  cbv zeta. rewrite wp_bind. eapply wp_mono; [|apply OnError_runs]. cbv beta. intros tr o Hr.
  apply retried_lookups in Hr as (r & -> & Hl). destruct r as [repo|e]; simpl.
  - rewrite app_nil_r. by exists (Ok repo).
  - intros domain. exists (Err e). split; [|eauto].
    destruct Hl as (fails & Hlen & Hall & Heq & Hlast). exists fails. split_and!; [done|done| |done].
    by rewrite omap_app, Heq, app_nil_r.
Qed.

(** ** Bitbucket URLs: the round trip *)

(** [([^/]+)/([^/]+)\.git], the end of the expression *)
Definition tail_re : re :=
  RSeq (RCap 3 (RPlus not_slash)) (RSeq (RLit "/") (RSeq (RCap 4 (RPlus not_slash)) (RLit ".git"))).

Lemma Contains_split c s :
  Contains c s = true -> exists a b, s = a +:+ String c b /\ Contains c a = false.
Proof.
  induction s as [|d s IH]; simpl; [done|]. case_decide as Hc; [intros _; subst; by exists "", s|].
  intros (a & b & -> & Ha)%IH. exists (String d a), b. simpl. by rewrite decide_False.
Qed.

Lemma slashless_bytes w : Contains slash w = false -> Forall (fun c => not_slash c = true) (bytes_of w).
Proof.
  induction w as [|c w IH]; simpl; [constructor|]. case_decide as Hc; [done|]. intros Hw.
  constructor; [|by apply IH]. unfold not_slash. by rewrite bool_decide_true by congruence.
Qed.

(** What follows the last of two slashless pieces *)
Lemma after_slash key rg u w :
  Contains slash key = false -> Contains slash rg = false ->
  key +:+ String slash rg = u +:+ String slash w -> w = rg.
Proof.
  intros Hk Hrg Heq. destruct (Contains slash u) eqn:Hu.
  - apply Contains_split in Hu as (a & b & -> & Ha).
    rewrite app_assoc_str, app_cons_str in Heq. apply sep_inj in Heq as [_ ->]; [|done..].
    rewrite Contains_app in Hrg. simpl in Hrg. by destruct (Contains slash b).
  - by apply sep_inj in Heq as [_ ->].
Qed.

Lemma slash_prefix s : HasPrefix s "/" = true <-> exists w, s = String slash w.
Proof. rewrite HasPrefix_spec. done. Qed.

Lemma tail_re_none {B} m s (k : caps -> string -> option B) :
  Contains slash s = false -> re_match tail_re m s k = None.
Proof.
  intros Hs. unfold tail_re. cbn [re_match]. apply match_plus_none. intros c u w ->.
  destruct (HasPrefix w "/") eqn:Hw; [|done]. apply slash_prefix in Hw as [w' ->].
  rewrite Contains_app in Hs. simpl in Hs. by rewrite orb_true_r in Hs.
Qed.

Section bitbucket.
Context (key repo : string).
Context (Hkey : key <> "") (Hrepo : repo <> "").
Context (Hkey' : Contains slash key = false) (Hrepo' : Contains slash repo = false).

Definition repo_path : string := key +:+ String slash (repo +:+ ".git").

Lemma repo_git_slashless : Contains slash (repo +:+ ".git") = false.
Proof. by rewrite Contains_app, Hrepo'. Qed.

Lemma tail_re_some {B} m (k : caps -> string -> option B) b :
  k (<[4 := repo]> (<[3 := key]> m)) "" = Some b -> re_match tail_re m repo_path k = Some b.
Proof.
  intros Hk. unfold repo_path, tail_re. cbn [re_match]. apply match_plus_exact; [done|by apply slashless_bytes| |].
  - rewrite (proj2 (slash_prefix _)) by eauto. cbn [drop_bytes String.length]. rewrite consumed_app.
    apply match_plus_exact; [done|by apply slashless_bytes| |].
    + simpl. by rewrite consumed_app.
    + intros c u w Heq. destruct u as [|c1 [|c2 [|c3 [|c4 u]]]]; rewrite ?app_cons_str, ?app_nil_str in Heq; by simplify_eq.
  - intros c u w Heq. destruct (HasPrefix w "/") eqn:Hw; [|done].
    apply slash_prefix in Hw as [w' ->]. exfalso.
    rewrite app_cons_str in Heq. injection Heq as <- Heq. pose proof repo_git_slashless as Hs.
    rewrite Heq, Contains_app in Hs. simpl in Hs. by rewrite orb_true_r in Hs.
Qed.

(** The optional part cannot end inside [key/repo.git]. *)
Lemma optional_rejects {B} m (k : caps -> string -> option B) (f : string -> caps -> caps) c u w :
  String c u +:+ w = repo_path ->
  (if HasPrefix w "/" then re_match tail_re (f w m) (drop_bytes 1 w) k else None) = None.
Proof.
  intros Heq. destruct (HasPrefix w "/") eqn:Hw; [|done]. apply slash_prefix in Hw as [w' ->].
  symmetry in Heq. apply after_slash in Heq as ->; [|done|apply repo_git_slashless].
  apply tail_re_none, repo_git_slashless.
Qed.
(** The optional part of the path: nothing, or a prefix that ends in a slash *)
Inductive path_prefix : string -> Prop :=
  | no_prefix : path_prefix ""
  | some_prefix p : p <> "" -> Contains "010"%char p = false -> path_prefix (p +:+ "/").

Lemma line_bytes w : Contains "010"%char w = false -> Forall (fun c => not_newline c = true) (bytes_of w).
Proof.
  induction w as [|c w IH]; simpl; [constructor|]. case_decide as Hc; [done|]. intros Hw.
  constructor; [|by apply IH]. unfold not_newline. by rewrite bool_decide_true by congruence.
Qed.

Lemma path_re_some {B} path m (k : caps -> string -> option B) :
  path_prefix path ->
  exists m', (forall i, i <> 2 -> m' !! i = m !! i) /\
    forall b, k (<[4 := repo]> (<[3 := key]> m')) "" = Some b ->
    re_match (RSeq (ROpt (RCap 2 (RSeq (RPlus not_newline) (RLit "/")))) tail_re) m
      (path +:+ repo_path) k = Some b.
Proof.
  cbn [re_match]. intros [|p Hp Hline].
  - exists m. split; [done|]. intros b Hk. rewrite app_nil_str.
    rewrite (match_plus_none not_newline); [by apply tail_re_some|].
    intros c u w Heq. symmetry in Heq.
    apply (optional_rejects m k (fun w => <[2 := consumed repo_path (drop_bytes 1 w)]>)) in Heq. exact Heq.
  - eexists. split; [|intros b Hk; rewrite app_assoc_str;
      erewrite (match_plus_exact not_newline _ p); [done|done|by apply line_bytes| |]].
    + intros i Hi. by apply lookup_insert_ne.
    + rewrite (proj2 (slash_prefix _)) by eauto. cbn [drop_bytes String.length].
      by apply tail_re_some.
    + intros c u w Heq. rewrite !app_cons_str, app_nil_str in Heq. injection Heq as <- Heq.
      destruct u as [|d u].
      * rewrite app_nil_str in Heq. subst w. destruct (HasPrefix repo_path "/") eqn:Hw; [|done].
        apply slash_prefix in Hw as [w' Hw]. exfalso. unfold repo_path in Hw.
        destruct key as [|d key']; [done|]. rewrite app_cons_str in Hw. by injection Hw as -> _.
      * symmetry in Heq.
        apply (optional_rejects m k (fun w => <[2 := consumed (p +:+ "/" +:+ repo_path) (drop_bytes 1 w)]>)) in Heq.
        exact Heq.
Qed.

Lemma bitbucket_re_some host path m :
  host <> "" -> Contains slash host = false -> path_prefix path ->
  exists m', re_match bitbucket_re m ("://" +:+ host +:+ "/" +:+ path +:+ repo_path)
      (fun m _ => Some m) = Some m' /\
    bitbucket_ref m' = MkOrgRepositoryRef (AddSchemeToDomain host) key [] repo key.
Proof.
  intros Hhost Hhost' Hpath. set (url := "://" +:+ host +:+ "/" +:+ path +:+ repo_path).
  destruct (path_re_some (B := caps) path (<[1 := host]> m) (fun m s => Some (<[0 := consumed url s]> m)) Hpath)
    as (m' & Hm' & HR).
  exists (<[0 := consumed url ""]> (<[4 := repo]> (<[3 := key]> m'))). split.
  - unfold bitbucket_re. change (RSeq (RCap 3 _) _) with tail_re.
    set (R := RSeq (ROpt _) tail_re) in *. clearbody R. cbn [re_match].
    unfold url at 1. rewrite HasPrefix_app. unfold url at 1 2. rewrite drop_bytes_app.
    change ("/" +:+ path +:+ repo_path) with (String slash (path +:+ repo_path)).
    destruct (seg_slash host (path +:+ repo_path) Hhost') as [Hseg Hrest].
    rewrite match_plus_seg, Hseg, Hrest, bool_decide_eq_false_2; [|done|].
    + rewrite (proj2 (slash_prefix _)) by eauto. cbn [drop_bytes String.length].
      rewrite consumed_app. by apply HR.
    + right. intros c s Hc. destruct (HasPrefix (String c s) "/") eqn:Hs; [|done].
      apply slash_prefix in Hs as [w [= -> _]]. done.
  - unfold bitbucket_ref. rewrite !(lookup_insert_ne _ 0) by done.
    rewrite lookup_insert_eq, !(lookup_insert_ne _ 4), lookup_insert_eq by done.
    rewrite (lookup_insert_ne _ 3), Hm', lookup_insert_eq by done. done.
Qed.
End bitbucket.

Lemma find_submatch_scheme scheme rest m :
  Contains colon scheme = false ->
  re_match bitbucket_re ∅ ("://" +:+ rest) (fun m _ => Some m) = Some m ->
  find_submatch bitbucket_re (scheme +:+ "://" +:+ rest) = Some m.
Proof.
  intros Hs Hm. induction scheme as [|c scheme IH].
  - rewrite app_nil_str. change ("://" +:+ rest) with (String colon ("//" +:+ rest)) in *.
    cbn [find_submatch]. by rewrite Hm.
  - cbn [Contains] in Hs. destruct (decide (colon = c)) as [|Hc]; [done|]. rewrite app_cons_str.
    cbn [find_submatch].
    assert (re_match bitbucket_re ∅ (String c (scheme +:+ "://" +:+ rest)) (fun m _ => Some m) = None)
      as ->; [|by apply IH].
    unfold bitbucket_re. cbn [re_match HasPrefix]. by case_decide as Hd; [exfalso; apply Hc|].
Qed.

(** C32.  A Bitbucket Server URL made of a scheme, a host, an optional path
    (such as [scm/]), a project key and a repository name is parsed back into
    them: greedy repetition and the optional group take exactly the path, and a
    name may itself contain [.git]. *)
Theorem ParseBitbucketServerURL_roundtrip scheme host path key repo :
  Contains colon scheme = false -> host <> "" -> key <> "" -> repo <> "" ->
  Contains slash host = false -> Contains slash key = false -> Contains slash repo = false ->
  path_prefix path ->
  ParseBitbucketServerURL (scheme +:+ "://" +:+ host +:+ "/" +:+ path +:+ key +:+ "/" +:+ repo +:+ ".git") =
    mret (Ok (MkOrgRepositoryRef (AddSchemeToDomain host) key [] repo key)).
Proof.
  intros Hs Hhost Hkey Hrepo Hhost' Hkey' Hrepo' Hpath.
  destruct (bitbucket_re_some key repo Hkey Hrepo Hkey' Hrepo' host path ∅ Hhost Hhost' Hpath)
    as (m & Hm & Href).
  change (key +:+ "/" +:+ repo +:+ ".git") with (repo_path key repo).
  unfold ParseBitbucketServerURL, FindStringSubmatch.
  rewrite (find_submatch_scheme _ _ m Hs Hm). rewrite <- Href. reflexivity.
Qed.

Lemma ParseBitbucketServerURL_roundtrip_witness :
  path_prefix "scm/" /\
  ParseBitbucketServerURL "https://stash.example.com/scm/TEAM/podinfo.git" =
    mret (Ok (MkOrgRepositoryRef "https://stash.example.com" "TEAM" [] "podinfo" "TEAM")).
Proof.
  assert (path_prefix "scm/") as Hscm by (by apply (some_prefix "scm")).
  split; [exact Hscm|].
  by apply (ParseBitbucketServerURL_roundtrip "https" "stash.example.com" "scm/" "TEAM" "podinfo").
Defined.
