(* ===== verification/GitProviders.v ===== *)
(** * The providers and their factory (internal/git)

    The implementations of [Provider] for GitHub, GitLab and Bitbucket Server
    (github.go, gitlab.go, bitbucket_server.go) and the options and the
    factory of factory.go.  [Setup] gives the client the other methods use. *)

From S2P Require Export GoGitProvider.

(** ** factory.go: options *)
Record ProviderOption := MkProviderOption {
  po_Hostname : string;
  po_OAuth2Token : string;
  po_TokenType : string;
  po_Token : string;
  po_Username : string;
  po_ConditionalRequests : bool;
  po_DestructiveCalls : bool;
  po_Client : option raw_client }.

Definition zero_ProviderOption := MkProviderOption "" "" "" "" "" false false None.

Definition ProviderWithFn := ProviderOption -> res ProviderOption.

Definition WithDomain (domain : string) : ProviderWithFn := fun p =>
  Ok (MkProviderOption (AddSchemeToDomain domain) (po_OAuth2Token p) (po_TokenType p) (po_Token p)
        (po_Username p) (po_ConditionalRequests p) (po_DestructiveCalls p) (po_Client p)).

Definition WithOAuth2Token (token : string) : ProviderWithFn := fun p =>
  Ok (MkProviderOption (po_Hostname p) token (po_TokenType p) (po_Token p) (po_Username p)
        (po_ConditionalRequests p) (po_DestructiveCalls p) (po_Client p)).

Definition WithToken (tokenType token : string) : ProviderWithFn := fun p =>
  Ok (MkProviderOption (po_Hostname p) (po_OAuth2Token p) tokenType token (po_Username p)
        (po_ConditionalRequests p) (po_DestructiveCalls p) (po_Client p)).

Definition set_conditional (b : bool) : ProviderWithFn := fun p =>
  Ok (MkProviderOption (po_Hostname p) (po_OAuth2Token p) (po_TokenType p) (po_Token p)
        (po_Username p) b (po_DestructiveCalls p) (po_Client p)).

Definition WithConditionalRequests : ProviderWithFn := set_conditional true.
Definition WithoutConditionalRequests : ProviderWithFn := set_conditional false.

Definition WithUsername (username : string) : ProviderWithFn := fun p =>
  Ok (MkProviderOption (po_Hostname p) (po_OAuth2Token p) (po_TokenType p) (po_Token p) username
        (po_ConditionalRequests p) (po_DestructiveCalls p) (po_Client p)).

Definition WithDestructiveAPICalls : ProviderWithFn := fun p =>
  Ok (MkProviderOption (po_Hostname p) (po_OAuth2Token p) (po_TokenType p) (po_Token p)
        (po_Username p) (po_ConditionalRequests p) true (po_Client p)).

Definition WithConfiguredClient (client : raw_client) : ProviderWithFn := fun p =>
  Ok (MkProviderOption (po_Hostname p) (po_OAuth2Token p) (po_TokenType p) (po_Token p)
        (po_Username p) (po_ConditionalRequests p) (po_DestructiveCalls p) (Some client)).

(** The type assertions on [opts.Client], to a [gitprovider.Client] and to a
    pointer to [scm.Client] *)
Definition assert_ggp (c : raw_client) : io (res handle) :=
  match c with
  | GGPClient client => mret (Ok client)
  | _ => PPanic "interface conversion"
  end.

Definition assert_scm (c : raw_client) : io (res handle) :=
  match c with
  | SCMClient client => mret (Ok client)
  | _ => PPanic "interface conversion"
  end.

Definition with_hostname (opts : ProviderOption) : list ClientOption :=
  if bool_decide (po_Hostname opts <> "") then [CODomain (po_Hostname opts)] else [].

Section providers.
Context `{GitLibs}.

(** The identity of a repository, in the providers' [GetRepository] *)
Definition describe (repo : handle) : io (res Repository) :=
  '(org, name) ← git (RepoIdentity repo); mret (Ok (MkRepository "" org name)).

Definition err_provider_url := wrapf "unable to get git provider url: ".

Definition pr_request (input : PullRequestInput) : createPullRequestRequest :=
  MkCreatePR (pin_Head input) (pin_Base input) (pin_Title input) (pin_Body input).

(** The common end of [CreatePullRequest]: write the commits, open the pull
    request *)
Definition write_and_open (input : PullRequestInput) (req : writeFilesToBranchRequest)
    (repo : handle) : io (res PullRequest) :=
  call _ <- WriteFilesToBranch req repo onerr err =>
    mret (Err (wrapf ("unable to write files to branch " +:+ quote (pin_Head input) +:+ ": ") err));
  call res <- ggp_CreatePullRequest (pr_request input) repo onerr err =>
    mret (Err (wrapf ("unable to create pull request for branch " +:+ quote (pin_Head input) +:+
                      ": ") err));
  mret (Ok (pull_of_info res)).

Definition has_commits (input : PullRequestInput) : bool := bool_decide (pin_Commits input <> []).

End providers.

(** github.go *)
Module GitHub.
Section s.
Context `{GitLibs} (client : handle).

Definition Setup (opts : ProviderOption) : io (res handle) :=
  match po_Client opts with
  | Some c => assert_ggp c
  | None =>
      if bool_decide (po_OAuth2Token opts = "")
      then mret (Err (errorf "missing required option: OAuth2Token"))
      else git (GithubNewClient (COAuth2Token (po_OAuth2Token opts) :: with_hostname opts))
  end.

Definition GetRepository (url : string) : io (res Repository) :=
  call repo <- ggp_GetRepository client url onerr err => mret (Err err);
  describe repo.

Definition CreatePullRequest (input : PullRequestInput) : io (res PullRequest) :=
  match GetGitProviderUrl (pin_RepositoryURL input) with
  | Err err => mret (Err (err_provider_url err))
  | Ok url =>
      call repo <- ggp_GetRepository client url onerr err => mret (Err err);
      write_and_open input
        (MkWriteFiles (pin_Head input) (pin_Base input) (pin_Commits input) (has_commits input)) repo
  end.

Definition GetTreeList (repoUrl sha path : string) : io (res (list TreeEntry)) :=
  match GetGitProviderUrl repoUrl with
  | Err err => mret (Err (err_provider_url err))
  | Ok url =>
      call repo <- ggp_GetRepository client url onerr err => mret (Err err);
      call treePaths <- git (TreesList repo sha path true) onerr err => mret (Err err);
      mret (Ok (map entry_of_ggp treePaths))
  end.

Definition ListPullRequests (repoURL : string) : io (res (list PullRequest)) :=
  call repo <- ggp_GetRepository client repoURL onerr err => mret (Err err);
  ggp_ListPullRequests repo.

Definition UpdatePullRequest (repoURL : string) (number : Z) (options : UpdatePullRequestOptions) :
    io (res PullRequest) :=
  call repo <- ggp_GetRepository client repoURL onerr err => mret (Err err);
  ggp_UpdatePullRequest repo number (upo_Title options).

Definition DeleteBranch (repoURL branchName : string) : res unit := Ok tt.

Definition provider : Provider :=
  MkProvider CreatePullRequest GitHubProviderName (git (ClientSupportedDomain client))
    GetRepository GetTreeList ListPullRequests UpdatePullRequest (GGPClient client).
End s.
End GitHub.

(** gitlab.go *)
Module GitLab.
Section s.
Context `{GitLibs} (client : handle).

Definition Setup (opts : ProviderOption) : io (res handle) :=
  match po_Client opts with
  | Some c => assert_ggp c
  | None =>
      if bool_decide (po_Token opts = "")
      then mret (Err (errorf "missing required option: Token"))
      else git (GitlabNewClient (po_Token opts) (po_TokenType opts)
                  (COConditionalRequests (po_ConditionalRequests opts) :: with_hostname opts))
  end.

Definition GetRepository (url : string) : io (res Repository) :=
  call repo <- ggp_GetRepository client url onerr err => mret (Err err);
  describe repo.

Definition CreatePullRequest (input : PullRequestInput) : io (res PullRequest) :=
  match GetGitProviderUrl (pin_RepositoryURL input) with
  | Err err => mret (Err (err_provider_url err))
  | Ok url =>
      call repo <- ggp_GetRepository client url onerr err => mret (Err err);
      let files := concat (map c_Files (pin_Commits input)) in
      call _ <- (if has_commits input then CreateBranch repo (pin_Base input) (pin_Head input)
                 else mret (Ok tt)) onerr err => mret (Err err);
      call updatedFiles <- GetUpdatedFiles files client (pin_RepositoryURL input) (pin_Head input)
        onerr err => mret (Err err);
      let deletions :=
        if bool_decide (updatedFiles <> []) then
          [MkCommit deleteFilesCommitMessage
             (map (fun f => MkCommitFile (cf_Path f) None) updatedFiles)]
        else [] in
      write_and_open input
        (MkWriteFiles (pin_Head input) (pin_Base input) (deletions ++ pin_Commits input) false) repo
  end.

Definition GetTreeList (repoUrl sha path : string) : io (res (list TreeEntry)) :=
  match GetGitProviderUrl repoUrl with
  | Err err => mret (Err (err_provider_url err))
  | Ok url =>
      call repo <- ggp_GetRepository client url onerr err => mret (Err err);
      call treePaths <- git (TreesList repo sha path true) onerr err => mret (Err err);
      mret (Ok (map entry_of_ggp treePaths))
  end.

Definition ListPullRequests (repoURL : string) : io (res (list PullRequest)) :=
  call repo <- ggp_GetRepository client repoURL onerr err => mret (Err err);
  ggp_ListPullRequests repo.

Definition UpdatePullRequest (repoURL : string) (number : Z) (options : UpdatePullRequestOptions) :
    io (res PullRequest) :=
  call repo <- ggp_GetRepository client repoURL onerr err => mret (Err err);
  ggp_UpdatePullRequest repo number (upo_Title options).

Definition provider : Provider :=
  MkProvider CreatePullRequest GitLabProviderName (git (ClientSupportedDomain client))
    GetRepository GetTreeList ListPullRequests UpdatePullRequest (GGPClient client).
End s.
End GitLab.

(** bitbucket_server.go *)
Module BitBucketServer.
Section s.
Context `{GitLibs} (client : handle).

Definition Setup (opts : ProviderOption) : io (res handle) :=
  match po_Client opts with
  | Some c => assert_ggp c
  | None =>
      let username := if bool_decide (po_Username opts = "") then "git" else po_Username opts in
      if bool_decide (po_Token opts = "")
      then mret (Err (errorf "missing required option: Token"))
      else if bool_decide (po_Hostname opts = "")
      then mret (Err (errorf "missing required option: Hostname"))
      else git (NewStashClient username (po_Token opts)
                  [CODomain (po_Hostname opts); COConditionalRequests (po_ConditionalRequests opts)])
  end.

Definition GetRepository (url : string) : io (res Repository) :=
  call repo <- GetBitbucketRepository client url onerr err => mret (Err err);
  describe repo.

Definition CreatePullRequest (input : PullRequestInput) : io (res PullRequest) :=
  match GetGitProviderUrl (pin_RepositoryURL input) with
  | Err err => mret (Err (err_provider_url err))
  | Ok url =>
      call repo <- GetBitbucketRepository client url onerr err => mret (Err err);
      write_and_open input
        (MkWriteFiles (pin_Head input) (pin_Base input) (pin_Commits input) (has_commits input)) repo
  end.

Definition GetTreeList (repoUrl sha path : string) : io (res (list TreeEntry)) :=
  match GetGitProviderUrl repoUrl with
  | Err err => mret (Err (err_provider_url err))
  | Ok url =>
      call repo <- ggp_GetRepository client url onerr err => mret (Err err);
      call treePaths <- git (TreesList repo sha path true) onerr err => mret (Err err);
      mret (Ok (map entry_of_ggp treePaths))
  end.

Definition ListPullRequests (repoURL : string) : io (res (list PullRequest)) :=
  call repo <- ggp_GetRepository client repoURL onerr err => mret (Err err);
  ggp_ListPullRequests repo.

Definition UpdatePullRequest (repoURL : string) (number : Z) (options : UpdatePullRequestOptions) :
    io (res PullRequest) :=
  call repo <- ggp_GetRepository client repoURL onerr err => mret (Err err);
  ggp_UpdatePullRequest repo number (upo_Title options).

Definition provider : Provider :=
  MkProvider CreatePullRequest BitBucketServerProviderName (git (ClientSupportedDomain client))
    GetRepository GetTreeList ListPullRequests UpdatePullRequest (GGPClient client).
End s.
End BitBucketServer.

(** ** Without commits, GitLab and GitHub do the same *)
Lemma GitLab_create_no_commits `{GitLibs} client input :
  pin_Commits input = [] ->
  GitLab.CreatePullRequest client input = GitHub.CreatePullRequest client input.
Proof. destruct input as [url title body head base commits]. simpl. by intros ->. Qed.
