(* ===== verification/AzureDevOps.v ===== *)
(** * Azure DevOps (internal/git/azure.go, jenkins_scm.go)

    The provider built on go-scm, with the hand-made push request that commits
    several files at once. *)

From S2P Require Export GitProviders.
From Stdlib Require Import Ascii.

(** ** base64.StdEncoding *)
Definition base64_alphabet : string :=
  "ABCDEFGHIJKLMNOPQRSTUVWXYZabcdefghijklmnopqrstuvwxyz0123456789+/".

Definition sextet (n : N) : string :=
  match String.get (N.to_nat n) base64_alphabet with
  | Some c => String c ""
  | None => ""
  end.

(** The sextet of [n] that starts at bit [i] *)
Definition sextet_at (n i : N) : string := sextet (N.land (N.shiftr n i) 63).

Fixpoint EncodeToString (s : string) : string :=
  match s with
  | "" => ""
  | String a "" =>
      let n := N.shiftl (N_of_ascii a) 16 in
      sextet_at n 18 +:+ sextet_at n 12 +:+ "=="
  | String a (String b "") =>
      let n := N.lor (N.shiftl (N_of_ascii a) 16) (N.shiftl (N_of_ascii b) 8) in
      sextet_at n 18 +:+ sextet_at n 12 +:+ sextet_at n 6 +:+ "="
  | String a (String b (String c s)) =>
      let n := N.lor (N.lor (N.shiftl (N_of_ascii a) 16) (N.shiftl (N_of_ascii b) 8))
                 (N_of_ascii c) in
      sextet_at n 18 +:+ sextet_at n 12 +:+ sextet_at n 6 +:+ sextet_at n 0 +:+ EncodeToString s
  end.

(** ** jenkins_scm.go *)
Module jenkinsSCM.
Section s.
Context `{GitLibs}.

Definition is_scm_not_found (err : error) : bool := err_is EScmNotFound err.

(** The organisation, project and name in the four parts of a path *)
Definition path_parts (path : string) : option (string * string * string) :=
  match Split slash (Trim slash path) with
  | [org; project; _; name] => Some (org, project, name)
  | _ => None
  end.

Definition GetRepository (client : handle) (repoURL : URL) : io (res ScmRepository) :=
  match path_parts (url_Path repoURL) with
  | None => mret (Err (errorf ("unable to parse url " +:+ url_String repoURL)))
  | Some (org, project, name) =>
      call repo <- OnError is_scm_not_found
                     (git (ScmRepositoriesFind client (org +:+ "/" +:+ project +:+ "/" +:+ name)))
        onerr err =>
        mret (Err (wrapf ("unable to get repository " +:+ quote (url_String repoURL) +:+ ": ") err));
      mret (Ok repo)
  end.

Definition GetCurrentCommitOfBranch (client : handle) (repo : ScmRepository)
    (branch path : string) : io (res string) :=
  call commits <- git (ScmListCommits client (srp_FullName repo) branch path) onerr err =>
    mret (Err (wrapf "failed to list commits: " err));
  sha ← index commits 0;
  mret (Ok sha).

Definition CreateFile (client : handle) (repo : ScmRepository) (path : string)
    (params : ScmContentParams) : io (res unit) :=
  call _ <- git (ScmContentsCreate client (srp_FullName repo) path params) onerr err =>
    mret (Err (wrapf ("unable to write files to branch " +:+ quote (scp_Branch params) +:+ ": ") err));
  mret (Ok tt).

Definition UpdateFile (client : handle) (repo : ScmRepository) (path : string)
    (params : ScmContentParams) : io (res unit) :=
  call _ <- git (ScmContentsUpdate client (srp_FullName repo) path params) onerr err =>
    mret (Err (wrapf ("unable to write files to branch " +:+ quote (scp_Branch params) +:+ ": ") err));
  mret (Ok tt).

Definition Endpoint (repoURL path : string) : res string :=
  match url_Parse repoURL with
  | Err err => Err (wrapf ("unbale to parse url " +:+ quote repoURL +:+ ": ") err)
  | Ok u =>
      match path_parts (url_Path u) with
      | None => Err (errorf ("unbale to parse url " +:+ url_String u))
      | Some (org, project, name) =>
          Ok (org +:+ "/" +:+ project +:+ "/_apis/git/repositories/" +:+ name +:+ "/" +:+ path +:+
              "?api-version=6.0")
      end
  end.

Definition file_change (file : CommitFile) : change :=
  match cf_Content file with
  | None => MkChange "edit" (cf_Path file) "" ""
  | Some content => MkChange "add" (cf_Path file) (EncodeToString content) "base64encoded"
  end.

Definition CommitFilesRequest (sha url head message : string) (files : list CommitFile) :
    ScmRequest :=
  let endpoint := default "" (res_to_option (Endpoint url "pushes")) in
  let ref := MkRefUpdate ("refs/heads/" +:+ head) sha in
  let com := MkCommitRef message (map file_change files) "" "" in
  MkScmRequest "POST" endpoint [("Content-Type", ["application/json"])]
    (MkContentCreateUpdate [ref] [com]).
End s.
End jenkinsSCM.

(** ** azure.go *)
Definition pull_of_scm (pr : ScmPullRequest) : PullRequest :=
  MkPullRequest (spr_Title pr) (spr_Body pr) (spr_Link pr) (spr_Merged pr) (spr_Source pr)
    (spr_Number pr).

Definition entry_of_scm (file : ScmFileEntry) : TreeEntry :=
  MkTreeEntry (sfe_Name file) (sfe_Path file) (sfe_Type file) (sfe_Size file) (sfe_Sha file)
    (sfe_Link file).

(** The value of [x, _ := f()]: the zero value when the call failed *)
Definition ignore_err (r : res string) : string := default "" (res_to_option r).

Module Azure.
Section s.
Context `{GitLibs} (client : handle).

Definition Setup (opts : ProviderOption) : io (res handle) :=
  match po_Client opts with
  | Some c => assert_scm c
  | None =>
      if bool_decide (po_Token opts = "") then mret (Err (errorf "missing required option: Token"))
      else
        let hostname := if bool_decide (po_Hostname opts = "") then "dev.azure.com"
                        else po_Hostname opts in
        git (ScmNewClient "azure" ("https://" +:+ hostname) (po_Token opts))
  end.

Definition GetRepository (repoURL : string) : io (res Repository) :=
  match url_Parse repoURL with
  | Err err => mret (Err (wrapf ("unbale to parse url " +:+ quote repoURL +:+ ": ") err))
  | Ok u =>
      call repo <- jenkinsSCM.GetRepository client u onerr err => mret (Err err);
      mret (Ok (MkRepository (url_Host u) (srp_Namespace repo) (srp_Name repo)))
  end.

Definition sendRawRequest (request : ScmRequest) : io (res ScmResponse) :=
  call resp <- git (ScmDo client request) onerr err =>
    mret (Err (wrapf "failed to commit files: " err));
  mret (if bool_decide (300 < srs_Status resp)%Z then Err (errorf (srs_AzureError resp)) else Ok resp).

(** [for _, commit := range input.Commits] *)
Fixpoint push_commits (repo : ScmRepository) (input : PullRequestInput) (headCommit : string)
    (commits : list Commit) : io (res unit) :=
  match commits with
  | [] => mret (Ok tt)
  | commit :: commits =>
      let request := jenkinsSCM.CommitFilesRequest headCommit (pin_RepositoryURL input)
                       (pin_Head input) (c_CommitMessage commit) (c_Files commit) in
      call _ <- sendRawRequest request onerr err => mret (Err err);
      head ← jenkinsSCM.GetCurrentCommitOfBranch client repo (pin_Head input) "";
      push_commits repo input (ignore_err head) commits
  end.

(** The commit the branch [Head] points to; a branch made from [Base] when the
    commit cannot be determined *)
Definition head_commit (repo : ScmRepository) (input : PullRequestInput) : io (res string) :=
  head ← jenkinsSCM.GetCurrentCommitOfBranch client repo (pin_Head input) "";
  let headCommit := ignore_err head in
  if bool_decide (headCommit = "") then
    call headCommit <- jenkinsSCM.GetCurrentCommitOfBranch client repo (pin_Base input) ""
      onerr err => mret (Err err);
    call _ <- git (ScmCreateRef client (srp_FullName repo) (pin_Head input) headCommit)
      onerr err => mret (Err (wrapf "failed to create new branch: " err));
    mret (Ok headCommit)
  else mret (Ok headCommit).

Definition CreatePullRequest (input : PullRequestInput) : io (res PullRequest) :=
  match url_Parse (pin_RepositoryURL input) with
  | Err err =>
      mret (Err (wrapf ("unable to parse url " +:+ quote (pin_RepositoryURL input) +:+ ": ") err))
  | Ok u =>
      call repo <- jenkinsSCM.GetRepository client u onerr err => mret (Err err);
      call headCommit <- head_commit repo input onerr err => mret (Err err);
      call _ <- push_commits repo input headCommit (pin_Commits input) onerr err => mret (Err err);
      call pr <- git (ScmPullRequestsCreate client (srp_FullName repo)
                        (MkScmPullRequestInput (pin_Title input) (pin_Head input) (pin_Base input)
                           (pin_Body input))) onerr err =>
        mret (Err (wrapf ("unable to create pull request for branch " +:+ quote (pin_Head input) +:+
                          ": ") err));
      mret (Ok (pull_of_scm pr))
  end.

Definition GetTreeList (repoUrl sha path : string) : io (res (list TreeEntry)) :=
  match GetGitProviderUrl repoUrl with
  | Err err => mret (Err (err_provider_url err))
  | Ok url =>
      call fileList <- git (ScmContentsList client url path sha) onerr err => mret (Err err);
      mret (Ok (map entry_of_scm fileList))
  end.

Definition ListPullRequests (repoURL : string) : io (res (list PullRequest)) :=
  match GetGitProviderUrl repoURL with
  | Err err => mret (Err (err_provider_url err))
  | Ok url =>
      call prList <- git (ScmPullRequestsList client url) onerr err => mret (Err err);
      mret (Ok (map pull_of_scm prList))
  end.

Definition UpdatePullRequest (repoURL : string) (number : Z) (options : UpdatePullRequestOptions) :
    io (res PullRequest) :=
  call pr <- git (ScmPullRequestsUpdate client repoURL number
                    (MkScmPullRequestInput (upo_Title options) "" "" (upo_Body options))) onerr err =>
    mret (Err (wrapf "failed to update existing PR: " err));
  mret (Ok (pull_of_scm pr)).

Definition provider : Provider :=
  MkProvider CreatePullRequest AzureDevOpsProviderName (mret "") GetRepository GetTreeList
    ListPullRequests UpdatePullRequest (SCMClient client).
End s.
End Azure.

(** ** factory.go *)
Fixpoint apply_fns (opts : list ProviderWithFn) (option : ProviderOption) : res ProviderOption :=
  match opts with
  | [] => Ok option
  | opt :: opts =>
      match opt option with
      | Ok option => apply_fns opts option
      | Err err => Err err
      end
  end.

(** [(f *ProviderFactory) Create]; the constructors of the providers do not
    fail. *)
Definition Create `{GitLibs} (providerName : string) (opts : list ProviderWithFn) :
    io (res Provider) :=
  let build (Setup : ProviderOption -> io (res handle)) (provider : handle -> Provider) :=
    match apply_fns opts zero_ProviderOption with
    | Err err =>
        mret (Err (wrapf ("unable to gather options on provider " +:+ quote providerName +:+ ": ") err))
    | Ok option =>
        call client <- Setup option onerr err =>
          mret (Err (wrapf ("unable to apply options on provider " +:+ quote providerName +:+ ": ") err));
        mret (Ok (provider client))
    end in
  if bool_decide (providerName = GitHubProviderName) then build GitHub.Setup GitHub.provider
  else if bool_decide (providerName = GitLabProviderName) then build GitLab.Setup GitLab.provider
  else if bool_decide (providerName = BitBucketServerProviderName)
  then build BitBucketServer.Setup BitBucketServer.provider
  else if bool_decide (providerName = AzureDevOpsProviderName)
  then build Azure.Setup Azure.provider
  else mret (Err (errorf ("provider " +:+ quote providerName +:+ " is not supported"))).

Example base64_man : EncodeToString "Man" = "TWFu" /\ EncodeToString "Ma" = "TWE=" /\
  EncodeToString "M" = "TQ==" /\ EncodeToString "light work." = "bGlnaHQgd29yay4=".
Proof. by vm_compute. Qed.

(** A branch whose commits are listed as empty makes the lookup of its head
    panic: the first element is read without a look at the length. *)
Lemma GetCurrentCommitOfBranch_empty `{GitLibs} client repo branch path :
  runs (jenkinsSCM.GetCurrentCommitOfBranch client repo branch path)
    [Ev (Git (ScmListCommits client (srp_FullName repo) branch path)) (Ok [])]
    (Panicked "index out of range").
Proof. unfold jenkinsSCM.GetCurrentCommitOfBranch, git, trigger. repeat constructor. Qed.

(** ** Decoding base64 (RFC 4648), to state that nothing is lost *)
Fixpoint index_of (c : ascii) (s : string) : option N :=
  match s with
  | "" => None
  | String d s => if bool_decide (c = d) then Some 0%N else N.succ <$> index_of c s
  end.

Definition sextet_value (c : ascii) : option N := index_of c base64_alphabet.

(** The byte of [n] that starts at bit [i] *)
Definition byte_at (n i : N) : ascii := ascii_of_N (N.shiftr n i mod 256).

Fixpoint base64_decode (s : string) : option string :=
  match s with
  | "" => Some ""
  | String a (String b (String c (String d s))) =>
      w ← sextet_value a; x ← sextet_value b;
      let wx := (w * 2 ^ 18 + x * 2 ^ 12)%N in
      if bool_decide (c = "="%char) then Some (String (byte_at wx 16) "")
      else
        y ← sextet_value c;
        let wxy := (wx + y * 2 ^ 6)%N in
        if bool_decide (d = "="%char) then
          Some (String (byte_at wxy 16) (String (byte_at wxy 8) ""))
        else
          z ← sextet_value d;
          let n := (wxy + z)%N in
          t ← base64_decode s;
          Some (String (byte_at n 16) (String (byte_at n 8) (String (byte_at n 0) t)))
  | _ => None
  end.

Definition sextet_char (n : N) : ascii :=
  default "A"%char (String.get (N.to_nat n) base64_alphabet).

Lemma sextets_ok :
  forallb (fun k => let n := N.of_nat k in
    bool_decide (sextet n = String (sextet_char n) "") &&
    bool_decide (sextet_value (sextet_char n) = Some n) &&
    bool_decide (sextet_char n <> "="%char)) (seq 0 64) = true.
Proof. vm_compute. done. Qed.

Lemma sextet_spec n : (n < 64)%N ->
  sextet n = String (sextet_char n) "" /\ sextet_value (sextet_char n) = Some n /\
  sextet_char n <> "="%char.
Proof.
  intros Hn. pose proof sextets_ok as Hall. rewrite forallb_forall in Hall.
  specialize (Hall (N.to_nat n)). rewrite N2Nat.id in Hall.
  rewrite !andb_true_iff, !bool_decide_eq_true in Hall.
  destruct Hall as [[? ?] ?]; [apply in_seq; lia|done].
Qed.

Lemma sextet_at_spec n i : let q := (n / 2 ^ i mod 64)%N in
  sextet_at n i = String (sextet_char q) "" /\ sextet_value (sextet_char q) = Some q /\
  sextet_char q <> "="%char.
Proof.
  unfold sextet_at. change 63%N with (N.ones 6). rewrite N.land_ones, N.shiftr_div_pow2.
  apply sextet_spec. by apply N.mod_lt.
Qed.

Lemma lor_shiftl_add a b k : (b < 2 ^ k)%N -> N.lor (N.shiftl a k) b = (a * 2 ^ k + b)%N.
Proof.
  intros Hb. rewrite <-N.shiftl_mul_pow2.
  assert (N.land (N.shiftl a k) b = 0%N) as Hd.
  { apply N.bits_inj_0. intros i. rewrite N.land_spec. destruct (N.ltb_spec i k) as [?|?].
    - by rewrite N.shiftl_spec_low.
    - destruct (decide (b = 0%N)) as [->|?]; [by rewrite N.bits_0, andb_false_r|].
      rewrite (N.bits_above_log2 b), andb_false_r; [done|].
      apply N.log2_lt_pow2 in Hb; lia. }
  by rewrite N.add_nocarry_lxor, N.lxor_lor.
Qed.

Lemma byte_lt a : (N_of_ascii a < 256)%N.
Proof. apply N_ascii_bounded. Qed.

Lemma byte_at_eq n i a : (n / 2 ^ i mod 256)%N = N_of_ascii a -> byte_at n i = a.
Proof. intros Hn. unfold byte_at. by rewrite N.shiftr_div_pow2, Hn, ascii_N_embedding. Qed.

(** The decoder on the three shapes of a group of four characters *)
Lemma decode_two a b w x : sextet_value a = Some w -> sextet_value b = Some x ->
  base64_decode (String a (String b "==")) =
    Some (String (byte_at (w * 2 ^ 18 + x * 2 ^ 12) 16) "").
Proof. intros Ha Hb. cbn [base64_decode]. by rewrite Ha, Hb. Qed.

Lemma decode_three a b c w x y : sextet_value a = Some w -> sextet_value b = Some x ->
  sextet_value c = Some y -> c <> "="%char ->
  let n := (w * 2 ^ 18 + x * 2 ^ 12 + y * 2 ^ 6)%N in
  base64_decode (String a (String b (String c "="))) =
    Some (String (byte_at n 16) (String (byte_at n 8) "")).
Proof.
  intros Ha Hb Hc Hne. cbn [base64_decode]. rewrite Ha, Hb, Hc. cbn [mbind option_bind].
  by rewrite bool_decide_eq_false_2.
Qed.

Lemma decode_four a b c d w x y z s t : sextet_value a = Some w -> sextet_value b = Some x ->
  sextet_value c = Some y -> sextet_value d = Some z -> c <> "="%char -> d <> "="%char ->
  base64_decode s = Some t ->
  let n := (w * 2 ^ 18 + x * 2 ^ 12 + y * 2 ^ 6 + z)%N in
  base64_decode (String a (String b (String c (String d s)))) =
    Some (String (byte_at n 16) (String (byte_at n 8) (String (byte_at n 0) t))).
Proof.
  intros Ha Hb Hc Hd Hnc Hnd Hs. cbn [base64_decode]. rewrite Ha, Hb, Hc, Hd, Hs.
  cbn [mbind option_bind]. by rewrite !bool_decide_eq_false_2.
Qed.

(** The bytes of a group are the bytes of its sextets *)
Ltac sextet_bytes :=
  rewrite ?N.pow_0_r; change (2 ^ 6)%N with 64%N; change (2 ^ 8)%N with 256%N;
  change (2 ^ 12)%N with 4096%N; change (2 ^ 16)%N with 65536%N; change (2 ^ 18)%N with 262144%N;
  zify; Z.to_euclidean_division_equations; lia.

(** Three bytes at a time: induction on strings the way the encoder reads them *)
Lemma triples_ind (P : string -> Prop) : P "" -> (forall a, P (String a "")) ->
  (forall a b, P (String a (String b ""))) ->
  (forall a b c s, P s -> P (String a (String b (String c s)))) -> forall s, P s.
Proof.
  intros H0 H1 H2 H3.
  assert (forall s, P s /\ (forall a, P (String a s)) /\ (forall a b, P (String a (String b s))))
    as Hall; [|intros s; apply Hall].
  induction s as [|c s [Hs [Ha Hab]]]; [done|]. split_and!; auto.
Qed.

Lemma two_bytes a b : (b < 256)%N ->
  N.lor (N.shiftl a 16) (N.shiftl b 8) = (a * 2 ^ 16 + b * 2 ^ 8)%N.
Proof.
  intros Hb. change 16%N with (8 + 8)%N at 1. rewrite <-N.shiftl_shiftl, <-N.shiftl_lor.
  rewrite lor_shiftl_add by done. rewrite N.shiftl_mul_pow2. sextet_bytes.
Qed.

Lemma three_bytes a b c : (b < 256)%N -> (c < 256)%N ->
  N.lor (N.lor (N.shiftl a 16) (N.shiftl b 8)) c = (a * 2 ^ 16 + b * 2 ^ 8 + c)%N.
Proof.
  intros Hb Hc. rewrite two_bytes by done.
  replace (a * 2 ^ 16 + b * 2 ^ 8)%N with (N.shiftl (a * 2 ^ 8 + b) 8)
    by (rewrite N.shiftl_mul_pow2; sextet_bytes).
  rewrite lor_shiftl_add by done. by rewrite N.shiftl_mul_pow2.
Qed.

Lemma base64_decode_encode s : base64_decode (EncodeToString s) = Some s.
Proof.
  induction s as [|a|a b|a b c s IH] using triples_ind; [done|..]; cbn [EncodeToString];
    cbv zeta; pose proof (byte_lt a) as Ha; try pose proof (byte_lt b) as Hb;
    try pose proof (byte_lt c) as Hc.
  - rewrite N.shiftl_mul_pow2. set (n := (_ * _)%N).
    destruct (sextet_at_spec n 18) as (-> & H1 & _), (sextet_at_spec n 12) as (-> & H2 & _).
    cbv beta iota delta [String.append]. rewrite (decode_two _ _ _ _ H1 H2). do 2 f_equal. apply byte_at_eq. subst n. sextet_bytes.
  - rewrite two_bytes by done. set (n := (_ + _)%N).
    destruct (sextet_at_spec n 18) as (-> & H1 & _), (sextet_at_spec n 12) as (-> & H2 & _),
      (sextet_at_spec n 6) as (-> & H3 & Hne).
    cbv beta iota delta [String.append]. rewrite (decode_three _ _ _ _ _ _ H1 H2 H3 Hne). do 2 f_equal; [|f_equal];
      apply byte_at_eq; subst n; sextet_bytes.
  - rewrite three_bytes by done. set (n := (_ + _)%N).
    destruct (sextet_at_spec n 18) as (-> & H1 & _), (sextet_at_spec n 12) as (-> & H2 & _),
      (sextet_at_spec n 6) as (-> & H3 & Hc3), (sextet_at_spec n 0) as (-> & H4 & Hc4).
    cbv beta iota delta [String.append]. rewrite (decode_four _ _ _ _ _ _ _ _ _ _ H1 H2 H3 H4 Hc3 Hc4 IH).
    do 2 f_equal; [|f_equal; [|f_equal]]; apply byte_at_eq; subst n; sextet_bytes.
Qed.

(** What the receiver of a push request makes of a change (Azure DevOps: an
    [add] brings content, only a [delete] removes a file) *)
Definition read_change (c : change) : option CommitFile :=
  if bool_decide (ch_ChangeType c = "delete") then Some (MkCommitFile (ch_ItemPath c) None)
  else if bool_decide (ch_ChangeType c = "add" /\ ch_ContentType c = "base64encoded") then
    content ← base64_decode (ch_Content c); Some (MkCommitFile (ch_ItemPath c) (Some content))
  else None.

Lemma read_file_change file :
  read_change (jenkinsSCM.file_change file) =
    match cf_Content file with Some _ => Some file | None => None end.
Proof.
  destruct file as [path [content|]]; unfold read_change; cbn -[base64_decode EncodeToString]; [|done].
  by rewrite base64_decode_encode.
Qed.

Lemma read_file_changes files :
  mapM read_change (map jenkinsSCM.file_change files) =
    if decide (Forall (fun f => cf_Content f <> None) files) then Some files else None.
Proof.
  induction files as [|file files IH]; [by rewrite decide_True by constructor|].
  cbn [map mapM]. rewrite read_file_change, IH.
  destruct (cf_Content file) as [c|] eqn:Hc; cbn [mbind option_bind].
  - case_decide as Hall; cbn [mbind option_bind mret option_ret].
    + rewrite decide_True; [done|]. constructor; [by rewrite Hc|done].
    + rewrite decide_False; [done|]. by intros [_ ?]%Forall_cons.
  - rewrite decide_False; [done|]. intros [Hne _]%Forall_cons. by rewrite Hc in Hne.
Qed.

(** C33.  What a push request says of the commit it is made from: it moves the
    branch from the given commit by one commit with the message, and its
    changes, their base64 decoded as RFC 4648 says, read as the files of the
    commit in their order, with the same bytes, exactly when every file has
    content; a file without, which stands for a deletion, is not sent as one. *)
Theorem push_request_roundtrip `{GitLibs} sha url head message files :
  let body := srq_Body (jenkinsSCM.CommitFilesRequest sha url head message files) in
  ccu_RefUpdates body = [MkRefUpdate ("refs/heads/" +:+ head) sha] /\
  exists commit, ccu_Commits body = [commit] /\ cm_Comment commit = message /\
    ch_ItemPath <$> cm_Changes commit = cf_Path <$> files /\
    mapM read_change (cm_Changes commit) =
      (if decide (Forall (fun f => cf_Content f <> None) files) then Some files else None).
Proof.
  split; [done|]. eexists. split_and!; [done..| |apply read_file_changes]. cbn [cm_Changes].
  rewrite <- list_fmap_compose. apply list_fmap_ext. by intros _ [path [c|]] _.
Qed.

(** A file without content is a deletion (provider.go); it is sent as an edit
    without new content. *)
Lemma azure_deletion_is_edit `{GitLibs} path :
  ch_ChangeType (jenkinsSCM.file_change (MkCommitFile path None)) = "edit".
Proof. done. Qed.
