(* ===== verification/HostWrites.v ===== *)
(** * What the providers write to a hosting service

    A pull request may carry commits, which the providers write through the
    service's API before they open it (no caller of this repository passes any
    today).  The writes are made in order, each only after the one before
    succeeded, and the pull request is opened last.  What is written depends on
    what the service answers: the newest commit of a branch, the files that are
    there.  A plan therefore holds these reads with their answers, and each
    write is determined by the pull request and the answers before it. *)

From S2P Require Export AzureDevOps ApiServer.

(** ** Writes, and the reads they depend on

    [Stop] is a step that nothing performs: a plan with it cannot be carried
    out to its end. *)
Inductive host_step :=
  | RCommits (branch : string) (newest_first : option (list string))
  | RTree (branch path : string) (entries : option (list GGPTreeEntry))
  | Stop
  | WBranch (branch sha : string)
  | WCommit (branch message : string) (files : list (string * option string))
  | WPush (request : ScmRequest)
  | WContents (path : string) (params : ScmContentParams)
  | WPull (head base title body : string)
  | WEdit (number : Z).

(** The step a call performs, and whether it succeeded; a read succeeds, with
    [None] for an error. *)
Definition git_host {X} (g : git_call X) : X -> option (host_step * bool) :=
  match g in git_call X return X -> option (host_step * bool) with
  | CommitsListPage _ branch => fun r => Some (RCommits branch (res_to_option r), true)
  | ScmListCommits _ _ ref _ => fun r => Some (RCommits ref (res_to_option r), true)
  | TreesList _ sha path _ => fun r => Some (RTree sha path (res_to_option r), true)
  | CommitsCreate _ branch message files => fun r => Some (WCommit branch message files, is_ok r)
  | BranchesCreate _ branch sha => fun r => Some (WBranch branch sha, is_ok r)
  | PullRequestsCreate _ title head base body => fun r => Some (WPull head base title body, is_ok r)
  | PullRequestsEdit _ number _ => fun r => Some (WEdit number, is_ok r)
  | ScmCreateRef _ _ ref sha => fun r => Some (WBranch ref sha, is_ok r)
  | ScmContentsCreate _ _ path params => fun r => Some (WContents path params, is_ok r)
  | ScmContentsUpdate _ _ path params => fun r => Some (WContents path params, is_ok r)
  | ScmDo _ request => fun r => Some (WPush request,
      match r with Ok resp => bool_decide (srs_Status resp <= 300)%Z | Err _ => false end)
  | ScmPullRequestsCreate _ _ i => fun r =>
      Some (WPull (spi_Head i) (spi_Base i) (spi_Title i) (spi_Body i), is_ok r)
  | ScmPullRequestsUpdate _ _ number _ => fun r => Some (WEdit number, is_ok r)
  | _ => fun _ => None
  end.

Definition ev_host (ev : event sys) : option (host_step * bool) :=
  match ev with
  | Ev e x =>
      match e in sys X return X -> option (host_step * bool) with
      | Git g => git_host g
      | _ => fun _ => None
      end x
  end.

(** The steps of a run, in order *)
Definition host_log (tr : list (event sys)) : list (host_step * bool) := omap ev_host tr.

Definition made (plan : list host_step) : list (host_step * bool) := (fun w => (w, true)) <$> plan.

(** Nothing performs [Stop]: a plan that was carried out holds none. *)
Lemma never_stop tr b : (Stop, b) ∉ host_log tr.
Proof.
  intros (ev & _ & Hev)%list_elem_of_omap. destruct ev as [X e x]. destruct e; try done. by destruct g.
Qed.

(** Some of the plan was done, perhaps all; the next write may have failed. *)
Definition within_plan (plan : list host_step) (log : list (host_step * bool)) : Prop :=
  exists done_ rest, plan = done_ ++ rest /\
    (log = made done_ \/ exists w rest', rest = w :: rest' /\ log = made done_ ++ [(w, false)]).

(** A run that succeeds has carried out the plan; one that does not has stopped
    before its last write succeeded. *)
Definition follows {A} (plan : list host_step) (tr : list (event sys)) (o : outcome (res A)) : Prop :=
  match o with
  | Done (Ok _) => host_log tr = made plan
  | _ => exists done_ w rest, plan = done_ ++ w :: rest /\
      (host_log tr = made done_ \/ host_log tr = made done_ ++ [(w, false)])
  end.

(** The same for a part of a run, which may also fail after its last write *)
Definition mostly {A} (plan : list host_step) (tr : list (event sys)) (o : outcome (res A)) : Prop :=
  match o with
  | Done (Ok _) => host_log tr = made plan
  | _ => within_plan plan (host_log tr)
  end.

Definition plans {A} (S : list host_step -> Prop) (p : io (res A)) : Prop :=
  wp p (fun tr o => exists plan, S plan /\ follows plan tr o).

Definition part {A} (S : list host_step -> Prop) (p : io (res A)) : Prop :=
  wp p (fun tr o => exists plan, S plan /\ mostly plan tr o).

(** First a plan of [S1], then one of [S2] *)
Definition then_ (S1 S2 : list host_step -> Prop) (plan : list host_step) : Prop :=
  exists p1 p2, plan = p1 ++ p2 /\ S1 p1 /\ S2 p2.

(** The handling of an error: no write, and no success *)
Definition fails {A} (p : io (res A)) : Prop :=
  wp p (fun tr o => host_log tr = [] /\ match o with Done (Ok _) => False | _ => True end).

Lemma host_log_app tr tr' : host_log (tr ++ tr') = host_log tr ++ host_log tr'.
Proof. apply omap_app. Qed.

Lemma made_app p1 p2 : made (p1 ++ p2) = made p1 ++ made p2.
Proof. apply fmap_app. Qed.

Lemma fails_err {A} e : fails (A := A) (mret (Err e)).
Proof. done. Qed.

Lemma within_stopped {A} p1 w p2 tr (o : outcome (res A)) :
  within_plan p1 (host_log tr) -> (forall a, o <> Done (Ok a)) -> follows (p1 ++ w :: p2) tr o.
Proof.
  intros (d & rest & -> & Hlog) Ho. assert (exists d' w' rest', (d ++ rest) ++ w :: p2 = d' ++ w' :: rest' /\
    (host_log tr = made d' \/ host_log tr = made d' ++ [(w', false)])) as Hs.
  { destruct Hlog as [Hlog|(w' & rest' & -> & Hlog)].
    - destruct rest as [|w' rest].
      + exists d, w, p2. rewrite app_nil_r. auto.
      + exists d, w', (rest ++ w :: p2). rewrite <- app_assoc. auto.
    - exists d, w', (rest' ++ w :: p2). rewrite <- app_assoc. auto. }
  destruct o as [[a|e]|]; [by destruct (Ho a)|done..].
Qed.

Lemma within_more p1 p2 log : within_plan p1 log -> within_plan (p1 ++ p2) log.
Proof.
  intros (d & rest & -> & Hlog). exists d, (rest ++ p2). rewrite app_assoc. split; [done|].
  destruct Hlog as [?|(w & rest' & -> & ?)]; [by left|right]. by exists w, (rest' ++ p2).
Qed.

Lemma within_after p1 p2 log : within_plan p2 log -> within_plan (p1 ++ p2) (made p1 ++ log).
Proof.
  intros (d & rest & -> & Hlog). exists (p1 ++ d), rest. rewrite made_app, app_assoc. split; [done|].
  destruct Hlog as [->|(w & rest' & -> & ->)]; [by left|right]. exists w, rest'.
  by rewrite app_assoc.
Qed.

Lemma follows_after {A} p1 p2 tr tr' (o : outcome (res A)) :
  host_log tr = made p1 -> follows p2 tr' o -> follows (p1 ++ p2) (tr ++ tr') o.
Proof.
  unfold follows. rewrite host_log_app. intros ->. destruct o as [[b|e]|why];
    [by intros ->; rewrite made_app|..]; intros (d & w & rest & -> & Hlog);
    exists (p1 ++ d), w, rest; rewrite made_app, <- !app_assoc; (split; [done|]);
    (destruct Hlog as [-> | ->]; [by left|by right]).
Qed.

(** [x, err := p(); if err != nil { h }; f(x)] *)
Lemma plans_call {A B} S1 S2 (p : io (res A)) (f : A -> io (res B)) (h : error -> io (res B)) :
  part S1 p -> (forall a, plans S2 (f a)) -> (exists w plan, S2 (w :: plan)) ->
  (forall e, fails (h e)) ->
  plans (then_ S1 S2) (p ≫= fun r => match r with Ok a => f a | Err e => h e end).
Proof.
  intros Hp Hf (w & p2 & Hw) Hh. unfold plans. apply wp_bind. eapply wp_mono; [|exact Hp].
  intros tr [[a|e]|why] (p1 & HS1 & Hlog); simpl in *.
  - eapply wp_mono; [|apply Hf]. cbv beta. intros tr' o (plan & HS2 & Hfol). exists (p1 ++ plan).
    split; [by exists p1, plan|]. by apply follows_after.
  - eapply wp_mono; [|apply Hh]. cbv beta. intros tr' o [Hw' Ho]. exists (p1 ++ w :: p2).
    split; [by exists p1, (w :: p2)|]. apply within_stopped; [|by intros b ->].
    by rewrite host_log_app, Hw', app_nil_r.
  - exists (p1 ++ w :: p2). split; [by exists p1, (w :: p2)|].
    by apply (within_stopped (A := B) p1 w p2 tr (Panicked why)).
Qed.

Lemma part_call {A B} S1 S2 (p : io (res A)) (f : A -> io (res B)) (h : error -> io (res B)) :
  part S1 p -> (forall a, part S2 (f a)) -> (exists plan, S2 plan) -> (forall e, fails (h e)) ->
  part (then_ S1 S2) (p ≫= fun r => match r with Ok a => f a | Err e => h e end).
Proof.
  intros Hp Hf (p2 & Hw) Hh. unfold part. apply wp_bind. eapply wp_mono; [|exact Hp].
  intros tr [[a|e]|why] (p1 & HS1 & Hlog); simpl in *.
  - eapply wp_mono; [|apply Hf]. cbv beta. intros tr' o (plan & HS2 & Hfol). exists (p1 ++ plan).
    split; [by exists p1, plan|]. unfold mostly in *. rewrite host_log_app, Hlog.
    destruct o as [[b|e]|why]; [by rewrite Hfol, made_app|by apply within_after..].
  - eapply wp_mono; [|apply Hh]. cbv beta. intros tr' o [Hw' Ho]. exists (p1 ++ p2).
    split; [by exists p1, p2|]. unfold mostly. rewrite host_log_app, Hw', app_nil_r.
    destruct o as [[b|e']|why]; [done|by apply within_more..].
  - exists (p1 ++ p2). split; [by exists p1, p2|]. by apply within_more.
Qed.

(** The plan of the rest may depend on the result of the first part. *)
Definition part_dep {A} (S : A -> list host_step -> Prop) (p : io (res A)) : Prop :=
  wp p (fun tr o => match o with
    | Done (Ok a) => exists plan, S a plan /\ host_log tr = made plan
    | _ => exists a plan, S a plan /\ within_plan plan (host_log tr)
    end).

Lemma plans_call_dep {A B} S1 S2 (p : io (res A)) (f : A -> io (res B)) (h : error -> io (res B)) :
  part_dep S1 p -> (forall a, plans (S2 a) (f a)) -> (forall a, exists w plan, S2 a (w :: plan)) ->
  (forall e, fails (h e)) ->
  plans (fun plan => exists a, then_ (S1 a) (S2 a) plan)
    (p ≫= fun r => match r with Ok a => f a | Err e => h e end).
Proof.
  intros Hp Hf Hw Hh. unfold plans. apply wp_bind, wp_runs. intros tr o Hr.
  pose proof (proj1 (wp_runs _ _) Hp _ _ Hr) as Hpost. cbv beta in Hpost. destruct o as [[a|e]|why]; cbn.
  - destruct Hpost as (p1 & HS1 & Hlog).
    eapply wp_mono; [|apply (Hf a)]. cbv beta. intros tr' o (plan & HS2 & Hfol). exists (p1 ++ plan).
    split; [exists a; by exists p1, plan|]. by apply follows_after.
  - destruct Hpost as (a & p1 & HS1 & Hlog). destruct (Hw a) as (w & p2 & HS2).
    eapply wp_mono; [|apply Hh]. cbv beta. intros tr' o [Hw' Ho]. exists (p1 ++ w :: p2).
    split; [exists a; by exists p1, (w :: p2)|]. apply within_stopped; [|by intros b ->].
    by rewrite host_log_app, Hw', app_nil_r.
  - destruct Hpost as (a & p1 & HS1 & Hlog). destruct (Hw a) as (w & p2 & HS2).
    exists (p1 ++ w :: p2). split; [exists a; by exists p1, (w :: p2)|].
    by apply (within_stopped (A := B) p1 w p2 tr (Panicked why)).
Qed.

(** A part that writes nothing *)
Definition quiet_part {A} (p : io A) : Prop := calls_only (fun ev => ev_host ev = None) p.

Definition no_plan (plan : list host_step) : Prop := plan = [].

Lemma quiet_writes tr : Forall (fun ev => ev_host ev = None) tr -> host_log tr = [].
Proof. intros H. induction H as [|ev tr Hev _ IH]; [done|]. unfold host_log. simpl. by rewrite Hev. Qed.

Lemma quiet_plan {A} (p : io (res A)) : quiet_part p -> part no_plan p.
Proof.
  apply wp_mono. intros tr o Htr. exists []. split; [done|]. apply quiet_writes in Htr.
  destruct o as [[a|e]|w]; [done|..]; (exists [], []; rewrite Htr; auto).
Qed.

Lemma then_no_plan S plan : then_ no_plan S plan <-> S plan.
Proof.
  split; [by intros (? & p2 & -> & -> & ?)|]. intros HS. by exists [], plan.
Qed.

Lemma plans_weaken {A} (S S' : list host_step -> Prop) (p : io (res A)) :
  (forall plan, S plan -> S' plan) -> plans S p -> plans S' p.
Proof. intros HS. apply wp_mono. intros tr o (plan & ? & ?). eauto. Qed.

Lemma part_weaken {A} (S S' : list host_step -> Prop) (p : io (res A)) :
  (forall plan, S plan -> S' plan) -> part S p -> part S' p.
Proof. intros HS. apply wp_mono. intros tr o (plan & ? & ?). eauto. Qed.

(** ... before one that follows a plan; [R] is what is known of its result. *)
Definition quiet_post {A} (R : A -> Prop) (p : io (res A)) : Prop :=
  wp p (fun tr o => host_log tr = [] /\ forall a, o = Done (Ok a) -> R a).

Lemma quiet_any {A} (p : io (res A)) : quiet_part p -> quiet_post (fun _ => True) p.
Proof. apply wp_mono. intros tr o Htr. split; [by apply quiet_writes|done]. Qed.

Lemma plans_quiet {A B} R S (p : io (res A)) (f : A -> io (res B)) (h : error -> io (res B)) :
  quiet_post R p -> (forall a, R a -> plans S (f a)) -> (exists w plan, S (w :: plan)) ->
  (forall e, fails (h e)) ->
  plans S (p ≫= fun r => match r with Ok a => f a | Err e => h e end).
Proof.
  intros Hp Hf (w & p2 & Hw) Hh. unfold plans. apply wp_bind. eapply wp_mono; [|exact Hp].
  intros tr [[a|e]|why] [Htr HR]; simpl in *.
  - eapply wp_mono; [|apply Hf, HR; done]. cbv beta. intros tr' o (plan & HS & Hfol).
    exists plan. split; [done|]. unfold follows in *. by rewrite host_log_app, Htr.
  - eapply wp_mono; [|apply Hh]. cbv beta. intros tr' o [Hw' Ho]. exists (w :: p2). split; [done|].
    apply (within_stopped [] w p2); [|by intros b ->]. rewrite host_log_app, Htr, Hw'.
    exists [], []. auto.
  - exists (w :: p2). split; [done|]. exists [], w, p2. auto.
Qed.

Lemma plans_part {A} S (p : io (res A)) : plans S p -> part S p.
Proof.
  apply wp_mono. intros tr o (plan & HS & Hf). exists plan. split; [done|].
  destruct o as [[a|e]|w]; [done|..]; destruct Hf as (d & w' & rest & -> & Hlog); exists d, (w' :: rest);
    (split; [done|]); (destruct Hlog as [?|?]; [by left|right]); eauto.
Qed.

(** One step *)
Definition one (w : host_step) (plan : list host_step) : Prop := plan = [w].

Lemma plans_git {A} (g : git_call (res A)) w :
  (forall x, git_host g x = Some (w, is_ok x)) -> plans (one w) (git g).
Proof.
  intros Hg x. exists [w]. split; [done|].
  assert (host_log [Ev (Git g) x] = [(w, is_ok x)]) as Hlog by (unfold host_log; cbn; by rewrite Hg).
  destruct x as [a|e]; [exact Hlog|]. exists [], w, []. auto.
Qed.

(** A write, and nothing else, under an error that is wrapped *)
Lemma plans_wrapped {A B} S (p : io (res A)) (f : A -> B) (h : error -> io (res B)) :
  plans S p -> (forall e, fails (h e)) ->
  plans S (p ≫= fun r => match r with Ok a => mret (Ok (f a)) | Err e => h e end).
Proof.
  intros Hp Hh. unfold plans. apply wp_bind. eapply wp_mono; [|exact Hp].
  intros tr [[a|e]|why] (plan & HS & Hf); cbn.
  - exists plan. by rewrite app_nil_r.
  - eapply wp_mono; [|apply Hh]. cbv beta. intros tr' o [Htr Ho]. exists plan. split; [done|].
    destruct o as [[b|e']|why]; [done|..]; unfold follows in *; by rewrite host_log_app, Htr, app_nil_r.
  - by exists plan.
Qed.

(** ** The providers on go-git-providers *)
Section ggp.
Context `{GitLibs}.

Lemma quiet_GetRepository client url : quiet_part (ggp_GetRepository client url).
Proof. by apply calls_only_GetRepository. Qed.

Lemma quiet_GetBitbucketRepository client url : quiet_part (GetBitbucketRepository client url).
Proof. by apply calls_only_GetBitbucketRepository. Qed.

(** The branch, made at the newest commit *)
Definition at_newest (head : string) (answer : option (list string)) : list host_step :=
  if answer is Some (sha :: _) then [WBranch head sha] else [Stop].

(** The commits of the base are asked for, a few times if that fails. *)
Definition branched (base head : string) (plan : list host_step) : Prop :=
  exists n answer, n < backoff_Steps /\
    plan = repeat (RCommits base None) n ++ RCommits base answer :: at_newest head answer.

Lemma retried_log repo base n tr o :
  retried (fun _ => true) (git (CommitsListPage repo base)) n tr o ->
  exists m r, m <= n /\ o = Done r /\
    host_log tr = made (repeat (RCommits base None) m ++ [RCommits base (res_to_option r)]).
Proof.
  induction 1 as [n tr a Hr|n tr e Hr _|n tr w Hr|n tr e d tr' o Hr _ _ IH];
    apply runs_trigger in Hr as (x & -> & Hx); try done; injection Hx as <-.
  - exists 0, (Ok a). split_and!; [lia|done..].
  - exists 0, (Err e). split_and!; [lia|done..].
  - destruct IH as (m & r & Hm & -> & Hlog). exists (S m), r. split_and!; [lia|done|].
    rewrite host_log_app. change (host_log (Ev (Sleep d) tt :: tr')) with (host_log tr'). by rewrite Hlog.
Qed.

Lemma part_CreateBranch repo base head : part (branched base head) (CreateBranch repo base head).
Proof.
  unfold part, CreateBranch. apply wp_bind. eapply wp_mono; [|apply OnError_runs]. cbv beta.
  intros tr o Hr. apply retried_log in Hr as (m & r & Hm & -> & Hlog).
  assert (branched base head ((repeat (RCommits base None) m ++ [RCommits base (res_to_option r)]) ++
    at_newest head (res_to_option r))) as Hplan.
  { exists m, (res_to_option r). rewrite <- app_assoc. split; [|done].
    assert (backoff_Steps = 4) by done. simpl in Hm. lia. }
  assert (forall tr' e, host_log tr' = [] -> at_newest head (res_to_option r) = [Stop] ->
    exists plan, branched base head plan /\ mostly (A := unit) plan (tr ++ tr') (Done (Err e))) as Hstop.
  { intros tr' e Htr' Hs. eexists. split; [exact Hplan|]. rewrite Hs. cbn [mostly].
    eexists _, [Stop]. split; [done|]. left. by rewrite host_log_app, Htr', app_nil_r. }
  destruct r as [[|sha commits]|e]; cbn [wp_then]; [by refine (Hstop [] _ _ _)| |by refine (Hstop [] _ _ _)].
  intros [[]|e]; cbn -[made]; eexists; (split; [exact Hplan|]); rewrite host_log_app, Hlog.
  - by rewrite (made_app (_ ++ _)).
  - eexists _, [WBranch head sha]. split; [done|]. right. by eexists _, [].
Qed.

Definition commit_write (head : string) (c : Commit) : host_step :=
  WCommit head (c_CommitMessage c) ((fun f => (cf_Path f, cf_Content f)) <$> c_Files c).

Definition commit_writes (head : string) (commits : list Commit) (plan : list host_step) : Prop :=
  plan = commit_write head <$> commits.

Lemma part_write_commits repo head commits :
  part (commit_writes head commits) (write_commits repo head commits).
Proof.
  induction commits as [|c commits IH]; [by exists []|]. cbn [write_commits].
  eapply part_weaken; [|apply (part_call (one (commit_write head c)) (commit_writes head commits))].
  - by intros plan (? & ? & -> & -> & ->).
  - by apply plans_part, plans_git.
  - intros _. exact IH.
  - by eexists.
  - intros; apply fails_err.
Qed.

(** *** Writing the commits and opening the pull request *)
Definition pull_write (input : PullRequestInput) : host_step :=
  WPull (pin_Head input) (pin_Base input) (pin_Title input) (pin_Body input).

Definition open_plan (input : PullRequestInput) (commits : list Commit) : list host_step -> Prop :=
  then_ (commit_writes (pin_Head input) commits) (one (pull_write input)).

Definition branch_writes (create : bool) (base head : string) (plan : list host_step) : Prop :=
  if create then branched base head plan else no_plan plan.

Lemma part_branch create repo base head :
  part (branch_writes create base head) (if create : bool then CreateBranch repo base head else mret (Ok tt)).
Proof. destruct create; [apply part_CreateBranch|]. by exists []. Qed.

Lemma branch_writes_some create base head : exists plan, branch_writes create base head plan.
Proof. destruct create; [|by eexists]. exists [RCommits base None; Stop], 0, None. by split; [apply Nat.lt_0_succ|]. Qed.

Lemma then_cons_some S1 S2 :
  (exists plan, S1 plan) -> (exists w plan, S2 (w :: plan)) -> exists w plan, then_ S1 S2 (w :: plan).
Proof.
  intros [[|w1 p1] H1] (w & p2 & H2); [by exists w, p2, [], (w :: p2)|].
  by exists w1, (p1 ++ w :: p2), (w1 :: p1), (w :: p2).
Qed.

Lemma open_plan_some input commits : exists w plan, open_plan input commits (w :: plan).
Proof. apply then_cons_some; by repeat eexists. Qed.

Lemma plans_pull {B} input repo (f : PullRequestInfo -> B) h :
  (forall e, fails (h e)) ->
  plans (one (pull_write input))
    (ggp_CreatePullRequest (pr_request input) repo ≫= fun r =>
       match r with Ok a => mret (Ok (f a)) | Err e => h e end).
Proof.
  intros Hh. apply plans_wrapped; [|done].
  apply (plans_wrapped _ _ id); [by apply plans_git|intros; apply fails_err].
Qed.

Lemma plans_write_and_open input commits create repo :
  plans (then_ (branch_writes create (pin_Base input) (pin_Head input)) (open_plan input commits))
    (write_and_open input (MkWriteFiles (pin_Head input) (pin_Base input) commits create) repo).
Proof.
  unfold write_and_open. eapply plans_weaken.
  2: { apply (plans_call (then_ (branch_writes create (pin_Base input) (pin_Head input))
         (commit_writes (pin_Head input) commits)) (one (pull_write input))).
       - unfold WriteFilesToBranch. apply part_call; [apply part_branch|intros _; apply part_write_commits| |].
         + by eexists.
         + intros; apply fails_err.
       - intros _. apply plans_pull. intros; apply fails_err.
       - by exists (pull_write input), [].
       - intros; apply fails_err. }
  intros plan (? & p3 & -> & (p1 & p2 & -> & H1 & H2) & H3). exists p1, (p2 ++ p3).
  rewrite app_assoc. split_and!; [done|done|]. by exists p2, p3.
Qed.

(** The plan of GitHub and Bitbucket Server *)
Definition host_plan (input : PullRequestInput) : list host_step -> Prop :=
  then_ (branch_writes (has_commits input) (pin_Base input) (pin_Head input)) (open_plan input (pin_Commits input)).

Lemma host_plan_some input : exists w plan, host_plan input (w :: plan).
Proof. apply then_cons_some; [apply branch_writes_some|apply open_plan_some]. Qed.

Lemma plans_host input (get : string -> io (res handle)) :
  (forall url, quiet_part (get url)) ->
  plans (host_plan input)
    (match GetGitProviderUrl (pin_RepositoryURL input) with
     | Err err => mret (Err (err_provider_url err))
     | Ok url =>
         call repo <- get url onerr err => mret (Err err);
         write_and_open input
           (MkWriteFiles (pin_Head input) (pin_Base input) (pin_Commits input) (has_commits input)) repo
     end : io (res PullRequest)).
Proof.
  intros Hget. destruct (host_plan_some input) as (w & plan & Hsome).
  destruct (GetGitProviderUrl _) as [u|e].
  - apply (plans_quiet (fun _ => True)); [by apply quiet_any|intros repo _; apply plans_write_and_open|eauto|].
    intros; apply fails_err.
  - exists (w :: plan). split; [done|]. exists [], w, plan. auto.
Qed.

(** *** GitLab, which first deletes the files that are there *)

(** The files of the commits that are there: for each file with content, the
    entries with its path in the listing of its directory *)
Definition there (file : CommitFile) (entries : list GGPTreeEntry) : list CommitFile :=
  (fun e => MkCommitFile (gte_Path e) None) <$> filter (fun e => gte_Path e = cf_Path file) entries.

Fixpoint tree_reads (branch : string) (files upd : list CommitFile) (plan : list host_step) : Prop :=
  match files with
  | [] => upd = [] /\ plan = []
  | file :: files =>
      match cf_Content file with
      | None => tree_reads branch files upd plan
      | Some _ => exists answer plan', plan = RTree branch (split_dir (cf_Path file)) answer :: plan' /\
          match answer with
          | None => plan' = [Stop]
          | Some entries => exists upd', upd = there file entries ++ upd' /\ tree_reads branch files upd' plan'
          end
      end
  end.

Lemma tree_reads_some branch files : exists upd plan, tree_reads branch files upd plan.
Proof.
  induction files as [|file files (upd & plan & IH)]; [by exists [], []|]. cbn [tree_reads].
  destruct (cf_Content file); [|by exists upd, plan].
  by eexists [], _, None, [Stop].
Qed.

Lemma tree_log client url branch path recursive :
  wp (ggp_GetTreeList client url branch path recursive) (fun tr o =>
    match o with
    | Done (Ok entries) => host_log tr = made [RTree branch path (Some entries)]
    | _ => host_log tr = [] \/ host_log tr = made [RTree branch path None]
    end).
Proof.
  unfold ggp_GetTreeList. apply wp_bind. eapply wp_mono; [|apply quiet_GetRepository].
  intros tr [[repo|e]|why] Htr%quiet_writes; cbn [wp_then]; [| |by left].
  - apply wp_bind, wp_trigger. intros [entries|e]; cbn -[made]; rewrite host_log_app, Htr; [done|by right].
  - left. by rewrite host_log_app, Htr.
Qed.

Lemma part_dep_GetUpdatedFiles client url branch files :
  part_dep (tree_reads branch files) (GetUpdatedFiles files client url branch).
Proof.
  induction files as [|file files IH]; cbn [GetUpdatedFiles]; [by exists []|].
  destruct (cf_Content file) as [c|] eqn:Hc.
  2: { eapply wp_mono; [|exact IH]. intros tr o. cbn [tree_reads]. by rewrite Hc. }
  assert (forall answer upd plan', 
    match answer with None => plan' = [Stop] | Some entries => exists upd',
      upd = there file entries ++ upd' /\ tree_reads branch files upd' plan' end ->
    tree_reads branch (file :: files) upd (RTree branch (split_dir (cf_Path file)) answer :: plan')) as Hplan.
  { intros answer upd plan' Hp. cbn [tree_reads]. rewrite Hc. by exists answer, plan'. }
  assert (forall tr, host_log tr = [] \/ host_log tr = made [RTree branch (split_dir (cf_Path file)) None] ->
    exists upd plan, tree_reads branch (file :: files) upd plan /\ within_plan plan (host_log tr)) as Hfail.
  { intros tr Hlog. exists [], [RTree branch (split_dir (cf_Path file)) None; Stop].
    split; [by apply Hplan|]. destruct Hlog as [-> | ->].
    - by exists [], [RTree branch (split_dir (cf_Path file)) None; Stop]; auto.
    - exists [RTree branch (split_dir (cf_Path file)) None], [Stop]. auto. }
  apply wp_bind. eapply wp_mono; [|apply tree_log]. cbv beta.
  intros tr [[entries|e]|why] Hlog; cbn [wp_then].
  - apply wp_bind. eapply wp_mono; [|exact IH]. cbv beta.
    assert (forall upd plan, tree_reads branch files upd plan ->
      tree_reads branch (file :: files) (there file entries ++ upd)
        (RTree branch (split_dir (cf_Path file)) (Some entries) :: plan)) as Hsome.
    { intros upd plan Hp. apply Hplan. by exists upd. }
    intros tr' [[rest|e]|why] Hrest; cbn [wp_then wp mret prog_ret]; rewrite ?app_nil_r, host_log_app, Hlog.
    + destruct Hrest as (plan & Hreads & Hmade). eexists. split; [by apply Hsome|].
      by rewrite Hmade, <- made_app.
    + destruct Hrest as (upd & plan & Hreads & Hin). eexists _, _. split; [by apply Hsome|].
      by apply (within_after [_]).
    + destruct Hrest as (upd & plan & Hreads & Hin). eexists _, _. split; [by apply Hsome|].
      by apply (within_after [_]).
  - cbn [wp mret prog_ret]. rewrite app_nil_r. by apply Hfail.
  - by apply Hfail.
Qed.

Definition deletions (upd : list CommitFile) : list Commit :=
  if bool_decide (upd <> []) then
    [MkCommit deleteFilesCommitMessage (map (fun f => MkCommitFile (cf_Path f) None) upd)]
  else [].

(** The files that are there are looked for on the branch of the pull request. *)
Definition gitlab_plan (input : PullRequestInput) : list host_step -> Prop :=
  then_ (branch_writes (has_commits input) (pin_Base input) (pin_Head input)) (fun plan => exists upd,
    then_ (tree_reads (pin_Head input) (concat (map c_Files (pin_Commits input))) upd)
      (open_plan input (deletions upd ++ pin_Commits input)) plan).

Lemma plans_gitlab client input : plans (gitlab_plan input) (GitLab.CreatePullRequest client input).
Proof.
  unfold GitLab.CreatePullRequest, gitlab_plan. set (files := concat _).
  set (S2 := fun plan => exists upd, then_ (tree_reads (pin_Head input) files upd)
    (open_plan input (deletions upd ++ pin_Commits input)) plan).
  assert (exists w plan, S2 (w :: plan)) as Hsome2.
  { destruct (tree_reads_some (pin_Head input) files) as (upd & plan & Hreads).
    destruct (then_cons_some _ _ (ex_intro _ plan Hreads)
      (open_plan_some input (deletions upd ++ pin_Commits input))) as (w & plan' & Hp). by exists w, plan', upd. }
  destruct (then_cons_some _ S2 (branch_writes_some (has_commits input) (pin_Base input) (pin_Head input)) Hsome2)
    as (w & plan & Hsome).
  destruct (GetGitProviderUrl _) as [u|e].
  2: { exists (w :: plan). split; [done|]. exists [], w, plan. auto. }
  apply (plans_quiet (fun _ => True)); [apply quiet_any, quiet_GetRepository| |by eauto|].
  2: { intros; apply fails_err. }
  intros repo _. cbv zeta. fold files.
  apply plans_call; [apply part_branch| |done|intros; apply fails_err]. intros _.
  apply plans_call_dep; [apply part_dep_GetUpdatedFiles| |intros upd; apply open_plan_some|intros; apply fails_err].
  intros upd. fold (deletions upd). eapply plans_weaken; [|apply (plans_write_and_open input _ false)].
  intros p Hp. by apply then_no_plan.
Qed.

(** *** Azure DevOps, where a commit is a push on top of a commit *)

(** [GetCurrentCommitOfBranch] with its error ignored; it panics when there
    are no commits. *)
Definition newest (answer : option (list string)) : string :=
  if answer is Some (sha :: _) then sha else "".

Fixpoint pushes (input : PullRequestInput) (commits : list Commit) (sha : string)
    (plan : list host_step) : Prop :=
  match commits with
  | [] => plan = []
  | c :: commits => exists answer plan',
      plan = WPush (jenkinsSCM.CommitFilesRequest sha (pin_RepositoryURL input) (pin_Head input)
        (c_CommitMessage c) (c_Files c)) :: RCommits (pin_Head input) answer :: plan' /\
      if answer is Some [] then plan' = [Stop] else pushes input commits (newest answer) plan'
  end.

(** The branch is made when its newest commit cannot be read. *)
Definition azure_branch (input : PullRequestInput) (sha : string) (plan : list host_step) : Prop :=
  exists answer plan', plan = RCommits (pin_Head input) answer :: plan' /\
    if answer is Some [] then plan' = [Stop]
    else if bool_decide (newest answer = "") then
      exists base, plan' = RCommits (pin_Base input) base :: at_newest (pin_Head input) base /\ sha = newest base
    else plan' = [] /\ sha = newest answer.

Definition azure_plan (input : PullRequestInput) (plan : list host_step) : Prop :=
  exists sha, then_ (azure_branch input sha)
    (then_ (pushes input (pin_Commits input) sha) (one (pull_write input))) plan.

Lemma pushes_some input commits sha : exists plan, pushes input commits sha plan.
Proof.
  destruct commits as [|c commits]; [by exists []|].
  by eexists _, (Some []), [Stop].
Qed.

Lemma head_log client repo branch path :
  wp (jenkinsSCM.GetCurrentCommitOfBranch client repo branch path) (fun tr o => exists answer,
    host_log tr = made [RCommits branch answer] /\
    match answer with
    | Some (sha :: _) => o = Done (Ok sha)
    | Some [] => exists w, o = Panicked w
    | None => exists e, o = Done (Err e)
    end).
Proof.
  unfold jenkinsSCM.GetCurrentCommitOfBranch. apply wp_bind, wp_trigger. intros [[|sha commits]|e]; cbn.
  - exists (Some []). eauto.
  - by exists (Some (sha :: commits)).
  - exists None. eauto.
Qed.

Lemma part_send client request : part (one (WPush request)) (Azure.sendRawRequest client request).
Proof.
  unfold Azure.sendRawRequest, part. apply wp_bind. unfold git. apply wp_trigger. intros [resp|e]; cbn.
  - exists [WPush request]. split; [done|]. destruct resp as [status msg]. cbn.
    unfold mostly. case_bool_decide as Hs; cbn; unfold host_log; cbn.
    + rewrite bool_decide_false by lia. exists [], [WPush request]. split; [done|]. right. by eexists _, [].
    + by rewrite bool_decide_true by lia.
  - exists [WPush request]. split; [done|]. exists [], [WPush request]. split; [done|]. right. by eexists _, [].
Qed.

(** A read of the branch, then what depends on it *)
Lemma part_head {A} client repo branch path (S : option (list string) -> list host_step -> Prop)
    (f : res string -> io (res A)) :
  (forall answer r, newest answer = ignore_err r -> answer <> Some [] -> part (S answer) (f r)) ->
  part (fun plan => exists answer plan', plan = RCommits branch answer :: plan' /\
      if answer is Some [] then plan' = [Stop] else S answer plan')
    (jenkinsSCM.GetCurrentCommitOfBranch client repo branch path ≫= f).
Proof.
  intros Hf. unfold part. apply wp_bind. eapply wp_mono; [|apply head_log]. cbv beta.
  intros tr o (answer & Hlog & Ho).
  assert (forall r, o = Done r -> newest answer = ignore_err r -> answer <> Some [] ->
    wp (f r) (fun tr' o' => exists plan, (exists answer plan', plan = RCommits branch answer :: plan' /\
      if answer is Some [] then plan' = [Stop] else S answer plan') /\ mostly plan (tr ++ tr') o')) as Hrest.
  { intros r -> Hnew Hne. eapply wp_mono; [|by apply (Hf answer r)]. cbv beta. intros tr' o' (plan & HS & Hm).
    exists (RCommits branch answer :: plan). split.
    - exists answer, plan. split; [done|]. by destruct answer as [[|]|].
    - unfold mostly in *. rewrite host_log_app, Hlog.
      destruct o' as [[b|e]|why]; [by rewrite Hm|by apply (within_after [_])..]. }
  destruct answer as [[|sha commits]|].
  - destruct Ho as [w ->]. cbn [wp_then]. exists [RCommits branch (Some []); Stop].
    split; [by exists (Some []), [Stop]|]. exists [RCommits branch (Some [])], [Stop]. auto.
  - rewrite Ho in *. cbn [wp_then]. by apply Hrest.
  - destruct Ho as [e ->]. cbn [wp_then]. by apply Hrest.
Qed.

Lemma part_pushes client repo input commits sha :
  part (pushes input commits sha) (Azure.push_commits client repo input sha commits).
Proof.
  revert sha. induction commits as [|c commits IH]; intros sha; [by exists []|]. cbn [Azure.push_commits].
  eapply part_weaken; [|eapply part_call; [apply part_send| | |intros; apply fails_err]].
  2: { intros _. apply (part_head client repo (pin_Head input) "" (fun answer => pushes input commits (newest answer))).
       intros answer r -> _. apply IH. }
  - intros plan (? & ? & -> & -> & (answer & plan' & -> & Hp)). by exists answer, plan'.
  - by eexists _, (Some []), [Stop].
Qed.

Lemma part_dep_branch client repo input :
  part_dep (azure_branch input) (Azure.head_commit client repo input).
Proof.
  unfold Azure.head_commit, part_dep. apply wp_bind. eapply wp_mono; [|apply head_log]. cbv beta.
  intros tr o (answer & Hlog & Ho).
  assert (answer = Some [] /\ (exists w, o = Panicked w) \/ answer <> Some [] /\
    exists r, o = Done r /\ newest answer = ignore_err r) as [[-> [w ->]]|(Hne & r & -> & Hnew)].
  { destruct answer as [[|sha commits]|]; [by left|right; eauto|right]. destruct Ho as [e ->]. eauto. }
  { cbn [wp_then]. exists "", [RCommits (pin_Head input) (Some []); Stop]. split; [by exists (Some []), [Stop]|].
    exists [RCommits (pin_Head input) (Some [])], [Stop]. auto. }
  cbn [wp_then]. cbv zeta. rewrite <- Hnew. clear Ho.
  assert (forall sha plan', (if bool_decide (newest answer = "") then
      exists base, plan' = RCommits (pin_Base input) base :: at_newest (pin_Head input) base /\ sha = newest base
    else plan' = [] /\ sha = newest answer) ->
    azure_branch input sha (RCommits (pin_Head input) answer :: plan')) as Hplan.
  { intros sha plan' Hp. exists answer, plan'. split; [done|]. by destruct answer as [[|]|]. }
  case_bool_decide as Hsha.
  2: { cbn [wp mret prog_ret]. rewrite app_nil_r. eexists. split; [by apply Hplan|done]. }
  apply wp_bind. eapply wp_mono; [|apply head_log]. cbv beta. intros tr1 o1 (base & Hlog1 & Ho1).
  specialize (Hplan (newest base) _ (ex_intro _ base (conj eq_refl eq_refl))).
  destruct base as [[|sha commits]|]; [destruct Ho1 as [w ->]|rewrite Ho1|destruct Ho1 as [e ->]]; cbn [wp_then].
  - eexists _, _. split; [exact Hplan|]. rewrite host_log_app, Hlog, Hlog1. eexists [_; _], [Stop]. auto.
  - unfold git. apply wp_bind, wp_trigger. intros [[]|e]; cbn [wp_then wp mret prog_ret];
      rewrite app_nil_r, !host_log_app, Hlog, Hlog1.
    + eexists. split; [exact Hplan|done].
    + eexists _, _. split; [exact Hplan|]. eexists [_; _], [WBranch (pin_Head input) sha]. split; [done|].
      right. by eexists _, [].
  - cbn [wp mret prog_ret]. rewrite app_nil_r. eexists _, _. split; [exact Hplan|].
    rewrite host_log_app, Hlog, Hlog1. eexists [_; _], [Stop]. auto.
Qed.

Lemma plans_azure client input : plans (azure_plan input) (Azure.CreatePullRequest client input).
Proof.
  assert (forall sha, exists w plan,
    then_ (pushes input (pin_Commits input) sha) (one (pull_write input)) (w :: plan)) as Hsome2.
  { intros sha. apply then_cons_some; [apply pushes_some|by repeat eexists]. }
  assert (exists w plan, azure_plan input (w :: plan)) as (w & plan & Hsome).
  { destruct (Hsome2 "") as (w & plan & Hplan). eexists _, _, "", _, (w :: plan). split; [|split; [|exact Hplan]].
    2: by exists (Some []), [Stop]. done. }
  unfold Azure.CreatePullRequest. destruct (url_Parse _) as [u|e].
  2: { exists (w :: plan). split; [done|]. exists [], w, plan. auto. }
  apply (plans_quiet (fun _ => True)); [| |by eauto|intros; apply fails_err].
  { apply quiet_any. unfold quiet_part, jenkinsSCM.GetRepository.
    destruct (jenkinsSCM.path_parts _) as [[[org project] name]|]; git_calls. }
  intros repo _. apply plans_call_dep; [apply part_dep_branch| |done|intros; apply fails_err].
  intros sha. apply plans_call; [apply part_pushes| |by repeat eexists|intros; apply fails_err].
  intros _. apply plans_wrapped; [by apply plans_git|intros; apply fails_err].
Qed.

(** C11.  In every run a provider writes to the hosting service exactly what the
    pull request's commits and the service's answers ask for, and in order.
    GitHub and Bitbucket Server, when there are commits: the branch, at the
    newest commit of the base; each commit with its message and files; the pull
    request.  GitLab, after the branch: a commit that deletes the files the
    service has listed in the places of the files with content, unless there are
    none.  Azure DevOps: the branch, exactly when its newest commit could not be
    read; for each commit a push on top of the commit then newest.  Each write
    is made only after what is before it succeeded, and the run succeeds exactly
    when all of it was made. *)
Theorem commits_written client input :
  plans (host_plan input) (GitHub.CreatePullRequest client input) /\
  plans (host_plan input) (BitBucketServer.CreatePullRequest client input) /\
  plans (gitlab_plan input) (GitLab.CreatePullRequest client input) /\
  plans (azure_plan input) (Azure.CreatePullRequest client input).
Proof.
  split_and!.
  - apply (plans_host input (ggp_GetRepository client)), quiet_GetRepository.
  - apply (plans_host input (GetBitbucketRepository client)), quiet_GetBitbucketRepository.
  - apply plans_gitlab.
  - apply plans_azure.
Qed.
End ggp.

(** ** A pull request with two commits on a host where everything works *)
#[local] Existing Instance StockGit.libs.

Definition sample_host {X} (g : git_call X) : X :=
  match g in git_call X return X with
  | OrgRepositoriesGet _ _ => Ok (Handle 4)
  | CommitsListPage _ _ => Ok ["c0ffee"]
  | TreesList _ _ _ _ => Ok [MkGGPTreeEntry "a.yaml" "blob" 1 "5eed" ""; MkGGPTreeEntry "c.yaml" "blob" 1 "ace" ""]
  | BranchesCreate _ _ _ => Ok tt
  | CommitsCreate _ _ message _ =>
      if bool_decide (message = "refused") then Err (errorf "protected branch") else Ok "decade"
  | PullRequestsCreate _ title branch _ _ =>
      Ok (MkPullRequestInfo title "" "https://git.example.com/org/podinfo/pulls/7" false branch 7)
  | g => git_offline g
  end.

Definition sample_handler : handler (E := sys) map_server := fun X e =>
  match e in sys X return map_server -> X * map_server with
  | Git g => fun s => (sample_host g, s)
  | e => map_handler _ e
  end.

Definition sample_input (second : string) : PullRequestInput :=
  MkPullRequestInput "https://github.com/org/podinfo" "Promote" "" "promotion" "main"
    [MkCommit "first" [MkCommitFile "a.yaml" (Some "a")];
     MkCommit second [MkCommitFile "b.yaml" None]].

Definition sample_writes (create : handle -> PullRequestInput -> io (res PullRequest)) (second : string) :
    list (host_step * bool) * bool :=
  let '(tr, o, _) := exec sample_handler (create (Handle 3) (sample_input second)) (MkMapServer ∅ ∅) in
  (host_log tr, match o with Done (Ok _) => true | _ => false end).

Definition sample_branch : list host_step := [RCommits "main" (Some ["c0ffee"]); WBranch "promotion" "c0ffee"].
Definition sample_first : host_step := WCommit "promotion" "first" [("a.yaml", Some "a")].

Definition sample_rest : list host_step :=
  [sample_first; WCommit "promotion" "second" [("b.yaml", None)]; WPull "promotion" "main" "Promote" ""].

Example written_in_order :
  sample_writes GitHub.CreatePullRequest "second" = (made (sample_branch ++ sample_rest), true).
Proof. by vm_compute. Qed.

(** GitLab finds [a.yaml] and deletes it first. *)
Example deleted_first : exists entries,
  sample_writes GitLab.CreatePullRequest "second" =
    (made (sample_branch ++
           [RTree "promotion" (split_dir "a.yaml") (Some entries);
            WCommit "promotion" deleteFilesCommitMessage [("a.yaml", None)]] ++ sample_rest), true).
Proof. eexists. by vm_compute. Qed.

(** The pull request is not opened when a commit is refused; what was written
    before it stays. *)
Example refused_half_way : sample_writes GitHub.CreatePullRequest "refused" =
  (made (sample_branch ++ [sample_first]) ++ [(WCommit "promotion" "refused" [("b.yaml", None)], false)],
   false).
Proof. by vm_compute. Qed.
