(* ===== verification/Strategies.v ===== *)
(** * Promotion strategies (server/strategy)

    The [Strategy] interface as a record of its two methods, the registry, and
    the notification strategy. *)

From S2P Require Export Sys.

(** strategy.go: [Promotion], called [StrategyPromotion] here to keep it apart
    from the API type *)
Record StrategyPromotion := MkStrategyPromotion {
  sp_PipelineNamespace : string;
  sp_PipelineName : string;
  sp_Environment : Environment;
  sp_Version : string }.

Record PromotionResult := MkPromotionResult { pr_Location : string }.

(** [type Strategy interface]; [Promote] returns a pointer, which may be nil
    even when the error is nil. *)
Record StrategyI := MkStrategyI {
  Handles : Promotion -> bool;
  Promote : Promotion -> StrategyPromotion -> io (res (option PromotionResult)) }.

(** [type StrategyRegistry []Strategy] *)
Abbreviation StrategyRegistry := (list StrategyI).

Definition Register (r : StrategyRegistry) (s : StrategyI) : StrategyRegistry := r ++ [s].

Definition err_no_strategy := errorf "no known promotion strategy requested".

Fixpoint Registry_Get (r : StrategyRegistry) (p : Promotion) : res StrategyI :=
  match r with
  | [] => Err err_no_strategy
  | s :: r => if Handles s p then Ok s else Registry_Get r p
  end.

(** ** The notification strategy (strategy/notification) *)
Module Notification.
Definition PromoteReason := "Promote".

Definition Handles (p : Promotion) : bool :=
  match strat_Notification (prom_Strategy p) with Some _ => true | None => false end.

Definition Promote (promSpec : Promotion) (promotion : StrategyPromotion) :
    io (res (option PromotionResult)) :=
  let ns := sp_PipelineNamespace promotion in
  let name := sp_PipelineName promotion in
  let env := env_Name (sp_Environment promotion) in
  call p <- trigger (GetPipeline (MkKey ns name)) onerr err =>
    mret (Err (wrapf ("failed getting pipeline=" +:+ ns +:+ "/" +:+ name +:+ ": ") err));
  trigger (AnnotatedEventf (pl_Key p)
             [("environment", env); ("version", sp_Version promotion)]
             EventTypeNormal PromoteReason
             ("Promote pipeline " +:+ ns +:+ "/" +:+ name +:+ " to " +:+ env +:+
              " with version " +:+ sp_Version promotion));;
  mret (Ok (Some (MkPromotionResult ""))).

(** [NewNotification] *)
Definition NewNotification : StrategyI := MkStrategyI Handles Promote.
End Notification.

(** ** Lemmas *)

(** [Get] returns the first registered strategy that handles the promotion. *)
Lemma Registry_Get_ok r p s :
  Registry_Get r p = Ok s <->
  exists r1 r2, r = r1 ++ s :: r2 /\ Handles s p = true /\
    Forall (fun s' => Handles s' p = false) r1.
Proof.
  induction r as [|s' r IH]; simpl.
  - split; [done|]. by intros ([] & ? & ? & _).
  - destruct (Handles s' p) eqn:Hs'.
    + split.
      * intros [= ->]. by exists [], r.
      * intros ([|s'' r1] & r2 & [= -> ->] & Hs & Hr1); [done|].
        inversion Hr1; congruence.
    + rewrite IH. split.
      * intros (r1 & r2 & -> & Hs & Hr1). exists (s' :: r1), r2. split_and!; [done|done|by constructor].
      * intros ([|s'' r1] & r2 & [= -> ->] & Hs & Hr1); [congruence|].
        inversion Hr1; subst. eauto.
Qed.

Lemma Registry_Get_err r p e :
  Registry_Get r p = Err e <->
  e = err_no_strategy /\ Forall (fun s => Handles s p = false) r.
Proof.
  induction r as [|s r IH]; simpl.
  - split; [intros [= <-]; by repeat constructor|by intros [-> _]].
  - destruct (Handles s p) eqn:Hs; [split; [done|]|rewrite IH; split].
    + intros [_ Hr]. inversion Hr; congruence.
    + intros [-> Hr]. split; [done|by constructor].
    + intros [-> Hr]. inversion Hr; subst. by split.
Qed.

Lemma Registry_Get_register r s p :
  Registry_Get (Register r s) p =
    match Registry_Get r p with
    | Ok s' => Ok s'
    | Err _ => if Handles s p then Ok s else Err err_no_strategy
    end.
Proof. unfold Register. induction r as [|s' r IH]; simpl; [done|]. by destruct (Handles s' p). Qed.
