(* ===== verification/PullRequest.v ===== *)
(** * The pull request strategy (server/strategy/pullrequest)

    [PullRequest.Promote]: clone the repository into a temporary directory,
    switch to the promotion branch, set the version in the manifests, commit,
    push, and open a pull request or retitle the one that exists. *)

From S2P Require Export AzureDevOps Strategies.

(** ** gitprovider.go *)
Definition ErrGitProviderTypeEmpty := errorf "git provider type is empty".
Definition ErrGitProviderDomainIsEmpty := errorf "git provider host is empty".
Definition ErrTokenTypeIsEmpty := errorf "git provider token type is empty".
Definition ErrTokenIsEmpty := errorf "git provider token is empty".

Definition err_unsupported (gitProviderType : string) : error :=
  errorf ("the Git provider " +:+ quote gitProviderType +:+ " is not supported").

Record GitProviderConfig := MkGitProviderConfig {
  gpc_Token : string;
  gpc_TokenType : string;
  gpc_Type : string;
  gpc_Domain : string;
  gpc_DestructiveCalls : bool }.

Definition GitProviderClientFactory := GitProviderConfig -> io (res Provider).

Definition decorateCustomDomainByType (gitProviderType domain : string) : res string :=
  if bool_decide (gitProviderType = "") then Err ErrGitProviderTypeEmpty
  else if bool_decide (domain = "") then Err ErrGitProviderDomainIsEmpty
  else if bool_decide (gitProviderType = Gitlab) &&
          (negb (HasPrefix domain "http://") && negb (HasPrefix domain "https://"))
  then Ok ("https://" +:+ domain)
  else Ok domain.

Definition gitProviderIsValid (gitProviderType : string) : res bool :=
  if bool_decide (gitProviderType = "") then Err ErrGitProviderTypeEmpty
  else if bool_decide (gitProviderType = BitBucketServer) then Ok true
  else if bool_decide (gitProviderType = Github) then Ok true
  else if bool_decide (gitProviderType = Gitlab) then Ok true
  else Err (err_unsupported gitProviderType).

(** The name and the options the factory passes on for a configuration *)
Definition factory_options (provider : GitProviderConfig) :
    res (string * list ProviderWithFn) :=
  let destructive := if gpc_DestructiveCalls provider then [WithDestructiveAPICalls] else [] in
  match (if bool_decide (gpc_Domain provider <> "") then
           match decorateCustomDomainByType (gpc_Type provider) (gpc_Domain provider) with
           | Ok domain => Ok [WithDomain domain]
           | Err err => Err err
           end
         else Ok []) with
  | Err err => Err err
  | Ok domain =>
      let options := WithOAuth2Token (gpc_Token provider) :: destructive ++ domain in
      if bool_decide (gpc_Type provider = Github) then Ok (GitHubProviderName, options)
      else if bool_decide (gpc_Type provider = Gitlab) then
        Ok (GitLabProviderName,
            options ++ [WithToken (gpc_TokenType provider) (gpc_Token provider)])
      else if bool_decide (gpc_Type provider = BitBucketServer) then
        Ok (BitBucketServerProviderName,
            options ++ [WithToken "token" (gpc_Token provider); WithUsername "git"])
      else if bool_decide (gpc_Type provider = AzureDevOps) then
        Ok (AzureDevOpsProviderName,
            options ++ [WithToken (gpc_TokenType provider) (gpc_Token provider)])
      else Err (err_unsupported (gpc_Type provider))
  end.

Definition NewGitProviderClientFactory `{GitLibs} : GitProviderClientFactory := fun provider =>
  when bool_decide (gpc_Type provider = "") return mret (Err ErrGitProviderTypeEmpty);
  when bool_decide (gpc_TokenType provider = "") return mret (Err ErrTokenTypeIsEmpty);
  when bool_decide (gpc_Token provider = "") return mret (Err ErrTokenIsEmpty);
  when bool_decide (gpc_TokenType provider <> "oauth2") return
    mret (Err (errorf ("git provider token type is invalid " +:+ gpc_TokenType provider)));
  match factory_options provider with
  | Err err => mret (Err err)
  | Ok (providerName, options) => Create providerName options
  end.

(** ** The strategy *)
Definition ErrSpecIsNil := errorf "PullRequest spec in Pipeline is nil".

Definition promotion_id (sep : string) (promotion : StrategyPromotion) : string :=
  sp_PipelineNamespace promotion +:+ sep +:+ sp_PipelineName promotion +:+ sep +:+
  env_Name (sp_Environment promotion).

Definition head_branch (promotion : StrategyPromotion) : string :=
  "promotion-" +:+ promotion_id "-" promotion.

Definition new_title (promotion : StrategyPromotion) : string :=
  "Promote " +:+ sp_PipelineNamespace promotion +:+ "/" +:+ sp_PipelineName promotion +:+ " in " +:+
  env_Name (sp_Environment promotion) +:+ " to " +:+ sp_Version promotion.

Definition newline : string := String (Ascii.ascii_of_nat 10) "".

Definition pr_desc (promotion : StrategyPromotion) : string :=
  "<details>" +:+ newline +:+ "<summary>metadata</summary>" +:+ newline +:+
  "!!! DO NOT EDIT !!!" +:+ newline +:+ newline +:+ promotion_id "/" promotion +:+ newline +:+
  "</details>".

Section strategy.
Context `{GitLibs} (gitClientFactory : GitProviderClientFactory).

Definition fetchCredentials (ns : string) (secretRef : LocalObjectReference) :
    io (res SecretData) :=
  call data <- trigger (GetSecret (MkKey ns (ref_Name secretRef))) onerr err =>
    mret (Err (wrapf "failed to fetch Secret: " err));
  mret (Ok data).

(** clone.go *)
Definition cloneRepo (prSpec : PullRequestPromotion) (dir : string) (credentials : SecretData) :
    io (res handle) :=
  match url_Parse (prp_URL prSpec) with
  | Err err => mret (Err (wrapf "failed parsing URL from spec: " err))
  | Ok u =>
      call authOpts <- git (NewAuthOptions u credentials) onerr err =>
        mret (Err (wrapf ("failed configuring auth opts for repo URL " +:+ quote (url_String u) +:+
                          ": ") err));
      call c <- git (GogitNewClient dir authOpts) onerr err =>
        mret (Err (wrapf "failed creating git client: " err));
      deferred (git (Close c))
        (call _ <- git (Clone c (prp_URL prSpec) (prp_BaseBranch prSpec)) onerr err =>
           mret (Err (wrapf "failed cloning repository: " err));
         mret (Ok c))
  end.

(** patch.go *)
Definition setterShortHand := "$promotion".

Definition version_set (promotion : StrategyPromotion) : SettersSet :=
  MkSettersSet "version"
    [(SetterDefinitionPrefix +:+ promotion_id ":" promotion, ("version", sp_Version promotion))].

(** [for idx := range nodes], in place *)
Fixpoint set_nodes (set : SettersSet) (nodes : list RNode) : res (list RNode) :=
  match nodes with
  | [] => Ok []
  | node :: nodes =>
      match set_Filter set node with
      | Err err => Err (wrapf "failed to apply filter: " err)
      | Ok node =>
          match set_nodes set nodes with
          | Err err => Err err
          | Ok nodes => Ok (node :: nodes)
          end
      end
  end.

Definition patchManifests (inPath : string) (promotion : StrategyPromotion) : io (res unit) :=
  git (SetShortHandRef setterShortHand);;
  call _ <- git (KioExecute inPath (quote setterShortHand) inPath (set_nodes (version_set promotion)))
    onerr err => mret (Err (wrapf "failed to execute pipeline: " err));
  mret (Ok tt).

(** The first listed pull request whose source is the branch *)
Fixpoint find_existing (head : string) (prList : list PullRequest) : option Z :=
  match prList with
  | [] => None
  | pr :: prList =>
      if bool_decide (pull_Source pr = head) then Some (pull_Number pr) else find_existing head prList
  end.

Definition createPullRequest (token head baseBranch gitProviderType gitURL : string)
    (promotion : StrategyPromotion) : io (res PullRequest) :=
  when bool_decide (token = "") return mret (Err ErrTokenIsEmpty);
  call parsedURL <- ParseURL gitProviderType gitURL onerr err =>
    mret (Err (wrapf "failed parsing git provider URL: " err));
  let provider := MkGitProviderConfig token "oauth2" gitProviderType (pu_Domain parsedURL) false in
  call client <- gitClientFactory provider onerr err =>
    mret (Err (wrapf "failed creating git provider client: " err));
  created ← CreatePullRequest client
    (MkPullRequestInput gitURL (new_title promotion) (pr_desc promotion) head baseBranch []);
  match created with
  | Ok pr => mret (Ok pr)
  | Err _ =>
      call prList <- ListPullRequests client gitURL onerr err =>
        mret (Err (wrapf "failed listing PRs: " err));
      match find_existing head prList with
      | None =>
          mret (Err (errorf ("failed to create or find existing PR: headBranch=" +:+ head +:+
                             " baseBranch=" +:+ baseBranch)))
      | Some existingPRNo =>
          call pr <- UpdatePullRequest client gitURL existingPRNo
                       (MkUpdatePullRequestOptions (new_title promotion) "") onerr err =>
            mret (Err (wrapf "failed to update existing PR: " err));
          mret (Ok pr)
      end
  end.

(** Committing what changed *)
Definition commit_changes (gitClient : handle) : io (res unit) :=
  call clean <- git (IsClean gitClient) onerr err =>
    mret (Err (wrapf "failed to determine worktree state: " err));
  if clean : bool then mret (Ok tt)
  else
    now ← trigger Now;
    call _ <- git (GogitCommit gitClient "promoting version" "Promotion Server" now) onerr err =>
      mret (Err (wrapf "failed to commit manifests: " err));
    mret (Ok tt).

(** Pushing; a branch that is up to date is not an error. *)
Definition push_branch (gitClient : handle) : io (res unit) :=
  pushed ← git (Push gitClient);
  match pushed with
  | Ok _ => mret (Ok tt)
  | Err err =>
      if bool_decide (Error err <> "already up-to-date")
      then mret (Err (wrapf "failed to push changes: " err)) else mret (Ok tt)
  end.

(** [Promote] after the temporary directory is made *)
Definition promote_in (prSpec : PullRequestPromotion) (promotion : StrategyPromotion)
    (cloneDir : string) : io (res (option PromotionResult)) :=
  call creds <- fetchCredentials (sp_PipelineNamespace promotion) (prp_SecretRef prSpec) onerr err =>
    mret (Err (wrapf "failed to fetch credentials: " err));
  call gitClient <- cloneRepo prSpec cloneDir creds onerr err =>
    mret (Err (wrapf "failed to clone repo: " err));
  let headBranch := head_branch promotion in
  call _ <- git (SwitchBranch gitClient headBranch) onerr err =>
    mret (Err (wrapf "failed to switch branch: " err));
  call _ <- patchManifests cloneDir promotion onerr err =>
    mret (Err (wrapf "failed to patch manifest files: " err));
  call _ <- commit_changes gitClient onerr err => mret (Err err);
  call _ <- push_branch gitClient onerr err => mret (Err err);
  call pr <- createPullRequest (default "" (creds !! "token")) headBranch (prp_BaseBranch prSpec)
               (prp_Type prSpec) (prp_URL prSpec) promotion onerr err =>
    mret (Err (wrapf "failed to create PR: " err));
  mret (Ok (Some (MkPromotionResult (pull_Link pr)))).

Definition PullRequest_Handles (p : Promotion) : bool :=
  match strat_PullRequest (prom_Strategy p) with Some _ => true | None => false end.

Definition PullRequest_Promote (promSpec : Promotion) (promotion : StrategyPromotion) :
    io (res (option PromotionResult)) :=
  match strat_PullRequest (prom_Strategy promSpec) with
  | None => mret (Err ErrSpecIsNil)
  | Some prSpec =>
      match gitProviderIsValid (prp_Type prSpec) with
      | Err err => mret (Err (wrapf "invalid git provider type: " err))
      | Ok _ =>
          when bool_decide (prp_Type prSpec = "") return mret (Err ErrGitProviderTypeEmpty);
          call cloneDir <- git (MkdirTemp "" "promotion-") onerr err =>
            mret (Err (wrapf "failed to create temporary clone dir: " err));
          deferred (git (RemoveAll cloneDir) ;; mret tt) (promote_in prSpec promotion cloneDir)
      end
  end.

Definition PullRequest_strategy : StrategyI := MkStrategyI PullRequest_Handles PullRequest_Promote.
End strategy.

(** ** Construction *)
Definition PullRequestOpt := option GitProviderClientFactory -> res (option GitProviderClientFactory).

Definition GitClientFactory (cf : GitProviderClientFactory) : PullRequestOpt := fun _ => Ok (Some cf).

Fixpoint apply_pr_opts (opts : list PullRequestOpt) (g : option GitProviderClientFactory) :
    res (option GitProviderClientFactory) :=
  match opts with
  | [] => Ok g
  | opt :: opts => match opt g with Ok g => apply_pr_opts opts g | Err err => Err err end
  end.

(** [New], with [setDefaults] *)
Definition PullRequest_New `{GitLibs} (opts : list PullRequestOpt) : res StrategyI :=
  match apply_pr_opts opts None with
  | Err err => Err err
  | Ok g => Ok (PullRequest_strategy (default NewGitProviderClientFactory g))
  end.

(** ** What a promotion may do to the outside *)

(** The calls of a promotion: pipelines are not written; only the secret of
    the specification is read; only the specified branch is cloned, only the
    promotion branch is switched to; on the host, nothing is changed but by
    pushing, opening a pull request from the promotion branch to the base
    branch, and retitling one. *)
Definition within (prSpec : PullRequestPromotion) (promotion : StrategyPromotion)
    (ev : event sys) : Prop :=
  match ev with
  | Ev e _ =>
      match e with
      | GetSecret k => k = MkKey (sp_PipelineNamespace promotion) (ref_Name (prp_SecretRef prSpec))
      | Now | Sleep _ => True
      | Git g =>
          match g with
          | Clone _ url branch => url = prp_URL prSpec /\ branch = prp_BaseBranch prSpec
          | SwitchBranch _ branch => branch = head_branch promotion
          | PullRequestsCreate _ title branch base description =>
              title = new_title promotion /\ branch = head_branch promotion /\
              base = prp_BaseBranch prSpec /\ description = pr_desc promotion
          | PullRequestsEdit _ _ title => title = new_title promotion
          | CommitsCreate _ _ _ _ | BranchesCreate _ _ _ => False
          | ScmNewClient _ _ _ | ScmCreateRef _ _ _ _ | ScmContentsCreate _ _ _ _
          | ScmContentsUpdate _ _ _ _ | ScmDo _ _ | ScmPullRequestsCreate _ _ _
          | ScmPullRequestsUpdate _ _ _ _ => False
          | _ => True
          end
      | _ => False
      end
  end.

(** The same of the calls a provider makes for a promotion *)
Record provider_within `{GitLibs} (prSpec : PullRequestPromotion) (promotion : StrategyPromotion)
    (client : Provider) : Prop := {
  within_create : calls_only (within prSpec promotion)
    (CreatePullRequest client
       (MkPullRequestInput (prp_URL prSpec) (new_title promotion) (pr_desc promotion)
          (head_branch promotion) (prp_BaseBranch prSpec) []));
  within_list : calls_only (within prSpec promotion) (ListPullRequests client (prp_URL prSpec));
  within_update number : calls_only (within prSpec promotion)
    (UpdatePullRequest client (prp_URL prSpec) number
       (MkUpdatePullRequestOptions (new_title promotion) "")) }.

Lemma gitProviderIsValid_ok t b :
  gitProviderIsValid t = Ok b -> b = true /\ (t = BitBucketServer \/ t = Github \/ t = Gitlab).
Proof. unfold gitProviderIsValid. repeat case_bool_decide; naive_solver. Qed.

Section within.
Context `{GitLibs} (prSpec : PullRequestPromotion) (promotion : StrategyPromotion).
Abbreviation P := (within prSpec promotion).

Lemma within_GetRepository client url : calls_only P (ggp_GetRepository client url).
Proof. by apply calls_only_GetRepository. Qed.

Lemma within_GetBitbucketRepository client url : calls_only P (GetBitbucketRepository client url).
Proof. by apply calls_only_GetBitbucketRepository. Qed.

Hint Resolve within_GetRepository within_GetBitbucketRepository : calls.

Lemma no_commits url title body head base :
  has_commits (MkPullRequestInput url title body head base []) = false.
Proof. done. Qed.

Ltac provider_calls :=
  split; intros;
  cbv [GitHub.provider BitBucketServer.provider CreatePullRequest ListPullRequests
    UpdatePullRequest GitHub.CreatePullRequest GitHub.ListPullRequests GitHub.UpdatePullRequest
    BitBucketServer.CreatePullRequest BitBucketServer.ListPullRequests
    BitBucketServer.UpdatePullRequest write_and_open WriteFilesToBranch write_commits
    GetUpdatedFiles ggp_CreatePullRequest ggp_ListPullRequests ggp_UpdatePullRequest pr_request];
  rewrite ?no_commits; cbn -[calls_only mbind mret git trigger]; git_calls.

Lemma GitHub_within client : provider_within prSpec promotion (GitHub.provider client).
Proof. provider_calls. Qed.

Lemma GitLab_within client : provider_within prSpec promotion (GitLab.provider client).
Proof.
  destruct (GitHub_within client) as [Hcreate Hlist Hupdate]. split; [|done|done].
  cbn [CreatePullRequest GitLab.provider]. by rewrite GitLab_create_no_commits.
Qed.

Lemma BitBucketServer_within client :
  provider_within prSpec promotion (BitBucketServer.provider client).
Proof. provider_calls. Qed.
End within.

(** ** The clients the factory makes *)

Definition has_scheme (domain : string) : bool :=
  HasPrefix domain "http://" || HasPrefix domain "https://".

(** The host a client is made for when a domain is configured: with the scheme
    it has, or [https://]; but the public hosts keep their bare name, except
    for GitLab. *)
Definition client_host (conf : GitProviderConfig) : string :=
  let domain := gpc_Domain conf in
  if has_scheme domain then domain
  else if decide (gpc_Type conf <> Gitlab /\ domain ∈ ["github.com"; "gitlab.com"]) then domain
  else "https://" +:+ domain.

Definition host_option (conf : GitProviderConfig) : list ClientOption :=
  if decide (gpc_Domain conf = "") then [] else [CODomain (client_host conf)].

(** The one call that makes a client for a configuration, with what it is
    wrapped in *)
Inductive makes_client `{GitLibs} (conf : GitProviderConfig) :
    git_call (res handle) -> (handle -> Provider) -> Prop :=
  | makes_github : gpc_Type conf = Github ->
      makes_client conf (GithubNewClient (COAuth2Token (gpc_Token conf) :: host_option conf))
        GitHub.provider
  | makes_gitlab : gpc_Type conf = Gitlab ->
      makes_client conf
        (GitlabNewClient (gpc_Token conf) "oauth2" (COConditionalRequests false :: host_option conf))
        GitLab.provider
  | makes_bitbucket : gpc_Type conf = BitBucketServer -> gpc_Domain conf <> "" ->
      makes_client conf
        (NewStashClient "git" (gpc_Token conf)
           [CODomain (client_host conf); COConditionalRequests false])
        BitBucketServer.provider
  | makes_azure : gpc_Type conf = AzureDevOps ->
      makes_client conf
        (ScmNewClient "azure"
           ("https://" +:+ if decide (gpc_Domain conf = "") then "dev.azure.com"
                           else client_host conf) (gpc_Token conf))
        Azure.provider.

(** The hostname the options carry *)
Definition hostname (conf : GitProviderConfig) : string :=
  if decide (gpc_Domain conf = "") then "" else client_host conf.

Lemma hostname_empty conf : hostname conf = "" <-> gpc_Domain conf = "".
Proof.
  unfold hostname, client_host. case_decide as Hd; [done|]. split; [|done].
  destruct (has_scheme _); [done|]. by case_decide.
Qed.

Lemma hostname_added conf domain :
  gpc_Domain conf <> "" -> decorateCustomDomainByType (gpc_Type conf) (gpc_Domain conf) = Ok domain ->
  AddSchemeToDomain domain = hostname conf.
Proof.
  destruct conf as [token tokenType t d destr]. cbn [gpc_Type gpc_Domain]. intros Hd.
  unfold decorateCustomDomainByType, hostname, client_host, AddSchemeToDomain, has_scheme.
  cbn [gpc_Type gpc_Domain]. rewrite decide_False, (bool_decide_eq_false_2 (d = "")) by done.
  case_bool_decide; [done|]. case_bool_decide as Ht; cbn [andb].
  - destruct (HasPrefix d "http://") eqn:H1, (HasPrefix d "https://") eqn:H2; cbn [andb orb negb];
      intros [= <-]; rewrite ?H1, ?H2; cbn [andb negb]; rewrite ?andb_false_r; try done.
    by rewrite decide_False by naive_solver.
  - intros [= <-]. destruct (HasPrefix d "http://") eqn:H1; [by rewrite !andb_false_r|].
    destruct (HasPrefix d "https://") eqn:H2; [by rewrite !andb_false_r|]. cbn [andb orb negb].
    rewrite !andb_true_r. destruct (decide (d = "github.com")) as [->|Hgh];
      [by rewrite decide_True by (split; [done|by left])|].
    destruct (decide (d = "gitlab.com")) as [->|Hgl];
      [by rewrite decide_True by (split; [done|by right; left])|].
    rewrite !bool_decide_eq_true_2 by done. rewrite decide_False; [done|].
    by intros [_ [?|[?|?%elem_of_nil]%elem_of_cons]%elem_of_cons].
Qed.

(** What the option for the domain does to the options before the ones after it *)
Lemma domain_option conf : gpc_Type conf <> "" ->
  exists l, (if bool_decide (gpc_Domain conf <> "") then
       match decorateCustomDomainByType (gpc_Type conf) (gpc_Domain conf) with
       | Ok domain => Ok [WithDomain domain]
       | Err err => Err err
       end
     else Ok []) = Ok l /\
  forall oauth t tok u c d cl tail,
    apply_fns (l ++ tail) (MkProviderOption "" oauth t tok u c d cl) =
    apply_fns tail (MkProviderOption (hostname conf) oauth t tok u c d cl).
Proof.
  intros Ht. case_bool_decide as Hd.
  - assert (exists domain, decorateCustomDomainByType (gpc_Type conf) (gpc_Domain conf) = Ok domain)
      as [domain Hdec].
    { unfold decorateCustomDomainByType. rewrite !bool_decide_eq_false_2 by done. case_match; eauto. }
    rewrite Hdec. eexists. split; [done|]. intros. apply hostname_added in Hdec; [|done].
    cbn. by rewrite Hdec.
  - exists []. split; [done|]. intros. unfold hostname.
    by rewrite decide_True by done.
Qed.

(** The options of [factory_options], applied *)
Definition options_for (conf : GitProviderConfig) (name tokenType token username : string) : Prop :=
  exists options, factory_options conf = Ok (name, options) /\
    apply_fns options zero_ProviderOption =
      Ok (MkProviderOption (hostname conf) (gpc_Token conf) tokenType token username false
            (gpc_DestructiveCalls conf) None).

Lemma factory_options_spec conf : gpc_Type conf <> "" ->
  (gpc_Type conf = Github -> options_for conf GitHubProviderName "" "" "") /\
  (gpc_Type conf = Gitlab ->
     options_for conf GitLabProviderName (gpc_TokenType conf) (gpc_Token conf) "") /\
  (gpc_Type conf = BitBucketServer ->
     options_for conf BitBucketServerProviderName "token" (gpc_Token conf) "git") /\
  (gpc_Type conf = AzureDevOps ->
     options_for conf AzureDevOpsProviderName (gpc_TokenType conf) (gpc_Token conf) "") /\
  (gpc_Type conf ∉ [Github; Gitlab; BitBucketServer; AzureDevOps] ->
     exists e, factory_options conf = Err e).
Proof.
  intros Hne. destruct (domain_option conf Hne) as (l & Hl & Happly).
  unfold options_for, factory_options. rewrite Hl.
  pose proof (fun oauth t tok u c d cl => Happly oauth t tok u c d cl []) as Hnil.
  setoid_rewrite app_nil_r in Hnil.
  split_and!; [intros ->..|];
    try (eexists; split; [reflexivity|]; destruct (gpc_DestructiveCalls conf); cbn;
         rewrite ?Happly, ?Hnil; reflexivity).
  intros Hnot. rewrite !not_elem_of_cons in Hnot. destruct Hnot as (H1 & H2 & H3 & H4 & _).
  rewrite !bool_decide_eq_false_2 by done. eauto.
Qed.

(** What the factory accepts: an [oauth2] token, and a known type, with a
    domain for Bitbucket Server *)
Definition acceptable (conf : GitProviderConfig) : Prop :=
  gpc_TokenType conf = "oauth2" /\ gpc_Token conf <> "" /\
  (gpc_Type conf ∈ [Github; Gitlab; AzureDevOps] \/
   (gpc_Type conf = BitBucketServer /\ gpc_Domain conf <> "")).

Definition client_post `{GitLibs} (conf : GitProviderConfig) (tr : list (event sys))
    (o : outcome (res Provider)) : Prop :=
  exists g provider r, makes_client conf g provider /\ tr = [Ev (Git g) r] /\
    match r with
    | Ok client => o = Done (Ok (provider client))
    | Err e => exists pre, o = Done (Err (wrapf pre e))
    end.

Lemma wp_client `{GitLibs} conf g provider pre :
  makes_client conf g provider ->
  wp (call client <- git g onerr err => mret (Err (wrapf pre err)); mret (Ok (provider client)))
    (client_post conf).
Proof. intros Hg [client|e]; [exists g, provider, (Ok client)|exists g, provider, (Err e)]; eauto 6. Qed.

Lemma with_hostname_client conf opts :
  po_Hostname opts = hostname conf -> with_hostname opts = host_option conf.
Proof.
  unfold with_hostname, host_option. intros ->. rewrite bool_decide_not.
  rewrite (bool_decide_ext _ _ (hostname_empty conf)). unfold hostname.
  case_bool_decide; case_decide; done.
Qed.

Definition factory_post `{GitLibs} (conf : GitProviderConfig) (tr : list (event sys))
    (o : outcome (res Provider)) : Prop :=
  (acceptable conf /\ client_post conf tr o) \/
  (~ acceptable conf /\ tr = [] /\ exists e, o = Done (Err e)).


Lemma factory_runs `{GitLibs} conf : wp (NewGitProviderClientFactory conf) (factory_post conf).
Proof.
  unfold NewGitProviderClientFactory, factory_post.
  assert (forall e, ~ acceptable conf -> wp (mret (Err e) : io (res Provider)) (factory_post conf)) as Hrefuse.
  { intros e Hnot. right. eauto. }
  case_bool_decide as Ht.
  { apply Hrefuse. unfold acceptable. rewrite Ht. set_solver. }
  case_bool_decide as Htt; [apply Hrefuse; by intros (Hto & _); rewrite Hto in Htt|].
  case_bool_decide as Htok; [by apply Hrefuse; intros (_ & ? & _)|].
  case_bool_decide as Ho; [by apply Hrefuse; intros (? & _)|].
  assert (acceptable conf -> forall g provider pre, makes_client conf g provider ->
    wp (call client <- git g onerr err => mret (Err (wrapf pre err)); mret (Ok (provider client)))
      (factory_post conf)) as Hmake.
  { intros Hacc g provider pre Hg. eapply wp_mono; [|by apply wp_client]. intros tr o Hpost. by left. }
  pose proof (factory_options_spec conf Ht) as (Hgh & Hgl & Hbb & Haz & Hunknown).
  destruct (decide (gpc_Type conf = Github)) as [Htype|Hngh].
  { destruct (Hgh Htype) as (options & -> & Happly). unfold Create. rewrite Happly. cbn -[wp mbind].
    unfold GitHub.Setup. cbn -[wp mbind]. rewrite (bool_decide_eq_false_2 (gpc_Token conf = "")) by done.
    apply Hmake; [split_and!; [done..|set_solver]|]. rewrite (with_hostname_client conf) by done.
    by apply makes_github. }
  destruct (decide (gpc_Type conf = Gitlab)) as [Htype|Hngl].
  { destruct (Hgl Htype) as (options & -> & Happly). unfold Create. rewrite Happly. cbn -[wp mbind].
    unfold GitLab.Setup. cbn -[wp mbind]. rewrite (bool_decide_eq_false_2 (gpc_Token conf = "")) by done.
    apply Hmake; [split_and!; [done..|set_solver]|]. rewrite (with_hostname_client conf), Ho by done.
    by apply makes_gitlab. }
  destruct (decide (gpc_Type conf = AzureDevOps)) as [Htype|Hnaz].
  { destruct (Haz Htype) as (options & -> & Happly). unfold Create. rewrite Happly. cbn -[wp mbind].
    unfold Azure.Setup. cbn -[wp mbind]. rewrite (bool_decide_eq_false_2 (gpc_Token conf = "")) by done.
    apply Hmake; [split_and!; [done..|set_solver]|].
    rewrite (bool_decide_ext _ _ (hostname_empty conf)).
    assert ((if bool_decide (gpc_Domain conf = "") then "dev.azure.com" else hostname conf) =
      if decide (gpc_Domain conf = "") then "dev.azure.com" else client_host conf) as ->.
    { unfold hostname. case_bool_decide; by case_decide. }
    by apply makes_azure. }
  destruct (decide (gpc_Type conf = BitBucketServer)) as [Htype|Hnbb].
  { destruct (Hbb Htype) as (options & -> & Happly). unfold Create. rewrite Happly.
    change (bool_decide (BitBucketServerProviderName = GitHubProviderName)) with false.
    change (bool_decide (BitBucketServerProviderName = GitLabProviderName)) with false.
    change (bool_decide (BitBucketServerProviderName = BitBucketServerProviderName)) with true.
    cbn -[wp mbind].
    unfold BitBucketServer.Setup. cbn -[wp mbind].
    rewrite (bool_decide_eq_false_2 (gpc_Token conf = "")) by done.
    rewrite (bool_decide_ext _ _ (hostname_empty conf)). case_bool_decide as Hd.
    - apply Hrefuse. intros (_ & _ & [Hin|[_ Hd']]); [set_solver|done].
    - apply Hmake; [split_and!; [done..|by right]|].
      assert (hostname conf = client_host conf) as -> by (unfold hostname; by case_decide).
      by apply makes_bitbucket. }
  destruct Hunknown as [e ->]; [set_solver|]. apply Hrefuse. intros (_ & _ & Hin). set_solver.
Qed.

(** C25.  The factory makes a client exactly for a non-empty [oauth2] token and
    a known type (Bitbucket Server: with a domain), by one call: to the library
    of that type, with the token and the configured domain, to which [https://]
    is added unless it has a scheme (the public GitHub and GitLab hosts stay
    bare except for GitLab; Azure DevOps puts another [https://] in front), and
    for Bitbucket Server the user [git].  Everything else it refuses without a
    call; destructive calls are never enabled on the client. *)
Theorem factory_client `{GitLibs} conf :
  wp (NewGitProviderClientFactory conf) (fun tr o =>
    (acceptable conf /\ client_post conf tr o) \/
    (~ acceptable conf /\ tr = [] /\ exists e, o = Done (Err e))).
Proof. apply factory_runs. Qed.
