(* ===== verification/PullRequestSpec.v ===== *)
(** * What the pull request strategy guarantees

    A promotion through a pull request: what a success means, what a
    promotion may touch, that the temporary clone is always removed. *)

From S2P Require Export PullRequest ApiServer.

Ltac git_runs := repeat first [progress unfold git in * | runs_step];
  repeat match goal with x : unit |- _ => destruct x end.

Lemma find_existing_spec head prList number :
  find_existing head prList = Some number <->
  exists pre old post, prList = pre ++ old :: post /\ pull_Source old = head /\
    pull_Number old = number /\ Forall (fun pr => pull_Source pr <> head) pre.
Proof.
  induction prList as [|pr prList IH]; simpl.
  - split; [done|]. by intros ([] & ? & ? & ? & _).
  - case_bool_decide as Hpr.
    + split; [intros [= <-]; by exists [], pr, prList|].
      intros ([|pr' pre] & old & post & [= -> ->] & Hs & Hn & Hpre); [by f_equal|]. by inversion Hpre.
    + rewrite IH. split.
      * intros (pre & old & post & -> & Hs & Hn & Hpre). exists (pr :: pre), old, post.
        split_and!; [done..|by constructor].
      * intros ([|pr' pre] & old & post & [= -> ->] & Hs & Hn & Hpre); [congruence|].
        inversion Hpre; subst. by exists pre, old, post.
Qed.

Lemma set_nodes_spec `{GitLibs} set nodes nodes' :
  set_nodes set nodes = Ok nodes' <-> Forall2 (fun n n' => set_Filter set n = Ok n') nodes nodes'.
Proof.
  revert nodes'. induction nodes as [|n nodes IH]; intros nodes'; simpl.
  - split; [by intros [= <-]|]. intros Hf. by inversion Hf.
  - split.
    + destruct (set_Filter set n) as [n'|] eqn:Hn; [|done].
      destruct (set_nodes set nodes) as [ns|] eqn:Hns; [|done]. intros [= <-].
      constructor; [done|]. by apply IH.
    + intros Hf. inversion Hf as [|? n' ? ns Hn Hns]; subst. rewrite Hn.
      apply IH in Hns. by rewrite Hns.
Qed.

(** ** Opening a pull request *)
Section opened.
Context `{GitLibs} (gitClientFactory : GitProviderClientFactory).
Context (prSpec : PullRequestPromotion) (promotion : StrategyPromotion).

Definition pr_input : PullRequestInput :=
  MkPullRequestInput (prp_URL prSpec) (new_title promotion) (pr_desc promotion)
    (head_branch promotion) (prp_BaseBranch prSpec) [].

(** The provider opened a pull request; or it refused to, and the first pull
    request it lists for the promotion branch was retitled. *)
Definition opened_or_retitled (client : Provider) (tr : list (event sys)) (pr : PullRequest) : Prop :=
  runs (CreatePullRequest client pr_input) tr (Done (Ok pr)) \/
  exists e prList pre old post tr1 tr2 tr3,
    tr = tr1 ++ tr2 ++ tr3 /\
    runs (CreatePullRequest client pr_input) tr1 (Done (Err e)) /\
    runs (ListPullRequests client (prp_URL prSpec)) tr2 (Done (Ok prList)) /\
    prList = pre ++ old :: post /\ pull_Source old = head_branch promotion /\
    Forall (fun pr => pull_Source pr <> head_branch promotion) pre /\
    runs (UpdatePullRequest client (prp_URL prSpec) (pull_Number old)
            (MkUpdatePullRequestOptions (new_title promotion) "")) tr3 (Done (Ok pr)).

Definition pr_opened (token : string) (tr : list (event sys)) (pr : PullRequest) : Prop :=
  token <> "" /\
  exists parsed client tr1 tr2, tr = tr1 ++ tr2 /\
    runs (ParseURL (prp_Type prSpec) (prp_URL prSpec)) [] (Done (Ok parsed)) /\
    runs (gitClientFactory
            (MkGitProviderConfig token "oauth2" (prp_Type prSpec) (pu_Domain parsed) false))
      tr1 (Done (Ok client)) /\
    opened_or_retitled client tr2 pr.

Lemma createPullRequest_opened token tr pr :
  runs (createPullRequest gitClientFactory token (head_branch promotion) (prp_BaseBranch prSpec)
          (prp_Type prSpec) (prp_URL prSpec) promotion) tr (Done (Ok pr)) ->
  pr_opened token tr pr.
Proof.
  unfold createPullRequest. case_bool_decide as Htok; intros Hr; [git_runs|].
  split; [done|]. runs_step. destruct x as [parsed|e]; [|git_runs].
  pose proof (runs_silent _ _ _ (calls_only_ParseURL _ _ _) Hr0) as ->.
  cbv zeta in Hr1. runs_step. destruct x as [client|e]; [|git_runs].
  exists parsed, client. eexists _, _. rewrite app_nil_l. split_and!; [reflexivity|done|eassumption|].
  runs_step. destruct x as [pr'|e].
  - left. git_runs. by rewrite app_nil_r.
  - right. runs_step. destruct x as [prList|e']; [|git_runs].
    destruct (find_existing _ prList) as [number|] eqn:Hfind; [|git_runs].
    apply find_existing_spec in Hfind as (pre & old & post & -> & Hs & <- & Hpre).
    runs_step. destruct x as [pr'|e']; [|git_runs]. git_runs.
    exists e, (pre ++ old :: post), pre, old, post. eexists _, _, _. rewrite app_nil_r.
    split_and!; try reflexivity; eassumption.
Qed.
End opened.

(** ** A promotion that succeeded *)

(** The changes are in the branch: nothing had changed, or they were
    committed. *)
Definition committed (c : handle) (tr : list (event sys)) : Prop :=
  tr = [Ev (Git (IsClean c)) (Ok true)] \/
  exists now sha, tr = [Ev (Git (IsClean c)) (Ok false); Ev Now now;
    Ev (Git (GogitCommit c "promoting version" "Promotion Server" now)) (Ok sha)].

(** The branch is on the host: it was pushed, or it was up to date. *)
Definition pushed (c : handle) (tr : list (event sys)) : Prop :=
  exists r, tr = [Ev (Git (Push c)) r] /\
    (r = Ok tt \/ exists e, r = Err e /\ Error e = "already up-to-date").

(** The steps of a promotion in the directory [dir], in order *)
Definition promoted `{GitLibs} (gitClientFactory : GitProviderClientFactory)
    (prSpec : PullRequestPromotion) (promotion : StrategyPromotion) (dir : string)
    (tr : list (event sys)) (pr : PullRequest) : Prop :=
  exists data u auth c sha tr1 tr2 tr3,
    url_Parse (prp_URL prSpec) = Ok u /\
    tr = [Ev (GetSecret (MkKey (sp_PipelineNamespace promotion) (ref_Name (prp_SecretRef prSpec))))
             (Ok data);
          Ev (Git (NewAuthOptions u data)) (Ok auth);
          Ev (Git (GogitNewClient dir auth)) (Ok c);
          Ev (Git (Clone c (prp_URL prSpec) (prp_BaseBranch prSpec))) (Ok sha);
          Ev (Git (Close c)) tt;
          Ev (Git (SwitchBranch c (head_branch promotion))) (Ok tt);
          Ev (Git (SetShortHandRef setterShortHand)) tt;
          Ev (Git (KioExecute dir (quote setterShortHand) dir (set_nodes (version_set promotion))))
             (Ok tt)] ++ tr1 ++ tr2 ++ tr3 /\
    committed c tr1 /\ pushed c tr2 /\
    pr_opened gitClientFactory prSpec promotion (default "" (data !! "token")) tr3 pr.

Section promote.
Context `{GitLibs} (gitClientFactory : GitProviderClientFactory).
Context (prSpec : PullRequestPromotion) (promotion : StrategyPromotion).

Lemma cloneRepo_ok dir data tr c :
  runs (cloneRepo prSpec dir data) tr (Done (Ok c)) ->
  exists u auth sha, url_Parse (prp_URL prSpec) = Ok u /\
    tr = [Ev (Git (NewAuthOptions u data)) (Ok auth); Ev (Git (GogitNewClient dir auth)) (Ok c);
          Ev (Git (Clone c (prp_URL prSpec) (prp_BaseBranch prSpec))) (Ok sha); Ev (Git (Close c)) tt].
Proof.
  unfold cloneRepo. intros Hr. destruct (url_Parse (prp_URL prSpec)) as [u|e]; git_runs.
  eauto 8.
Qed.

Lemma patchManifests_ok dir tr :
  runs (patchManifests dir promotion) tr (Done (Ok tt)) ->
  tr = [Ev (Git (SetShortHandRef setterShortHand)) tt;
        Ev (Git (KioExecute dir (quote setterShortHand) dir (set_nodes (version_set promotion))))
           (Ok tt)].
Proof. unfold patchManifests. intros Hr. by git_runs. Qed.

Lemma commit_changes_ok c tr : runs (commit_changes c) tr (Done (Ok tt)) -> committed c tr.
Proof. unfold commit_changes, committed. intros Hr. git_runs; simpl; eauto. Qed.

Lemma push_branch_ok c tr : runs (push_branch c) tr (Done (Ok tt)) -> pushed c tr.
Proof.
  unfold push_branch, pushed. intros Hr. git_runs; eexists; (split; [done|]).
  - by left.
  - right. eexists. split; [done|]. by apply bool_decide_eq_false_1, dec_stable in Heqb.
Qed.

Lemma promote_in_ok dir tr res :
  runs (promote_in gitClientFactory prSpec promotion dir) tr (Done (Ok res)) ->
  exists pr, res = Some (MkPromotionResult (pull_Link pr)) /\
    promoted gitClientFactory prSpec promotion dir tr pr.
Proof.
  unfold promote_in, fetchCredentials. intros Hr. git_runs.
  match goal with H : runs (cloneRepo _ _ _) _ _ |- _ =>
    apply cloneRepo_ok in H as (u & auth & sha & Hu & ->) end.
  match goal with H : runs (patchManifests _ _) _ _ |- _ => apply patchManifests_ok in H as -> end.
  match goal with H : runs (commit_changes _) _ _ |- _ => apply commit_changes_ok in H as Hc end.
  match goal with H : runs (push_branch _) _ _ |- _ => apply push_branch_ok in H as Hp end.
  match goal with H : runs (createPullRequest _ _ _ _ _ _ _) _ _ |- _ =>
    apply createPullRequest_opened in H as Hpr end.
  match goal with H : pr_opened _ _ _ (default "" (?data !! _)) ?tr3 ?pr, Hc : committed ?c ?tr1,
    Hp : pushed _ ?tr2 |- _ =>
    exists pr; split; [reflexivity|];
    exists data, u, auth, c, sha, tr1, tr2, tr3; rewrite !app_nil_r; by split_and! end.
Qed.
End promote.

(** C9.  A promotion by pull request that succeeds has done all of it, in
    order: for a specification with a supported provider, it read the secret,
    cloned the base branch into a fresh directory, switched to the promotion
    branch, set the version in the manifests there, committed what changed,
    pushed, opened or retitled the pull request with the secret's token, and
    removed the directory.  The location is the link of that pull request. *)
Theorem pull_request_promoted `{GitLibs} gitClientFactory promSpec promotion :
  wp (PullRequest_Promote gitClientFactory promSpec promotion) (fun tr o =>
    forall res, o = Done (Ok res) ->
    exists prSpec dir tr' pr removed,
      strat_PullRequest (prom_Strategy promSpec) = Some prSpec /\
      prp_Type prSpec ∈ [Github; Gitlab; BitBucketServer] /\
      tr = Ev (Git (MkdirTemp "" "promotion-")) (Ok dir) :: tr' ++ [Ev (Git (RemoveAll dir)) removed] /\
      promoted gitClientFactory prSpec promotion dir tr' pr /\
      res = Some (MkPromotionResult (pull_Link pr))).
Proof.
  apply wp_runs. intros tr o Hr res ->. unfold PullRequest_Promote in Hr.
  destruct (strat_PullRequest (prom_Strategy promSpec)) as [prSpec|]; [|git_runs].
  destruct (gitProviderIsValid (prp_Type prSpec)) as [b|e] eqn:Hvalid; [|git_runs].
  apply gitProviderIsValid_ok in Hvalid as [_ Hvalid]. git_runs.
  match goal with H : runs (promote_in _ _ _ _) _ _ |- _ => apply promote_in_ok in H as (pr & -> & Hpr) end.
  eexists _, _, _, _, _. split_and!; [done| |reflexivity|exact Hpr|done].
  rewrite !elem_of_cons. naive_solver.
Qed.

(** C22.  The temporary directory never outlives a promotion: whatever happens
    after it was made, a failure or a panic at any step included, removing it
    is the last call of the run. *)
Theorem clone_directory_removed `{GitLibs} gitClientFactory promSpec promotion :
  wp (PullRequest_Promote gitClientFactory promSpec promotion) (fun tr _ =>
    tr = [] \/
    (exists e, tr = [Ev (Git (MkdirTemp "" "promotion-")) (Err e)]) \/
    exists dir tr' removed,
      tr = Ev (Git (MkdirTemp "" "promotion-")) (Ok dir) :: tr' ++ [Ev (Git (RemoveAll dir)) removed]).
Proof.
  apply wp_runs. intros tr o Hr. unfold PullRequest_Promote in Hr.
  git_runs; eauto. all: right; try (by left; eauto); right; eauto.
Qed.

(** ** What it touches *)

(** A factory whose clients keep within a promotion *)
Definition factory_within `{GitLibs} (prSpec : PullRequestPromotion) (promotion : StrategyPromotion)
    (factory : GitProviderClientFactory) : Prop :=
  forall conf, gpc_Type conf = prp_Type prSpec ->
    wp (factory conf) (fun tr o => Forall (within prSpec promotion) tr /\
      forall client, o = Done (Ok client) -> provider_within prSpec promotion client).

Lemma default_factory_within `{GitLibs} prSpec promotion :
  prp_Type prSpec <> AzureDevOps ->
  factory_within prSpec promotion NewGitProviderClientFactory.
Proof.
  intros Hazure conf Ht. rewrite <- Ht in Hazure. eapply wp_mono; [|apply factory_runs].
  intros tr o [(_ & g & provider & r & Hg & -> & Hr)|(_ & -> & e & ->)]; [|by split]. split.
  - destruct Hg; by repeat constructor.
  - intros client ->. destruct r as [h|e]; [|by destruct Hr]. injection Hr as ->.
    destruct Hg; auto using GitHub_within, GitLab_within, BitBucketServer_within. done.
Qed.

(** A program whose first part bounds what comes after *)
Lemma calls_only_bind_post `{GitLibs} {A B} P (p : io A) (f : A -> io B) :
  wp p (fun tr o => Forall P tr /\ forall a, o = Done a -> calls_only P (f a)) -> calls_only P (p ≫= f).
Proof.
  intros Hp. apply wp_bind. eapply wp_mono; [|exact Hp]. intros tr [a|w] [Htr Hf]; simpl; [|done].
  eapply wp_mono; [|by apply Hf]. intros tr' o Htr'. by apply Forall_app.
Qed.

Section touches.
Context `{GitLibs} (gitClientFactory : GitProviderClientFactory).
Context (prSpec : PullRequestPromotion) (promotion : StrategyPromotion).
Context (Hfactory : factory_within prSpec promotion gitClientFactory).

Lemma createPullRequest_within token :
  calls_only (within prSpec promotion)
    (createPullRequest gitClientFactory token (head_branch promotion) (prp_BaseBranch prSpec)
       (prp_Type prSpec) (prp_URL prSpec) promotion).
Proof.
  unfold createPullRequest. case_bool_decide; [git_calls|].
  apply calls_only_bind; [git_calls|intros [parsed|e]; [|git_calls]].
  cbv zeta. apply calls_only_bind_post.
  eapply wp_mono; [|by apply Hfactory]. intros tr o [Htr Hclient]. split; [done|].
  intros [client|e] ->; [|git_calls]. destruct (Hclient client eq_refl). git_calls.
Qed.

Lemma promote_in_within dir :
  calls_only (within prSpec promotion) (promote_in gitClientFactory prSpec promotion dir).
Proof.
  unfold promote_in, fetchCredentials, cloneRepo, patchManifests, commit_changes, push_branch.
  pose proof createPullRequest_within. git_calls.
Qed.
End touches.

Lemma pull_request_runs `{GitLibs} promSpec promotion :
  wp (PullRequest_Promote NewGitProviderClientFactory promSpec promotion) (fun tr _ =>
    match strat_PullRequest (prom_Strategy promSpec) with
    | Some prSpec => Forall (within prSpec promotion) tr
    | None => tr = []
    end).
Proof.
  unfold PullRequest_Promote. destruct (strat_PullRequest (prom_Strategy promSpec)) as [prSpec|]; [|done].
  match goal with |- wp ?p _ => change (calls_only (within prSpec promotion) p) end.
  destruct (gitProviderIsValid (prp_Type prSpec)) as [b|e] eqn:Hvalid; [|git_calls].
  apply gitProviderIsValid_ok in Hvalid as [_ Hvalid].
  assert (prp_Type prSpec <> AzureDevOps) as Hazure by (by destruct Hvalid as [->|[->| ->]]).
  pose proof (promote_in_within _ _ _ (default_factory_within prSpec promotion Hazure)). git_calls.
Qed.

(** C10.  A promotion by pull request keeps within its specification, in every
    run and with every answer: it writes no pipeline, reads no secret but the
    one named, clones only the base branch of the specified repository and
    switches only to its own branch; on the host it neither creates branches
    nor commits, it opens a pull request only from the promotion branch to the
    base branch, and changes a pull request only in its title. *)
Theorem pull_request_within `{GitLibs} promSpec promotion :
  wp (PullRequest_Promote NewGitProviderClientFactory promSpec promotion) (fun tr _ =>
    match strat_PullRequest (prom_Strategy promSpec) with
    | Some prSpec => Forall (within prSpec promotion) tr
    | None => tr = []
    end).
Proof. apply pull_request_runs. Qed.

(** ** Azure DevOps *)

(** The factory knows Azure DevOps, but a promotion to it is refused
    before anything is done: the strategy's own list of types lacks it. *)
Theorem azure_promotion_refused `{GitLibs} gitClientFactory promSpec promotion :
  wp (PullRequest_Promote gitClientFactory promSpec promotion) (fun tr o =>
    forall prSpec, strat_PullRequest (prom_Strategy promSpec) = Some prSpec ->
    prp_Type prSpec = AzureDevOps -> tr = [] /\ exists e, o = Done (Err e)).
Proof.
  unfold PullRequest_Promote. apply wp_runs. intros tr o Hr prSpec Hs Ht. rewrite Hs, Ht in Hr.
  git_runs. eauto.
Qed.

(** A configured domain without a scheme reaches the Azure DevOps client
    with two: the factory's option adds one and the provider's setup another. *)
Theorem azure_domain_double_scheme `{GitLibs} token domain :
  domain <> "" -> domain <> "github.com" -> domain <> "gitlab.com" ->
  HasPrefix domain "http://" = false -> HasPrefix domain "https://" = false ->
  wp (NewGitProviderClientFactory (MkGitProviderConfig token "oauth2" AzureDevOps domain false))
    (fun tr _ => tr = [] \/
      exists r, tr = [Ev (Git (ScmNewClient "azure" ("https://https://" +:+ domain) token)) r]).
Proof.
  intros Hd Hgh Hgl Hhttp Hhttps. eapply wp_mono; [|apply factory_runs].
  intros tr o [(_ & g & provider & r & Hg & -> & _)|(_ & -> & _)]; [right|by left]. exists r.
  destruct Hg as [Ht|Ht|Ht|Ht]; try done. unfold client_host, has_scheme. cbn [gpc_Domain gpc_Token].
  rewrite Hhttp, Hhttps, decide_False by done. cbn [orb]. rewrite decide_False; [done|].
  by intros [_ [?|[?|?%elem_of_nil]%elem_of_cons]%elem_of_cons].
Qed.

(** ** Branches *)

(** Pipelines whose names contain dashes share promotion branches: the
    branch of pipeline [b-c] in namespace [a] is that of pipeline [c] in
    namespace [a-b]. *)
Theorem promotion_branches_collide a b c env version version' :
  head_branch (MkStrategyPromotion (a +:+ "-" +:+ b) c env version) =
  head_branch (MkStrategyPromotion a (b +:+ "-" +:+ c) env version').
Proof. unfold head_branch, promotion_id. cbn. by rewrite !app_assoc_str. Qed.

(** The setter key keeps promotions apart: Kubernetes names have no colon. *)
Lemma version_key_injective p q :
  Contains colon (sp_PipelineNamespace p) = false -> Contains colon (sp_PipelineNamespace q) = false ->
  Contains colon (sp_PipelineName p) = false -> Contains colon (sp_PipelineName q) = false ->
  promotion_id ":" p = promotion_id ":" q ->
  sp_PipelineNamespace p = sp_PipelineNamespace q /\ sp_PipelineName p = sp_PipelineName q /\
  env_Name (sp_Environment p) = env_Name (sp_Environment q).
Proof.
  unfold promotion_id. intros Hn Hn' Hm Hm' Heq.
  apply sep_inj in Heq as [-> Heq]; [|done..]. by apply sep_inj in Heq as [-> ->].
Qed.

(** ** A promotion on a concrete host *)

(** A host where everything works; a pull request for the branch exists
    already when [pr_exists]. *)
Definition sample_info (title branch : string) : PullRequestInfo :=
  MkPullRequestInfo title "" "https://git.example.com/org/podinfo/pulls/7" false branch 7.

Definition sample_host {X} (pr_exists : bool) (g : git_call X) : X :=
  match g in git_call X return X with
  | MkdirTemp _ pattern => Ok ("/tmp/" +:+ pattern +:+ "1")
  | RemoveAll _ => Ok tt
  | NewAuthOptions _ _ => Ok (Handle 1)
  | GogitNewClient _ _ => Ok (Handle 2)
  | Clone _ _ _ => Ok "c0ffee"
  | SwitchBranch _ _ => Ok tt
  | IsClean _ => Ok false
  | GogitCommit _ _ _ _ => Ok "decade"
  | Push _ => Ok tt
  | KioExecute _ _ _ _ => Ok tt
  | GithubNewClient _ => Ok (Handle 3)
  | OrgRepositoriesGet _ _ => Ok (Handle 4)
  | PullRequestsCreate _ title branch _ _ =>
      if pr_exists then Err (errorf "a pull request already exists") else Ok (sample_info title branch)
  | PullRequestsList _ =>
      Ok [sample_info "something else" "feature";
          sample_info "Promote default/podinfo in prod to 5.0.0" "promotion-default-podinfo-prod"]
  | PullRequestsEdit _ _ title => Ok (sample_info title "promotion-default-podinfo-prod")
  | g => git_offline g
  end.

Definition host_handler (pr_exists : bool) : handler (E := sys) map_server := fun X e =>
  match e in sys X return map_server -> X * map_server with
  | Git g => fun s => (sample_host pr_exists g, s)
  | GetSecret _ => fun s => (Ok {["token" := "t0ken"]}, s)
  | e => map_handler _ e
  end.

Definition sample_pr_spec (t : string) : Promotion :=
  MkPromotion true (MkStrategy
    (Some (MkPullRequestPromotion t "https://github.com/org/podinfo" "main" (MkLocalRef "git"))) None None).

Definition sample_promotion : StrategyPromotion :=
  MkStrategyPromotion "default" "podinfo" (MkEnvironment "prod" [] None) "5.0.1".

#[local] Existing Instance StockGit.libs.

Definition sample_promote : io (res (option PromotionResult)) :=
  PullRequest_Promote NewGitProviderClientFactory (sample_pr_spec Github) sample_promotion.

Definition sample_link : PromotionResult :=
  MkPromotionResult "https://git.example.com/org/podinfo/pulls/7".

Lemma pull_request_promoted_witness :
  (result (host_handler false) sample_promote (sample_server false)).1 = Done (Ok (Some sample_link)) /\
  (result (host_handler true) sample_promote (sample_server false)).1 = Done (Ok (Some sample_link)) /\
  wp sample_promote (fun tr o => forall res, o = Done (Ok res) ->
    exists prSpec dir tr' pr removed,
      strat_PullRequest (prom_Strategy (sample_pr_spec Github)) = Some prSpec /\
      prp_Type prSpec ∈ [Github; Gitlab; BitBucketServer] /\
      tr = Ev (Git (MkdirTemp "" "promotion-")) (Ok dir) :: tr' ++ [Ev (Git (RemoveAll dir)) removed] /\
      promoted NewGitProviderClientFactory prSpec sample_promotion dir tr' pr /\
      res = Some (MkPromotionResult (pull_Link pr))).
Proof.
  split; [vm_compute; reflexivity|]. split; [vm_compute; reflexivity|].
  apply pull_request_promoted.
Defined.

Lemma azure_domain_double_scheme_witness :
  wp (NewGitProviderClientFactory
        (MkGitProviderConfig "t0ken" "oauth2" AzureDevOps "azure.example.com" false))
    (fun tr _ => tr = [] \/
      exists r, tr = [Ev (Git (ScmNewClient "azure" ("https://https://" +:+ "azure.example.com") "t0ken")) r]) /\
  (exec (host_handler false) (NewGitProviderClientFactory
        (MkGitProviderConfig "t0ken" "oauth2" AzureDevOps "azure.example.com" false))
     (sample_server false)).1.1 <> [].
Proof.
  split; [|vm_compute; done].
  apply (azure_domain_double_scheme "t0ken" "azure.example.com"); done.
Defined.

(** A Bitbucket URL the parser does not match makes the promotion panic, after
    which the directory is removed. *)
Example bitbucket_url_panics :
  exists why, (result (host_handler false)
    (PullRequest_Promote NewGitProviderClientFactory (sample_pr_spec BitBucketServer) sample_promotion)
    (sample_server false)).1 = Panicked why.
Proof. eexists. vm_compute. reflexivity. Qed.
