(* ===== verification/RateLimiter.v ===== *)
(** * The rate limiter (pkg/ratelimiter)

    A fixed window per key: [Hit] opens or reads the key's window and counts,
    the cleaner's ticks drop the windows that are over.  Both run under the
    limiter's mutex, so each is one step of a state machine labelled with the
    clock reading it takes.  Times and durations are nanoseconds; the hit
    counter is a 64-bit [int]. *)

From S2P Require Export Api GoInt.
From stdpp Require Import pretty.

Definition DefaultDuration : Z := 30 * time_Second.
Definition DefaultLimit : Z := 20.
Definition cleaner_period : Z := 500 * time_Millisecond.

(** limit.go *)
Record Limit := MkLimit {
  lim_Created : Z;
  lim_Key : string;
  lim_Hits : Z }.

Definition newLimit (now : Z) (key : string) : Limit := MkLimit now key 0.

Definition Limit_Hit (l : Limit) : Limit :=
  MkLimit (lim_Created l) (lim_Key l) (wrap64 (lim_Hits l + 1)).

(** limiter.go: the fields [Hit] and the cleaner use; the mutex is the
    atomicity of the steps *)
Record Limiter := MkLimiter {
  rl_Limit : Z;
  rl_Duration : Z;
  rl_limits : gmap string Limit }.

(** opts.go *)
Definition LimiterOpt := Limiter -> Limiter.
Definition WithLimit (limit : Z) : LimiterOpt := fun rl =>
  MkLimiter limit (rl_Duration rl) (rl_limits rl).
Definition WithDuration (duration : Z) : LimiterOpt := fun rl =>
  MkLimiter (rl_Limit rl) duration (rl_limits rl).

(** [New]: the defaults, then the options; the cleaner's goroutine is the
    [LTick] label below. *)
Definition NewLimiter (opts : list LimiterOpt) : Limiter :=
  foldl (fun rl opt => opt rl) (MkLimiter DefaultLimit DefaultDuration ∅) opts.

(** [func (limiter *Limiter) Hit(key string) ( *Limit, error)] at time [now]:
    the new state, the limit returned and the error *)
Definition Hit (now : Z) (key : string) (rl : Limiter) : Limiter * (Limit * option string) :=
  let limit := default (newLimit now key) (rl_limits rl !! key) in
  let limit := Limit_Hit limit in
  let rl' := MkLimiter (rl_Limit rl) (rl_Duration rl) (<[key := limit]> (rl_limits rl)) in
  if bool_decide (rl_Limit rl < lim_Hits limit)%Z
  then (rl', (limit, Some (key +:+ " has reached max requests " +:+ pretty (rl_Limit rl))))
  else (rl', (limit, None)).

(** One round of the cleaner at time [now]: the entries created before
    [now - Duration] go. *)
Definition clean (now : Z) (rl : Limiter) : Limiter :=
  let base := (now + - rl_Duration rl)%Z in
  MkLimiter (rl_Limit rl) (rl_Duration rl)
    (filter (fun kv => ~ (lim_Created kv.2 < base)%Z) (rl_limits rl)).

(** ** The state machine *)
Inductive label :=
  | LHit (now : Z) (key : string)
  | LTick (now : Z).

Definition label_time (l : label) : Z :=
  match l with LHit now _ | LTick now => now end.

Definition is_hit (key : string) (l : label) : bool :=
  match l with LHit _ k => bool_decide (k = key) | LTick _ => false end.

(** Running a sequence of labels: the verdict of every hit, in order
    ([true] is admitted), and the final state *)
Fixpoint run (ls : list label) (rl : Limiter) : list (string * bool) * Limiter :=
  match ls with
  | [] => ([], rl)
  | LHit now key :: ls =>
      let '(rl, (_, err)) := Hit now key rl in
      let '(out, rl) := run ls rl in
      ((key, bool_decide (err = None)) :: out, rl)
  | LTick now :: ls => run ls (clean now rl)
  end.

(** How many requests of a key were admitted *)
Definition admitted (key : string) (out : list (string * bool)) : nat :=
  length (filter (fun kv => kv.1 = key /\ kv.2 = true) out).

Definition hits (key : string) (ls : list label) : nat := length (filter (fun l => is_hit key l) ls).

(** ** One key's view

    What the limiter does to a key depends on the key's own window only: the
    specification machine keeps one optional window. *)
Definition spec_hit (limit now : Z) (key : string) (w : option Limit) : Limit * bool :=
  let l := Limit_Hit (default (newLimit now key) w) in
  (l, bool_decide (lim_Hits l <= limit)%Z).

Definition spec_clean (duration now : Z) (w : option Limit) : option Limit :=
  match w with
  | Some l => if bool_decide (lim_Created l < now + - duration)%Z then None else Some l
  | None => None
  end.

Fixpoint spec_run (limit duration : Z) (key : string) (ls : list label) (w : option Limit) :
    list bool * option Limit :=
  match ls with
  | [] => ([], w)
  | LHit now k :: ls =>
      if decide (k = key) then
        let '(l, ok) := spec_hit limit now key w in
        let '(out, w) := spec_run limit duration key ls (Some l) in
        (ok :: out, w)
      else spec_run limit duration key ls w
  | LTick now :: ls => spec_run limit duration key ls (spec_clean duration now w)
  end.

(** The verdicts a key received *)
Definition verdicts (key : string) (out : list (string * bool)) : list bool :=
  (filter (fun kv => kv.1 = key) out).*2.

Lemma Hit_lookup now key rl k :
  rl_limits (Hit now key rl).1 !! k =
    if decide (k = key) then Some (spec_hit (rl_Limit rl) now key (rl_limits rl !! key)).1
    else rl_limits rl !! k.
Proof.
  unfold Hit, spec_hit. case_bool_decide; simpl; rewrite lookup_insert;
    repeat case_decide; congruence.
Qed.

Lemma Hit_verdict now key rl :
  bool_decide ((Hit now key rl).2.2 = None) = (spec_hit (rl_Limit rl) now key (rl_limits rl !! key)).2.
Proof.
  unfold Hit, spec_hit. set (l := Limit_Hit _). destruct (decide (rl_Limit rl < lim_Hits l)%Z).
  - rewrite (bool_decide_true (rl_Limit rl < lim_Hits l)%Z) by done. cbn [fst snd].
    by rewrite !bool_decide_false by (lia || done).
  - rewrite (bool_decide_false (rl_Limit rl < lim_Hits l)%Z) by done. cbn [fst snd].
    by rewrite !bool_decide_true by (lia || done).
Qed.

Lemma Hit_config now key rl :
  rl_Limit (Hit now key rl).1 = rl_Limit rl /\ rl_Duration (Hit now key rl).1 = rl_Duration rl.
Proof. unfold Hit. by case_bool_decide. Qed.

Lemma clean_lookup now rl k :
  rl_limits (clean now rl) !! k = spec_clean (rl_Duration rl) now (rl_limits rl !! k).
Proof.
  unfold clean, spec_clean. simpl. destruct (rl_limits rl !! k) as [l|] eqn:Hk.
  - case_bool_decide as Hc.
    + apply map_lookup_filter_None. right. intros l' Hl'. simplify_eq. simpl. naive_solver.
    + apply map_lookup_filter_Some. by split.
  - apply map_lookup_filter_None. by left.
Qed.

#[export] Hint Rewrite Hit_lookup clean_lookup : pipeline_rw.

Lemma filter_cons_key (key k : string) (b : bool) out :
  filter (fun kv => kv.1 = key) ((k, b) :: out) =
    if decide (k = key) then (k, b) :: filter (fun kv => kv.1 = key) out
    else filter (fun kv => kv.1 = key) out.
Proof. rewrite filter_cons. simpl. by repeat case_decide. Qed.

(** The limiter restricted to a key runs the specification of that key. *)
Lemma run_spec key ls rl :
  let '(out, rl') := run ls rl in
  (verdicts key out, rl_limits rl' !! key) =
  spec_run (rl_Limit rl) (rl_Duration rl) key ls (rl_limits rl !! key).
Proof.
  revert rl. induction ls as [|[now k|now] ls IH]; intros rl; cbn [run spec_run]; [done|..].
  - pose proof (Hit_lookup now k rl key) as Hl. pose proof (Hit_verdict now k rl) as Hv.
    destruct (Hit_config now k rl) as [Hlim Hdur].
    destruct (Hit now k rl) as [rl1 [l err]]. simpl in *.
    specialize (IH rl1). rewrite Hlim, Hdur, Hl in IH. destruct (run ls rl1) as [out rl'].
    unfold verdicts in *. rewrite filter_cons_key.
    destruct (decide (k = key)) as [->|Hne].
    + rewrite decide_True in IH by done.
      destruct (spec_hit (rl_Limit rl) now key (rl_limits rl !! key)) as [l' ok] eqn:Hs.
      simpl in *. rewrite <- IH. by rewrite Hv.
    + rewrite decide_False in IH by congruence. done.
  - specialize (IH (clean now rl)). by rewrite clean_lookup in IH.
Qed.

(** ** One window

    While the window of a key is not over, ticks do nothing to it and the
    verdicts follow the counter. *)
Lemma spec_run_window limit duration key ls l :
  (0 <= lim_Hits l)%Z -> (lim_Hits l + Z.of_nat (length ls) < two63)%Z ->
  Forall (fun lb => label_time lb <= lim_Created l + duration)%Z ls ->
  let '(out, w) := spec_run limit duration key ls (Some l) in
  w = Some (MkLimit (lim_Created l) (lim_Key l) (lim_Hits l + Z.of_nat (hits key ls))) /\
  length (filter (fun b => b = true) out) =
    Z.to_nat (Z.min (lim_Hits l + Z.of_nat (hits key ls)) (Z.max limit (lim_Hits l)) - lim_Hits l).
Proof.
  revert l. induction ls as [|[now k|now] ls IH]; intros l H0 Hb Hls; cbn [spec_run].
  - unfold hits. simpl. split; [|lia]. destruct l; simpl. by rewrite Z.add_0_r.
  - inversion_clear Hls as [|?? Hnow Hls']. simpl in Hb, Hnow.
    unfold hits in *. rewrite filter_cons. cbn [is_hit].
    destruct (decide (k = key)) as [->|Hne].
    + rewrite decide_True by by apply bool_decide_pack.
      unfold spec_hit, Limit_Hit. cbn [from_option id]. rewrite wrap64_id by (unfold int64, two63 in *; lia).
      specialize (IH (MkLimit (lim_Created l) (lim_Key l) (lim_Hits l + 1))).
      simpl in IH. specialize (IH ltac:(lia) ltac:(lia) Hls').
      destruct (spec_run limit duration key ls _) as [out w]. destruct IH as [-> IH].
      cbn [lim_Created lim_Key lim_Hits length]. split; [do 2 f_equal; lia|].
      rewrite filter_cons. case_bool_decide.
      * rewrite decide_True by done. simpl. rewrite IH. lia.
      * rewrite decide_False by done. rewrite IH. lia.
    + rewrite decide_False by (rewrite bool_decide_false by done; by intros []).
      apply IH; [done|simpl in *; lia|done].
  - inversion_clear Hls as [|?? Hnow Hls']. simpl in Hb, Hnow.
    unfold hits in *. rewrite filter_cons. cbn [is_hit].
    rewrite decide_False by (by intros []).
    unfold spec_clean. rewrite bool_decide_false by lia. apply IH; [done|lia|done].
Qed.

(** The labels that matter to a key: its own requests and the ticks *)
Definition concerns (key : string) (l : label) : Prop :=
  match l with LHit _ k => k = key | LTick _ => True end.

#[export] Instance concerns_dec key l : Decision (concerns key l).
Proof. destruct l; simpl; apply _. Defined.

Lemma spec_run_concerns limit duration key ls w :
  spec_run limit duration key (filter (concerns key) ls) w = spec_run limit duration key ls w.
Proof.
  revert w. induction ls as [|[now k|now] ls IH]; intros w; [done|..]; rewrite filter_cons.
  - destruct (decide (concerns key (LHit now k))) as [Hc|Hc]; cbn [concerns] in Hc;
      cbn [spec_run]; [|by rewrite decide_False].
    rewrite !decide_True by done. destruct (spec_hit limit now key w) as [l ok]. by rewrite IH.
  - rewrite decide_True by done. apply IH.
Qed.

Lemma admitted_verdicts key out :
  admitted key out = length (filter (fun b => b = true) (verdicts key out)).
Proof.
  unfold admitted, verdicts. induction out as [|[k b] out IH]; [done|].
  rewrite filter_cons_key, filter_cons. simpl.
  destruct (decide (k = key)) as [->|Hne].
  - cbn [fmap list_fmap snd]. rewrite (filter_cons _ b). destruct b.
    + rewrite decide_True by done. rewrite decide_True by done. simpl. by rewrite IH.
    + rewrite decide_False by (by intros []). rewrite decide_False by done. done.
  - rewrite decide_False by (by intros []). done.
Qed.

(** ** The theorems of the package *)

(** C23.  The window bound.  From a state in which the key has no window, take
    any sequence of requests (of any keys) and cleaner ticks that starts with a
    request of the key and stays within the limiter's duration of it: of the
    key's requests, exactly the first [Limit] are admitted. *)
Theorem window_bound rl key t0 ls :
  rl_limits rl !! key = None -> (0 <= rl_Limit rl)%Z ->
  Forall (fun lb => label_time lb <= t0 + rl_Duration rl)%Z ls ->
  (Z.of_nat (length ls) + 1 < two63)%Z ->
  let '(out, rl') := run (LHit t0 key :: ls) rl in
  Z.of_nat (admitted key out) = Z.min (1 + Z.of_nat (hits key ls)) (rl_Limit rl).
Proof.
  intros Hnone Hlim Hls Hlen.
  pose proof (run_spec key (LHit t0 key :: ls) rl) as H.
  destruct (run (LHit t0 key :: ls) rl) as [out rl'].
  rewrite Hnone in H. cbn [spec_run] in H. rewrite decide_True in H by done.
  unfold spec_hit, newLimit, Limit_Hit in H. cbn [from_option id lim_Hits lim_Created lim_Key] in H.
  rewrite wrap64_id in H by (unfold int64, two63; lia).
  pose proof (spec_run_window (rl_Limit rl) (rl_Duration rl) key ls (MkLimit t0 key (0 + 1))) as Hw.
  cbn [lim_Hits lim_Created] in Hw. specialize (Hw ltac:(lia) ltac:(lia) Hls).
  destruct (spec_run _ _ _ _ _) as [out' w]. destruct Hw as [_ Hw].
  injection H as Hv _. rewrite admitted_verdicts, Hv, filter_cons.
  case_bool_decide; rewrite ?decide_True, ?decide_False by done; cbn [length]; rewrite Hw; lia.
Qed.

(** Clients do not interfere: the verdicts one key receives in any run
    are those of the run without the requests of the other keys. *)
Theorem keys_independent rl key ls :
  verdicts key (run ls rl).1 = verdicts key (run (filter (concerns key) ls) rl).1.
Proof.
  pose proof (run_spec key ls rl) as H. pose proof (run_spec key (filter (concerns key) ls) rl) as H'.
  rewrite spec_run_concerns in H'.
  destruct (run ls rl) as [out rl1], (run (filter _ ls) rl) as [out' rl2]. simpl in *. congruence.
Qed.

(** A key that was refused is served again: at the first cleaner tick
    after its window is over the window goes, and the next request opens a new
    one and is admitted. *)
Theorem window_reopens rl key l now now' :
  rl_limits rl !! key = Some l -> (1 <= rl_Limit rl)%Z ->
  (lim_Created l + rl_Duration rl < now)%Z ->
  Hit now' key (clean now rl) =
    (MkLimiter (rl_Limit rl) (rl_Duration rl)
       (<[key := MkLimit now' key 1]> (rl_limits (clean now rl))),
     (MkLimit now' key 1, None)).
Proof.
  intros Hl Hlim Hnow. unfold Hit. rewrite clean_lookup, Hl. unfold spec_clean.
  rewrite (bool_decide_true (lim_Created l < now + - rl_Duration rl)%Z) by lia.
  unfold newLimit, Limit_Hit. simpl. change (wrap64 1) with 1%Z.
  by rewrite (bool_decide_false (rl_Limit rl < 1)%Z) by lia.
Qed.

(** ** At concrete limiters *)
Definition two_per_window : Limiter := NewLimiter [WithLimit 2; WithDuration 100].

(** Three requests of one client within the window, one of another: two and one
    are admitted. *)
Lemma window_bound_witness :
  let ls := [LHit 20 "b"; LTick 50; LHit 60 "a"; LHit 100 "a"] in
  let '(out, rl') := run (LHit 10 "a" :: ls) two_per_window in
  Z.of_nat (admitted "a" out) = Z.min (1 + Z.of_nat (hits "a" ls)) (rl_Limit two_per_window).
Proof.
  apply (window_bound two_per_window "a" 10 [LHit 20 "b"; LTick 50; LHit 60 "a"; LHit 100 "a"]).
  - reflexivity.
  - simpl. lia.
  - repeat constructor; simpl; lia.
  - unfold two63. simpl. lia.
Defined.

Lemma window_reopens_witness :
  let rl := MkLimiter 2 100 {["a" := MkLimit 10 "a" 7]} in
  Hit 130 "a" (clean 120 rl) =
    (MkLimiter 2 100 (<["a" := MkLimit 130 "a" 1]> (rl_limits (clean 120 rl))),
     (MkLimit 130 "a" 1, None)).
Proof.
  apply (window_reopens (MkLimiter 2 100 {["a" := MkLimit 10 "a" 7]}) "a" (MkLimit 10 "a" 7) 120 130);
    [reflexivity|simpl; lia|simpl; lia].
Defined.
