(* ===== verification/SignVerifier.v ===== *)
(** * Webhook signatures (server/sign_verifier.go)

    [verifyXSignature] and [validateSignature], and the exact set of headers
    they accept. *)

From S2P Require Export Sys Sha2.

(** [http.Header]: canonical keys to values *)
Abbreviation Header := (gmap string (list string)).

Definition SignatureHeader := "X-Signature".

(** [header[k]]: direct map access, nil when absent *)
Definition header_values (h : Header) (k : string) : list string := default [] (h !! k).

(** The [switch] on the algorithm name *)
Definition newF (alg : string) : option hash :=
  if bool_decide (alg = "sha224") then Some SHA224
  else if bool_decide (alg = "sha256") then Some SHA256
  else if bool_decide (alg = "sha384") then Some SHA384
  else if bool_decide (alg = "sha512") then Some SHA512
  else None.

Definition mac_hex (h : hash) (key payload : string) : string :=
  hex_string (HMAC h (byte_values key) (byte_values payload)).

Definition validateSignature (sig payload key : string) : res unit :=
  match Split eq_sign sig with
  | [alg; given] =>
      match newF alg with
      | None => Err (errorf ("unsupported signature algorithm " +:+ quote alg))
      | Some f =>
          let sum := mac_hex f key payload in
          if bool_decide (sum <> given)
          then Err (errorf ("HMACs don't match: " +:+ quote sum +:+ " != " +:+ quote given))
          else Ok tt
      end
  | _ => Err (errorf "invalid signature value")
  end.

Definition verifyXSignature (p : Pipeline) (header : Header) (body : string) : io (res unit) :=
  match spec_Promotion (pl_Spec p) with
  | None => mret (Ok tt)
  | Some promotion =>
      match strat_SecretRef (prom_Strategy promotion) with
      | None => mret (Ok tt)
      | Some ref =>
          match header_values header SignatureHeader with
          | [] => mret (Err (errorf "no X-Signature header provided"))
          | sig :: _ =>
              let ns := pl_Namespace p in
              let name := ref_Name ref in
              call data <- trigger (GetSecret (MkKey ns name)) onerr err =>
                mret (Err (wrapf ("failed fetching Secret " +:+ ns +:+ "/" +:+ name +:+ ": ") err));
              let key := default "" (data !! "hmac-key") in
              when bool_decide (key = "") return
                mret (Err (errorf ("no 'hmac-key' field present in " +:+ ns +:+ "/" +:+ name +:+
                                   " Spec.AppRef.SecretRef")));
              match validateSignature sig body key with
              | Err err => mret (Err (errorf ("failed verifying X-Signature header: " +:+ Error err)))
              | Ok _ => mret (Ok tt)
              end
          end
      end
  end.

(** ** What is accepted *)

(** The pipelines that ask for a signature, and the secret that holds the key *)
Definition signature_secret (p : Pipeline) : option ObjectKey :=
  promotion ← spec_Promotion (pl_Spec p);
  ref ← strat_SecretRef (prom_Strategy promotion);
  Some (MkKey (pl_Namespace p) (ref_Name ref)).

(** [sig] is [alg=hex] where [hex] is the HMAC of the payload. *)
Definition good_signature (sig payload key : string) : Prop :=
  exists alg h, newF alg = Some h /\ sig = alg +:+ String eq_sign (mac_hex h key payload).

(** What a request must carry, given the secret's data *)
Definition authentic (header : Header) (body : string) (data : SecretData) : Prop :=
  exists sig rest key,
    header_values header SignatureHeader = sig :: rest /\
    data !! "hmac-key" = Some key /\ key <> "" /\ good_signature sig body key.

Lemma hex_digit_not_eq n : (n < 16)%N -> hex_digit n <> eq_sign.
Proof.
  intros Hn Heq.
  assert (forallb (fun i => negb (bool_decide (hex_digit (N.of_nat i) = eq_sign))) (seq 0 16) = true)
    as Hall by (vm_compute; reflexivity).
  rewrite forallb_forall in Hall. specialize (Hall (N.to_nat n)).
  rewrite N2Nat.id, bool_decide_true in Hall by done. discriminate Hall. apply in_seq. lia.
Qed.

Lemma sha2_bytes p iv out msg : Forall (fun b => b < 256)%N (sha2 p iv out msg).
Proof.
  assert (forall n x, Forall (fun b => b < 256)%N (be_bytes n x)) as Hbe.
  { intros n. induction n as [|n IH]; intros x; simpl; [constructor|].
    apply Forall_app; split; [apply IH|]. repeat constructor. by apply N.mod_lt. }
  unfold sha2. apply Forall_take. apply Forall_concat.
  apply Forall_forall. intros l Hl. apply list_elem_of_fmap in Hl as (x & -> & _). apply Hbe.
Qed.

Lemma newF_bytes alg h msg : newF alg = Some h -> Forall (fun b => b < 256)%N (hash_sum h msg).
Proof.
  unfold newF. repeat case_bool_decide; intros [= <-]; apply sha2_bytes.
Qed.

Lemma hex_string_not_eq l : Forall (fun b => b < 256)%N l -> Contains eq_sign (hex_string l) = false.
Proof.
  intros H. induction H as [|b l Hb _ IH]; [done|]. cbn [hex_string]. rewrite Contains_app, IH.
  unfold hex_byte. cbn [Contains].
  rewrite !decide_False; [done|..]; intros Heq; symmetry in Heq; revert Heq; apply hex_digit_not_eq.
  - by apply N.mod_lt.
  - apply N.Div0.div_lt_upper_bound. lia.
Qed.

Lemma newF_name alg h : newF alg = Some h -> Contains eq_sign alg = false.
Proof. unfold newF. repeat case_bool_decide; subst; done. Qed.

(** [validateSignature] accepts exactly the good signatures. *)
Lemma validateSignature_ok sig payload key :
  validateSignature sig payload key = Ok tt <-> good_signature sig payload key.
Proof.
  unfold validateSignature, good_signature. split.
  - destruct (Split eq_sign sig) as [|alg [|given [|]]] eqn:Hs; try done.
    destruct (newF alg) as [h|] eqn:Hf; [|done]. case_bool_decide as Hsum; [done|].
    intros _. exists alg, h. split; [done|].
    rewrite <- (Join_Split eq_sign sig), Hs. cbn. by subst.
  - intros (alg & h & Hf & ->). rewrite Split_app by by eapply newF_name.
    rewrite Split_single.
    + rewrite Hf. by rewrite bool_decide_false by naive_solver.
    + apply hex_string_not_eq. by eapply newF_bytes.
Qed.

(** The runs of [verifyXSignature]: it only reads, and what it accepts. *)
Definition verify_post (p : Pipeline) (header : Header) (body : string)
    (tr : list (event sys)) (o : outcome (res unit)) : Prop :=
  reads_only tr /\
  exists r, o = Done r /\
    match signature_secret p with
    | None => r = Ok tt /\ tr = []
    | Some k =>
        is_ok r = true -> exists data, omap ev_GetSecret tr = [(k, Ok data)] /\ authentic header body data
    end.

Local Ltac reads_done :=
  split; [by repeat constructor|]; eexists; split; [reflexivity|]; done.

Lemma verifyXSignature_spec p header body :
  wp (verifyXSignature p header body) (verify_post p header body).
Proof.
  unfold verifyXSignature, verify_post, signature_secret.
  destruct (spec_Promotion (pl_Spec p)) as [promotion|]; simpl; [|reads_done].
  destruct (strat_SecretRef (prom_Strategy promotion)) as [ref|]; simpl; [|reads_done].
  destruct (header_values header SignatureHeader) as [|sig rest] eqn:Hh; simpl.
  { reads_done. }
  intros [data|e]; simpl; [|reads_done].
  case_bool_decide as Hkey; simpl; [reads_done|].
  destruct (validateSignature sig body _) as [[]|e] eqn:Hv; simpl; [|reads_done].
  split; [by repeat constructor|]. eexists. split; [done|]. intros _. exists data. split; [done|]. exists sig, rest, (default "" (data !! "hmac-key")).
  split_and!; [done|by destruct (data !! "hmac-key")|done|by apply validateSignature_ok].
Qed.

(** C21.  The signature check accepts exactly the authentic requests: in every
    run, a request is accepted if and only if its pipeline asks for no
    signature, or the run read the secret the pipeline names and the first
    signature header is an algorithm name, an equal sign and the hexadecimal
    HMAC of the body under the secret's key, which is not empty.  The secret is
    read, and nothing else called, exactly when there is a header to check. *)
Theorem signature_accepted_iff p header body :
  wp (verifyXSignature p header body) (fun tr o =>
    (match signature_secret p, header_values header SignatureHeader with
     | Some k, _ :: _ => exists r, tr = [Ev (GetSecret k) r]
     | _, _ => tr = []
     end) /\
    (o = Done (Ok tt) <->
     signature_secret p = None \/
     exists k data, signature_secret p = Some k /\ tr = [Ev (GetSecret k) (Ok data)] /\
       authentic header body data)).
Proof.
  unfold verifyXSignature, signature_secret.
  destruct (spec_Promotion (pl_Spec p)) as [promotion|]; simpl; [|by split; [|split; [left|]]].
  destruct (strat_SecretRef (prom_Strategy promotion)) as [ref|]; simpl; [|by split; [|split; [left|]]].
  destruct (header_values header SignatureHeader) as [|sig rest] eqn:Hh; simpl.
  { split; [done|]. split; [done|]. by intros [?|(k & data & _ & ? & _)]. }
  intros [data|e]; simpl.
  2: { split; [by eexists|]. split; [done|]. intros [?|(k & data & _ & Heq & _)]; [done|].
    by apply (f_equal (omap ev_GetSecret)) in Heq. }
  set (key := default "" (data !! "hmac-key")).
  assert ((key <> "" /\ good_signature sig body key) <-> authentic header body data) as Hauth.
  { unfold authentic, key. split.
    - intros [Hne Hgood]. exists sig, rest, (default "" (data !! "hmac-key")).
      split_and!; [done| |done|done]. by destruct (data !! "hmac-key").
    - intros (sig' & rest' & key' & Hs & -> & Hne & Hgood). rewrite Hh in Hs. by simplify_eq. }
  assert (forall o : outcome (res unit), (o = Done (Ok tt) <-> key <> "" /\ good_signature sig body key) ->
    (exists r, [Ev (GetSecret (MkKey (pl_Namespace p) (ref_Name ref))) (Ok data)] =
       [Ev (GetSecret (MkKey (pl_Namespace p) (ref_Name ref))) r]) /\
    (o = Done (Ok tt) <-> Some (MkKey (pl_Namespace p) (ref_Name ref)) = None \/
       exists k data', Some (MkKey (pl_Namespace p) (ref_Name ref)) = Some k /\
         [Ev (GetSecret (MkKey (pl_Namespace p) (ref_Name ref))) (Ok data)] =
           [Ev (GetSecret k) (Ok data')] /\ authentic header body data')) as Hiff.
  { intros o Ho. split; [by eexists|]. rewrite Ho, Hauth. split.
    - intros Ha. right. by eexists _, data.
    - intros [?|(k & data' & _ & Heq & Ha)]; [done|].
      apply (f_equal (omap ev_GetSecret)) in Heq. cbn in Heq. by simplify_eq. }
  case_bool_decide as Hkey; simpl; [apply Hiff; naive_solver|].
  pose proof (validateSignature_ok sig body key) as Hv. unfold key in *.
  destruct (validateSignature sig body _) as [[]|e]; simpl; apply Hiff; naive_solver.
Qed.

(** Only the secret of the pipeline's default promotion is checked: when
    that names none, every request is accepted without a call, whatever secret
    the promotions of the environments name. *)
Theorem environment_secret_ignored p header body :
  signature_secret p = None -> verifyXSignature p header body = mret (Ok tt).
Proof.
  unfold signature_secret, verifyXSignature. intros Hs.
  destruct (spec_Promotion (pl_Spec p)) as [promotion|]; [|done]. simpl in Hs.
  by destruct (strat_SecretRef (prom_Strategy promotion)).
Qed.

Lemma environment_secret_ignored_witness :
  let strategy := MkStrategy None (Some MkNotificationPromotion) (Some (MkLocalRef "hmac")) in
  let p := MkPipeline "podinfo" "default" 1 None
    (MkPipelineSpec [MkEnvironment "dev" [] None; MkEnvironment "prod" [] (Some (MkPromotion false strategy))]
       (MkLocalAppReference "v2" "HelmRelease" "podinfo") None) (MkPipelineStatus 0 [] ∅) in
  verifyXSignature p ∅ "forged" = mret (Ok tt).
Proof. apply environment_secret_ignored. reflexivity. Defined.
