(* ===== verification/Retry.v ===== *)
(** * Retrying with exponential back-off (pkg/retry)

    [Exponential] with its options.  The retried closure may make calls and
    assign captured variables: it takes and returns their values (type [V]).
    The endless [for] of the source is a recursion on the number of tries
    left; [Exponential_attempts] shows that this fuel never runs out. *)

From S2P Require Export Sys GoInt.

Record RetryError := MkRetryError { re_message : string }.

Section retry.
Context {V : Type}.

Definition RetryFn := V -> io (V * option error).
Definition ErrorHandlerFn := error -> io bool.

Record ExponentialOptions := MkExponentialOptions {
  ex_retries : Z;
  ex_delayBaseSeconds : spec_float;
  ex_maxDelaySeconds : spec_float;
  ex_fn : option RetryFn;
  ex_errorHandlerFn : option ErrorHandlerFn }.

(** exponential_opts.go *)
Definition ExponentialWith := ExponentialOptions -> ExponentialOptions.

Definition WithRetries (retries : Z) : ExponentialWith := fun o =>
  MkExponentialOptions retries (ex_delayBaseSeconds o) (ex_maxDelaySeconds o) (ex_fn o)
    (ex_errorHandlerFn o).
Definition WithDelayBase (delaySeconds : spec_float) : ExponentialWith := fun o =>
  MkExponentialOptions (ex_retries o) delaySeconds (ex_maxDelaySeconds o) (ex_fn o)
    (ex_errorHandlerFn o).
Definition WithMaxDelay (maxSeconds : spec_float) : ExponentialWith := fun o =>
  MkExponentialOptions (ex_retries o) (ex_delayBaseSeconds o) maxSeconds (ex_fn o)
    (ex_errorHandlerFn o).
Definition WithErrorHandler (h : ErrorHandlerFn) : ExponentialWith := fun o =>
  MkExponentialOptions (ex_retries o) (ex_delayBaseSeconds o) (ex_maxDelaySeconds o) (ex_fn o)
    (Some h).
Definition WithFn (fn : RetryFn) : ExponentialWith := fun o =>
  MkExponentialOptions (ex_retries o) (ex_delayBaseSeconds o) (ex_maxDelaySeconds o) (Some fn)
    (ex_errorHandlerFn o).

Definition default_opts : ExponentialOptions :=
  MkExponentialOptions 3 (float64 2) (float64 30) None None.

(** The wait after the [try]-th attempt, as a number of seconds and as the
    [time.Duration] given to [time.Sleep] *)
Definition wait_seconds (base max : spec_float) (try : positive) : spec_float :=
  let wait := Pow base try in
  if fltb max wait then max else wait.

Definition wait_duration (base max : spec_float) (try : positive) : Z :=
  wrap64 (time_Second * int64_of_float (wait_seconds base max try)).

(** [opts.errorHandlerFn != nil && opts.errorHandlerFn(err)] *)
Definition handled (h : option ErrorHandlerFn) (err : error) : io bool :=
  match h with None => mret false | Some h => h err end.

Fixpoint retry_loop (fuel : nat) (opts : ExponentialOptions) (fn : RetryFn) (try : positive)
    (v : V) : io (V * option error) :=
  match fuel with
  | O => PPanic "out of fuel"
  | S fuel =>
      '(v, err) ← fn v;
      match err with
      | None => mret (v, None)
      | Some err =>
          swallow ← handled (ex_errorHandlerFn opts) err;
          if swallow : bool then mret (v, None)
          else if bool_decide (ex_retries opts <= Z.pos try)%Z then mret (v, Some err)
          else
            trigger (Sleep (wait_duration (ex_delayBaseSeconds opts) (ex_maxDelaySeconds opts) try));;
            retry_loop fuel opts fn (Pos.succ try) v
      end
  end.

Definition Exponential (withOpts : list ExponentialWith) (v : V) : io (V * option error) :=
  let opts := foldl (fun o f => f o) default_opts withOpts in
  match ex_fn opts with
  | None => mret (v, Some (errorf "fn is not defined, nothing to retry"))
  | Some fn => retry_loop (Z.to_nat (Z.max 1 (ex_retries opts))) opts fn 1 v
  end.

(** ** Reference: one attempt, then one per wait of a list *)
Fixpoint attempts (h : option ErrorHandlerFn) (fn : RetryFn) (waits : list Z) (v : V) :
    io (V * option error) :=
  '(v, err) ← fn v;
  match err with
  | None => mret (v, None)
  | Some err =>
      b ← handled h err;
      match b, waits with
      | true, _ => mret (v, None)
      | false, [] => mret (v, Some err)
      | false, w :: waits => trigger (Sleep w);; attempts h fn waits v
      end
  end.

(** The waits of a configuration: one less than the attempts allowed *)
Definition schedule_from (base max : spec_float) (n : nat) (try : positive) : list Z :=
  (fun i => wait_duration base max (Pos.of_nat (Pos.to_nat try + i))) <$> seq 0 n.

Definition schedule (opts : ExponentialOptions) : list Z :=
  schedule_from (ex_delayBaseSeconds opts) (ex_maxDelaySeconds opts)
    (Z.to_nat (Z.max 1 (ex_retries opts)) - 1) 1.

Lemma schedule_from_S base max n try :
  schedule_from base max (S n) try =
    wait_duration base max try :: schedule_from base max n (Pos.succ try).
Proof.
  unfold schedule_from. simpl. f_equal.
  - f_equal. rewrite Nat.add_0_r. apply Pos2Nat.id.
  - rewrite <- fmap_S_seq, <- list_fmap_compose. apply list_fmap_ext. intros i ? _. simpl.
    do 2 f_equal. rewrite Pos2Nat.inj_succ. lia.
Qed.

Lemma retry_loop_attempts n opts fn try v :
  (Z.of_nat n + Z.pos try = Z.max (Z.pos try) (ex_retries opts))%Z ->
  retry_loop (S n) opts fn try v ≡
  attempts (ex_errorHandlerFn opts) fn
    (schedule_from (ex_delayBaseSeconds opts) (ex_maxDelaySeconds opts) n try) v.
Proof.
  revert try v. induction n as [|n IH]; intros try v Hn.
  - cbn [retry_loop schedule_from seq fmap list_fmap attempts].
    apply bind_proper; [|done]. intros [v' [err|]]; [|done].
    apply bind_proper; [|done]. intros [|]; [done|].
    by rewrite bool_decide_true by lia.
  - rewrite schedule_from_S. cbn [attempts]. remember (S n) as fuel. cbn [retry_loop]. subst fuel.
    apply bind_proper; [|done]. intros [v' [err|]]; [|done].
    apply bind_proper; [|done]. intros [|]; [done|].
    rewrite bool_decide_false by lia.
    apply bind_proper; [|done]. intros []. apply IH. lia.
Qed.
End retry.

Arguments ExponentialOptions : clear implicits.
Arguments RetryFn : clear implicits.

(** ** Counting the attempts *)
Definition counted {V} (fn : RetryFn V) : RetryFn (nat * V) := fun nv =>
  '(v, err) ← fn (snd nv); mret ((S (fst nv), v), err).

(** [retries] as the number of attempts it allows *)
Definition max_attempts (retries : Z) : nat := Z.to_nat (Z.max 1 retries).

Lemma attempts_counted {V} h (fn : RetryFn V) waits n v :
  wp (attempts h (counted fn) waits (n, v)) (fun _ o =>
    forall n' v' e, o = Done ((n', v'), e) ->
      (n < n' <= n + S (length waits))%nat /\ (e <> None -> n' = n + S (length waits))%nat).
Proof.
  revert n v. induction waits as [|w waits IH]; intros n v; cbn [attempts].
  all: apply wp_bind; unfold counted at 1; cbn [fst snd];
    apply wp_bind_any; [intros tr [v1 [err|]]|done]; cbn [wp mret prog_ret wp_then].
  all: try (intros ??? [= <- <- <-]; split; [cbn; lia|done]).
  all: apply wp_bind_any; [intros tr1 [|]|done]; cbn [wp mret prog_ret wp_then].
  all: try (intros ??? [= <- <- <-]; split; cbn; [lia|done || lia]).
  intros []. eapply wp_mono; [|apply IH]. intros tr2 o Ho n' v' e ->.
  destruct (Ho _ _ _ eq_refl) as [? He]. cbn. split; [lia|]. intros ?%He. lia.
Qed.

Lemma Exponential_eq {V} (withOpts : list (@ExponentialWith V)) fn v :
  let opts := foldl (fun o f => f o) default_opts withOpts in
  ex_fn opts = Some fn ->
  Exponential withOpts v ≡ attempts (ex_errorHandlerFn opts) fn (schedule opts) v.
Proof.
  intros opts Hfn. unfold Exponential. fold opts. rewrite Hfn. unfold schedule.
  replace (Z.to_nat (Z.max 1 (ex_retries opts)))
    with (S (Z.to_nat (Z.max 1 (ex_retries opts)) - 1)) at 1 by lia.
  apply retry_loop_attempts. lia.
Qed.

(** ** The theorems of the package *)

(** C24.  [Exponential] is the bounded retry it is meant to be: whatever the
    closure does, it behaves as one attempt followed by one attempt after each
    wait of a schedule with one entry less than the allowed attempts, stopping
    at the first success or swallowed error.  In particular the unbounded
    loop terminates for every configuration. *)
Theorem Exponential_attempts {V} (withOpts : list (@ExponentialWith V)) fn v :
  ex_fn (foldl (fun o f => f o) default_opts withOpts) = Some fn ->
  let opts := foldl (fun o f => f o) default_opts withOpts in
  Exponential withOpts v ≡ attempts (ex_errorHandlerFn opts) fn (schedule opts) v /\
  length (schedule opts) = Z.to_nat (Z.max 1 (ex_retries opts)) - 1.
Proof.
  intros Hfn opts. split; [by apply Exponential_eq|].
  unfold schedule, schedule_from. by rewrite length_fmap, length_seq.
Qed.

(** The options of the promotion handler *)
Definition promotion_retry {V} (delay maxDelay threshold : Z) (h : @ErrorHandlerFn)
    (fn : RetryFn V) : list (@ExponentialWith V) :=
  [WithRetries threshold; WithDelayBase (float64 delay); WithMaxDelay (float64 maxDelay);
   WithErrorHandler h; WithFn fn].

(** The number of attempts of a retried promotion: at least one, at most
    the threshold (one when the threshold is not positive), and an error comes
    back only after all of them were used. *)
Theorem Exponential_attempt_count {V} delay maxDelay threshold h (fn : RetryFn V) v :
  wp (Exponential (promotion_retry delay maxDelay threshold h (counted fn)) (0%nat, v))
    (fun _ o => forall n v' e, o = Done ((n, v'), e) ->
      (1 <= n <= max_attempts threshold)%nat /\ (e <> None -> n = max_attempts threshold)).
Proof.
  rewrite (Exponential_eq _ (counted fn)) by done.
  eapply wp_mono; [|apply attempts_counted]. intros tr o H n v' e ->.
  destruct (H _ _ _ eq_refl) as [Hn He]. unfold schedule, schedule_from, max_attempts in *.
  rewrite length_fmap, length_seq in *. simpl in *. split; [lia|]. intros ?%He. lia.
Qed.

Definition range (lo hi : Z) : list Z := (fun i => lo + Z.of_nat i)%Z <$> seq 0 (Z.to_nat (hi - lo + 1)).

Lemma range_spec lo hi z : (lo <= z <= hi)%Z -> z ∈ range lo hi.
Proof.
  intros Hz. unfold range. apply list_elem_of_fmap. exists (Z.to_nat (z - lo)).
  split; [lia|]. apply elem_of_seq. lia.
Qed.

(** Seconds become nanoseconds exactly. *)
Definition seconds_exact (wait : spec_float) (n : Z) : bool :=
  (wrap64 (time_Second * int64_of_float wait) =? n * time_Second)%Z.

Lemma caps_exact : forallb (fun max => seconds_exact (float64 max) max) (range 0 60) = true.
Proof. vm_compute. reflexivity. Qed.

(** A power is compared with every cap as a number would be, and is itself
    exact below the largest cap. *)
Definition power_exact (base : Z) (try : positive) : bool :=
  (fun p power =>
     forallb (fun max => Bool.eqb (fltb (float64 max) p) (max <? power)%Z) (range 0 60) &&
     (if (power <=? 60)%Z then seconds_exact p power else true))
    (Pow (float64 base) try) (base ^ Z.pos try)%Z.

Lemma powers_exact :
  forallb (fun base => forallb (fun try => power_exact base (Z.to_pos try)) (range 1 12)) (range 0 20) = true.
Proof. vm_compute. reflexivity. Qed.

Lemma forallb_range f lo hi z : forallb f (range lo hi) = true -> (lo <= z <= hi)%Z -> f z = true.
Proof. rewrite forallb_forall. intros Hf Hz. by apply Hf, list_elem_of_In, range_spec. Qed.

(** C37.  The back-off in numbers: for delays up to 20 s, caps up to a minute
    and up to twelve tries (the defaults are 2 s, 20 s and 3), the wait after
    the [try]-th attempt computed in floating point is exactly
    [min (delay ^ try) maxDelay] seconds. *)
Theorem wait_duration_exact base max try :
  (0 <= base <= 20)%Z -> (0 <= max <= 60)%Z -> (Z.pos try <= 12)%Z ->
  wait_duration (float64 base) (float64 max) try = (Z.min (base ^ Z.pos try) max * time_Second)%Z.
Proof.
  intros Hb Hm Ht. pose proof (forallb_range _ _ _ base powers_exact Hb) as Hp. cbv beta in Hp.
  apply (forallb_range _ _ _ (Z.pos try)) in Hp; [|lia].
  apply andb_prop in Hp as [Hcmp Hexact]. apply (forallb_range _ _ _ max) in Hcmp; [|done].
  apply Bool.eqb_prop in Hcmp. cbn [Z.to_pos] in *.
  unfold wait_duration, wait_seconds. rewrite Hcmp. destruct (Z.ltb_spec max (base ^ Z.pos try)).
  - pose proof (forallb_range _ _ _ max caps_exact Hm) as Hc. apply Z.eqb_eq in Hc. rewrite Hc. f_equal. lia.
  - rewrite (proj2 (Z.leb_le _ _)) in Hexact by lia. apply Z.eqb_eq in Hexact. rewrite Hexact. f_equal. lia.
Qed.

(** ** At the default configuration *)
Definition always_fails : RetryFn nat := fun n => mret (S n, Some (errorf "unreachable")).

Lemma Exponential_attempts_witness :
  let opts := foldl (fun o f => f o) default_opts (promotion_retry 2 20 3 (fun _ => mret false) always_fails) in
  Exponential (promotion_retry 2 20 3 (fun _ => mret false) always_fails) 0 ≡
    attempts (ex_errorHandlerFn opts) always_fails (schedule opts) 0 /\
  length (schedule opts) = 2.
Proof.
  apply (Exponential_attempts (promotion_retry 2 20 3 (fun _ => mret false) always_fails) always_fails 0).
  reflexivity.
Defined.

Lemma wait_duration_exact_witness :
  wait_duration (float64 2) (float64 20) 3 = (8 * time_Second)%Z.
Proof. apply (wait_duration_exact 2 20 3); lia. Defined.
