(* ===== verification/Http.v ===== *)
(** * The part of net/http the program uses

    Requests, response writers and header maps.  A [ResponseWriter] is a state
    the handlers thread: the first [WriteHeader] fixes the status and the
    headers sent, a [Write] without one sends 200. *)

From S2P Require Export Sys SignVerifier.
From Stdlib Require Import Ascii.

(** ** Header keys

    [textproto.CanonicalMIMEHeaderKey]: upper case at the start and after a
    hyphen, lower case elsewhere; a key with a byte outside the token
    characters is left alone. *)
Definition is_upper (n : N) : bool := (65 <=? n)%N && (n <=? 90)%N.
Definition is_lower (n : N) : bool := (97 <=? n)%N && (n <=? 122)%N.
Definition is_digit (n : N) : bool := (48 <=? n)%N && (n <=? 57)%N.

Definition is_token (c : ascii) : bool :=
  let n := N_of_ascii c in
  is_upper n || is_lower n || is_digit n ||
  existsb (N.eqb n) [33; 35; 36; 37; 38; 39; 42; 43; 45; 46; 94; 95; 96; 124; 126]%N.

Fixpoint canonical (up : bool) (s : string) : string :=
  match s with
  | "" => ""
  | String c s =>
      let n := N_of_ascii c in
      let c' := if up && is_lower n then ascii_of_N (n - 32)
                else if negb up && is_upper n then ascii_of_N (n + 32) else c in
      String c' (canonical (n =? 45)%N s)
  end.

Definition CanonicalHeaderKey (s : string) : string :=
  if forallb is_token (bytes_of s) then canonical true s else s.

(** [Header.Get] and [Header.Add] *)
Definition Header_Get (h : Header) (k : string) : string :=
  match header_values h (CanonicalHeaderKey k) with
  | [] => ""
  | v :: _ => v
  end.

Definition Header_Add (k v : string) (h : Header) : Header :=
  <[CanonicalHeaderKey k := header_values h (CanonicalHeaderKey k) ++ [v]]> h.

Definition Header_Set (k v : string) (h : Header) : Header := <[CanonicalHeaderKey k := [v]]> h.

(** ** Requests *)
Record Request := MkRequest {
  rq_Method : string;
  rq_Path : string;
  rq_RawPath : string;
  rq_Header : Header;
  rq_RemoteAddr : string;
  (* what [io.ReadAll(r.Body)] gives *)
  rq_Body : res string }.

Definition MethodPost := "POST".

Definition with_path (path rawpath : string) (r : Request) : Request :=
  MkRequest (rq_Method r) path rawpath (rq_Header r) (rq_RemoteAddr r) (rq_Body r).

(** ** Response writers *)
Record ResponseWriter := MkResponseWriter {
  rw_Header : Header;
  rw_status : option (Z * Header);
  rw_body : string }.

Definition new_writer : ResponseWriter := MkResponseWriter ∅ None "".

Definition WriteHeader (code : Z) (rw : ResponseWriter) : ResponseWriter :=
  match rw_status rw with
  | Some _ => rw
  | None => MkResponseWriter (rw_Header rw) (Some (code, rw_Header rw)) (rw_body rw)
  end.

Definition Write (s : string) (rw : ResponseWriter) : ResponseWriter :=
  let rw := WriteHeader 200 rw in
  MkResponseWriter (rw_Header rw) (rw_status rw) (rw_body rw +:+ s).

Definition AddHeader (k v : string) (rw : ResponseWriter) : ResponseWriter :=
  MkResponseWriter (Header_Add k v (rw_Header rw)) (rw_status rw) (rw_body rw).

Definition SetHeader (k v : string) (rw : ResponseWriter) : ResponseWriter :=
  MkResponseWriter (Header_Set k v (rw_Header rw)) (rw_status rw) (rw_body rw).

Definition newline : string := String (ascii_of_N 10) "".

(** [http.NotFound] *)
Definition NotFound (rw : ResponseWriter) : ResponseWriter :=
  Write ("404 page not found" +:+ newline)
    (WriteHeader 404
      (SetHeader "X-Content-Type-Options" "nosniff"
        (SetHeader "Content-Type" "text/plain; charset=utf-8" rw))).

(** What the client sees once the handler has returned *)
Definition status (rw : ResponseWriter) : Z := from_option fst 200%Z (rw_status rw).
Definition sent_header (rw : ResponseWriter) : Header := from_option snd (rw_Header rw) (rw_status rw).

Definition StatusCreated : Z := 201.
Definition StatusNoContent : Z := 204.
Definition StatusBadRequest : Z := 400.
Definition StatusUnauthorized : Z := 401.
Definition StatusNotFound : Z := 404.
Definition StatusMethodNotAllowed : Z := 405.
Definition StatusUnprocessableEntity : Z := 422.
Definition StatusTooManyRequests : Z := 429.
Definition StatusInternalServerError : Z := 500.

(** [http.Handler] *)
Abbreviation Handler := (Request -> ResponseWriter -> io ResponseWriter).

(** [http.StripPrefix] *)
Definition StripPrefix (prefix : string) (h : Handler) : Handler := fun r rw =>
  if bool_decide (prefix = "") then h r rw
  else
    let p := TrimPrefix (rq_Path r) prefix in
    let rp := TrimPrefix (rq_RawPath r) prefix in
    if bool_decide (len p < len (rq_Path r))%Z &&
       (bool_decide (rq_RawPath r = "") || bool_decide (len rp < len (rq_RawPath r))%Z)
    then h (with_path p rp r) rw
    else mret (NotFound rw).

Example canonical_real_ip : CanonicalHeaderKey "X-Real-IP" = "X-Real-Ip".
Proof. reflexivity. Qed.

(** ** Lemmas *)
Lemma status_WriteHeader code rw : rw_status rw = None -> status (WriteHeader code rw) = code.
Proof. unfold status, WriteHeader. by intros ->. Qed.

Lemma status_Write s rw : rw_status rw <> None -> status (Write s rw) = status rw.
Proof. unfold status, Write, WriteHeader. destruct (rw_status rw) eqn:H; [|done]. simpl. by rewrite H. Qed.

Lemma StripPrefix_prefix prefix h r rw rest :
  prefix <> "" -> rq_Path r = prefix +:+ rest -> rq_RawPath r = "" ->
  StripPrefix prefix h r rw = h (with_path rest "" r) rw.
Proof.
  intros Hp Hpath Hraw. unfold StripPrefix. rewrite bool_decide_false by done.
  assert (TrimPrefix "" prefix = "") as Hempty by (unfold TrimPrefix; by destruct prefix).
  rewrite Hpath, Hraw, TrimPrefix_app, Hempty. unfold len.
  rewrite bool_decide_true; [done|].
  rewrite length_app_str. destruct prefix; [done|]. simpl. lia.
Qed.
