(* ===== verification/PromotionHandler.v ===== *)
(** * The promotion webhook (server/promotion_handler.go)

    [DefaultPromotionHandler.ServeHTTP] with the environment lookup, the
    waiting-approval update and the retried promotion it calls. *)

From S2P Require Export Http Regexp Retry Strategies.

(** server/promotion_server.go: [RetryOpts], in seconds *)
Record RetryOpts := MkRetryOpts { ro_Delay : Z; ro_MaxDelay : Z; ro_Threshold : Z }.

(** [corev1.ObjectReference] and the event of notification-controller: the
    fields the handler reads *)
Record ObjectReference := MkObjectReference {
  or_APIVersion : string;
  or_Kind : string;
  or_Name : string;
  or_Namespace : string }.

Record Event := MkEvent {
  ev_InvolvedObject : ObjectReference;
  ev_Metadata : gmap string string }.

(** [([^/]+)/([^/]+)/([^/]+)] *)
Definition promotion_path : re :=
  RSeq (RCap 1 (RPlus not_slash)) (RSeq (RLit "/")
    (RSeq (RCap 2 (RPlus not_slash)) (RSeq (RLit "/")
      (RCap 3 (RPlus not_slash))))).

(** [pathMatches[i]] *)
Definition group (m : caps) (i : nat) : string := default "" (m !! i).

Definition err_message :=
  "error promoting application, please consult the promotion server's logs".

(** promotion_server.go: [namespaceInTargets] *)
Fixpoint namespaceInTargets (targets : list Target) (namespace : string) : bool :=
  match targets with
  | [] => false
  | t :: targets =>
      if bool_decide (tgt_Namespace t = namespace) then true else namespaceInTargets targets namespace
  end.

(** The loop of [lookupNextEnvironment] *)
Inductive next_env :=
  | EnvUnknown
  | EnvLast (e : Environment)
  | EnvNext (source next : Environment).

Fixpoint find_next (envs : list Environment) (env : string) : next_env :=
  match envs with
  | [] => EnvUnknown
  | e :: rest =>
      if bool_decide (env_Name e = env)
      then match rest with
           | [] => EnvLast e
           | next :: _ => EnvNext e next
           end
      else find_next rest env
  end.

Definition err_unknown_env (p : Pipeline) (env : string) : error :=
  errorf ("app " +:+ pl_Namespace p +:+ "/" +:+ pl_Name p +:+ " has no environment " +:+ env +:+ " defined").

Definition lookupNextEnvironment (pipeline : Pipeline) (env : string) (appRef : ObjectReference) :
    res Environment :=
  match find_next (spec_Environments (pl_Spec pipeline)) env with
  | EnvLast e => Err (errorf ("cannot promote beyond last environment " +:+ env_Name e))
  | EnvUnknown => Err (err_unknown_env pipeline env)
  | EnvNext sourceEnv promEnv =>
      if bool_decide (env_Targets promEnv = [])
      then Err (errorf ("environment " +:+ env_Name promEnv +:+ " has no targets"))
      else
        let ref := spec_AppRef (pl_Spec pipeline) in
        if bool_decide (app_APIVersion ref <> or_APIVersion appRef) ||
           bool_decide (app_Kind ref <> or_Kind appRef) ||
           bool_decide (app_Name ref <> or_Name appRef) ||
           negb (namespaceInTargets (env_Targets sourceEnv) (or_Namespace appRef))
        then Err (errorf "involved object does not match Pipeline definition")
        else Ok promEnv
  end.

Section handler.
(** [json.Unmarshal(body, &ev)] into the event type of fluxcd/pkg *)
Context (decode_event : string -> res Event).
Context (stratReg : StrategyRegistry) (retry : RetryOpts).

Definition setWaitingApproval_ (pipeline : Pipeline) (env revision : string) : io (res unit) :=
  call pipeline <- trigger (GetPipeline (pl_Key pipeline)) onerr err => mret (Err err);
  st ← SetWaitingApproval (pl_Status pipeline) env revision;
  trigger (StatusUpdate (set_Status st pipeline)).

(** The closure given to [retry.WithFn]: it assigns the captured [res]. *)
Definition promote_fn (spec : Promotion) (prom : StrategyPromotion) :
    RetryFn (option PromotionResult) := fun res =>
  match Registry_Get stratReg spec with
  | Err err => mret (res, Some (wrapf "error getting strategy from registry: " err))
  | Ok strat =>
      r ← Promote strat spec prom;
      mret match r with
           | Ok res => (res, None)
           | Err err => (None, Some err)
           end
  end.

Definition promote (promotionSpec : option Promotion) (prom : StrategyPromotion) :
    io (option PromotionResult * option error) :=
  match promotionSpec with
  | None => mret (None, Some (errorf "no promotion configured in Pipeline resource"))
  | Some spec =>
      Exponential
        [WithRetries (ro_Threshold retry);
         WithDelayBase (float64 (ro_Delay retry));
         WithMaxDelay (float64 (ro_MaxDelay retry));
         WithErrorHandler (fun _ => mret false);
         WithFn (promote_fn spec prom)] None
  end.

(** The end of both handlers: 201 with the location of the pull request, or 204 *)
Definition respond_promoted (res : option PromotionResult) (rw : ResponseWriter) :
    io ResponseWriter :=
  res ← deref res;
  mret (if bool_decide (pr_Location res <> "")
        then WriteHeader StatusCreated (AddHeader "Location" (pr_Location res) rw)
        else WriteHeader StatusNoContent rw).

Definition respond_500 (rw : ResponseWriter) : ResponseWriter :=
  Write err_message (WriteHeader StatusInternalServerError rw).

Definition ServeHTTP : Handler := fun r rw =>
  when bool_decide (rq_Method r <> MethodPost) return
    mret (WriteHeader StatusMethodNotAllowed rw);
  match find_submatch promotion_path (rq_Path r) with
  | None => mret (NotFound rw)
  | Some pathMatches =>
      let ns := group pathMatches 1 in
      let name := group pathMatches 2 in
      let env := group pathMatches 3 in
      match rq_Body r with
      | Err _ => mret (WriteHeader StatusBadRequest rw)
      | Ok body =>
          call pipeline <- trigger (GetPipeline (MkKey ns name)) onerr err =>
            mret (WriteHeader (if IsNotFound err then StatusNotFound
                               else StatusInternalServerError) rw);
          call _ <- verifyXSignature pipeline (rq_Header r) body onerr err =>
            mret (WriteHeader StatusUnauthorized rw);
          match decode_event body with
          | Err _ => mret (WriteHeader StatusBadRequest rw)
          | Ok ev =>
              let version := default "" (ev_Metadata ev !! "revision") in
              when bool_decide (version = "") return
                mret (Write "event has no 'revision' in the metadata field."
                        (WriteHeader StatusUnprocessableEntity rw));
              match lookupNextEnvironment pipeline env (ev_InvolvedObject ev) with
              | Err err =>
                  mret (Write (HTMLEscape (Error err)) (WriteHeader StatusUnprocessableEntity rw))
              | Ok promEnv =>
                  let promotion := MkStrategyPromotion ns name promEnv version in
                  match GetPromotion (pl_Spec pipeline) (env_Name promEnv) with
                  | None => mret (respond_500 rw)
                  | Some promSpec =>
                      if prom_Manual promSpec then
                        call _ <- setWaitingApproval_ pipeline (env_Name promEnv) version
                          onerr err => mret (respond_500 rw);
                        mret (WriteHeader StatusNoContent rw)
                      else
                        '(res, err) ← promote (Some promSpec) promotion;
                        match err with
                        | Some _ => mret (respond_500 rw)
                        | None => respond_promoted res rw
                        end
                  end
              end
          end
      end
  end.
End handler.

(** ** Lemmas *)

Lemma promotion_path_segments : promotion_path = segments_re 1 2.
Proof. reflexivity. Qed.

Lemma promotion_path_groups path m :
  find_submatch promotion_path path = Some m ->
  first_window 2 (Split slash path) = Some [group m 1; group m 2; group m 3].
Proof. intros H. rewrite <- find_segments, <- promotion_path_segments, H. reflexivity. Qed.

Lemma namespaceInTargets_spec ts ns :
  namespaceInTargets ts ns = true <-> Exists (fun t => tgt_Namespace t = ns) ts.
Proof.
  induction ts as [|t ts IH]; simpl; [split; [done|by inversion 1]|].
  rewrite Exists_cons. case_bool_decide; [tauto|]. rewrite IH. tauto.
Qed.

(** [src] is the first environment of that name, [next] follows it. *)
Definition follows (envs : list Environment) (env : string) (src next : Environment) : Prop :=
  exists pre post, envs = pre ++ src :: next :: post /\ env_Name src = env /\
    Forall (fun e => env_Name e <> env) pre.

Lemma find_next_spec envs env src next :
  find_next envs env = EnvNext src next <-> follows envs env src next.
Proof.
  unfold follows. induction envs as [|e envs IH]; simpl.
  - split; [done|]. by intros ([] & ? & ? & _).
  - case_bool_decide as He.
    + split.
      * destruct envs as [|e' envs]; [done|]. intros [= <- <-]. by exists [], envs.
      * intros ([|e' pre] & post & [= -> ->] & Hs & Hpre); [done|]. by inversion Hpre.
    + rewrite IH. split.
      * intros (pre & post & -> & Hs & Hpre). exists (e :: pre), post.
        split_and!; [done|done|by constructor].
      * intros ([|e' pre] & post & [= -> ->] & Hs & Hpre); [done|].
        inversion Hpre; subst. by exists pre, post.
Qed.

(** The object a notification is about is the pipeline's application, in a
    namespace of the source environment. *)
Definition matches_app (p : Pipeline) (src : Environment) (ref : ObjectReference) : Prop :=
  spec_AppRef (pl_Spec p) =
    MkLocalAppReference (or_APIVersion ref) (or_Kind ref) (or_Name ref) /\
  Exists (fun t => tgt_Namespace t = or_Namespace ref) (env_Targets src).

Lemma lookupNextEnvironment_spec p env ref next :
  lookupNextEnvironment p env ref = Ok next <->
  exists src, follows (spec_Environments (pl_Spec p)) env src next /\
    env_Targets next <> [] /\ matches_app p src ref.
Proof.
  unfold lookupNextEnvironment, matches_app.
  destruct (find_next (spec_Environments (pl_Spec p)) env) as [|e|src next'] eqn:Hf.
  - split; [done|]. intros (src & Hfol & _). apply find_next_spec in Hfol. congruence.
  - split; [done|]. intros (src & Hfol & _). apply find_next_spec in Hfol. congruence.
  - assert (forall src' next, follows (spec_Environments (pl_Spec p)) env src' next ->
      src' = src /\ next = next') as Huniq.
    { intros ?? Hfol. apply find_next_spec in Hfol. split; congruence. }
    apply find_next_spec in Hf. case_bool_decide as Ht; [|].
    { split; [done|]. intros (src' & Hfol & Hne & _). destruct (Huniq _ _ Hfol) as [-> ->]. done. }
    destruct (spec_AppRef (pl_Spec p)) as [av k n]. simpl.
    setoid_rewrite <- namespaceInTargets_spec.
    split.
    + repeat case_bool_decide; simpl; try done.
      destruct (namespaceInTargets (env_Targets src) (or_Namespace ref)) eqn:Hns; simpl; [|done].
      intros [= <-]. exists src. split_and!; [done|done|congruence|done].
    + intros (src' & Hfol & Hne & [= -> -> ->] & Hns). destruct (Huniq _ _ Hfol) as [-> ->].
      rewrite !bool_decide_false by (intros Hx; by apply Hx). by rewrite Hns.
Qed.

(** ** What must hold before the handler has any effect *)
Definition authorised (r : Request) (tr : list (event sys)) : Prop :=
  exists ns name env body p,
    rq_Method r = MethodPost /\ rq_Body r = Ok body /\
    first_window 2 (Split slash (rq_Path r)) = Some [ns; name; env] /\
    head (omap ev_GetPipeline tr) = Some (MkKey ns name, Ok p) /\
    forall k, signature_secret p = Some k -> exists data,
      head (omap ev_GetSecret tr) = Some (k, Ok data) /\ authentic (rq_Header r) body data.

(** A notification that asks for the promotion of [next] to [version] *)
Record asks_promotion (decode_event : string -> res Event) (r : Request) (ns name : string)
    (p : Pipeline) (next : Environment) (version : string) (spec : Promotion) : Prop := {
  asks_path : exists env body ev src,
    rq_Method r = MethodPost /\ rq_Body r = Ok body /\
    first_window 2 (Split slash (rq_Path r)) = Some [ns; name; env] /\
    decode_event body = Ok ev /\ ev_Metadata ev !! "revision" = Some version /\
    follows (spec_Environments (pl_Spec p)) env src next /\
    matches_app p src (ev_InvolvedObject ev);
  asks_version : version <> "";
  asks_targets : env_Targets next <> [];
  asks_spec : GetPromotion (pl_Spec p) (env_Name next) = Some spec }.

(** The response that reports a promotion's result *)
Definition reports (res : PromotionResult) (rw : ResponseWriter) : Prop :=
  if bool_decide (pr_Location res = "") then status rw = StatusNoContent
  else status rw = StatusCreated /\ sent_header rw !! "Location" = Some [pr_Location res].

(** What the webhook did when it answers with success, the trace split at the
    end of the authorisation *)
Definition promotion_done (stratReg : StrategyRegistry) (retry : RetryOpts) (ns name : string)
    (p : Pipeline) (next : Environment) (version : string) (spec : Promotion)
    (tr : list (event sys)) (rw : ResponseWriter) : Prop :=
  if prom_Manual spec then
    status rw = StatusNoContent /\
    exists p' st', SetWaitingApproval (E := sys) (pl_Status p') (env_Name next) version = PRet st' /\
      tr = [Ev (GetPipeline (pl_Key p)) (Ok p'); Ev (StatusUpdate (set_Status st' p')) (Ok tt)]
  else
    exists res, reports res rw /\
      runs (promote stratReg retry (Some spec) (MkStrategyPromotion ns name next version))
        tr (Done (Some res, None)).

(** The response is a success. *)
Definition succeeded (rw : ResponseWriter) : Prop :=
  status rw = StatusCreated \/ status rw = StatusNoContent.

Lemma respond_promoted_reports res :
  wp (respond_promoted res new_writer) (fun tr o => forall rw, o = Done rw ->
    exists r, res = Some r /\ tr = [] /\ reports r rw).
Proof.
  destruct res as [r|]; simpl; [|done]. intros rw [= <-]. exists r. split_and!; [done|done|].
  unfold reports. destruct (decide (pr_Location r = "")) as [H|H].
  - rewrite bool_decide_true by done. by rewrite bool_decide_false by (intros Hx; by apply Hx).
  - rewrite bool_decide_false by done. by rewrite bool_decide_true by done.
Qed.

Section properties.
Context (decode_event : string -> res Event).
Context (stratReg : StrategyRegistry) (retry : RetryOpts).
Abbreviation ServeHTTP := (ServeHTTP decode_event stratReg retry).

(** The part of the handler after the signature check *)
Definition after_verify (r : Request) (ns name env body : string) (p : Pipeline)
    (rw : ResponseWriter) : io ResponseWriter :=
  match decode_event body with
  | Err _ => mret (WriteHeader StatusBadRequest rw)
  | Ok ev =>
      let version := default "" (ev_Metadata ev !! "revision") in
      when bool_decide (version = "") return
        mret (Write "event has no 'revision' in the metadata field."
                (WriteHeader StatusUnprocessableEntity rw));
      match lookupNextEnvironment p env (ev_InvolvedObject ev) with
      | Err err =>
          mret (Write (HTMLEscape (Error err)) (WriteHeader StatusUnprocessableEntity rw))
      | Ok promEnv =>
          match GetPromotion (pl_Spec p) (env_Name promEnv) with
          | None => mret (respond_500 rw)
          | Some promSpec =>
              if prom_Manual promSpec then
                call _ <- setWaitingApproval_ p (env_Name promEnv) version
                  onerr err => mret (respond_500 rw);
                mret (WriteHeader StatusNoContent rw)
              else
                '(res, err) ← promote stratReg retry (Some promSpec)
                  (MkStrategyPromotion ns name promEnv version);
                match err with
                | Some _ => mret (respond_500 rw)
                | None => respond_promoted res rw
                end
          end
      end
  end.

(** Every run either ends in a refusal after reads only, or goes on to
    [after_verify] with what the reads and the signature check established. *)
Lemma ServeHTTP_split r rw (Q : list (event sys) -> outcome ResponseWriter -> Prop) :
  (forall tr rw', reads_only tr -> status rw' ∈ [400; 401; 404; 405; 500]%Z -> Q tr (Done rw')) ->
  rw_status rw = None ->
  (forall tr ns name env body p,
    rq_Method r = MethodPost -> rq_Body r = Ok body ->
    first_window 2 (Split slash (rq_Path r)) = Some [ns; name; env] ->
    verify_post p (rq_Header r) body tr (Done (Ok tt)) ->
    wp (after_verify r ns name env body p rw)
      (fun tr' => Q (Ev (GetPipeline (MkKey ns name)) (Ok p) :: tr ++ tr'))) ->
  wp (ServeHTTP r rw) Q.
Proof.
  intros Hrefuse Hrw Hgo. unfold PromotionHandler.ServeHTTP.
  case_bool_decide as Hm.
  { apply Hrefuse; [constructor|rewrite status_WriteHeader by done; set_solver]. }
  destruct (find_submatch promotion_path (rq_Path r)) as [m|] eqn:Hpath.
  2: { apply Hrefuse; [constructor|]. unfold NotFound.
       rewrite status_Write; [|unfold WriteHeader; simpl; by rewrite Hrw].
       rewrite status_WriteHeader by done. set_solver. }
  apply promotion_path_groups in Hpath.
  destruct (rq_Body r) as [body|e] eqn:Hbody.
  2: { apply Hrefuse; [constructor|rewrite status_WriteHeader by done; set_solver]. }
  intros [p|e]; cbn [prog_bind_def mbind prog_bind trigger].
  2: { apply Hrefuse; [by repeat constructor|].
       destruct (IsNotFound e); rewrite status_WriteHeader by done; set_solver. }
  apply wp_bind. eapply wp_mono; [|apply verifyXSignature_spec].
  intros tr o [Hreads (v & -> & Hv)]. destruct v as [[]|e]; cbn [wp_then].
  - eapply wp_mono; [|eapply (Hgo tr)]; [done|done|done|exact Hpath|].
    split; [done|]. by exists (Ok tt).
  - apply Hrefuse; [rewrite app_nil_r; by constructor|].
    rewrite status_WriteHeader by done. set_solver.
Qed.

(** ** The theorems of the webhook *)

Lemma ServeHTTP_authorised r :
  wp (ServeHTTP r new_writer) (fun tr _ => reads_only tr \/ authorised r tr).
Proof.
  apply ServeHTTP_split; [|done|].
  { intros tr rw' Hreads _. by left. }
  intros tr ns name env body p Hm Hbody Hpath [_ (v & [= <-] & Hv)].
  apply wp_runs. intros tr' o _. right. exists ns, name, env, body, p. cbn.
  split_and!; [done..|]. intros k Hk. rewrite Hk in Hv.
  destruct (Hv eq_refl) as (data & Hdata & Hauth). exists data. rewrite omap_app, Hdata. done.
Qed.

(** No effect without authorisation: any run of the webhook that does
    more than read is a POST on a path with three segments, for a pipeline
    that exists and whose signature check, if it asks for one, accepted the
    body with the key of the pipeline's secret. *)
Theorem promotion_effects_authorised r :
  wp (ServeHTTP r new_writer) (fun tr _ => ~ reads_only tr -> authorised r tr).
Proof. eapply wp_mono; [|apply ServeHTTP_authorised]. intros tr o [Hr|Ha] Hn; tauto. Qed.

Lemma after_verify_success r ns name env body p :
  rq_Method r = MethodPost -> rq_Body r = Ok body ->
  first_window 2 (Split slash (rq_Path r)) = Some [ns; name; env] ->
  wp (after_verify r ns name env body p new_writer) (fun tr o =>
    forall rw, o = Done rw -> succeeded rw ->
    exists next version spec, asks_promotion decode_event r ns name p next version spec /\
      promotion_done stratReg retry ns name p next version spec tr rw).
Proof.
  intros Hm Hbody Hpath. unfold after_verify.
  destruct (decode_event body) as [ev|] eqn:Hev.
  2: { by intros rw [= <-] []. }
  cbv zeta. case_bool_decide as Hv; [by intros rw [= <-] []|].
  destruct (lookupNextEnvironment p env (ev_InvolvedObject ev)) as [next|] eqn:Hnext;
    [|by intros rw [= <-] []].
  apply lookupNextEnvironment_spec in Hnext as (src & Hfol & Htargets & Hmatch).
  destruct (GetPromotion (pl_Spec p) (env_Name next)) as [spec|] eqn:Hspec;
    [|by intros rw [= <-] []].
  destruct (ev_Metadata ev !! "revision") as [version|] eqn:Hrev; [|done]. simpl in Hv. cbn [from_option id].
  assert (asks_promotion decode_event r ns name p next version spec) as Hasks.
  { split; [|done..]. exists env, body, ev, src. done. }
  apply wp_mono with (fun tr o => forall rw, o = Done rw -> succeeded rw ->
    promotion_done stratReg retry ns name p next version spec tr rw).
  { intros tr o Ho rw -> Hst. exists next, version, spec. eauto. }
  unfold promotion_done. destruct (prom_Manual spec); rewrite wp_bind.
  - unfold setWaitingApproval_. rewrite wp_bind, wp_trigger.
    intros [p'|e]; [|by intros rw [= <-] []]. cbn [wp_then]. rewrite wp_bind. unfold SetWaitingApproval.
    destruct (setWaitingApproval_pure (E := sys) (pl_Status p') (env_Name next)
                (MkWaitingApproval version)) as [[st' Hst]|[w ->]]; [rewrite Hst|done].
    intros [[]|e]; intros rw [= <-]; [|by intros []].
    intros _. split; [done|]. eauto.
  - apply wp_runs. intros tr [[res [err|]]|w] Hruns; [by intros rw [= <-] []| |done].
    cbn [wp_then]. eapply wp_mono; [|apply respond_promoted_reports].
    intros tr' o Ho rw -> _. destruct (Ho rw eq_refl) as (res' & -> & -> & Hrep).
    rewrite app_nil_r. eauto.
Qed.

(** C8.  What success means: when the webhook answers 201 or 204 to any
    request, the notification asked for the promotion of the environment
    that follows the path's environment, for the pipeline's own application
    and with a version, and either the environment needs manual approval and
    the status update recording the version was accepted, or the strategy's
    promotion to that version succeeded and the response carries its
    location. *)
Theorem promotion_success_sound r :
  wp (ServeHTTP r new_writer) (fun tr o => forall rw, o = Done rw -> succeeded rw ->
    exists ns name p next version spec tr1 tr2,
      asks_promotion decode_event r ns name p next version spec /\
      tr = Ev (GetPipeline (MkKey ns name)) (Ok p) :: tr1 ++ tr2 /\
      verify_post p (rq_Header r) (default "" (res_to_option (rq_Body r))) tr1 (Done (Ok tt)) /\
      promotion_done stratReg retry ns name p next version spec tr2 rw).
Proof.
  apply ServeHTTP_split; [|done|].
  { intros tr rw' _ Hcode rw [= <-] [H|H]; rewrite H in Hcode; vm_compute in Hcode;
      repeat (apply elem_of_cons in Hcode as [Hcode|Hcode]; [done|]); by apply elem_of_nil in Hcode. }
  intros tr ns name env body p Hm Hbody Hpath Hv.
  eapply wp_mono; [|by apply after_verify_success].
  intros tr' o Ho rw -> Hs. destruct (Ho rw eq_refl Hs) as (next & version & spec & Hasks & Hdone).
  exists ns, name, p, next, version, spec, tr, tr'. rewrite Hbody. done.
Qed.
End properties.
