(* ===== verification/ApprovalHandler.v ===== *)
(** * The approval webhook (server/approval_handler.go)

    [DefaultApprovalHandler.ServeHTTP]: approving the revision that waits in an
    environment promotes it and clears the waiting approval. *)

From S2P Require Export PromotionHandler ApiServer.

(** [([^/]+)/([^/]+)/([^/]+)/([^/]+)] *)
Definition approval_path : re :=
  RSeq (RCap 1 (RPlus not_slash)) (RSeq (RLit "/")
    (RSeq (RCap 2 (RPlus not_slash)) (RSeq (RLit "/")
      (RSeq (RCap 3 (RPlus not_slash)) (RSeq (RLit "/")
        (RCap 4 (RPlus not_slash))))))).

Fixpoint find_env (envs : list Environment) (env : string) : option Environment :=
  match envs with
  | [] => None
  | e :: envs => if bool_decide (env_Name e = env) then Some e else find_env envs env
  end.

Definition lookupEnvironment (pipeline : Pipeline) (env : string) : res Environment :=
  match find_env (spec_Environments (pl_Spec pipeline)) env with
  | Some e => Ok e
  | None => Err (err_unknown_env pipeline env)
  end.

Module Approval.
Section handler.
Context (stratReg : StrategyRegistry).

Definition promote (promotionSpec : option Promotion) (prom : StrategyPromotion) :
    io (res (option PromotionResult)) :=
  match promotionSpec with
  | None => mret (Err (errorf "no promotion configured in Pipeline resource"))
  | Some spec =>
      match Registry_Get stratReg spec with
      | Err err => mret (Err (wrapf "error getting strategy from registry: " err))
      | Ok strat => Promote strat spec prom
      end
  end.

Definition resetWaitingApproval (pipeline : Pipeline) (env : string) : io (res unit) :=
  call pipeline <- trigger (GetPipeline (pl_Key pipeline)) onerr err => mret (Err err);
  st ← ResetWaitingApproval (pl_Status pipeline) env;
  trigger (StatusUpdate (set_Status st pipeline)).

Definition ServeHTTP : Handler := fun r rw =>
  when bool_decide (rq_Method r <> MethodPost) return
    mret (WriteHeader StatusMethodNotAllowed rw);
  match find_submatch approval_path (rq_Path r) with
  | None => mret (NotFound rw)
  | Some pathMatches =>
      let ns := group pathMatches 1 in
      let name := group pathMatches 2 in
      let env := group pathMatches 3 in
      let revision := group pathMatches 4 in
      call pipeline <- trigger (GetPipeline (MkKey ns name)) onerr err =>
        mret (WriteHeader (if IsNotFound err then StatusNotFound
                           else StatusInternalServerError) rw);
      call _ <- verifyXSignature pipeline (rq_Header r) "" onerr err =>
        mret (WriteHeader StatusUnauthorized rw);
      waitingApproval ← GetWaitingApproval (pl_Status pipeline) env;
      when bool_decide (wa_Revision waitingApproval <> revision) return
        mret (Write "failed approving promotion" (WriteHeader StatusUnprocessableEntity rw));
      let version := wa_Revision waitingApproval in
      match lookupEnvironment pipeline env with
      | Err err => mret (Write (Error err) (WriteHeader StatusUnprocessableEntity rw))
      | Ok promEnv =>
          match GetPromotion (pl_Spec pipeline) (env_Name promEnv) with
          | None => mret (respond_500 rw)
          | Some promSpec =>
              call res <- promote (Some promSpec) (MkStrategyPromotion ns name promEnv version)
                onerr err => mret (respond_500 rw);
              call _ <- resetWaitingApproval pipeline env onerr err => mret (respond_500 rw);
              respond_promoted res rw
          end
      end
  end.
End handler.
End Approval.

(** ** Lemmas *)
Lemma approval_path_segments : approval_path = segments_re 1 3.
Proof. reflexivity. Qed.

Lemma approval_path_groups path m :
  find_submatch approval_path path = Some m ->
  first_window 3 (Split slash path) = Some [group m 1; group m 2; group m 3; group m 4].
Proof. intros H. rewrite <- find_segments, <- approval_path_segments, H. reflexivity. Qed.

Lemma find_env_spec envs env e :
  find_env envs env = Some e <->
  exists pre post, envs = pre ++ e :: post /\ env_Name e = env /\
    Forall (fun e' => env_Name e' <> env) pre.
Proof.
  induction envs as [|e' envs IH]; simpl.
  - split; [done|]. by intros ([] & ? & ? & _).
  - case_bool_decide as He.
    + split; [intros [= ->]; by exists [], envs|].
      intros ([|e'' pre] & post & [= -> ->] & Hs & Hpre); [done|]. by inversion Hpre.
    + rewrite IH. split.
      * intros (pre & post & -> & Hs & Hpre). exists (e' :: pre), post.
        split_and!; [done|done|by constructor].
      * intros ([|e'' pre] & post & [= -> ->] & Hs & Hpre); [congruence|].
        inversion Hpre; subst. by exists pre, post.
Qed.

(** What a request approves *)
Record approves (r : Request) (ns name env revision : string) (p : Pipeline) (e : Environment)
    (spec : Promotion) : Prop := {
  appr_method : rq_Method r = MethodPost;
  appr_path : first_window 3 (Split slash (rq_Path r)) = Some [ns; name; env; revision];
  appr_nonempty : revision <> "";
  appr_waiting : waiting (pl_Status p) env = revision;
  appr_env : find_env (spec_Environments (pl_Spec p)) env = Some e;
  appr_spec : GetPromotion (pl_Spec p) env = Some spec }.

Lemma GetWaitingApproval_cases {E} st env :
  (exists wa, GetWaitingApproval (E := E) st env = PRet wa /\ wa_Revision wa = waiting st env) \/
  (exists w, GetWaitingApproval (E := E) st env = PPanic w).
Proof.
  unfold GetWaitingApproval, waiting. destruct (st_Environments st !! env) as [[es|]|]; simpl; eauto.
Qed.

Section properties.
Context (stratReg : StrategyRegistry).

(** The part of the handler that has effects *)
Definition after_approval (ns name env revision : string) (p : Pipeline) (e : Environment)
    (spec : Promotion) (rw : ResponseWriter) : io ResponseWriter :=
  call res <- Approval.promote stratReg (Some spec) (MkStrategyPromotion ns name e revision)
    onerr err => mret (respond_500 rw);
  call _ <- Approval.resetWaitingApproval p env onerr err => mret (respond_500 rw);
  respond_promoted res rw.

Definition refused (rw : ResponseWriter) : Prop :=
  status rw ∈ [401; 404; 405; 422; 500]%Z.

Lemma refused_not_succeeded rw : refused rw -> succeeded rw -> False.
Proof.
  unfold refused, succeeded, StatusCreated, StatusNoContent. rewrite !elem_of_cons, elem_of_nil. lia.
Qed.

(** Every run is refused after reads only, or approves exactly the revision
    that waits. *)
Lemma Approval_split r (Q : list (event sys) -> outcome ResponseWriter -> Prop) :
  (forall tr rw', reads_only tr -> refused rw' -> Q tr (Done rw')) ->
  (forall tr w, reads_only tr -> Q tr (Panicked w)) ->
  (forall tr ns name env revision p e spec,
    approves r ns name env revision p e spec ->
    verify_post p (rq_Header r) "" tr (Done (Ok tt)) ->
    wp (after_approval ns name env revision p e spec new_writer)
      (fun tr' => Q (Ev (GetPipeline (MkKey ns name)) (Ok p) :: tr ++ tr'))) ->
  wp (Approval.ServeHTTP stratReg r new_writer) Q.
Proof.
  unfold refused. intros Hrefuse Hpanic Hgo. unfold Approval.ServeHTTP.
  case_bool_decide as Hm.
  { apply Hrefuse; [constructor|cbn; set_solver]. }
  destruct (find_submatch approval_path (rq_Path r)) as [m|] eqn:Hpath.
  2: { apply Hrefuse; [constructor|cbn; set_solver]. }
  apply approval_path_groups in Hpath. rewrite wp_bind, wp_trigger.
  intros [p|e]; cbn [wp_then].
  2: { apply Hrefuse; [by repeat constructor|]. destruct (IsNotFound e); cbn; set_solver. }
  rewrite wp_bind. eapply wp_mono; [|apply verifyXSignature_spec].
  intros tr o [Hreads (v & -> & Hv)]. destruct v as [[]|e]; cbn [wp_then].
  2: { apply Hrefuse; [rewrite app_nil_r; by constructor|cbn; set_solver]. }
  destruct (GetWaitingApproval_cases (E := sys) (pl_Status p) (group m 3))
    as [(wa & -> & Hwa)|[w ->]].
  2: { apply Hpanic. rewrite app_nil_r. by constructor. }
  rewrite bind_ret_l. case_bool_decide as Hrev.
  { apply Hrefuse; [rewrite app_nil_r; by constructor|cbn; set_solver]. }
  unfold lookupEnvironment.
  destruct (find_env (spec_Environments (pl_Spec p)) (group m 3)) as [e|] eqn:He.
  2: { apply Hrefuse; [rewrite app_nil_r; by constructor|cbn; set_solver]. }
  destruct (find_env_spec (spec_Environments (pl_Spec p)) (group m 3) e) as [Hname _].
  destruct (Hname He) as (_ & _ & _ & Hname' & _). rewrite Hname'.
  destruct (GetPromotion (pl_Spec p) (group m 3)) as [spec|] eqn:Hspec.
  2: { apply Hrefuse; [rewrite app_nil_r; by constructor|cbn; set_solver]. }
  rewrite Hrev. eapply wp_mono; [|apply (Hgo tr _ _ _ _ p e spec)].
  - done.
  - apply first_window_nonempty in Hpath as Hne. rewrite !Forall_cons in Hne.
    destruct Hne as (_ & _ & _ & Hne & _). by split; try done; congruence.
  - split; [done|]. by exists (Ok tt).
Qed.

(** What a run of the webhook is *)
Definition approval_post (r : Request) (tr : list (event sys)) (o : outcome ResponseWriter) : Prop :=
  (reads_only tr /\ forall rw, o = Done rw -> refused rw) \/
  exists ns name env revision p e spec tr1 tr2,
    approves r ns name env revision p e spec /\
    tr = Ev (GetPipeline (MkKey ns name)) (Ok p) :: tr1 ++ tr2 /\
    verify_post p (rq_Header r) "" tr1 (Done (Ok tt)) /\
    runs (after_approval ns name env revision p e spec new_writer) tr2 o.

Lemma approval_runs r : wp (Approval.ServeHTTP stratReg r new_writer) (approval_post r).
Proof.
  apply Approval_split.
  - intros tr rw' Hreads Hrw. left. split; [done|]. by intros rw [= <-].
  - intros tr w Hreads. left. by split.
  - intros tr ns name env revision p e spec Ha Hv. apply wp_runs. intros tr' o Hr.
    right. by exists ns, name, env, revision, p, e, spec, tr, tr'.
Qed.

(** C17.  The approval webhook acts only on what waits: any run either is
    refused after reads only, or the request names a pipeline, an environment
    of its specification and the non-empty revision that its status says is
    waiting there, the signature check accepted it, and the rest of the run
    is the promotion of that revision followed by the reset. *)
Theorem approval_sound r :
  wp (Approval.ServeHTTP stratReg r new_writer) (fun tr o =>
    ~ (reads_only tr /\ forall rw, o = Done rw -> refused rw) ->
    exists ns name env revision p e spec tr1 tr2,
      approves r ns name env revision p e spec /\
      tr = Ev (GetPipeline (MkKey ns name)) (Ok p) :: tr1 ++ tr2 /\
      verify_post p (rq_Header r) "" tr1 (Done (Ok tt)) /\
      runs (after_approval ns name env revision p e spec new_writer) tr2 o).
Proof. eapply wp_mono; [|apply approval_runs]. intros tr o [Hrefused|Hgo]; tauto. Qed.
End properties.

(** ** An approval is used once *)

(** A strategy that leaves the stored pipelines alone, whatever it does to the
    git host and the event stream *)
Definition no_pipeline_writes (s : StrategyI) : Prop :=
  forall spec prom, wp (Promote s spec prom) (fun tr _ => no_writes tr).

Lemma notification_no_writes : no_pipeline_writes Notification.NewNotification.
Proof. intros spec prom. cbn. intros [p|e]; simpl; repeat constructor. Qed.

Section once.
Context {S : Type} (h : handler (E := sys) S) `{!ApiServer h}.
Context (stratReg : StrategyRegistry) (Hstrat : Forall no_pipeline_writes stratReg).

(** The effect of a successful approval on the stored pipelines *)
Definition approval_used (s s' : S) (k : ObjectKey) (env : string) : Prop :=
  exists p st', stored s k = Some p /\ stored s' k = Some (set_Status st' p) /\
    waiting st' env = "" /\
    (forall env', env' <> env -> waiting st' env' = waiting (pl_Status p) env') /\
    (forall env', status_targets st' env' = status_targets (pl_Status p) env') /\
    (forall k', k' <> k -> stored s' k' = stored s k').

Lemma resetWaitingApproval_spec p env s :
  after h (Approval.resetWaitingApproval p env) s (fun _ o s' =>
    o = Done (Ok tt) -> approval_used s s' (pl_Key p) env).
Proof.
  eapply after_mono; [|apply (after_write_back h (fun st => ResetWaitingApproval st env) (pl_Key p));
    intros st; apply setWaitingApproval_pure].
  intros tr o s' Ho Hdone. destruct (Ho Hdone) as (q & st' & Hq & Hst & Hnew & Hrest).
  exists q, st'. split_and!; [done|done|..|done]; revert Hst;
    unfold ResetWaitingApproval, setWaitingApproval, waiting, status_targets;
    destruct (st_Environments (pl_Status q) !! env) as [[es|]|] eqn:He; simpl; try done;
    intros [= <-]; simpl; try intros env'; try intros Hne;
    rewrite ?lookup_insert_eq, ?lookup_insert_ne by done; try done;
    rewrite lookup_insert; case_decide; subst; by rewrite ?He.
Qed.

Lemma strategy_no_writes spec prom :
  wp (Approval.promote stratReg (Some spec) prom) (fun tr _ => no_writes tr).
Proof.
  unfold Approval.promote. destruct (Registry_Get stratReg spec) as [strat|e] eqn:Hget; [|constructor].
  apply Registry_Get_ok in Hget as (r1 & r2 & Heq & _). rewrite Heq in Hstrat.
  rewrite Forall_app, Forall_cons in Hstrat. by apply Hstrat.
Qed.

Lemma after_approval_used ns name env revision p e spec s :
  pl_Key p = MkKey ns name ->
  after h (after_approval stratReg ns name env revision p e spec new_writer) s (fun _ o s' =>
    forall rw, o = Done rw -> succeeded rw -> approval_used s s' (MkKey ns name) env).
Proof.
  intros Hk. unfold after_approval. apply after_bind.
  eapply after_mono; [|apply after_and; [apply (after_no_writes h)|apply after_wp, strategy_no_writes]].
  cbv beta. intros tr [[res|err]|w] s1 [Hsame Hw]; [|by intros rw [= <-] []|done].
  specialize (Hsame Hw). apply after_bind.
  eapply after_mono; [|apply resetWaitingApproval_spec].
  intros tr' [[[]|err]|w] s2 Hreset; [|by intros rw [= <-] []|done].
  unfold approval_used in *. rewrite Hk in Hreset. setoid_rewrite Hsame in Hreset.
  destruct res as [res|]; [|done]. intros rw _ _. by apply Hreset.
Qed.

(** C4.  An approval is used once.  Against an API server that keeps its
    promises, with strategies that leave pipelines alone: after an approval
    that answered with success the environment waits for nothing, every other
    environment, target and pipeline is as before, and the same request sent
    again is refused after reads only. *)
Theorem approval_once r s :
  after h (Approval.ServeHTTP stratReg r new_writer) s (fun _ o s' =>
    forall rw, o = Done rw -> succeeded rw ->
    (exists ns name env revision,
      first_window 3 (Split slash (rq_Path r)) = Some [ns; name; env; revision] /\
      approval_used s s' (MkKey ns name) env) /\
    after h (Approval.ServeHTTP stratReg r new_writer) s' (fun tr' o' _ =>
      reads_only tr' /\ forall rw', o' = Done rw' -> refused rw')).
Proof.
  destruct (exec h (Approval.ServeHTTP stratReg r new_writer) s) as [[tr o] s'] eqn:He.
  unfold after at 1. rewrite He. intros rw -> Hok.
  apply exec_consistent in He as (Hr & Hc & ->).
  pose proof (proj1 (wp_runs _ _) (approval_runs stratReg r) _ _ Hr) as
    [[_ Href]|(ns & name & env & rev & p & e & spec & tr1 & tr2 & Ha & -> & Hv & Hr2)].
  { exfalso. by eapply refused_not_succeeded; [apply Href|]. }
  destruct Hc as [Hget Hc]. apply consistent_app in Hc as [Hc1 Hc2]. cbn [final].
  rewrite final_app in *. symmetry in Hget. apply api_get in Hget as Hp.
  pose proof (api_other _ (GetPipeline (MkKey ns name)) s eq_refl) as Hsame1.
  pose proof (final_no_writes h (h _ (GetPipeline (MkKey ns name)) s).2 tr1
    (reads_no_writes _ (proj1 Hv))) as Hsame2.
  pose proof (after_runs h _ _ _ _ _ Hr2 Hc2 (after_approval_used ns name env rev p e spec _
    (api_key _ _ _ Hp)) rw eq_refl Hok) as Hused.
  unfold approval_used in Hused. setoid_rewrite Hsame2 in Hused. setoid_rewrite Hsame1 in Hused.
  split; [exists ns, name, env, rev; split; [apply Ha|done]|].
  set (s2 := final h _ tr2) in *. unfold after.
  destruct (exec h (Approval.ServeHTTP stratReg r new_writer) s2) as [[tr' o'] s''] eqn:He.
  apply exec_consistent in He as (Hr' & Hc' & ->).
  pose proof (proj1 (wp_runs _ _) (approval_runs stratReg r) _ _ Hr') as
    [?|(ns' & name' & env' & rev' & p' & e' & spec' & tr1' & tr2' & Ha' & -> & _)]; [done|exfalso].
  destruct Hc' as [Hget' _]. symmetry in Hget'. apply api_get in Hget'.
  destruct Ha as [_ Hpath _ _ _ _], Ha' as [_ Hpath' Hne Hwait _ _].
  rewrite Hpath in Hpath'. injection Hpath' as <- <- <- <-.
  destruct Hused as (q & st' & _ & Hq' & Hempty & _). rewrite Hq' in Hget'. injection Hget' as <-.
  cbn [pl_Status set_Status] in Hwait. congruence.
Qed.

(** The reset is not conditional on the revision that was approved: when
    another notification records a newer revision between the promotion and
    the reset of an approval, both updates succeed and the newer revision is
    no longer waiting. *)
Theorem approval_reset_discards_newer p env newer s :
  after h (setWaitingApproval_ p env newer) s (fun _ o s1 => o = Done (Ok tt) ->
    (exists p1, stored s1 (pl_Key p) = Some p1 /\ waiting (pl_Status p1) env = newer) /\
    after h (Approval.resetWaitingApproval p env) s1 (fun _ o s2 => o = Done (Ok tt) ->
      exists p2, stored s2 (pl_Key p) = Some p2 /\ waiting (pl_Status p2) env = "")).
Proof.
  eapply after_mono; [|apply (after_write_back h (fun st => SetWaitingApproval st env newer) (pl_Key p));
    intros st; apply setWaitingApproval_pure].
  cbv beta. intros tr o s1 Ho Hdone. destruct (Ho Hdone) as (q & st' & _ & Hst & Hq & _). split.
  - exists (set_Status st' q). split; [done|]. revert Hst.
    unfold SetWaitingApproval, setWaitingApproval, waiting.
    destruct (st_Environments (pl_Status q) !! env) as [[es|]|]; simpl; try done;
      intros [= <-]; simpl; by rewrite lookup_insert_eq.
  - eapply after_mono; [|apply resetWaitingApproval_spec].
    intros tr' o' s2 Hused Hdone'. destruct (Hused Hdone') as (q' & st2 & _ & Hq' & Hw & _).
    by exists (set_Status st2 q').
Qed.
End once.

(** ** The theorems at a concrete server *)
Definition sample_approval : Request :=
  MkRequest MethodPost "/default/podinfo/prod/5.0.0" "" ∅ "10.0.0.1:4242" (Ok "").

Lemma approval_once_witness :
  let serve := Approval.ServeHTTP [Notification.NewNotification] sample_approval new_writer in
  let s := sample_server false in
  (result map_handler serve s).1 = Done (WriteHeader StatusNoContent new_writer) /\
  after map_handler serve s (fun _ o s' =>
    forall rw, o = Done rw -> succeeded rw ->
    (exists ns name env revision,
      first_window 3 (Split slash (rq_Path sample_approval)) = Some [ns; name; env; revision] /\
      approval_used map_handler s s' (MkKey ns name) env) /\
    after map_handler serve s' (fun tr' o' _ =>
      reads_only tr' /\ forall rw', o' = Done rw' -> refused rw')).
Proof.
  split; [vm_compute; reflexivity|].
  apply (approval_once map_handler [Notification.NewNotification]
           (Forall_cons_2 _ _ _ notification_no_writes (Forall_nil_2 _))).
Defined.

Lemma approval_reset_witness :
  let p := sample_pipeline false sample_status in
  let s := sample_server false in
  (result map_handler (setWaitingApproval_ p "prod" "5.0.1") s).1 = Done (Ok tt) /\
  after map_handler (setWaitingApproval_ p "prod" "5.0.1") s (fun _ o s1 => o = Done (Ok tt) ->
    (exists p1, stored (h := map_handler) s1 (pl_Key p) = Some p1 /\ waiting (pl_Status p1) "prod" = "5.0.1") /\
    after map_handler (Approval.resetWaitingApproval p "prod") s1 (fun _ o s2 => o = Done (Ok tt) ->
      exists p2, stored (h := map_handler) s2 (pl_Key p) = Some p2 /\ waiting (pl_Status p2) "prod" = "")).
Proof. split; [vm_compute; reflexivity|apply approval_reset_discards_newer]. Defined.
