(* ===== verification/Server.v ===== *)
(** * The promotion server (server/promotion_server.go, server/opts.go)

    Construction with options and defaults, the client address, the rate limit
    middleware and the routing of requests to the two webhooks.  The limiter is
    the only state the server itself keeps; it is threaded through requests,
    each of which touches it once, at its start. *)

From S2P Require Export RateLimiter PullRequestSpec ApprovalHandler GoStrings.

(** ** The server and its options *)
Record rateLimit := MkRateLimit { lim_count : Z; lim_interval : Z }.

Record PromotionServer := MkPromotionServer {
  ps_addr : string;
  ps_promHandler : option Handler;
  ps_promEndpointName : string;
  ps_approvalHandler : option Handler;
  ps_approvalEndpointName : string;
  ps_stratReg : StrategyRegistry;
  ps_rateLimit : rateLimit;
  ps_retry : RetryOpts }.

Definition DefaultRateLimitCount : Z := 20.
Definition DefaultRateLimitInterval : Z := 30.
Definition DefaultListenAddr := "127.0.0.1:8080".
Definition DefaultPromotionEndpoint := "/promotion".
Definition DefaultApprovalEndpoint := "/approval".
Definition ErrClientCantBeNil : error := errorf "client can't be nil".

Definition Opt := PromotionServer -> res PromotionServer.

Definition ListenAddr (addr : string) : Opt := fun s =>
  Ok (MkPromotionServer addr (ps_promHandler s) (ps_promEndpointName s) (ps_approvalHandler s)
        (ps_approvalEndpointName s) (ps_stratReg s) (ps_rateLimit s) (ps_retry s)).

Definition PromotionHandler (hndlr : Handler) : Opt := fun s =>
  Ok (MkPromotionServer (ps_addr s) (Some hndlr) (ps_promEndpointName s) (ps_approvalHandler s)
        (ps_approvalEndpointName s) (ps_stratReg s) (ps_rateLimit s) (ps_retry s)).

Definition PromotionEndpointName (n : string) : Opt := fun s =>
  Ok (MkPromotionServer (ps_addr s) (ps_promHandler s) n (ps_approvalHandler s)
        (ps_approvalEndpointName s) (ps_stratReg s) (ps_rateLimit s) (ps_retry s)).

Definition WithStrategyRegistry (stratReg : StrategyRegistry) : Opt := fun s =>
  Ok (MkPromotionServer (ps_addr s) (ps_promHandler s) (ps_promEndpointName s) (ps_approvalHandler s)
        (ps_approvalEndpointName s) stratReg (ps_rateLimit s) (ps_retry s)).

Definition WithRetry (delay maxDelay threshold : Z) : Opt := fun s =>
  Ok (MkPromotionServer (ps_addr s) (ps_promHandler s) (ps_promEndpointName s) (ps_approvalHandler s)
        (ps_approvalEndpointName s) (ps_stratReg s) (ps_rateLimit s)
        (MkRetryOpts delay maxDelay threshold)).

Definition WithRateLimit (count interval : Z) : Opt := fun s =>
  Ok (MkPromotionServer (ps_addr s) (ps_promHandler s) (ps_promEndpointName s) (ps_approvalHandler s)
        (ps_approvalEndpointName s) (ps_stratReg s) (MkRateLimit count interval) (ps_retry s)).

(** [getRealIP] *)
Definition getRealIP (r : Request) : string :=
  let address := Header_Get (rq_Header r) "X-Real-IP" in
  let address := if bool_decide (address = "")
                 then Header_Get (rq_Header r) "X-Forwarder-For" else address in
  let address := if bool_decide (address = "") then rq_RemoteAddr r else address in
  if Contains colon address then default "" (head (Split colon address)) else address.

(** [limiter.Hit(ip)]: the clock is read when the key has no window. *)
Definition limiter_Hit (key : string) (rl : Limiter) : io (Limiter * (Limit * option string)) :=
  match rl_limits rl !! key with
  | Some l => mret (Hit (lim_Created l) key rl)
  | None => now ← trigger Now; mret (Hit now key rl)
  end.

(** ** Routing: net/http's [ServeMux] for rooted patterns *)

(** [path.Clean] of a rooted path, piece by piece *)
Fixpoint clean_pieces (stack : list string) (ps : list string) : list string :=
  match ps with
  | [] => rev stack
  | p :: ps =>
      if bool_decide (p = "") || bool_decide (p = ".") then clean_pieces stack ps
      else if bool_decide (p = "..") then clean_pieces (tail stack) ps
      else clean_pieces (p :: stack) ps
  end.

(** The [cleanPath] of net/http: a rooted clean path that keeps a trailing slash *)
Definition cleanPath (p : string) : string :=
  let pieces := Split slash p in
  let np := String slash (Join slash (clean_pieces [] pieces)) in
  if bool_decide (last pieces = Some "") && negb (bool_decide (np = "/"))
  then np +:+ String slash "" else np.

Inductive route :=
  | RouteRedirect (path : string)
  | RoutePromotion
  | RouteApproval
  | RouteHealthz
  | RouteNone.

(** The patterns [Start] registers: ["/promotion/"], ["/approval/"] and
    ["/healthz"].  A path that is not clean is redirected, and so is a pattern
    without its final slash. *)
Definition mux_route (method path : string) : route :=
  let clean := cleanPath path in
  if negb (bool_decide (method = "CONNECT")) && negb (bool_decide (clean = path))
  then RouteRedirect (if bool_decide (clean = "/promotion") || bool_decide (clean = "/approval")
                      then clean +:+ "/" else clean)
  else if HasPrefix path "/promotion/" then RoutePromotion
  else if HasPrefix path "/approval/" then RouteApproval
  else if bool_decide (path = "/healthz") then RouteHealthz
  else if bool_decide (path = "/promotion") || bool_decide (path = "/approval")
       then RouteRedirect (path +:+ "/")
  else RouteNone.

Section server.
(** The event decoder of fluxcd/pkg; [time.Format(time.RFC1123)], which
    depends on the time zone of the host; the redirect response of net/http
    for a path; the health check of controller-runtime *)
Context (decode_event : string -> res Event) (format_RFC1123 : Z -> string)
  (redirect : string -> ResponseWriter -> ResponseWriter) (healthz : Handler).

Definition setDefaults (s : PromotionServer) : PromotionServer :=
  let orElse (a b : string) := if bool_decide (a = "") then b else a in
  MkPromotionServer (orElse (ps_addr s) DefaultListenAddr)
    (Some (default (ServeHTTP decode_event (ps_stratReg s) (ps_retry s)) (ps_promHandler s)))
    (orElse (ps_promEndpointName s) DefaultPromotionEndpoint)
    (Some (default (Approval.ServeHTTP (ps_stratReg s)) (ps_approvalHandler s)))
    (orElse (ps_approvalEndpointName s) DefaultApprovalEndpoint)
    (ps_stratReg s) (ps_rateLimit s) (ps_retry s).

(** The loop over the options *)
Fixpoint apply_opts (opts : list Opt) (s : PromotionServer) : res PromotionServer :=
  match opts with
  | [] => Ok s
  | opt :: opts => s ← opt s; apply_opts opts s
  end.

(** [NewPromotionServer] before it listens *)
Definition NewPromotionServer_opts (client_nil : bool) (opts : list Opt) : res PromotionServer :=
  if client_nil then Err ErrClientCantBeNil
  else
    s ← apply_opts opts
          (MkPromotionServer "" None "" None "" []
             (MkRateLimit DefaultRateLimitCount (time_Second * DefaultRateLimitInterval))
             (MkRetryOpts 0 0 0));
    Ok (setDefaults s).

(** [NewPromotionServer]; [listen] is [net.Listen] on TCP. *)
Definition NewPromotionServer (listen : string -> res unit) (client_nil : bool) (opts : list Opt) :
    res PromotionServer :=
  s ← NewPromotionServer_opts client_nil opts;
  match listen (ps_addr s) with
  | Err err => Err (wrapf "failed creating listener: " err)
  | Ok _ => Ok s
  end.

(** [rateLimitMiddleware] *)
Definition rateLimitMiddleware (h : Handler) (limiter : Limiter) (r : Request)
    (w : ResponseWriter) : io (Limiter * ResponseWriter) :=
  '(limiter', (limit, err)) ← limiter_Hit (getRealIP r) limiter;
  match err with
  | Some _ =>
      mret (limiter', WriteHeader StatusTooManyRequests
              (AddHeader "Retry-After"
                 (format_RFC1123 (lim_Created limit + rl_Duration limiter')) w))
  | None => w ← h r w; mret (limiter', w)
  end.

(** A nil handler cannot be served: [setDefaults] has filled both in. *)
Definition handler_of (h : option Handler) : Handler := fun r w => f ← deref h; f r w.

(** The limiter [Start] creates *)
Definition server_limiter (s : PromotionServer) : Limiter :=
  NewLimiter [WithLimit (lim_count (ps_rateLimit s)); WithDuration (lim_interval (ps_rateLimit s))].

(** The mux [Start] serves: one request *)
Definition serve (s : PromotionServer) (limiter : Limiter) (r : Request) :
    io (Limiter * ResponseWriter) :=
  match mux_route (rq_Method r) (rq_Path r) with
  | RouteRedirect path => mret (limiter, redirect path new_writer)
  | RoutePromotion =>
      rateLimitMiddleware (StripPrefix (ps_promEndpointName s) (handler_of (ps_promHandler s)))
        limiter r new_writer
  | RouteApproval =>
      rateLimitMiddleware
        (StripPrefix (ps_approvalEndpointName s) (handler_of (ps_approvalHandler s)))
        limiter r new_writer
  | RouteHealthz => w ← healthz r new_writer; mret (limiter, w)
  | RouteNone => mret (limiter, NotFound new_writer)
  end.
End server.

(** ** Routing lemmas *)

(** A path segment that [cleanPath] keeps *)
Definition plain (p : string) : Prop :=
  p <> "" /\ p <> "." /\ p <> ".." /\ Contains slash p = false.

Lemma clean_pieces_plain stack ps :
  Forall plain ps -> clean_pieces stack ps = rev stack ++ ps.
Proof.
  intros H. revert stack. induction H as [|p ps (H1 & H2 & H3 & _) _ IH]; intros stack; simpl.
  - by rewrite app_nil_r.
  - rewrite !bool_decide_false by done. simpl. rewrite IH. simpl. by rewrite <- app_assoc.
Qed.

Lemma cleanPath_plain ps :
  ps <> [] -> Forall plain ps -> cleanPath (String slash (Join slash ps)) = String slash (Join slash ps).
Proof.
  intros Hne Hps. unfold cleanPath. cbn [Split]. rewrite decide_True by done.
  rewrite Split_Join; [|done|eapply Forall_impl; [exact Hps|by intros p (_ & _ & _ & ?)]].
  change (clean_pieces [] ("" :: ps)) with (clean_pieces [] ps).
  rewrite clean_pieces_plain by done. simpl rev. rewrite app_nil_l.
  rewrite (bool_decide_false (last ("" :: ps) = Some "")); [done|].
  destruct (exists_last Hne) as (ps' & p & ->). rewrite app_comm_cons, last_snoc. intros [= ->].
  apply Forall_app in Hps as [_ Hp]. inversion_clear Hp as [|?? (Hp' & _)]. done.
Qed.

(** The path of a webhook request under a prefix *)
Definition hook_path (hook : string) (segments : list string) : string :=
  String slash (Join slash (hook :: segments)).

Lemma hook_path_split hook segments :
  segments <> [] -> hook_path hook segments = String slash hook +:+ String slash (Join slash segments).
Proof. intros H. unfold hook_path. by rewrite Join_cons. Qed.

Lemma cleanPath_hook hook segments :
  plain hook -> Forall plain segments -> cleanPath (hook_path hook segments) = hook_path hook segments.
Proof. intros Hh Hs. apply cleanPath_plain; [done|by constructor]. Qed.

Lemma plain_hooks : plain "promotion" /\ plain "approval".
Proof. repeat split; done. Qed.

Lemma mux_route_hook method hook segments :
  segments <> [] -> Forall plain segments ->
  (hook = "promotion" -> mux_route method (hook_path hook segments) = RoutePromotion) /\
  (hook = "approval" -> mux_route method (hook_path hook segments) = RouteApproval).
Proof.
  intros Hne Hseg. split; intros ->; unfold mux_route; rewrite cleanPath_hook by (apply plain_hooks || done);
    rewrite (bool_decide_true (hook_path _ _ = hook_path _ _)) by done; rewrite andb_false_r;
    rewrite hook_path_split by done; reflexivity.
Qed.

Lemma StripPrefix_hook hook (h : Handler) r rw segments :
  segments <> [] -> rq_Path r = hook_path hook segments -> rq_RawPath r = "" ->
  StripPrefix (String slash hook) h r rw = h (with_path (String slash (Join slash segments)) "" r) rw.
Proof.
  intros Hne Hpath Hraw. apply StripPrefix_prefix; [done| |done]. by rewrite Hpath, hook_path_split.
Qed.

(** The limiter step: it reads at most the clock. *)
Lemma wp_limiter_Hit key rl Q :
  (forall tr now, reads_only tr -> (rl_limits rl !! key <> None \/ tr = [Ev Now now]) ->
     Q tr (Done (Hit now key rl))) ->
  wp (limiter_Hit key rl) Q.
Proof.
  intros HQ. unfold limiter_Hit. destruct (rl_limits rl !! key) as [l|] eqn:Hl; simpl.
  - apply HQ; [constructor|by left].
  - intros now. apply HQ; [by repeat constructor|by right].
Qed.

(** The first window of three segments after the empty one *)
Lemma hook_segments segments :
  segments <> [] -> Forall plain segments ->
  first_window (length segments - 1) (Split slash (String slash (Join slash segments))) = Some segments.
Proof.
  intros Hne Hseg. cbn [Split]. rewrite decide_True by done.
  rewrite Split_Join; [|done|eapply Forall_impl; [exact Hseg|by intros p (_ & _ & _ & ?)]].
  rewrite first_window_skip_empty. apply first_window_all; [done|].
  eapply Forall_impl; [exact Hseg|]. by intros p [].
Qed.

Lemma StripPrefix_no prefix h r rw :
  prefix <> "" -> HasPrefix (rq_Path r) prefix = false -> StripPrefix prefix h r rw = mret (NotFound rw).
Proof.
  intros Hne Hno. unfold StripPrefix, TrimPrefix. rewrite bool_decide_false by done. rewrite Hno.
  by rewrite (bool_decide_false (len (rq_Path r) < len (rq_Path r))%Z) by lia.
Qed.

Lemma StripPrefix_cases prefix h r rw Q :
  wp (mret (NotFound rw) : io _) Q -> (forall p rp, wp (h (with_path p rp r) rw) Q) ->
  wp (StripPrefix prefix h r rw) Q.
Proof.
  intros Hno Hh. unfold StripPrefix. case_bool_decide.
  - specialize (Hh (rq_Path r) (rq_RawPath r)). by destruct r.
  - case_match; [apply Hh|apply Hno].
Qed.

Lemma mux_route_prefix method path :
  (mux_route method path = RoutePromotion -> HasPrefix path "/promotion/" = true) /\
  (mux_route method path = RouteApproval -> HasPrefix path "/approval/" = true).
Proof.
  unfold mux_route. repeat case_match; split; done.
Qed.

(** main.go registers the pull request strategy, then the notification
    strategy. *)
Definition main_strategies `{GitLibs} : res StrategyRegistry :=
  match PullRequest_New [] with
  | Err err => Err err
  | Ok pullRequestStrategy =>
      Ok (Register (Register [] pullRequestStrategy) Notification.NewNotification)
  end.

(** main.go builds its server with these options; the logger is left out. *)
Definition main_opts (count interval delay maxDelay threshold : Z) (addr : string)
    (stratReg : StrategyRegistry) : list Opt :=
  [WithRateLimit count (wrap64 (interval * time_Second)); WithRetry delay maxDelay threshold;
   ListenAddr addr; WithStrategyRegistry stratReg].

Definition main_server (listen : string -> res unit) (decode_event : string -> res Event)
    (count interval delay maxDelay threshold : Z) (addr : string) (stratReg : StrategyRegistry) :
    res PromotionServer :=
  NewPromotionServer decode_event listen false
    (main_opts count interval delay maxDelay threshold addr stratReg).

Lemma within_no_writes prSpec promotion tr : Forall (within prSpec promotion) tr -> no_writes tr.
Proof. intros Htr. eapply Forall_impl; [exact Htr|]. intros [X e x]. by destruct e. Qed.

Lemma main_strategies_spec `{GitLibs} :
  exists stratReg, main_strategies = Ok stratReg /\ Forall no_pipeline_writes stratReg /\
    forall p, strat_PullRequest (prom_Strategy p) <> None ->
      Registry_Get stratReg p = Ok (PullRequest_strategy NewGitProviderClientFactory).
Proof.
  eexists. split; [reflexivity|]. split.
  - repeat constructor; [|apply notification_no_writes]. intros spec prom.
    eapply wp_mono; [|apply pull_request_runs]. intros tr o Htr.
    destruct (strat_PullRequest (prom_Strategy spec)); [by eapply within_no_writes|].
    subst tr. constructor.
  - intros p Hp. simpl. unfold PullRequest_Handles. by destruct (strat_PullRequest (prom_Strategy p)).
Qed.

(** C26.  Neither strategy that main.go registers writes a pipeline, whatever
    it does to the git host and the event stream; and a promotion that asks for
    both goes to a pull request. *)
Theorem main_strategies_no_writes `{GitLibs} :
  exists stratReg, main_strategies = Ok stratReg /\ Forall no_pipeline_writes stratReg /\
    forall p, strat_PullRequest (prom_Strategy p) <> None ->
      Registry_Get stratReg p = Ok (PullRequest_strategy NewGitProviderClientFactory).
Proof. apply main_strategies_spec. Qed.

Section properties.
Context (decode_event : string -> res Event) (format_RFC1123 : Z -> string)
  (redirect : string -> ResponseWriter -> ResponseWriter) (healthz : Handler).
Abbreviation serve := (serve format_RFC1123 redirect healthz).

(** The server runs the handlers of the repository. *)
Definition own_handlers (s : PromotionServer) : Prop :=
  ps_promHandler s = Some (ServeHTTP decode_event (ps_stratReg s) (ps_retry s)) /\
  ps_approvalHandler s = Some (Approval.ServeHTTP (ps_stratReg s)).

(** The trace of an approval that was let through *)
Definition approval_authorised (r : Request) (tr : list (event sys)) : Prop :=
  exists ns name env revision p e spec tr1 tr2,
    approves r ns name env revision p e spec /\
    tr = Ev (GetPipeline (MkKey ns name)) (Ok p) :: tr1 ++ tr2 /\
    verify_post p (rq_Header r) "" tr1 (Done (Ok tt)).

Lemma approval_authorised_runs stratReg r :
  wp (Approval.ServeHTTP stratReg r new_writer)
    (fun tr _ => reads_only tr \/ approval_authorised r tr).
Proof.
  eapply wp_mono; [|apply approval_runs].
  intros tr o [[Hr _]|(ns & name & env & rev & p & e & spec & tr1 & tr2 & Ha & -> & Hv & _)]; [by left|].
  right. by exists ns, name, env, rev, p, e, spec, tr1, tr2.
Qed.

(** A run of the server: reads, then nothing more, or a webhook request that
    was authorised *)
Definition authorised_run (r : Request) (tr : list (event sys)) : Prop :=
  exists p rp tr0 tr1, tr = tr0 ++ tr1 /\ reads_only tr0 /\
    (authorised (with_path p rp r) tr1 \/ approval_authorised (with_path p rp r) tr1).

Lemma rateLimitMiddleware_authorised h limiter r w :
  wp (h r w) (fun tr _ => reads_only tr \/ authorised_run r tr) ->
  wp (rateLimitMiddleware format_RFC1123 h limiter r w)
    (fun tr _ => reads_only tr \/ authorised_run r tr).
Proof.
  intros Hh. unfold rateLimitMiddleware. rewrite wp_bind. apply wp_limiter_Hit.
  intros tr0 now Hr0 _. cbn [wp_then].
  destruct (Hit now (getRealIP r) limiter) as [limiter' [limit [err|]]].
  - left. by rewrite app_nil_r.
  - rewrite wp_bind. eapply wp_mono; [|exact Hh]. intros tr [w'|why] Ho; cbn [wp_then wp mret prog_ret];
      rewrite ?app_nil_r; (destruct Ho as [Hr|(p & rp & tr1 & tr2 & -> & Hr1 & Ha)]; [left; by apply reads_only_app|right]);
      exists p, rp, (tr0 ++ tr1), tr2; rewrite app_assoc; (split; [done|split; [by apply reads_only_app|done]]).
Qed.

Lemma StripPrefix_authorised prefix (h : Handler) r :
  (forall r, wp (h r new_writer) (fun tr _ =>
     reads_only tr \/ authorised r tr \/ approval_authorised r tr)) ->
  wp (StripPrefix prefix h r new_writer) (fun tr _ => reads_only tr \/ authorised_run r tr).
Proof.
  intros Hh. apply StripPrefix_cases; [left; constructor|]. intros p rp.
  eapply wp_mono; [|apply Hh]. intros tr o [Hr|Ha]; [by left|].
  right. exists p, rp, [], tr. by split_and!; [|constructor|].
Qed.

(** C1.  Whatever request reaches the server, it does more than read only
    when a webhook authorised it: a promotion whose signature check accepted
    the body, or an approval of a revision that was waiting. *)
Theorem server_effects_authorised s limiter r :
  own_handlers s -> (forall r w, wp (healthz r w) (fun tr _ => reads_only tr)) ->
  wp (serve s limiter r) (fun tr _ => ~ reads_only tr -> authorised_run r tr).
Proof.
  intros [Hp Ha] Hhealthz.
  apply wp_mono with (fun tr (_ : outcome (Limiter * ResponseWriter)) =>
    reads_only tr \/ authorised_run r tr); [tauto|].
  unfold Server.serve. destruct (mux_route (rq_Method r) (rq_Path r)).
  - left. constructor.
  - apply rateLimitMiddleware_authorised, StripPrefix_authorised. rewrite Hp. intros r'.
    eapply wp_mono; [|apply ServeHTTP_authorised]. simpl. tauto.
  - apply rateLimitMiddleware_authorised, StripPrefix_authorised. rewrite Ha. intros r'.
    eapply wp_mono; [|apply approval_authorised_runs]. simpl. tauto.
  - rewrite wp_bind. eapply wp_mono; [|apply Hhealthz]. intros tr [w|why] Hr; left; simpl; [|done].
    by rewrite app_nil_r.
  - left. constructor.
Qed.

(** C27.  The server main.go builds serves the documented addresses: a request
    on [/promotion/<ns>/<name>/<env>] is the rate limited promotion webhook
    on exactly these three names, one on
    [/approval/<ns>/<name>/<env>/<revision>] the approval webhook on these
    four. *)
Theorem main_server_serves listen count interval delay maxDelay threshold addr stratReg s
    limiter r segments :
  main_server listen decode_event count interval delay maxDelay threshold addr stratReg = Ok s ->
  segments <> [] -> Forall plain segments -> rq_RawPath r = "" ->
  let r' := with_path (String slash (Join slash segments)) "" r in
  first_window (length segments - 1) (Split slash (rq_Path r')) = Some segments /\
  (rq_Path r = hook_path "promotion" segments ->
   serve s limiter r =
     rateLimitMiddleware format_RFC1123
       (fun _ => ServeHTTP decode_event stratReg (MkRetryOpts delay maxDelay threshold) r')
       limiter r new_writer) /\
  (rq_Path r = hook_path "approval" segments ->
   serve s limiter r =
     rateLimitMiddleware format_RFC1123 (fun _ => Approval.ServeHTTP stratReg r')
       limiter r new_writer).
Proof.
  intros Hs Hne Hseg Hraw r'.
  split; [by apply hook_segments|].
  unfold main_server, NewPromotionServer, setDefaults in Hs. simpl in Hs.
  destruct (listen _); [|done]. injection Hs as <-. unfold Server.serve, rateLimitMiddleware. simpl.
  split; intros Hpath; rewrite Hpath.
  - rewrite (proj1 (mux_route_hook _ "promotion" segments Hne Hseg) eq_refl).
    by rewrite (StripPrefix_hook "promotion" _ _ _ segments).
  - rewrite (proj2 (mux_route_hook _ "approval" segments Hne Hseg) eq_refl).
    by rewrite (StripPrefix_hook "approval" _ _ _ segments).
Qed.

(** Over the limit: a request from an address whose window is full is
    answered 429 with the end of the window in [Retry-After], and no call is
    made: neither webhook runs. *)
Theorem full_window_refuses s limiter r l :
  mux_route (rq_Method r) (rq_Path r) = RoutePromotion \/
    mux_route (rq_Method r) (rq_Path r) = RouteApproval ->
  rl_limits limiter !! getRealIP r = Some l ->
  (0 <= lim_Hits l < two63 - 1)%Z -> (rl_Limit limiter <= lim_Hits l)%Z ->
  exists limiter' w, serve s limiter r = mret (limiter', w) /\
    status w = StatusTooManyRequests /\
    sent_header w !! "Retry-After" =
      Some [format_RFC1123 (lim_Created l + rl_Duration limiter)].
Proof.
  intros Hroute Hl Hrange Hfull.
  assert (forall h, rateLimitMiddleware format_RFC1123 h limiter r new_writer =
    mret ((Hit (lim_Created l) (getRealIP r) limiter).1,
          WriteHeader StatusTooManyRequests
            (AddHeader "Retry-After" (format_RFC1123 (lim_Created l + rl_Duration limiter)) new_writer)))
    as Hmw.
  { intros h. unfold rateLimitMiddleware, limiter_Hit, Hit. rewrite Hl. cbn [from_option id].
    unfold Limit_Hit. cbn [lim_Hits]. rewrite wrap64_id by (unfold int64, two63 in *; lia).
    by rewrite bool_decide_true by lia. }
  unfold Server.serve. destruct Hroute as [-> | ->]; rewrite Hmw; by eexists _, _.
Qed.
End properties.

(** ** The configured endpoint name *)
Definition with_promotion (n : string) (h : Handler) (s : PromotionServer) : PromotionServer :=
  MkPromotionServer (ps_addr s) (Some h) n (ps_approvalHandler s)
    (ps_approvalEndpointName s) (ps_stratReg s) (ps_rateLimit s) (ps_retry s).

(** A promotion endpoint name that diverges from ["/promotion/"] cannot be
    served: whatever handler is configured under it, every request gets the
    same answer, so no request reaches the handler. *)
Theorem custom_endpoint_unreachable format_RFC1123 redirect healthz n s h h' limiter r :
  n <> "" -> HasPrefix n "/promotion/" = false -> HasPrefix "/promotion/" n = false ->
  serve format_RFC1123 redirect healthz (with_promotion n h s) limiter r =
  serve format_RFC1123 redirect healthz (with_promotion n h' s) limiter r.
Proof.
  intros Hne H1 H2. unfold serve.
  destruct (mux_route (rq_Method r) (rq_Path r)) eqn:Hroute; try done.
  unfold rateLimitMiddleware. cbn [ps_promHandler ps_promEndpointName with_promotion].
  apply mux_route_prefix in Hroute.
  assert (HasPrefix (rq_Path r) n = false) as Hno.
  { apply not_true_is_false. intros Hn. destruct (HasPrefix_comparable _ _ _ Hn Hroute); congruence. }
  by rewrite !StripPrefix_no.
Qed.

(** ** The address of a client *)
Definition with_header (h : Header) (r : Request) : Request :=
  MkRequest (rq_Method r) (rq_Path r) (rq_RawPath r) h (rq_RemoteAddr r) (rq_Body r).

Lemma getRealIP_RemoteAddr r host rest :
  Header_Get (rq_Header r) "X-Real-IP" = "" -> Header_Get (rq_Header r) "X-Forwarder-For" = "" ->
  rq_RemoteAddr r = host +:+ String colon rest -> Contains colon host = false ->
  getRealIP r = host.
Proof.
  intros H1 H2 Haddr Hhost. unfold getRealIP. rewrite H1, H2. simpl bool_decide. cbv iota.
  rewrite Haddr, Contains_app, Hhost. cbn [Contains orb]. rewrite decide_True by done.
  by rewrite Split_app.
Qed.

(** Without a proxy header the key of a client is its address up to the
    first colon: the host of an IPv4 address, but of an IPv6 one only the
    bracket and the first group, so all IPv6 clients that agree on it share
    one window. *)
Theorem ipv6_clients_share_window r1 r2 group rest1 rest2 :
  Forall (fun r => Header_Get (rq_Header r) "X-Real-IP" = "" /\
                   Header_Get (rq_Header r) "X-Forwarder-For" = "") [r1; r2] ->
  rq_RemoteAddr r1 = "[" +:+ group +:+ ":" +:+ rest1 ->
  rq_RemoteAddr r2 = "[" +:+ group +:+ ":" +:+ rest2 ->
  Contains colon group = false ->
  getRealIP r1 = "[" +:+ group /\ getRealIP r2 = getRealIP r1.
Proof.
  intros Hh H1 H2 Hg. rewrite !Forall_cons in Hh. destruct Hh as ([] & [] & _).
  rewrite (getRealIP_RemoteAddr r1 ("[" +:+ group) rest1), (getRealIP_RemoteAddr r2 ("[" +:+ group) rest2);
    rewrite ?app_assoc_str; done.
Qed.

Lemma Header_Get_Set_ne h k k' v :
  CanonicalHeaderKey k <> CanonicalHeaderKey k' -> Header_Get (Header_Set k' v h) k = Header_Get h k.
Proof. intros H. unfold Header_Get, Header_Set, header_values. by rewrite lookup_insert_ne. Qed.

(** The header proxies set, [X-Forwarded-For], is never read: the source
    asks for [X-Forwarder-For]. *)
Theorem forwarded_for_ignored r v :
  getRealIP (with_header (Header_Set "X-Forwarded-For" v (rq_Header r)) r) = getRealIP r.
Proof. unfold getRealIP. simpl. by rewrite !Header_Get_Set_ne by done. Qed.

(** ** The theorems at a concrete server *)
Definition no_events : string -> res Event := fun _ => Err (errorf "unexpected end of JSON input").
Definition ping : Handler := fun _ w => mret (Write "ok" w).
Definition listens : string -> res unit := fun _ => Ok tt.
Definition moved : string -> ResponseWriter -> ResponseWriter := fun path w =>
  WriteHeader 301 (AddHeader "Location" path w).
Definition any_time : Z -> string := fun _ => "Mon, 02 Jan 2006 15:04:05 UTC".

Definition sample_main : PromotionServer :=
  MkPromotionServer ":8082" (Some (ServeHTTP no_events [] (MkRetryOpts 2 20 3))) "/promotion"
    (Some (Approval.ServeHTTP [])) "/approval" [] (MkRateLimit 20 (30 * time_Second)) (MkRetryOpts 2 20 3).

Definition sample_request (addr : string) : Request :=
  MkRequest MethodPost "/promotion/default/podinfo/dev" "" ∅ addr (Ok "{}").

Lemma server_effects_authorised_witness :
  own_handlers no_events sample_main /\
  wp (serve any_time moved ping sample_main (server_limiter sample_main) (sample_request "10.0.0.1:4242"))
    (fun tr _ => ~ reads_only tr -> authorised_run (sample_request "10.0.0.1:4242") tr).
Proof.
  split; [by split|].
  apply (server_effects_authorised no_events); [by split|]. intros r w. repeat constructor.
Defined.

Lemma main_server_serves_witness :
  let r := sample_request "10.0.0.1:4242" in
  let limiter := server_limiter sample_main in
  serve any_time moved ping sample_main limiter r =
    rateLimitMiddleware any_time
      (fun _ => ServeHTTP no_events [] (MkRetryOpts 2 20 3) (with_path "/default/podinfo/dev" "" r))
      limiter r new_writer.
Proof.
  apply (main_server_serves no_events any_time moved ping listens 20 30 2 20 3 ":8082" [] sample_main
           (server_limiter sample_main) (sample_request "10.0.0.1:4242") ["default"; "podinfo"; "dev"]);
    [reflexivity|discriminate| |reflexivity|reflexivity].
  repeat constructor; discriminate.
Defined.

Definition full_limiter : Limiter :=
  MkLimiter 20 (30 * time_Second) {["10.0.0.1" := MkLimit 0 "10.0.0.1" 20]}.

Lemma full_window_refuses_witness :
  exists limiter' w,
    serve any_time moved ping sample_main full_limiter (sample_request "10.0.0.1:4242") = mret (limiter', w) /\
    status w = StatusTooManyRequests /\
    sent_header w !! "Retry-After" = Some [any_time (0 + 30 * time_Second)].
Proof.
  apply (full_window_refuses any_time moved ping sample_main full_limiter
           (sample_request "10.0.0.1:4242") (MkLimit 0 "10.0.0.1" 20));
    [left; reflexivity|vm_compute; reflexivity|unfold two63; simpl; lia|simpl; lia].
Defined.

Lemma custom_endpoint_unreachable_witness :
  let r := MkRequest MethodPost "/hooks/default/podinfo/dev" "" ∅ "10.0.0.1:4242" (Ok "{}") in
  serve any_time moved ping (with_promotion "/hooks" ping sample_main) full_limiter r =
  serve any_time moved ping (with_promotion "/hooks" (fun _ => mret) sample_main) full_limiter r.
Proof.
  apply (custom_endpoint_unreachable any_time moved ping "/hooks" sample_main ping (fun _ => mret));
    [discriminate|reflexivity|reflexivity].
Defined.

Lemma ipv6_clients_share_window_witness :
  getRealIP (sample_request "[2001:db8::1]:4242") = "[2001" /\
  getRealIP (sample_request "[2001:470::7]:80") = getRealIP (sample_request "[2001:db8::1]:4242").
Proof.
  apply (ipv6_clients_share_window (sample_request "[2001:db8::1]:4242")
           (sample_request "[2001:470::7]:80") "2001" "db8::1]:4242" "470::7]:80");
    [repeat constructor|reflexivity|reflexivity|reflexivity].
Defined.
