(* ===== verification/Protocol.v ===== *)
(** * The approval protocol

    The promotion server as a whole against an API server: an abstract machine
    whose state is what waits for approval in each environment of each
    pipeline, the refinement of that machine by the server, and what holds in
    every history of requests. *)

From S2P Require Export Server.

(** ** The abstract machine *)

(** What waits, by pipeline and environment; [""] is nothing. *)
Definition waits : Type := ObjectKey -> string -> string.

Definition waits_set (v : waits) (k : ObjectKey) (env rev : string) : waits := fun k' env' =>
  if decide (k' = k /\ env' = env) then rev else v k' env'.

Definition same_waits (v v' : waits) : Prop := forall k env, v k env = v' k env.

(** What one request does, as far as the machine can see *)
Inductive action :=
  | ActNothing
  | ActNotified (k : ObjectKey) (env rev : string)
  | ActPromoted (k : ObjectKey) (env rev : string)
  | ActApproved (k : ObjectKey) (env rev : string) (cleared : bool).

(** A notification makes its revision wait; a promotion that needs no approval
    changes nothing; an approval is possible for what waits, and ends the
    waiting unless the promotion failed. *)
Inductive protocol_step : waits -> action -> waits -> Prop :=
  | step_nothing v v' : same_waits v v' -> protocol_step v ActNothing v'
  | step_notified v v' k env rev : rev <> "" ->
      same_waits (waits_set v k env rev) v' -> protocol_step v (ActNotified k env rev) v'
  | step_promoted v v' k env rev : rev <> "" -> same_waits v v' ->
      protocol_step v (ActPromoted k env rev) v'
  | step_approved v v' k env rev (cleared : bool) : rev <> "" -> v k env = rev ->
      same_waits (if cleared then waits_set v k env "" else v) v' ->
      protocol_step v (ActApproved k env rev cleared) v'.

#[export] Instance action_eq_dec : EqDecision action.
Proof. solve_decision. Defined.

(** ** Runs of the machine

    Between requests, others (the level-triggered reconciler, an operator) may
    end a wait, but start none. *)
Definition only_lost (v v' : waits) : Prop := forall k env, v' k env = v k env \/ v' k env = "".

Inductive protocol_run (v0 : waits) : list action -> waits -> Prop :=
  | run_start v : same_waits v0 v -> protocol_run v0 [] v
  | run_step acts v a v' : protocol_run v0 acts v -> protocol_step v a v' ->
      protocol_run v0 (acts ++ [a]) v'
  | run_lost acts v v' : protocol_run v0 acts v -> only_lost v v' -> protocol_run v0 acts v'.

(** How often an action happened *)
Definition times (a : action) (acts : list action) : nat := length (filter (a =.) acts).

Lemma times_snoc a acts b : times a (acts ++ [b]) = times a acts + (if decide (a = b) then 1 else 0).
Proof. unfold times. rewrite filter_app, length_app. f_equal. rewrite filter_cons. by case_decide. Qed.

(** Notifications of a revision, and approvals of it that went through *)
Definition notified acts k env rev : nat := times (ActNotified k env rev) acts.
Definition used acts k env rev : nat := times (ActApproved k env rev true) acts.

(** Every use and the present wait are backed by a notification each. *)
Definition backed (acts : list action) (v : waits) : Prop := forall k env rev, rev <> "" ->
  used acts k env rev + (if decide (v k env = rev) then 1 else 0) <= notified acts k env rev.

Lemma run_backed v0 acts v :
  (forall k env, v0 k env = "") -> protocol_run v0 acts v -> backed acts v.
Proof.
  intros H0 Hr. induction Hr as [v Hv|acts v a v' Hr IH Hs|acts v v' Hr IH Hl]; intros k env rev Hne.
  - unfold used, notified, times. simpl. rewrite decide_False; [done|]. rewrite <- Hv, H0. congruence.
  - specialize (IH k env rev Hne). unfold used, notified in *. rewrite !times_snoc.
    destruct Hs as [v v' Hv|v v' k' env' rev' Hne' Hv|v v' k' env' rev' Hne' Hv
                   |v v' k' env' rev' cl Hne' Hw Hv]; rewrite <- Hv; clear Hv.
    + rewrite !(decide_False (P := _ = ActNothing)) by done. lia.
    + unfold waits_set. repeat case_decide; simplify_eq; try lia; naive_solver lia.
    + repeat case_decide; simplify_eq; lia.
    + destruct cl; unfold waits_set; repeat case_decide; simplify_eq; try lia; naive_solver lia.
  - specialize (IH k env rev Hne). destruct (Hl k env) as [->| ->]; [done|].
    rewrite decide_False by congruence. lia.
Qed.

(** Every prefix of a run is a run. *)
Lemma run_prefix v0 pre a post v :
  protocol_run v0 (pre ++ a :: post) v ->
  exists v1 v2, protocol_run v0 pre v1 /\ protocol_step v1 a v2.
Proof.
  remember (pre ++ a :: post) as acts eqn:Hacts. intros Hr. revert post Hacts.
  induction Hr as [v Hv|acts v b v' Hr IH Hs|acts v v' Hr IH Hl]; intros post Hacts.
  - by destruct pre.
  - destruct post as [|c post _] using rev_ind.
    + apply app_inj_2 in Hacts as [-> [= ->]]; [|done]. by exists v, v'.
    + rewrite app_comm_cons, app_assoc in Hacts. apply app_inj_2 in Hacts as [-> _]; [|done]. by eapply IH.
  - by eapply IH.
Qed.

(** ** Retrying makes the calls of what it retries *)
Lemma calls_only_retry {V} P (opts : @ExponentialOptions V) fn n try v :
  (forall v, calls_only P (fn v)) ->
  (forall e, calls_only P (handled (ex_errorHandlerFn opts) e)) ->
  (forall d x, P (Ev (Sleep d) x)) ->
  calls_only P (retry_loop n opts fn try v).
Proof.
  intros Hfn Hh Hsleep. revert try v. induction n as [|n IH]; intros try v; cbn [retry_loop]; [calls_tac|].
  apply calls_only_bind; [apply Hfn|]. intros [v' [e|]]; [|calls_tac].
  apply calls_only_bind; [apply Hh|]. intros [|]; [calls_tac|]. case_bool_decide; [calls_tac|].
  apply calls_only_bind; [by apply calls_only_trigger|]. intros _. apply IH.
Qed.

Definition ev_no_write (ev : event sys) : Prop := match ev with Ev e _ => is_write e = false end.

Lemma promote_no_writes stratReg retry spec prom :
  Forall no_pipeline_writes stratReg ->
  calls_only ev_no_write (promote stratReg retry (Some spec) prom).
Proof.
  intros Hstrat. unfold promote, Exponential. cbn [foldl].
  apply calls_only_retry; [|intros e; constructor|done].
  intros res. simpl. unfold promote_fn.
  destruct (Registry_Get stratReg spec) as [strat|e] eqn:Hget; [|calls_tac].
  apply Registry_Get_ok in Hget as (r1 & r2 & -> & _). rewrite Forall_app, Forall_cons in Hstrat.
  apply calls_only_bind; [apply Hstrat|]. intros [|]; calls_tac.
Qed.

(** ** The server's state as the machine sees it *)

(** The calls of a request that promotes nothing: reads, and the recording
    of a revision *)
Definition is_quiet {X} (e : sys X) : bool :=
  match e with StatusUpdate _ => true | _ => is_read e end.

Definition quiet (tr : list (event sys)) : Prop :=
  Forall (fun ev => match ev with Ev e _ => is_quiet e = true end) tr.

Lemma reads_quiet tr : reads_only tr -> quiet tr.
Proof. intros H. eapply Forall_impl; [exact H|]. intros [X e x]. by destruct e. Qed.

(** A part of the calls is the signature check that accepted the body. *)
Definition verified (p : Pipeline) (r : Request) (body : string) (tr : list (event sys)) : Prop :=
  exists pre tr1 post, tr = pre ++ tr1 ++ post /\
    verify_post p (rq_Header r) body tr1 (Done (Ok tt)).

Lemma verified_app p r body pre tr post :
  verified p r body tr -> verified p r body (pre ++ tr ++ post).
Proof.
  intros (pre' & tr1 & post' & -> & Hv). exists (pre ++ pre'), tr1, (post' ++ post).
  by rewrite <- !app_assoc.
Qed.

Section refinement.
Context {S : Type} (h : handler (E := sys) S) `{!ApiServer h}.

Definition view (s : S) : waits := fun k env =>
  match stored s k with Some p => waiting (pl_Status p) env | None => "" end.

Lemma view_same s s' : (forall k, stored s' k = stored s k) -> same_waits (view s) (view s').
Proof. intros Hs k env. unfold view. by rewrite Hs. Qed.

Context (decode_event : string -> res Event).

(** What the promotion webhook does for a request on a stored pipeline, and how
    it answers: nothing, and then no success; or after the signature check it
    records that a revision waits; or it promotes exactly what the notification
    asks for, by the registry's strategy, and reports the result. *)
Inductive promotion_performed (stratReg : StrategyRegistry) (retry : RetryOpts) (r : Request) (s : S)
    (tr : list (event sys)) (resp : option ResponseWriter) : action -> Prop :=
  | promotion_nothing :
      quiet tr -> (forall w, resp = Some w -> ~ succeeded w) ->
      promotion_performed stratReg retry r s tr resp ActNothing
  | promotion_notified ns name p next version spec pre post w :
      stored s (MkKey ns name) = Some p ->
      asks_promotion decode_event r ns name p next version spec -> prom_Manual spec = true ->
      tr = pre ++ post -> reads_only pre ->
      verified p r (default "" (res_to_option (rq_Body r))) pre ->
      runs (setWaitingApproval_ p (env_Name next) version) post (Done (Ok tt)) ->
      resp = Some w -> status w = StatusNoContent ->
      promotion_performed stratReg retry r s tr resp (ActNotified (MkKey ns name) (env_Name next) version)
  | promotion_promoted ns name p next version spec pre post out :
      stored s (MkKey ns name) = Some p ->
      asks_promotion decode_event r ns name p next version spec -> prom_Manual spec = false ->
      tr = pre ++ post -> reads_only pre ->
      verified p r (default "" (res_to_option (rq_Body r))) pre ->
      runs (promote stratReg retry (Some spec) (MkStrategyPromotion ns name next version)) post out ->
      (forall w, resp = Some w -> succeeded w ->
         exists res, out = Done (Some res, None) /\ reports res w) ->
      promotion_performed stratReg retry r s tr resp (ActPromoted (MkKey ns name) (env_Name next) version).

(** The same for the approval webhook, which promotes exactly what waits and
    then resets it; it reports a success only when both went through. *)
Inductive approval_performed (stratReg : StrategyRegistry) (r : Request) (s : S)
    (tr : list (event sys)) (resp : option ResponseWriter) : action -> Prop :=
  | approval_nothing :
      quiet tr -> (forall w, resp = Some w -> ~ succeeded w) ->
      approval_performed stratReg r s tr resp ActNothing
  | approval_approved ns name env revision p e spec cleared pre tr1 tr2 out :
      stored s (MkKey ns name) = Some p ->
      approves r ns name env revision p e spec ->
      tr = pre ++ tr1 ++ tr2 -> reads_only pre -> verified p r "" pre ->
      runs (Approval.promote stratReg (Some spec) (MkStrategyPromotion ns name e revision)) tr1 out ->
      match out with
      | Done (Ok _) => exists reset, runs (Approval.resetWaitingApproval p env) tr2 reset /\
          (cleared = true <-> reset = Done (Ok tt))
      | _ => tr2 = [] /\ cleared = false
      end ->
      (forall w, resp = Some w -> succeeded w ->
         cleared = true /\ exists res, out = Done (Ok (Some res)) /\ reports res w) ->
      approval_performed stratReg r s tr resp (ActApproved (MkKey ns name) env revision cleared).

(** A request that the mux routes to a webhook reaches its handler with the
    configured prefix removed from its path. *)
Definition addressed (rt : route) (prefix : string) (r r' : Request) : Prop :=
  mux_route (rq_Method r) (rq_Path r) = rt /\
  exists path rawPath, rq_Path r = prefix +:+ path /\ r' = with_path path rawPath r.

(** What a request to the server performs: an action of the webhook it is
    addressed to, after the reads of the rate limit, or reads only; a success
    of a webhook's address is the webhook's. *)
Inductive performed (srv : PromotionServer) (r : Request) (s : S) (tr : list (event sys))
    (resp : option ResponseWriter) : action -> Prop :=
  | via_promotion r' tr0 tr1 a :
      addressed RoutePromotion (ps_promEndpointName srv) r r' ->
      tr = tr0 ++ tr1 -> reads_only tr0 ->
      promotion_performed (ps_stratReg srv) (ps_retry srv) r' s tr1 resp a ->
      performed srv r s tr resp a
  | via_approval r' tr0 tr1 a :
      addressed RouteApproval (ps_approvalEndpointName srv) r r' ->
      tr = tr0 ++ tr1 -> reads_only tr0 ->
      approval_performed (ps_stratReg srv) r' s tr1 resp a ->
      performed srv r s tr resp a
  | did_read :
      reads_only tr ->
      (forall w, resp = Some w -> succeeded w ->
         mux_route (rq_Method r) (rq_Path r) <> RoutePromotion /\
         mux_route (rq_Method r) (rq_Path r) <> RouteApproval) ->
      performed srv r s tr resp ActNothing.

(** ** The two updates *)
Lemma write_back_view f k env rev s :
  (forall st, (exists st', f st = PRet st') \/ (exists w, f st = PPanic w)) ->
  (forall st st', f st = PRet st' ->
     forall env', waiting st' env' = if decide (env' = env) then rev else waiting st env') ->
  after h (write_back f k) s (fun tr o s' => quiet tr /\
    ((o = Done (Ok tt) /\ same_waits (waits_set (view s) k env rev) (view s')) \/
     (o <> Done (Ok tt) /\ same_waits (view s) (view s')))).
Proof.
  intros Hpure Hf. apply after_and.
  { apply after_wp. unfold write_back. rewrite wp_bind, wp_trigger.
    intros [q|e]; cbn [wp_then]; [|by repeat constructor]. rewrite wp_bind.
    destruct (Hpure (pl_Status q)) as [[st' ->]|[w ->]]; by repeat constructor. }
  eapply after_mono; [|by apply after_write_back_cases]. cbv beta.
  intros tr o s' [[-> (p & st' & Hp & Hst & Hp' & Hrest)]|[Hne Hsame]].
  - left. split; [done|]. intros k' env'. unfold waits_set, view. destruct (decide (k' = k)) as [->|Hk].
    + rewrite Hp, Hp'. cbn [pl_Status set_Status]. rewrite (Hf _ _ Hst).
      repeat case_decide; naive_solver.
    + rewrite Hrest by done. case_decide; naive_solver.
  - right. split; [done|]. by apply view_same.
Qed.

Lemma setWaitingApproval_waiting {E} st env wa st' :
  setWaitingApproval (E := E) st env wa = PRet st' ->
  forall env', waiting st' env' = if decide (env' = env) then wa_Revision wa else waiting st env'.
Proof.
  unfold setWaitingApproval, waiting.
  destruct (st_Environments st !! env) as [[es|]|] eqn:He; simpl; try done;
    intros [= <-] env'; simpl; rewrite lookup_insert; repeat case_decide; subst; done.
Qed.

Lemma setWaitingApproval_view p env rev s :
  after h (setWaitingApproval_ p env rev) s (fun tr o s' => quiet tr /\
    ((o = Done (Ok tt) /\ same_waits (waits_set (view s) (pl_Key p) env rev) (view s')) \/
     (o <> Done (Ok tt) /\ same_waits (view s) (view s')))).
Proof.
  apply (write_back_view (fun st => SetWaitingApproval st env rev) (pl_Key p) env rev);
    intros st; [apply setWaitingApproval_pure|]. intros st'. apply setWaitingApproval_waiting.
Qed.

Lemma resetWaitingApproval_view p env s :
  after h (Approval.resetWaitingApproval p env) s (fun tr o s' => quiet tr /\
    ((o = Done (Ok tt) /\ same_waits (waits_set (view s) (pl_Key p) env "") (view s')) \/
     (o <> Done (Ok tt) /\ same_waits (view s) (view s')))).
Proof.
  apply (write_back_view (fun st => ResetWaitingApproval st env) (pl_Key p) env "");
    intros st; [apply setWaitingApproval_pure|]. intros st'. apply setWaitingApproval_waiting.
Qed.

(** ** The promotion webhook *)
Section webhooks.
Context (stratReg : StrategyRegistry) (retry : RetryOpts)
  (Hstrat : Forall no_pipeline_writes stratReg).

Lemma after_unchanged {A} (p : io A) s :
  calls_only ev_no_write p -> after h p s (fun _ _ s' => same_waits (view s) (view s')).
Proof.
  intros Hp. eapply after_mono; [|apply after_and; [apply (after_no_writes h)|apply after_wp, Hp]].
  cbv beta. intros tr o s' [Hsame Hw]. by apply view_same, Hsame.
Qed.

Lemma after_with_runs {A} (p : io A) s (Q : list (event sys) -> outcome A -> S -> Prop) :
  after h p s Q -> after h p s (fun tr o s' => runs p tr o /\ Q tr o s').
Proof. apply after_and, after_wp, wp_runs. done. Qed.

(** The response of a webhook *)
Definition response (o : outcome ResponseWriter) : option ResponseWriter :=
  match o with Done w => Some w | Panicked _ => None end.

Lemma not_succeeded w : status w ∈ [400; 401; 404; 405; 422; 429; 500]%Z -> ~ succeeded w.
Proof.
  unfold succeeded, StatusCreated, StatusNoContent. rewrite !elem_of_cons, elem_of_nil. lia.
Qed.

(** What the webhook does after the signature check; [st] is the state the
    request arrived in. *)
Lemma after_verify_performs r ns name env body p st s :
  stored st (MkKey ns name) = Some p -> same_waits (view st) (view s) ->
  rq_Method r = MethodPost -> rq_Body r = Ok body ->
  first_window 2 (Split slash (rq_Path r)) = Some [ns; name; env] ->
  after h (after_verify decode_event stratReg retry r ns name env body p new_writer) s
    (fun tr o s' => exists a,
      (forall pre, reads_only pre -> verified p r body pre ->
         promotion_performed stratReg retry r st (pre ++ tr) (response o) a) /\
      protocol_step (view st) a (view s')).
Proof.
  intros Hp Hs Hm Hbody Hpath. unfold after_verify.
  assert (forall (tr : list (event sys)) o s', quiet tr -> same_waits (view s) (view s') ->
    (forall w, o = Done w -> status w ∈ [400; 401; 404; 405; 422; 429; 500]%Z) ->
    exists a, (forall pre, reads_only pre -> verified p r body pre ->
        promotion_performed stratReg retry r st (pre ++ tr) (response o) a) /\
      protocol_step (view st) a (view s')) as Hquiet.
  { intros tr o s' Hq Hs' Ho. exists ActNothing. split.
    - intros pre Hpre _. constructor; [apply Forall_app; split; [by apply reads_quiet|done]|].
      intros w Hw. apply not_succeeded, Ho. destruct o; [by injection Hw as ->|done].
    - constructor. intros k env'. by rewrite Hs. }
  assert (forall rw, status rw ∈ [400; 401; 404; 405; 422; 429; 500]%Z ->
    after h (mret rw : io ResponseWriter) s (fun tr o s' => exists a,
      (forall pre, reads_only pre -> verified p r body pre ->
         promotion_performed stratReg retry r st (pre ++ tr) (response o) a) /\
      protocol_step (view st) a (view s'))) as Hret.
  { intros rw Hrw. apply after_ret, Hquiet; [constructor|done|]. by intros w [= <-]. }
  destruct (decode_event body) as [ev|] eqn:Hev; [|apply Hret; cbn; set_solver].
  cbv zeta. case_bool_decide as Hv; [apply Hret; cbn; set_solver|].
  destruct (lookupNextEnvironment p env (ev_InvolvedObject ev)) as [next|] eqn:Hnext;
    [|apply Hret; cbn; set_solver].
  apply lookupNextEnvironment_spec in Hnext as (src & Hfol & Htargets & Hmatch).
  destruct (GetPromotion (pl_Spec p) (env_Name next)) as [spec|] eqn:Hspec; [|apply Hret; cbn; set_solver].
  destruct (ev_Metadata ev !! "revision") as [version|] eqn:Hrev; [|done]. simpl in Hv. cbn [from_option id].
  assert (asks_promotion decode_event r ns name p next version spec) as Hasks.
  { split; [|done..]. exists env, body, ev, src. done. }
  assert (forall pre, verified p r body pre ->
    verified p r (default "" (res_to_option (rq_Body r))) pre) as Hver by (intros pre; by rewrite Hbody).
  apply api_key in Hp as Hk.
  destruct (prom_Manual spec) eqn:Hman; apply after_bind.
  - eapply after_mono; [|apply after_with_runs, setWaitingApproval_view]. cbv beta. rewrite Hk.
    intros tr o s1 [Hruns [Hq [[-> Hs1]|[Hne Hs1]]]].
    + apply after_ret. exists (ActNotified (MkKey ns name) (env_Name next) version).
      rewrite app_nil_r. split.
      * intros pre Hpre Hvpre. by eapply (promotion_notified _ _ _ _ _ _ _ _ p next version spec pre tr); eauto.
      * constructor; [done|]. intros k e. rewrite <- Hs1. unfold waits_set. by case_decide.
    + destruct o as [[[]|err]|w]; [done| |by apply Hquiet].
      apply after_ret. rewrite app_nil_r. apply Hquiet; [done|done|]. intros w [= <-]. cbn. set_solver.
  - eapply after_mono; [|apply after_with_runs, (after_unchanged (promote _ _ _ _)), promote_no_writes, Hstrat].
    intros tr o s1 [Hruns Hs1].
    assert (forall (tr' : list (event sys)) o' s2, tr' = tr -> same_waits (view s1) (view s2) ->
      (forall w, o' = Done w -> succeeded w -> exists res, o = Done (Some res, None) /\ reports res w) ->
      exists a, (forall pre, reads_only pre -> verified p r body pre ->
        promotion_performed stratReg retry r st (pre ++ tr') (response o') a) /\
      protocol_step (view st) a (view s2)) as Hact.
    { intros tr' o' s2 -> Hs2 Ho. exists (ActPromoted (MkKey ns name) (env_Name next) version). split.
      - intros pre Hpre Hvpre.
        eapply (promotion_promoted _ _ _ _ _ _ _ _ p next version spec pre tr); eauto.
        intros w Hw. apply Ho. destruct o'; [by injection Hw as ->|done].
      - constructor; [done|]. intros k e. by rewrite Hs, Hs1, Hs2. }
    destruct o as [[res [err|]]|w]; [| |by apply Hact].
    + apply after_ret. rewrite app_nil_r. apply Hact; [done|done|]. by intros w [= <-] [].
    + pose proof (respond_promoted_reports res) as Hrep. destruct res as [res|].
      * unfold respond_promoted in *. cbn [deref] in *. rewrite bind_ret_l in *. apply after_ret.
        rewrite app_nil_r. apply Hact; [done|done|]. intros w Hw _.
        destruct (Hrep w Hw) as (res' & [= <-] & _ & Hres). by exists res.
      * unfold after, respond_promoted. cbn. rewrite app_nil_r. by apply (Hact tr (Panicked "") s1).
Qed.

(** What the webhooks do before they act *)
Lemma after_prefix s k p tr1 :
  consistent h s (Ev (GetPipeline k) (Ok p) :: tr1) -> reads_only tr1 ->
  stored s k = Some p /\ same_waits (view s) (view (final h s (Ev (GetPipeline k) (Ok p) :: tr1))).
Proof.
  intros Hc Hr. split.
  - destruct Hc as [Hget _]. by apply api_get.
  - apply view_same, final_no_writes. constructor; [done|]. by apply reads_no_writes.
Qed.

Lemma promotion_performs r s :
  after h (ServeHTTP decode_event stratReg retry r new_writer) s (fun tr o s' =>
    exists a, promotion_performed stratReg retry r s tr (response o) a /\
      protocol_step (view s) a (view s')).
Proof.
  apply after_by_runs, ServeHTTP_split; [|done|].
  - intros tr rw' Hreads Hst Hc. exists ActNothing. split.
    + constructor; [by apply reads_quiet|]. intros w [= <-]. apply not_succeeded. set_solver.
    + constructor. by apply view_same, final_no_writes, reads_no_writes.
  - intros tr1 ns name env body p Hm Hbody Hpath Hv. apply wp_runs. intros tr2 o Hr2 Hc.
    rewrite app_comm_cons in Hc. apply consistent_app in Hc as [Hc1 Hc2].
    destruct (after_prefix _ _ _ _ Hc1 (proj1 Hv)) as [Hp Hs].
    destruct (after_runs h _ _ _ _ _ Hr2 Hc2
      (after_verify_performs r ns name env body p s _ Hp Hs Hm Hbody Hpath)) as (a & Ha & Hstep).
    exists a. rewrite app_comm_cons, final_app. split; [|done]. apply Ha.
    + constructor; [done|]. apply Hv.
    + exists [Ev (GetPipeline (MkKey ns name)) (Ok p)], tr1, []. by rewrite app_nil_r.
Qed.

(** ** The approval webhook *)
Lemma after_approval_performs r ns name env rev p e spec st s :
  stored st (MkKey ns name) = Some p -> same_waits (view st) (view s) ->
  approves r ns name env rev p e spec ->
  after h (after_approval stratReg ns name env rev p e spec new_writer) s
    (fun tr o s' => exists a,
      (forall pre, reads_only pre -> verified p r "" pre ->
         approval_performed stratReg r st (pre ++ tr) (response o) a) /\
      protocol_step (view st) a (view s')).
Proof.
  intros Hp Hs Ha. apply api_key in Hp as Hk. unfold after_approval.
  assert (forall (cleared : bool) s',
    same_waits (if cleared then waits_set (view s) (MkKey ns name) env "" else view s) (view s') ->
    protocol_step (view st) (ActApproved (MkKey ns name) env rev cleared) (view s')) as Hstep.
  { intros cleared s' Hs'. destruct Ha. constructor; [done| |].
    - unfold view. by rewrite Hp.
    - intros k env'. rewrite <- Hs'. destruct cleared; [|apply Hs]. unfold waits_set. by case_decide. }
  apply after_bind. eapply after_mono; [|apply after_with_runs, after_and;
    [apply (after_no_writes h)|apply after_wp, (strategy_no_writes stratReg Hstrat)]].
  cbv beta. intros tr o s1 [Hruns [Hsame Hnw]]. specialize (Hsame Hnw). apply view_same in Hsame.
  assert (forall o', (forall res, o <> Done (Ok res)) ->
    (forall w, response o' = Some w -> ~ succeeded w) -> exists a,
      (forall pre, reads_only pre -> verified p r "" pre ->
         approval_performed stratReg r st (pre ++ tr) (response o') a) /\
      protocol_step (view st) a (view s1)) as Hfail.
  { intros o' Hno Hresp. exists (ActApproved (MkKey ns name) env rev false). split; [|by apply Hstep].
    intros pre Hpre Hver.
    apply (approval_approved stratReg r st _ _ ns name env rev p e spec false pre tr [] o);
      [done..|by rewrite app_nil_r|done|done|done|destruct o as [[res|]|]; [by destruct (Hno res)|done|done]|].
    intros w Hw Hok. by destruct (Hresp w Hw). }
  destruct o as [[res|err]|w].
  2: { apply after_ret. rewrite app_nil_r. apply Hfail; [done|]. by intros w [= <-] []. }
  2: { by apply Hfail. }
  apply after_bind. eapply after_mono; [|apply after_with_runs, resetWaitingApproval_view]. cbv beta. rewrite Hk.
  intros tr' o s2 [Hruns' [_ Hreset]].
  assert (forall o' (cleared : bool) s3, (cleared = true <-> o = Done (Ok tt)) ->
    same_waits (if cleared then waits_set (view s) (MkKey ns name) env "" else view s) (view s3) ->
    (forall w, response o' = Some w -> succeeded w ->
       cleared = true /\ exists res', res = Some res' /\ reports res' w) -> exists a,
      (forall pre, reads_only pre -> verified p r "" pre ->
         approval_performed stratReg r st (pre ++ tr ++ tr') (response o') a) /\
      protocol_step (view st) a (view s3)) as Hact.
  { intros o' cleared s3 Hcl Hs3 Hresp. exists (ActApproved (MkKey ns name) env rev cleared).
    split; [|by apply Hstep]. intros pre Hpre Hver.
    apply (approval_approved stratReg r st _ _ ns name env rev p e spec cleared pre tr tr' (Done (Ok res)));
      [done..|by exists o|].
    intros w Hw Hok. destruct (Hresp w Hw Hok) as (? & res' & -> & ?). eauto. }
  destruct Hreset as [[-> Hs2]|[Hne Hs2]].
  - assert (same_waits (waits_set (view s) (MkKey ns name) env "") (view s2)) as Hcleared.
    { intros k env'. rewrite <- Hs2. unfold waits_set. by case_decide. }
    pose proof (respond_promoted_reports res) as Hrep. destruct res as [res|].
    + unfold respond_promoted in *. cbn [deref] in *. rewrite bind_ret_l in *. apply after_ret.
      rewrite app_nil_r. apply (Hact _ true); [done|done|]. intros w Hw _.
      destruct (Hrep w ltac:(by injection Hw as <-)) as (res' & [= <-] & _ & Hres). split; [done|]. by exists res.
    + unfold after, respond_promoted. cbn. rewrite app_nil_r. by apply (Hact (Panicked "") true).
  - assert (same_waits (view s) (view s2)) as Hs02 by (intros k env'; by rewrite Hsame).
    destruct o as [[[]|err]|w]; [done| |].
    + apply after_ret. rewrite app_nil_r. apply (Hact _ false); [done|done|]. by intros w [= <-] [].
    + by apply (Hact (Panicked w) false).
Qed.

Lemma approval_performs r s :
  after h (Approval.ServeHTTP stratReg r new_writer) s (fun tr o s' =>
    exists a, approval_performed stratReg r s tr (response o) a /\ protocol_step (view s) a (view s')).
Proof.
  apply after_by_runs. eapply wp_mono; [|apply approval_runs]. cbv beta.
  intros tr o [[Hreads Href]|(ns & name & env & rev & p & e & spec & tr1 & tr2 & Ha & -> & Hv & Hr2)] Hc.
  - exists ActNothing. split.
    + constructor; [by apply reads_quiet|]. intros w Hw. destruct o as [w'|]; [|done].
      injection Hw as ->. intros Hok. by eapply refused_not_succeeded; [apply Href|].
    + constructor. by apply view_same, final_no_writes, reads_no_writes.
  - rewrite app_comm_cons in Hc. apply consistent_app in Hc as [Hc1 Hc2].
    destruct (after_prefix _ _ _ _ Hc1 (proj1 Hv)) as [Hp Hs].
    destruct (after_runs h _ _ _ _ _ Hr2 Hc2
      (after_approval_performs r ns name env rev p e spec s _ Hp Hs Ha)) as (a & Ha' & Hstep).
    exists a. rewrite app_comm_cons, final_app. split; [|done]. apply Ha'.
    + constructor; [done|]. apply Hv.
    + exists [Ev (GetPipeline (MkKey ns name)) (Ok p)], tr1, []. by rewrite app_nil_r.
Qed.
End webhooks.

(** ** The server *)
Definition performs (srv : PromotionServer) (r : Request) (s : S) (tr : list (event sys))
    (resp : option ResponseWriter) (s' : S) : Prop :=
  exists a, performed srv r s tr resp a /\ protocol_step (view s) a (view s').

Lemma performs_reads srv r s tr resp :
  reads_only tr ->
  (forall w, resp = Some w -> succeeded w ->
     mux_route (rq_Method r) (rq_Path r) <> RoutePromotion /\
     mux_route (rq_Method r) (rq_Path r) <> RouteApproval) ->
  performs srv r s tr resp (final h s tr).
Proof.
  intros Hr Hresp. exists ActNothing. split; [by constructor|].
  constructor. by apply view_same, final_no_writes, reads_no_writes.
Qed.

Lemma step_view v v1 a v' : same_waits v v1 -> protocol_step v1 a v' -> protocol_step v a v'.
Proof.
  intros Hv Hstep. destruct Hstep as [v1 v' H|v1 v' k env rev Hne H|v1 v' k env rev Hne H|v1 v' k env rev cl Hne Hw H];
    constructor; try done.
  - intros k env. by rewrite <- H.
  - intros k' env'. rewrite <- H. unfold waits_set. by case_decide.
  - intros k' env'. by rewrite <- H.
  - by rewrite Hv.
  - intros k' env'. rewrite <- H. destruct cl; [|done]. unfold waits_set. by case_decide.
Qed.

(** A webhook behind the mux, before the state [s1] after the limiter's reads *)
Lemma promotion_performed_later stratReg retry r s s1 tr resp a :
  (forall k, stored s1 k = stored s k) ->
  promotion_performed stratReg retry r s1 tr resp a -> promotion_performed stratReg retry r s tr resp a.
Proof. intros Hs Ha. destruct Ha; rewrite ?Hs in *; econstructor; eauto. Qed.

Lemma approval_performed_later stratReg r s s1 tr resp a :
  (forall k, stored s1 k = stored s k) ->
  approval_performed stratReg r s1 tr resp a -> approval_performed stratReg r s tr resp a.
Proof. intros Hs Ha. destruct Ha; rewrite ?Hs in *; econstructor; eauto. Qed.

(** [StripPrefix]: the handler gets the rest of the path, or the answer is 404. *)
Lemma StripPrefix_addressed prefix (g : Handler) r (Q : io ResponseWriter -> Prop) :
  Q (mret (NotFound new_writer)) ->
  (forall path raw, rq_Path r = prefix +:+ path -> Q (g (with_path path raw r) new_writer)) ->
  Q (StripPrefix prefix g r new_writer).
Proof.
  intros Hno Hg. unfold StripPrefix. case_bool_decide as Hp.
  - specialize (Hg (rq_Path r) (rq_RawPath r)). subst prefix. destruct r. by apply Hg.
  - destruct (_ && _) eqn:Hlen; [|done]. apply andb_true_iff in Hlen as [Hlen%bool_decide_eq_true _].
    apply Hg. unfold TrimPrefix in *. destruct (HasPrefix (rq_Path r) prefix) eqn:Hpre; [|lia].
    apply HasPrefix_spec in Hpre as [rest ->]. by rewrite drop_bytes_app.
Qed.

Section server.
Context (format_RFC1123 : Z -> string) (redirect : string -> ResponseWriter -> ResponseWriter)
  (healthz : Handler) (Hhealthz : forall r w, wp (healthz r w) (fun tr _ => reads_only tr)).

(** The response of the server *)
Definition answer (o : outcome (Limiter * ResponseWriter)) : option ResponseWriter :=
  match o with Done (_, w) => Some w | Panicked _ => None end.

(** The middleware refuses after its reads, or hands on to the handler. *)
Lemma rateLimitMiddleware_performs srv g limiter r s :
  (forall tr0 s1, reads_only tr0 -> (forall k, stored s1 k = stored s k) ->
     after h (g r new_writer) s1 (fun tr o s' => performs srv r s (tr0 ++ tr) (response o) s')) ->
  after h (rateLimitMiddleware format_RFC1123 g limiter r new_writer) s
    (fun tr o s' => performs srv r s tr (answer o) s').
Proof.
  intros Hg. unfold rateLimitMiddleware. apply after_bind.
  assert (wp (limiter_Hit (getRealIP r) limiter) (fun tr o => reads_only tr /\ exists x, o = Done x)) as Hhit.
  { apply wp_limiter_Hit. eauto. }
  apply after_by_runs. eapply wp_mono; [|exact Hhit]. cbv beta. intros tr0 o [Hr (x & ->)] Hc.
  destruct x as [limiter' [limit [err|]]].
  - apply after_ret. rewrite app_nil_r. apply performs_reads; [done|]. by intros w [= <-] [].
  - apply after_bind. eapply after_mono; [|apply (Hg tr0); [done|]].
    + cbv beta. intros tr [w|why] s' Hp; [|done]. apply after_ret. by rewrite app_nil_r.
    + by apply final_no_writes, reads_no_writes.
Qed.

Lemma serve_performs srv limiter r s :
  own_handlers decode_event srv -> Forall no_pipeline_writes (ps_stratReg srv) ->
  after h (serve format_RFC1123 redirect healthz srv limiter r) s
    (fun tr o s' => performs srv r s tr (answer o) s').
Proof.
  intros [Hp Ha] Hstrat. unfold serve.
  assert (forall tr0 s1, reads_only tr0 -> (forall k, stored s1 k = stored s k) ->
    after h (mret (NotFound new_writer) : io ResponseWriter) s1
      (fun tr o s' => performs srv r s (tr0 ++ tr) (response o) s')) as Hnotfound.
  { intros tr0 s1 Hr Hs. apply after_ret. exists ActNothing. split.
    - constructor; [by rewrite app_nil_r|]. by intros w [= <-] [].
    - constructor. by apply view_same. }
  destruct (mux_route (rq_Method r) (rq_Path r)) eqn:Hroute.
  - apply after_ret, (performs_reads srv r s []); [constructor|]. by rewrite Hroute.
  - apply rateLimitMiddleware_performs. intros tr0 s1 Hr Hs. apply StripPrefix_addressed; [by apply Hnotfound|].
    intros path raw Hpath. rewrite Hp. cbn [handler_of]. unfold handler_of, deref. rewrite bind_ret_l.
    eapply after_mono; [|by apply promotion_performs]. cbv beta. intros tr o s' (a & Hact & Hstep).
    exists a. split; [|by eapply step_view; [by apply view_same|]].
    eapply (via_promotion _ _ _ _ _ (with_path path raw r) tr0 tr); [by split; [|exists path, raw]|done|done|].
    by eapply promotion_performed_later.
  - apply rateLimitMiddleware_performs. intros tr0 s1 Hr Hs. apply StripPrefix_addressed; [by apply Hnotfound|].
    intros path raw Hpath. rewrite Ha. unfold handler_of, deref. rewrite bind_ret_l.
    eapply after_mono; [|by apply approval_performs]. cbv beta. intros tr o s' (a & Hact & Hstep).
    exists a. split; [|by eapply step_view; [by apply view_same|]].
    eapply (via_approval _ _ _ _ _ (with_path path raw r) tr0 tr); [by split; [|exists path, raw]|done|done|].
    by eapply approval_performed_later.
  - apply after_by_runs. rewrite wp_bind. eapply wp_mono; [|apply Hhealthz].
    intros tr [w|why] Hr; cbn [wp_then wp mret prog_ret]; rewrite ?app_nil_r; intros _;
      (apply performs_reads; [done|by rewrite Hroute]).
  - apply after_ret, (performs_reads srv r s []); [constructor|]. by rewrite Hroute.
Qed.

(** C2.  The server refines the protocol: whatever request reaches it, in
    whatever state, its run performs one action of the abstract machine and
    takes what waits in the API server to what the machine allows; in
    particular nothing else starts or stops waiting.  The action is the one of
    the webhook the mux routes the request to, on what the path after the
    webhook's prefix (and the event in the body) names: a promotion or an
    approval runs the registry's strategy on exactly that environment and
    revision, after the signature check, and a webhook that answers with
    success has acted and reports the result. *)
Theorem server_refines_protocol srv limiter r s :
  own_handlers decode_event srv -> Forall no_pipeline_writes (ps_stratReg srv) ->
  after h (serve format_RFC1123 redirect healthz srv limiter r) s
    (fun tr o s' => performs srv r s tr (answer o) s').
Proof. apply serve_performs. Qed.
End server.

(** ** Histories of the server *)
Section histories.
Context (format_RFC1123 : Z -> string) (redirect : string -> ResponseWriter -> ResponseWriter)
  (healthz : Handler) (Hhealthz : forall r w, wp (healthz r w) (fun tr _ => reads_only tr)).
Context (srv : PromotionServer) (Hown : own_handlers decode_event srv)
  (Hstrat : Forall no_pipeline_writes (ps_stratReg srv)).

(** A request with the state it arrived in and the calls it made *)
Record served := MkServed {
  sv_request : Request;
  sv_state : S;
  sv_trace : list (event sys);
  sv_answer : option ResponseWriter }.

(** Requests are served one after the other, whatever the limiter; between
    them others may end waits. *)
Inductive history (s0 : S) : list served -> S -> Prop :=
  | history_start : history s0 [] s0
  | history_request es s limiter r tr o s' :
      history s0 es s ->
      exec h (serve format_RFC1123 redirect healthz srv limiter r) s = (tr, o, s') ->
      history s0 (es ++ [MkServed r s tr (answer o)]) s'
  | history_others es s s' :
      history s0 es s -> only_lost (view s) (view s') -> history s0 es s'.

Definition acted (e : served) (a : action) : Prop :=
  performed srv (sv_request e) (sv_state e) (sv_trace e) (sv_answer e) a.

Lemma history_runs s0 es s :
  history s0 es s -> exists acts, Forall2 acted es acts /\ protocol_run (view s0) acts (view s).
Proof.
  induction 1 as [|es s limiter r tr o s' Hh (acts & Hacts & Hr) He|es s s' Hh (acts & Hacts & Hr) Hl].
  - exists []. split; [constructor|by constructor].
  - pose proof (serve_performs format_RFC1123 redirect healthz Hhealthz srv limiter r s Hown Hstrat)
      as Hp. unfold after in Hp. rewrite He in Hp. destruct Hp as (a & Ha & Hstep).
    exists (acts ++ [a]). split; [|by eapply run_step].
    apply Forall2_app; [done|]. by constructor.
  - exists acts. split; [done|by eapply run_lost].
Qed.

(** C3.  Approvals are backed by notifications.  In every history of
    requests on a server that started with nothing waiting, each request
    performed an action of the protocol such that, for every environment and
    revision, the approvals that went through, among them all that were
    answered with success, and the revision if it waits now, are at most the
    notifications of it; and whenever the promotion of an
    approved revision was attempted, more notifications of it had come before
    than approvals had been used. *)
Theorem approvals_backed s0 es s :
  history s0 es s -> (forall k env, view s0 k env = "") ->
  exists acts, Forall2 acted es acts /\ backed acts (view s) /\
    forall pre k env rev cleared post, acts = pre ++ ActApproved k env rev cleared :: post ->
      used pre k env rev < notified pre k env rev.
Proof.
  intros Hh H0. destruct (history_runs _ _ _ Hh) as (acts & Hacts & Hr).
  exists acts. split_and!; [done|by eapply run_backed|].
  intros pre k env rev cleared post ->. apply run_prefix in Hr as (v1 & v2 & Hr & Hstep).
  apply run_backed in Hr; [|done]. inversion Hstep as [| | |v v' ? ? ? ? Hne Hw Hv]; subst.
  specialize (Hr k env _ Hne). rewrite decide_True in Hr by done. lia.
Qed.
End histories.
End refinement.

(** ** The theorems at a concrete server

    A notification from [staging] whose revision waits for [prod], and its
    approval *)
Definition staging_event : string -> res Event := fun _ =>
  Ok (MkEvent (MkObjectReference "helm.toolkit.fluxcd.io/v2" "HelmRelease" "podinfo" "staging-ns")
        {["revision" := "5.0.1"]}).

Definition sample_notifying : PromotionServer :=
  let stratReg := [Notification.NewNotification] in
  MkPromotionServer ":8082" (Some (ServeHTTP staging_event stratReg (MkRetryOpts 2 20 3))) "/promotion"
    (Some (Approval.ServeHTTP stratReg)) "/approval" stratReg (MkRateLimit 20 (30 * time_Second))
    (MkRetryOpts 2 20 3).

Definition quiet_server : map_server :=
  MkMapServer {[MkKey "default" "podinfo" := sample_pipeline false (MkPipelineStatus 1 [] ∅)]} ∅.

Definition notify_prod : Request :=
  MkRequest MethodPost "/promotion/default/podinfo/staging" "" ∅ "10.0.0.1:4242" (Ok "{}").
Definition approve_prod : Request :=
  MkRequest MethodPost "/approval/default/podinfo/prod/5.0.1" "" ∅ "10.0.0.1:4242" (Ok "").

Definition sample_exchange (r : Request) (s : map_server) :=
  exec map_handler
    (serve any_time moved ping sample_notifying (server_limiter sample_notifying) r) s.

Lemma ping_reads r w : wp (ping r w) (fun tr _ => reads_only tr).
Proof. repeat constructor. Qed.

Lemma sample_own : own_handlers staging_event sample_notifying.
Proof. by split. Qed.

Lemma sample_strategies : Forall no_pipeline_writes (ps_stratReg sample_notifying).
Proof. repeat constructor; apply notification_no_writes. Qed.

(** The response of an exchange *)
Definition answered (e : list (event sys) * outcome (Limiter * ResponseWriter) * map_server) : Z :=
  match e.1.2 with Done (_, w) => status w | Panicked _ => 0 end.

Lemma server_refines_protocol_witness :
  answered (sample_exchange notify_prod quiet_server) = StatusNoContent /\
  after map_handler
    (serve any_time moved ping sample_notifying (server_limiter sample_notifying) notify_prod) quiet_server
    (fun tr o s' => performs map_handler staging_event sample_notifying notify_prod quiet_server tr (answer o) s').
Proof.
  split; [vm_compute; reflexivity|].
  apply server_refines_protocol; [apply ping_reads|apply sample_own|apply sample_strategies].
Defined.

(** Both exchanges in sequence; the revision waited in between and does not
    any more. *)
Lemma approvals_backed_witness :
  let x1 := sample_exchange notify_prod quiet_server in
  let x2 := sample_exchange approve_prod x1.2 in
  let es := [MkServed notify_prod quiet_server x1.1.1 (answer x1.1.2);
             MkServed approve_prod x1.2 x2.1.1 (answer x2.1.2)] in
  answered x1 = StatusNoContent /\ answered x2 = StatusNoContent /\
  view map_handler x1.2 (MkKey "default" "podinfo") "prod" = "5.0.1" /\
  view map_handler x2.2 (MkKey "default" "podinfo") "prod" = "" /\
  exists acts, Forall2 (acted map_handler staging_event sample_notifying) es acts /\ backed acts (view map_handler x2.2) /\
    forall pre k env rev cleared post, acts = pre ++ ActApproved k env rev cleared :: post ->
      used pre k env rev < notified pre k env rev.
Proof.
  intros x1 x2 es. do 4 (split; [vm_compute; reflexivity|]).
  apply (approvals_backed map_handler staging_event any_time moved ping ping_reads sample_notifying
           sample_own sample_strategies quiet_server es x2.2).
  - unfold es. change [?a; ?b] with (([] ++ [a]) ++ [b]).
    apply history_request with (server_limiter sample_notifying);
      [apply history_request with (server_limiter sample_notifying); [apply history_start|]|].
    + change (x1 = (x1.1.1, x1.1.2, x1.2)). by destruct x1 as [[??]?].
    + change (x2 = (x2.1.1, x2.1.2, x2.2)). by destruct x2 as [[??]?].
  - intros k env. unfold view. cbn -[lookup]. destruct (decide (k = MkKey "default" "podinfo")) as [->|Hne].
    + by rewrite lookup_singleton_eq.
    + by rewrite lookup_singleton_ne.
Defined.

(** ** Requests at the same time

    A history serves one request after the other; net/http serves each on its
    own goroutine, so the calls of two requests interleave. *)
Inductive interleaving {A} : list A -> list A -> list A -> Prop :=
  | interleaving_nil : interleaving [] [] []
  | interleaving_left x l1 l2 l : interleaving l1 l2 l -> interleaving (x :: l1) l2 (x :: l)
  | interleaving_right x l1 l2 l : interleaving l1 l2 l -> interleaving l1 (x :: l2) (x :: l).

Lemma interleaving_app {A} (l1 l2 : list A) : interleaving l1 l2 (l1 ++ l2).
Proof.
  induction l1 as [|x l1 IH]; simpl; [|by constructor]. induction l2 as [|x l2 IH]; by constructor.
Qed.

(** The announcements of a trace *)
Definition ev_announced (ev : event sys) : option (list (string * string)) :=
  match ev with Ev e _ => match e with AnnotatedEventf _ m _ _ _ => Some m | _ => None end end.

(** A request whose first read was answered in an earlier state *)
Definition early_read : handler (E := sys) (option map_server * map_server) := fun X e '(early, s) =>
  match early with
  | Some s0 => ((map_handler X e s0).1, (None, s))
  | None => let '(x, s') := map_handler X e s in (x, (None, s'))
  end.

(** An approval can be used twice by requests at the same time: when both have
    read the pipeline before either resets it, both promote and both are
    answered with success, against an API server that keeps its promises. *)
Theorem concurrent_approvals_promote_twice :
  let p := Approval.ServeHTTP [Notification.NewNotification] sample_approval new_writer in
  exists tr tr' all,
    (exists w, runs p tr (Done w) /\ succeeded w) /\ (exists w, runs p tr' (Done w) /\ succeeded w) /\
    interleaving tr tr' all /\ consistent map_handler (sample_server false) all /\
    omap ev_announced all =
      [[("environment", "prod"); ("version", "5.0.0")]; [("environment", "prod"); ("version", "5.0.0")]].
Proof.
  intros p. set (x := exec map_handler p (sample_server false)).
  set (x' := exec early_read p (Some (sample_server false), x.2)).
  exists x.1.1, x'.1.1, (take 1 x'.1.1 ++ x.1.1 ++ drop 1 x'.1.1). split_and!.
  - exists (WriteHeader StatusNoContent new_writer). split; [|right; reflexivity].
    apply (exec_runs map_handler p (sample_server false) _ _ x.2). vm_compute. reflexivity.
  - exists (WriteHeader StatusNoContent new_writer). split; [|right; reflexivity].
    apply (exec_runs early_read p (Some (sample_server false), x.2) _ _ x'.2). vm_compute. reflexivity.
  - assert (x'.1.1 = take 1 x'.1.1 ++ drop 1 x'.1.1) as Hx by by rewrite take_drop.
    assert (exists ev, take 1 x'.1.1 = [ev]) as [ev Hev] by (eexists; vm_compute; reflexivity).
    rewrite Hx at 1. rewrite Hev. apply interleaving_right, interleaving_app.
  - vm_compute. repeat split.
  - vm_compute. reflexivity.
Qed.
