(* ===== verification/Conditions.v ===== *)
(** * Conditions and unstructured objects (pkg/conditions)

    [IsReady] and [IsReadyUnstructured], and the interface [ApiMachinery]
    through which the program uses k8s.io/apimachinery: status conditions,
    nested fields of unstructured objects, group versions and the printed form
    of keys.  The class states the documented behaviour; [stock] is an
    instance, used to evaluate the controllers. *)

From S2P Require Export Sys GoStrings.
From Stdlib Require Import Ascii.

(** ** The interface *)

(** The first condition of a type *)
Fixpoint condition_of (cs : list Condition) (t : string) : option Condition :=
  match cs with
  | [] => None
  | c :: cs => if bool_decide (cond_Type c = t) then Some c else condition_of cs t
  end.

(** The value of a JSON object's key, and of a path of keys *)
Fixpoint assoc (k : string) (m : list (string * value)) : option value :=
  match m with
  | [] => None
  | (k', v) :: m => if bool_decide (k' = k) then Some v else assoc k m
  end.

Fixpoint field (v : value) (path : list string) : option value :=
  match path with
  | [] => Some v
  | k :: path => match v with VMap m => v' ← assoc k m; field v' path | _ => None end
  end.

Class ApiMachinery := {
  (* api/meta: conditions *)
  SetStatusCondition : list Condition -> Condition -> list Condition;
  RemoveStatusCondition : list Condition -> string -> list Condition;
  (* unstructured: [(v, found, err)], [Ok None] when not found *)
  NestedString : value -> list string -> res (option string);
  NestedSlice : value -> list string -> res (option (list value));
  (* runtime/schema *)
  ParseGroupVersion : string -> res (string * string);
  GVKForObject : GroupVersionKind -> res GroupVersionKind;
  ObjectKey_String : ObjectKey -> string;
  GVK_String : GroupVersionKind -> string;

  condition_of_Set cs c t :
    condition_of (SetStatusCondition cs c) t =
      if bool_decide (cond_Type c = t) then Some c else condition_of cs t;
  condition_of_Remove cs t t' :
    condition_of (RemoveStatusCondition cs t) t' =
      if bool_decide (t = t') then None else condition_of cs t';
  NestedString_found v path s :
    NestedString v path = Ok (Some s) <-> field v path = Some (VString s);
  NestedSlice_found v path l :
    NestedSlice v path = Ok (Some l) <-> field v path = Some (VSlice l);
  GVKForObject_same g g' : GVKForObject g = Ok g' -> g' = g;
  ObjectKey_String_eq k : ObjectKey_String k = key_Namespace k +:+ "/" +:+ key_Name k;
  GVK_String_eq g :
    GVK_String g = gvk_Group g +:+ "/" +:+ gvk_Version g +:+ ", Kind=" +:+ gvk_Kind g }.

(** ** pkg/conditions/util.go *)
Definition ReadyCondition := "Ready".
Definition PromotionPendingCondition := "PromotionPending".

Fixpoint IsReady (cs : list Condition) : bool :=
  match cs with
  | [] => false
  | c :: cs =>
      if bool_decide (cond_Type c = "Ready") then bool_decide (cond_Status c = ConditionTrue)
      else IsReady cs
  end.

Section conditions.
Context `{ApiMachinery}.

Fixpoint IsReadyUnstructured (cs : list value) : bool :=
  match cs with
  | [] => false
  | obj :: cs =>
      match obj with
      | VMap _ =>
          match NestedString obj ["type"] with
          | Ok (Some s) =>
              if bool_decide (s = "Ready") then
                match NestedString obj ["status"] with
                | Ok (Some s) => bool_decide (s = ConditionTrue)
                | _ => false
                end
              else IsReadyUnstructured cs
          | _ => IsReadyUnstructured cs
          end
      | _ => IsReadyUnstructured cs
      end
  end.

(** ** Lemmas *)
Lemma IsReady_spec cs :
  IsReady cs = true <-> exists c, condition_of cs "Ready" = Some c /\ cond_Status c = ConditionTrue.
Proof.
  induction cs as [|c cs IH]; simpl; [split; [done|by intros (? & ? & _)]|].
  case_bool_decide as Ht; [|done]. split.
  - intros Hs%bool_decide_eq_true. by exists c.
  - intros (c' & [= <-] & Hs). by apply bool_decide_eq_true.
Qed.

Lemma IsReady_Set cs c :
  cond_Type c = ReadyCondition ->
  IsReady (SetStatusCondition cs c) = bool_decide (cond_Status c = ConditionTrue).
Proof.
  intros Ht. apply eq_true_iff_eq. rewrite IsReady_spec, condition_of_Set.
  rewrite bool_decide_true by done. rewrite bool_decide_eq_true. naive_solver.
Qed.

(** How the API server prints a condition *)
Definition json_of (c : Condition) : value :=
  VMap [("message", VString (cond_Message c)); ("reason", VString (cond_Reason c));
        ("status", VString (cond_Status c)); ("type", VString (cond_Type c))].

(** C39.  The two readiness checks agree: on the JSON form of a list of
    conditions, among entries that are not objects, the unstructured check is
    the typed one. *)
Theorem IsReadyUnstructured_json (l : list (Condition + value)) :
  (forall v, inr v ∈ l -> match v with VMap _ => False | _ => True end) ->
  IsReadyUnstructured ((fun x => match x with inl c => json_of c | inr v => v end) <$> l) =
  IsReady (omap (fun x => match x with inl c => Some c | inr _ => None end) l).
Proof.
  induction l as [|x l IH]; intros Hl; [done|].
  assert (forall v, inr v ∈ l -> match v with VMap _ => False | _ => True end) as Hl'.
  { intros v Hv. apply Hl. by right. }
  destruct x as [c|v]; cbn [fmap list_fmap omap list_omap].
  - assert (NestedString (json_of c) ["type"] = Ok (Some (cond_Type c))) as H1 by by apply NestedString_found.
    assert (NestedString (json_of c) ["status"] = Ok (Some (cond_Status c))) as H2 by by apply NestedString_found.
    unfold json_of in *. cbn [IsReadyUnstructured IsReady]. rewrite H1, H2.
    case_bool_decide; [done|by apply IH].
  - specialize (Hl v ltac:(by left)). destruct v; try done; by apply IH.
Qed.
End conditions.

(** ** An instance *)
Module Stock.
Fixpoint SetStatusCondition (cs : list Condition) (c : Condition) : list Condition :=
  match cs with
  | [] => [c]
  | c' :: cs => if bool_decide (cond_Type c' = cond_Type c) then c :: cs
                else c' :: SetStatusCondition cs c
  end.

Definition RemoveStatusCondition (cs : list Condition) (t : string) : list Condition :=
  filter (fun c => cond_Type c <> t) cs.

Definition NestedString (v : value) (path : list string) : res (option string) :=
  match field v path with
  | Some (VString s) => Ok (Some s)
  | Some _ => Err (errorf "accessor error")
  | None => Ok None
  end.

Definition NestedSlice (v : value) (path : list string) : res (option (list value)) :=
  match field v path with
  | Some (VSlice l) => Ok (Some l)
  | Some _ => Err (errorf "accessor error")
  | None => Ok None
  end.

Definition ParseGroupVersion (s : string) : res (string * string) :=
  match Split slash s with
  | [v] => Ok ("", v)
  | [g; v] => Ok (g, v)
  | _ => Err (errorf ("unexpected GroupVersion string: " +:+ s))
  end.

#[refine] Instance stock : ApiMachinery := {|
  Conditions.SetStatusCondition := SetStatusCondition;
  Conditions.RemoveStatusCondition := RemoveStatusCondition;
  Conditions.NestedString := NestedString;
  Conditions.NestedSlice := NestedSlice;
  Conditions.ParseGroupVersion := ParseGroupVersion;
  GVKForObject g := if bool_decide (gvk_Kind g = "") then Err (errorf "Object 'Kind' is missing") else Ok g;
  ObjectKey_String k := key_Namespace k +:+ "/" +:+ key_Name k;
  GVK_String g := gvk_Group g +:+ "/" +:+ gvk_Version g +:+ ", Kind=" +:+ gvk_Kind g |}.
Proof.
  - intros cs c t. induction cs as [|c' cs IH]; simpl; [done|].
    destruct (decide (cond_Type c' = cond_Type c)) as [Hc|Hc].
    + rewrite (bool_decide_true (cond_Type c' = _)) by done. simpl. rewrite Hc.
      by destruct (bool_decide (cond_Type c = t)).
    + rewrite (bool_decide_false (cond_Type c' = cond_Type c)) by done. simpl. rewrite IH.
      destruct (decide (cond_Type c' = t)), (decide (cond_Type c = t));
        rewrite ?bool_decide_true, ?bool_decide_false by congruence; congruence.
  - intros cs t t'. unfold RemoveStatusCondition.
    induction cs as [|c cs IH]; [simpl; by case_bool_decide|].
    rewrite filter_cons. destruct (decide (cond_Type c = t)) as [Hc|Hc].
    + rewrite decide_False by naive_solver. rewrite IH. simpl.
      repeat case_bool_decide; congruence.
    + rewrite decide_True by done. simpl. rewrite IH. repeat case_bool_decide; congruence.
  - intros v path s. unfold NestedString. destruct (field v path) as [[]|]; naive_solver.
  - intros v path l. unfold NestedSlice. destruct (field v path) as [[]|]; naive_solver.
  - intros g g'. case_bool_decide; naive_solver.
  - done.
  - done.
Defined.
End Stock.

#[local] Existing Instance Stock.stock.

Lemma IsReadyUnstructured_json_witness :
  IsReadyUnstructured [json_of (MkCondition "Stalled" "False" "" ""); VString "odd";
                       json_of (MkCondition "Ready" "True" "" "")] = true.
Proof.
  apply (IsReadyUnstructured_json [inl (MkCondition "Stalled" "False" "" ""); inr (VString "odd");
                                   inl (MkCondition "Ready" "True" "" "")]).
  intros v Hv. repeat (apply elem_of_cons in Hv as [Hv|Hv]; [by simplify_eq|]). by apply elem_of_nil in Hv.
Defined.
