(* ===== verification/EdgeController.v ===== *)
(** * The notification-driven reconciler (controllers/)

    [PipelineReconciler] of package controllers: it checks that the clusters a
    pipeline refers to exist and are ready and records the result in the
    status; promotions are left to the webhooks. *)

From S2P Require Export Conditions.

(** [ctrl.Result] *)
Record Result := MkResult { Requeue : bool; RequeueAfter : Z }.
Definition zero_Result := MkResult false 0.

(** The fields of [PipelineReconciler] besides the client: the controller's
    name and whether the recorder is set *)
Record PipelineReconciler := MkPipelineReconciler {
  pr_ControllerName : string;
  pr_recorder : bool }.

Definition trimString (str : string) (limit : Z) : string :=
  if bool_decide (len str <= limit)%Z then str else slice_to limit str +:+ "...".

(** The key [getCluster] asks for; the level-triggered reconciler has a method
    with the same body. *)
Definition cluster_key (p : Pipeline) (clusterRef : CrossNamespaceClusterReference) : ObjectKey :=
  let namespace := if bool_decide (cr_Namespace clusterRef = "") then pl_Namespace p
                   else cr_Namespace clusterRef in
  MkKey namespace (cr_Name clusterRef).

Definition getCluster (p : Pipeline) (clusterRef : CrossNamespaceClusterReference) :
    io (res GitopsCluster) :=
  call cluster <- trigger (GetCluster (cluster_key p clusterRef)) onerr err => mret (Err err);
  mret (Ok cluster).

Section reconciler.
Context `{ApiMachinery} (r : PipelineReconciler).

Definition emitEventf (object : Pipeline) (eventtype reason message : string) : io unit :=
  if pr_recorder r then trigger (Eventf (pl_Key object) eventtype reason message) else mret tt.

Definition patchStatus (n : ObjectKey) (newStatus : PipelineStatus) : io (res unit) :=
  call pipeline <- trigger (GetPipeline n) onerr err => mret (Err err);
  trigger (StatusPatch pipeline (set_Status newStatus pipeline) (pr_ControllerName r)).

(** The status with the observed generation and one condition set *)
Definition with_condition (p : Pipeline) (c : Condition) : PipelineStatus :=
  let st := set_ObservedGeneration (pl_Generation p) (pl_Status p) in
  set_Conditions (SetStatusCondition (st_Conditions st) c) st.

Definition setStatusCondition (p : Pipeline) (msg reason : string) : io (res unit) :=
  let newCondition := MkCondition ReadyCondition ConditionFalse reason
                        (trimString msg MaxConditionMessageLength) in
  call _ <- patchStatus (pl_Key p) (with_condition p newCondition) onerr err =>
    mret (Err (wrapf "failed patching Pipeline: " err));
  mret (Ok tt).

Definition pipeline_name (p : Pipeline) : string := pl_Namespace p +:+ "/" +:+ pl_Name p.

(** A status condition, then the periodic requeue *)
Definition stop_with (p : Pipeline) (msg reason : string) : io (option (Result * option error)) :=
  r ← setStatusCondition p msg reason;
  match r with
  | Err err =>
      emitEventf p EventTypeWarning "SetStatusConditionError"
        ("Failed to set status for pipeline " +:+ pipeline_name p +:+ ": " +:+ Error err);;
      mret (Some (zero_Result, Some err))
  | Ok _ => mret (Some (MkResult false DefaultRequeueInterval, None))
  end.

(** The body of the loop over the targets; [None] goes on. *)
Definition check_target (p : Pipeline) (target : Target) : io (option (Result * option error)) :=
  match tgt_ClusterRef target with
  | None => mret None
  | Some ref =>
      cluster ← getCluster p ref;
      match cluster with
      | Err err =>
          emitEventf p EventTypeWarning "GetClusterError"
            ("Failed to get cluster " +:+ cr_Namespace ref +:+ "/" +:+ cr_Name ref +:+
             " for pipeline " +:+ pipeline_name p +:+ ": " +:+ Error err);;
          if IsNotFound err then
            s ← ClusterRef_String (Some ref);
            stop_with p ("Target cluster '" +:+ s +:+ "' not found") TargetClusterNotFoundReason
          else mret (Some (zero_Result, Some err))
      | Ok cluster =>
          if IsReady (gc_Conditions cluster) then mret None
          else
            s ← ClusterRef_String (Some ref);
            stop_with p ("Target cluster '" +:+ s +:+ "' not ready") TargetClusterNotReadyReason
      end
  end.

Fixpoint check_targets (p : Pipeline) (targets : list Target) :
    io (option (Result * option error)) :=
  match targets with
  | [] => mret None
  | target :: targets =>
      stop ← check_target p target;
      match stop with
      | Some ret => mret (Some ret)
      | None => check_targets p targets
      end
  end.

Fixpoint check_environments (p : Pipeline) (envs : list Environment) :
    io (option (Result * option error)) :=
  match envs with
  | [] => mret None
  | env :: envs =>
      stop ← check_targets p (env_Targets env);
      match stop with
      | Some ret => mret (Some ret)
      | None => check_environments p envs
      end
  end.

Definition Reconcile (req : ObjectKey) : io (Result * option error) :=
  call pipeline <- trigger (GetPipeline req) onerr err => mret (zero_Result, IgnoreNotFound err);
  when bool_decide (pl_DeletionTimestamp pipeline <> None) return mret (zero_Result, None);
  stop ← check_environments pipeline (spec_Environments (pl_Spec pipeline));
  match stop with
  | Some ret => mret ret
  | None =>
      let newCondition := MkCondition ReadyCondition ConditionTrue ReconciliationSucceededReason
                            (trimString "All clusters checked" MaxConditionMessageLength) in
      patched ← patchStatus (pl_Key pipeline) (with_condition pipeline newCondition);
      match patched with
      | Err err =>
          emitEventf pipeline EventTypeWarning "SetStatus"
            ("Failed to patch status for pipeline " +:+ pipeline_name pipeline +:+ ": " +:+ Error err);;
          mret (MkResult true 0, Some err)
      | Ok _ =>
          emitEventf pipeline EventTypeNormal "Updated"
            ("Updated pipeline " +:+ pipeline_name pipeline);;
          mret (zero_Result, None)
      end
  end.
End reconciler.

(** ** pipeline_indexing.go *)

(** [fmt.Sprintf("%s/%s", namespace, name)] *)
Definition slash_key (k : ObjectKey) : string := key_Namespace k +:+ "/" +:+ key_Name k.

(** The index keys of one environment's targets *)
Definition index_target (kind : string) (p : Pipeline) (target : Target) : list string :=
  match tgt_ClusterRef target with
  | Some ref =>
      if bool_decide (cr_Kind ref = kind) then
        let namespace := if bool_decide (cr_Namespace ref <> "") then cr_Namespace ref
                         else pl_Namespace p in
        [namespace +:+ "/" +:+ cr_Name ref]
      else []
  | None => []
  end.

Definition indexClusterKind (kind : string) (p : Pipeline) : list string :=
  env ← spec_Environments (pl_Spec p);
  target ← env_Targets env;
  index_target kind p target.

Definition requestsForCluster (indexKey : string) (obj : ObjectKey) : io (list ObjectKey) :=
  items ← trigger (ListPipelines indexKey (key_Namespace obj +:+ "/" +:+ key_Name obj));
  mret match items with
       | Err _ => []
       | Ok items => pl_Key <$> items
       end.

Definition gitopsClusterIndexKey := ".spec.environment.ClusterRef".

(** ** Specification of the cluster check *)

(** The cluster references of a pipeline, in the order of the loops *)
Definition target_refs (targets : list Target) : list CrossNamespaceClusterReference :=
  omap tgt_ClusterRef targets.
Definition cluster_refs (p : Pipeline) : list CrossNamespaceClusterReference :=
  env ← spec_Environments (pl_Spec p); target_refs (env_Targets env).

Inductive verdict :=
  | AllReady
  | ClusterMissing (ref : CrossNamespaceClusterReference)
  | ClusterUnready (ref : CrossNamespaceClusterReference)
  | ClusterFailed (e : error).

(** [scan p refs answers v]: reading the clusters of [refs] in order gives
    [answers], up to the first one that is not ready, which decides [v]. *)
Inductive scan (p : Pipeline) :
    list CrossNamespaceClusterReference -> list (ObjectKey * res GitopsCluster) -> verdict -> Prop :=
  | scan_all : scan p [] [] AllReady
  | scan_ready ref refs c answers v :
      IsReady (gc_Conditions c) = true -> scan p refs answers v ->
      scan p (ref :: refs) ((cluster_key p ref, Ok c) :: answers) v
  | scan_unready ref refs c :
      IsReady (gc_Conditions c) = false ->
      scan p (ref :: refs) [(cluster_key p ref, Ok c)] (ClusterUnready ref)
  | scan_missing ref refs e :
      IsNotFound e = true -> scan p (ref :: refs) [(cluster_key p ref, Err e)] (ClusterMissing ref)
  | scan_failed ref refs e :
      IsNotFound e = false -> scan p (ref :: refs) [(cluster_key p ref, Err e)] (ClusterFailed e).

Create HintDb scan.
#[local] Hint Constructors scan : scan.

Lemma scan_app_ready p refs refs' answers answers' v :
  scan p refs answers AllReady -> scan p refs' answers' v ->
  scan p (refs ++ refs') (answers ++ answers') v.
Proof.
  intros H1 H2. remember AllReady as v0 eqn:Hv. induction H1; try done; by constructor; auto.
Qed.

Lemma scan_app_stop p refs refs' answers v :
  scan p refs answers v -> v <> AllReady -> scan p (refs ++ refs') answers v.
Proof. intros H1. induction H1; intros Hv; simpl; try done; eauto with scan. Qed.

Lemma scan_AllReady p refs answers :
  scan p refs answers AllReady ->
  Forall2 (fun ref a => exists c, a = (cluster_key p ref, Ok c) /\ IsReady (gc_Conditions c) = true)
    refs answers.
Proof. intros H. remember AllReady as v eqn:Hv. induction H; try done; constructor; eauto. Qed.

(** How a reference is printed in a condition *)
Definition ref_name (ref : CrossNamespaceClusterReference) : string :=
  if bool_decide (cr_Namespace ref = "")
  then cr_Kind ref +:+ "/" +:+ cr_Name ref
  else cr_Kind ref +:+ "/" +:+ cr_Namespace ref +:+ "/" +:+ cr_Name ref.

(** The condition a verdict is recorded as *)
Definition ready_false (reason msg : string) : Condition :=
  MkCondition ReadyCondition ConditionFalse reason (trimString msg MaxConditionMessageLength).

Definition verdict_condition (v : verdict) : option Condition :=
  match v with
  | AllReady =>
      Some (MkCondition ReadyCondition ConditionTrue ReconciliationSucceededReason
              (trimString "All clusters checked" MaxConditionMessageLength))
  | ClusterMissing ref =>
      Some (ready_false TargetClusterNotFoundReason ("Target cluster '" +:+ ref_name ref +:+ "' not found"))
  | ClusterUnready ref =>
      Some (ready_false TargetClusterNotReadyReason ("Target cluster '" +:+ ref_name ref +:+ "' not ready"))
  | ClusterFailed _ => None
  end.

(** What is returned once the verdict has been recorded, or could not be *)
Definition recorded_result (v : verdict) : Result :=
  match v with AllReady => zero_Result | _ => MkResult false DefaultRequeueInterval end.
Definition unrecorded_result (v : verdict) : Result :=
  match v with AllReady => MkResult true 0 | _ => zero_Result end.

Section specification.
Context `{ApiMachinery} (r : PipelineReconciler).

(** The status patches of a run and its return value react to the verdict. *)
Definition reacts (p : Pipeline) (v : verdict) (tr : list (event sys))
    (ret : Result * option error) : Prop :=
  match verdict_condition v with
  | None => omap ev_StatusPatch tr = [] /\ exists e, v = ClusterFailed e /\ ret = (zero_Result, Some e)
  | Some c =>
      (ret = (recorded_result v, None) /\
       exists before, omap ev_StatusPatch tr =
         [(before, set_Status (with_condition p c) before, Ok tt)]) \/
      (exists e, ret = (unrecorded_result v, Some e) /\
       Forall (fun patch => patch.2 <> Ok tt) (omap ev_StatusPatch tr))
  end.

(** ** Lemmas *)
Lemma wp_emitEventf p t reason msg (Q : list (event sys) -> outcome unit -> Prop) :
  (forall tr, omap ev_StatusPatch tr = [] -> omap ev_GetCluster tr = [] ->
     omap ev_GetPipeline tr = [] -> Q tr (Done tt)) ->
  wp (emitEventf r p t reason msg) Q.
Proof. intros HQ. unfold emitEventf. destruct (pr_recorder r); [intros []|]; by apply HQ. Qed.

Definition patch_post (st : PipelineStatus) (tr : list (event sys)) (o : res unit) : Prop :=
  omap ev_GetCluster tr = [] /\
  match o with
  | Ok _ => exists before, omap ev_StatusPatch tr = [(before, set_Status st before, Ok tt)]
  | Err _ => Forall (fun patch => patch.2 <> Ok tt) (omap ev_StatusPatch tr)
  end.

Lemma wp_patchStatus k st Q :
  (forall tr o, patch_post st tr o -> Q tr (Done o)) -> wp (patchStatus r k st) Q.
Proof.
  intros HQ. unfold patchStatus. rewrite wp_bind, wp_trigger. intros [before|e]; cbn [wp_then].
  - rewrite wp_trigger. intros [[]|e]; apply HQ; (split; [done|]); cbn.
    + by exists before.
    + by repeat constructor.
  - apply HQ. split; [done|]. constructor.
Qed.

Lemma ClusterRef_String_eq ref : ClusterRef_String (E := sys) (Some ref) = PRet (ref_name ref).
Proof. done. Qed.

(** The two ways to stop after a cluster was found wanting *)
Lemma wp_stop_with p msg reason Q :
  (forall tr, omap ev_GetCluster tr = [] ->
     (exists before, omap ev_StatusPatch tr =
        [(before, set_Status (with_condition p (ready_false reason msg)) before, Ok tt)]) ->
     Q tr (Done (Some (MkResult false DefaultRequeueInterval, None)))) ->
  (forall tr e, omap ev_GetCluster tr = [] ->
     Forall (fun patch => patch.2 <> Ok tt) (omap ev_StatusPatch tr) ->
     Q tr (Done (Some (zero_Result, Some e)))) ->
  wp (stop_with r p msg reason) Q.
Proof.
  intros Hok Herr. unfold stop_with, setStatusCondition. rewrite wp_bind, wp_bind.
  apply wp_patchStatus. intros tr [[]|e] [Hc Hpatch]; cbn [wp_then].
  - cbn. rewrite app_nil_r. by apply Hok; rewrite app_nil_r.
  - cbn [wp mret prog_ret wp_then]. rewrite wp_bind. apply wp_emitEventf. intros tr' Hp' Hc' _.
    cbn. rewrite !app_nil_r. apply Herr; rewrite omap_app, ?Hp', ?Hc', ?app_nil_r; done.
Qed.

(** The loop result: go on after [AllReady], stop otherwise *)
Definition check_post (p : Pipeline) (refs : list CrossNamespaceClusterReference)
    (tr : list (event sys)) (o : outcome (option (Result * option error))) : Prop :=
  exists v, scan p refs (omap ev_GetCluster tr) v /\
    ((v = AllReady /\ o = Done None /\ omap ev_StatusPatch tr = []) \/
     (v <> AllReady /\ exists ret, o = Done (Some ret) /\ reacts p v tr ret)).

Lemma check_target_spec p t : wp (check_target r p t) (check_post p (target_refs [t])).
Proof.
  unfold check_target, target_refs. cbn [omap list_omap]. destruct (tgt_ClusterRef t) as [ref|].
  2: { exists AllReady. split; [constructor|by left]. }
  rewrite wp_bind. unfold getCluster. rewrite wp_bind, wp_trigger.
  intros [c|e]; cbn [wp_then wp mret prog_ret app].
  - destruct (IsReady (gc_Conditions c)) eqn:Hr.
    { exists AllReady. cbn. split; [by eauto with scan|by left]. }
    rewrite ClusterRef_String_eq, bind_ret_l.
    apply wp_stop_with; [intros tr Hc Hp|intros tr e Hc Hp]; exists (ClusterUnready ref); cbn; rewrite Hc;
      (split; [by eauto with scan|right; split; [done|]]); eexists; (split; [done|]); unfold reacts; cbn; eauto.
  - rewrite wp_bind. apply wp_emitEventf. intros tr0 Hp0 Hc0 _. cbn [wp_then].
    destruct (IsNotFound e) eqn:Hn.
    + rewrite ClusterRef_String_eq, bind_ret_l.
      apply wp_stop_with; [intros tr Hc Hp|intros tr e' Hc Hp]; exists (ClusterMissing ref); cbn;
        rewrite omap_app, Hc0, Hc; (split; [by eauto with scan|right; split; [done|]]); eexists;
        (split; [done|]); unfold reacts; cbn; rewrite omap_app, Hp0; eauto.
    + exists (ClusterFailed e). cbn. rewrite app_nil_r, Hc0.
      split; [by eauto with scan|right; split; [done|]]. eexists. split; [done|].
      unfold reacts. cbn. rewrite Hp0. eauto.
Qed.

(** Doing one check after another *)
Lemma check_seq p refs refs' (m m' : io (option (Result * option error))) :
  wp m (check_post p refs) -> wp m' (check_post p refs') ->
  wp (stop ← m; match stop with Some ret => mret (Some ret) | None => m' end)
    (check_post p (refs ++ refs')).
Proof.
  intros H1 H2. rewrite wp_bind. eapply wp_mono; [|exact H1].
  intros tr o (v & Hscan & [(-> & -> & Hp)|(Hv & ret & -> & Hre)]); cbn [wp_then].
  - eapply wp_mono; [|exact H2]. intros tr' o' (v' & Hscan' & Ho). exists v'.
    rewrite omap_app. split; [by apply scan_app_ready|]. unfold reacts in *. by rewrite omap_app, Hp.
  - exists v. cbn. rewrite app_nil_r. split; [by apply scan_app_stop|]. right. eauto.
Qed.

Lemma check_targets_spec p ts : wp (check_targets r p ts) (check_post p (target_refs ts)).
Proof.
  induction ts as [|t ts IH]; cbn [check_targets].
  - exists AllReady. split; [constructor|by left].
  - unfold target_refs. change (t :: ts) with ([t] ++ ts). rewrite omap_app.
    by apply check_seq; [apply check_target_spec|].
Qed.

Lemma check_environments_spec p envs :
  wp (check_environments r p envs) (check_post p (env ← envs; target_refs (env_Targets env))).
Proof.
  induction envs as [|env envs IH]; cbn [check_environments].
  - exists AllReady. split; [constructor|by left].
  - by apply check_seq; [apply check_targets_spec|].
Qed.

(** What a run of the reconciler is, by the answer of its first read *)
Definition reconcile_post (req : ObjectKey) (tr : list (event sys))
    (o : outcome (Result * option error)) : Prop :=
  exists first tr', tr = Ev (GetPipeline req) first :: tr' /\
    match first with
    | Err e => tr' = [] /\ o = Done (zero_Result, IgnoreNotFound e)
    | Ok p =>
        if bool_decide (pl_DeletionTimestamp p <> None)
        then tr' = [] /\ o = Done (zero_Result, None)
        else exists v ret, o = Done ret /\
               scan p (cluster_refs p) (omap ev_GetCluster tr') v /\ reacts p v tr' ret
    end.

Lemma edge_runs req : wp (Reconcile r req) (reconcile_post req).
Proof.
  unfold Reconcile. rewrite wp_bind, wp_trigger. intros [p|e]; cbn [wp_then].
  2: { by exists (Err e), []. }
  case_bool_decide as Hdel.
  { exists (Ok p), []. rewrite bool_decide_true by done. done. }
  rewrite wp_bind. eapply wp_mono; [|apply check_environments_spec].
  intros tr o (v & Hscan & Ho). unfold cluster_refs in *.
  assert (forall tr2 ret, omap ev_GetCluster tr2 = [] -> omap ev_StatusPatch tr = [] ->
    reacts p v tr2 ret -> v = AllReady ->
    reconcile_post req ([Ev (GetPipeline req) (Ok p)] ++ tr ++ tr2) (Done ret)) as Hend.
  { intros tr2 ret Hc Hp Hre ->. exists (Ok p), (tr ++ tr2). split; [done|].
    rewrite bool_decide_false by naive_solver. exists AllReady, ret. split_and!; [done| |].
    - by rewrite omap_app, Hc, app_nil_r.
    - unfold reacts in *. by rewrite omap_app, Hp. }
  destruct Ho as [(-> & -> & Hp)|(Hv & ret & -> & Hre)]; cbn [wp_then].
  - rewrite wp_bind. apply wp_patchStatus. intros tr1 [[]|e] [Hc Hpatch]; cbn [wp_then]; rewrite wp_bind;
      apply wp_emitEventf; intros tr2 Hp2 Hc2 _; cbn [wp_then wp mret prog_ret]; rewrite app_nil_r;
      apply Hend; rewrite ?omap_app, ?Hc, ?Hc2; try done; unfold reacts; cbn;
      rewrite omap_app, Hp2, app_nil_r; [left; split; done|right; eauto].
  - exists (Ok p), tr. rewrite app_nil_r. split; [done|]. rewrite bool_decide_false by naive_solver.
    exists v, ret. done.
Qed.


Lemma IsReady_with_condition p c :
  cond_Type c = ReadyCondition ->
  IsReady (st_Conditions (with_condition p c)) = bool_decide (cond_Status c = ConditionTrue).
Proof. intros Hc. by apply IsReady_Set. Qed.

(** Ready means ready: when a run writes a status that says Ready, every
    cluster the pipeline refers to was read in that run and was ready. *)
Theorem edge_ready_sound req :
  wp (Reconcile r req) (fun tr o => forall before after,
    (before, after, Ok tt) ∈ omap ev_StatusPatch tr ->
    IsReady (st_Conditions (pl_Status after)) = true ->
    exists p, head (omap ev_GetPipeline tr) = Some (req, Ok p) /\
      st_ObservedGeneration (pl_Status after) = pl_Generation p /\
      Forall2 (fun ref answer => exists c,
          answer = (cluster_key p ref, Ok c) /\ IsReady (gc_Conditions c) = true)
        (cluster_refs p) (omap ev_GetCluster tr)).
Proof.
  eapply wp_mono; [|apply edge_runs]. intros tr o (first & tr' & -> & Hpost) before after Hin Hready.
  cbn in Hin |- *. destruct first as [p|e]; [|destruct Hpost as [-> _]; by apply elem_of_nil in Hin].
  case_bool_decide; [destruct Hpost as [-> _]; by apply elem_of_nil in Hin|].
  destruct Hpost as (v & ret & _ & Hscan & Hre). exists p. split; [done|].
  unfold reacts in Hre. destruct (verdict_condition v) as [c|] eqn:Hc.
  2: { destruct Hre as [Hnil _]. rewrite Hnil in Hin. by apply elem_of_nil in Hin. }
  destruct Hre as [(_ & b & Hpatch)|(e & _ & Hbad)].
  2: { rewrite Forall_forall in Hbad. by specialize (Hbad _ Hin). }
  rewrite Hpatch in Hin. apply list_elem_of_singleton in Hin as [= -> ->].
  split; [done|]. cbn [pl_Status set_Status] in Hready.
  destruct v; cbn in Hc; simplify_eq; rewrite IsReady_with_condition in Hready by done; try done.
  by apply scan_AllReady.
Qed.

(** The status a run writes carries the environments of its first read,
    whatever the object holds when it is patched: an approval recorded in
    between does not survive. *)
Theorem edge_patch_overwrites_environments req :
  wp (Reconcile r req) (fun tr o => forall before after x,
    (before, after, x) ∈ omap ev_StatusPatch tr -> x = Ok tt ->
    exists p, head (omap ev_GetPipeline tr) = Some (req, Ok p) /\
      forall env, waiting (pl_Status after) env = waiting (pl_Status p) env).
Proof.
  eapply wp_mono; [|apply edge_runs]. intros tr o (first & tr' & -> & Hpost) before after x Hin ->.
  cbn in Hin |- *. destruct first as [p|e]; [|destruct Hpost as [-> _]; by apply elem_of_nil in Hin].
  case_bool_decide; [destruct Hpost as [-> _]; by apply elem_of_nil in Hin|].
  destruct Hpost as (v & ret & _ & Hscan & Hre). exists p. split; [done|].
  unfold reacts in Hre. destruct (verdict_condition v) as [c|] eqn:Hc.
  2: { destruct Hre as [Hnil _]. rewrite Hnil in Hin. by apply elem_of_nil in Hin. }
  destruct Hre as [(_ & b & Hpatch)|(e & _ & Hbad)].
  2: { rewrite Forall_forall in Hbad. by specialize (Hbad _ Hin). }
  rewrite Hpatch in Hin. by apply list_elem_of_singleton in Hin as [= -> ->].
Qed.
End specification.

(** ** The cluster index *)

(** The pipeline depends on the cluster: [getCluster] would ask for it. *)
Definition depends_on (kind : string) (k : ObjectKey) (p : Pipeline) : Prop :=
  exists ref, ref ∈ cluster_refs p /\ cr_Kind ref = kind /\ cluster_key p ref = k.

(** Kubernetes names have no slash. *)
Definition valid_key (k : ObjectKey) : Prop :=
  Contains slash (key_Namespace k) = false /\ Contains slash (key_Name k) = false.

Lemma slash_key_inj k k' : valid_key k -> valid_key k' -> slash_key k = slash_key k' -> k = k'.
Proof.
  destruct k as [ns n], k' as [ns' n']. unfold valid_key, slash_key. simpl. intros [H1 H2] [H3 H4] Heq.
  assert (Split slash (ns +:+ "/" +:+ n) = [ns; n]) as Hs.
  { change ("/" +:+ n) with (String slash n). by rewrite Split_app, Split_single. }
  assert (Split slash (ns' +:+ "/" +:+ n') = [ns'; n']) as Hs'.
  { change ("/" +:+ n') with (String slash n'). by rewrite Split_app, Split_single. }
  rewrite Heq, Hs' in Hs. by injection Hs as -> ->.
Qed.

(** The index and [getCluster] default the namespace in the same way. *)
Lemma index_namespace p ref :
  (if bool_decide (cr_Namespace ref <> "") then cr_Namespace ref else pl_Namespace p)
    +:+ "/" +:+ cr_Name ref = slash_key (cluster_key p ref).
Proof.
  unfold slash_key, cluster_key. simpl. destruct (decide (cr_Namespace ref = "")) as [Hns|Hns].
  - rewrite bool_decide_false by naive_solver. by rewrite bool_decide_true.
  - rewrite bool_decide_true by done. by rewrite bool_decide_false.
Qed.

Lemma index_target_spec kind p t s :
  s ∈ index_target kind p t <->
  exists ref, tgt_ClusterRef t = Some ref /\ cr_Kind ref = kind /\ slash_key (cluster_key p ref) = s.
Proof.
  unfold index_target. destruct (tgt_ClusterRef t) as [ref|].
  2: { split; [by intros ?%elem_of_nil|by intros (? & ? & _)]. }
  case_bool_decide as Hk.
  - rewrite list_elem_of_singleton, index_namespace. naive_solver.
  - split; [by intros ?%elem_of_nil|naive_solver].
Qed.

Lemma elem_of_cluster_refs p ref :
  ref ∈ cluster_refs p <-> exists env t, env ∈ spec_Environments (pl_Spec p) /\
    t ∈ env_Targets env /\ tgt_ClusterRef t = Some ref.
Proof.
  unfold cluster_refs, target_refs. rewrite list_elem_of_bind. setoid_rewrite list_elem_of_omap. naive_solver.
Qed.

Lemma indexClusterKind_spec kind p s :
  s ∈ indexClusterKind kind p <->
  exists ref, ref ∈ cluster_refs p /\ cr_Kind ref = kind /\ slash_key (cluster_key p ref) = s.
Proof.
  transitivity (exists env t, env ∈ spec_Environments (pl_Spec p) /\ t ∈ env_Targets env /\
    s ∈ index_target kind p t).
  - unfold indexClusterKind. rewrite list_elem_of_bind. setoid_rewrite list_elem_of_bind. naive_solver.
  - setoid_rewrite index_target_spec. setoid_rewrite elem_of_cluster_refs. naive_solver.
Qed.

(** A cluster event wakes the right pipelines: when listing by index
    answers with the stored pipelines whose index keys contain the value asked
    for, the requests are the keys of exactly the stored pipelines with a
    reference of the indexed kind that [getCluster] resolves to that cluster. *)
Theorem requestsForCluster_exact kind indexKey obj (all : list Pipeline) :
  valid_key obj -> (forall p ref, p ∈ all -> ref ∈ cluster_refs p -> valid_key (cluster_key p ref)) ->
  wp (requestsForCluster indexKey obj) (fun tr o => forall v items,
    omap ev_ListPipelines tr = [(indexKey, v, Ok items)] ->
    (forall p, p ∈ items <-> p ∈ all /\ v ∈ indexClusterKind kind p) ->
    exists reqs, o = Done reqs /\
      forall k, k ∈ reqs <-> exists p, p ∈ all /\ pl_Key p = k /\ depends_on kind obj p).
Proof.
  intros Hobj Hall. unfold requestsForCluster. rewrite wp_bind, wp_trigger.
  intros answer v items [= <- ->] Hitems. eexists. split; [done|]. intros k.
  rewrite list_elem_of_fmap. setoid_rewrite Hitems. setoid_rewrite indexClusterKind_spec.
  split.
  - intros (p & -> & Hp & ref & Href & Hk & Heq). exists p. split_and!; [done|done|].
    exists ref. split_and!; [done|done|]. apply slash_key_inj; eauto.
  - intros (p & Hp & <- & ref & Href & Hk & <-). exists p. split_and!; [done|done|]. by exists ref.
Qed.

(** ** At a concrete pipeline *)
Definition remote_ref : CrossNamespaceClusterReference :=
  MkClusterRef "gitops.weave.works/v1alpha1" "GitopsCluster" "prod-eu" "".

Definition edge_sample : Pipeline :=
  MkPipeline "podinfo" "default" 1 None
    (MkPipelineSpec [MkEnvironment "prod" [MkTarget "prod-ns" (Some remote_ref)] None]
       (MkLocalAppReference "helm.toolkit.fluxcd.io/v2" "HelmRelease" "podinfo") None)
    (MkPipelineStatus 0 [] ∅).

Lemma requestsForCluster_exact_witness :
  indexClusterKind "GitopsCluster" edge_sample = ["default/prod-eu"] /\
  wp (requestsForCluster gitopsClusterIndexKey (MkKey "default" "prod-eu")) (fun tr o => forall v items,
    omap ev_ListPipelines tr = [(gitopsClusterIndexKey, v, Ok items)] ->
    (forall p, p ∈ items <-> p ∈ [edge_sample] /\ v ∈ indexClusterKind "GitopsCluster" p) ->
    exists reqs, o = Done reqs /\
      forall k, k ∈ reqs <-> exists p, p ∈ [edge_sample] /\ pl_Key p = k /\
        depends_on "GitopsCluster" (MkKey "default" "prod-eu") p).
Proof.
  split; [reflexivity|]. apply requestsForCluster_exact; [by split|].
  intros p ref ->%list_elem_of_singleton Href.
  change (cluster_refs edge_sample) with [remote_ref] in Href.
  apply list_elem_of_singleton in Href as ->. by split.
Defined.
