(* ===== verification/Indexing.v ===== *)
(** * Indices of the level-triggered controller
      (controllers/leveltriggered/indexing.go and the keys of caching.go)

    Pipelines are indexed by the clusters they refer to, by the application
    objects that are their targets, and by the client cache each target is
    read from.  The theorems say that a lookup in an index finds exactly the
    pipelines that use what was looked up, so the printed keys never collide. *)

From S2P Require Export EdgeController.
From Stdlib Require Import Ascii.

(** indexing.go: [indexClusterKind] is the same text as in package
    controllers; [requestsForCluster] returns early on an empty list. *)
Module Level.
Definition indexClusterKind := EdgeController.indexClusterKind.

Definition requestsForCluster (indexKey : string) (obj : ObjectKey) : io (list ObjectKey) :=
  items ← trigger (ListPipelines indexKey (key_Namespace obj +:+ "/" +:+ key_Name obj));
  mret match items with
       | Err _ => []
       | Ok [] => []
       | Ok items => pl_Key <$> items
       end.
End Level.

Definition applicationKey := ".spec.environments[].targets[].appRef".
Definition cacheIndex := "cache".

Section indexing.
Context `{ApiMachinery}.

(** caching.go: [clusterAndGVK.String] *)
Definition clusterAndGVK_String (key : clusterAndGVK) : string :=
  ObjectKey_String (cg_ObjectKey key) +:+ ":" +:+ GVK_String (cg_GroupVersionKind key).

Definition targetKeyFunc := ObjectKey -> GroupVersionKind -> ObjectKey -> string.

(** The cluster and the object a target stands for, as [indexTargets] computes
    them; the zero key is the local cluster. *)
Definition target_cluster (p : Pipeline) (target : Target) : ObjectKey :=
  match tgt_ClusterRef target with
  | Some ref =>
      MkKey (if bool_decide (cr_Namespace ref = "") then pl_Namespace p else cr_Namespace ref)
            (cr_Name ref)
  | None => MkKey "" ""
  end.

Definition target_key (p : Pipeline) (target : Target) : ObjectKey :=
  MkKey (if bool_decide (tgt_Namespace target = "") then pl_Namespace p else tgt_Namespace target)
        (app_Name (spec_AppRef (pl_Spec p))).

Definition indexTargets (fn : targetKeyFunc) (p : Pipeline) : list string :=
  let ref := spec_AppRef (pl_Spec p) in
  match ParseGroupVersion (app_APIVersion ref) with
  | Err _ => []
  | Ok (group, version) =>
      let gvk := MkGVK group version (app_Kind ref) in
      env ← spec_Environments (pl_Spec p);
      target ← env_Targets env;
      [fn (target_cluster p target) gvk (target_key p target)]
  end.

(** caching.go *)
Definition targetIndexKey : targetKeyFunc := fun clusterKey gvk targetKey =>
  ObjectKey_String clusterKey +:+ ":" +:+ GVK_String gvk +:+ ":" +:+ ObjectKey_String targetKey.

Definition indexApplication := indexTargets targetIndexKey.

Definition clusterCacheKey : targetKeyFunc := fun clusterKey gvk _targetKey =>
  clusterAndGVK_String (MkClusterAndGVK clusterKey gvk).

Definition indexTargetCache := indexTargets clusterCacheKey.

Definition pipelinesForApplication (clusterName : ObjectKey) (obj_gvk : GroupVersionKind)
    (obj : ObjectKey) : io (res (list Pipeline)) :=
  match GVKForObject obj_gvk with
  | Err err => mret (Err err)
  | Ok gvk =>
      call items <- trigger (ListPipelines applicationKey (targetIndexKey clusterName gvk obj))
        onerr err => mret (Err err);
      mret (Ok items)
  end.

Definition isCacheUsed (key : clusterAndGVK) : io (res bool) :=
  call items <- trigger (ListPipelines cacheIndex (clusterAndGVK_String key)) onerr err =>
    mret (Err err);
  mret (Ok (bool_decide (0 < length items))).

(** ** What the keys stand for *)

(** The targets of a pipeline with the kind they have *)
Definition app_gvk (p : Pipeline) : option GroupVersionKind :=
  let ref := spec_AppRef (pl_Spec p) in
  match ParseGroupVersion (app_APIVersion ref) with
  | Ok (group, version) => Some (MkGVK group version (app_Kind ref))
  | Err _ => None
  end.

Definition has_target (p : Pipeline) (t : Target) : Prop :=
  exists env, env ∈ spec_Environments (pl_Spec p) /\ t ∈ env_Targets env.

Definition uses_cache (key : clusterAndGVK) (p : Pipeline) : Prop :=
  exists t, has_target p t /\ app_gvk p = Some (cg_GroupVersionKind key) /\
    target_cluster p t = cg_ObjectKey key.

Definition targets_object (cluster : ObjectKey) (gvk : GroupVersionKind) (obj : ObjectKey)
    (p : Pipeline) : Prop :=
  exists t, has_target p t /\ app_gvk p = Some gvk /\ target_cluster p t = cluster /\
    target_key p t = obj.

Lemma indexTargets_spec fn p s :
  s ∈ indexTargets fn p <->
  exists t gvk, has_target p t /\ app_gvk p = Some gvk /\
    fn (target_cluster p t) gvk (target_key p t) = s.
Proof.
  unfold indexTargets, app_gvk, has_target.
  destruct (ParseGroupVersion _) as [[g v]|e].
  2: { split; [by intros ?%elem_of_nil|naive_solver]. }
  rewrite list_elem_of_bind. setoid_rewrite list_elem_of_bind. setoid_rewrite list_elem_of_singleton.
  naive_solver.
Qed.

(** Names as Kubernetes allows them: none has a slash, a colon or a comma. *)
Definition plain_name (s : string) : Prop :=
  Contains slash s = false /\ Contains colon s = false /\ Contains ","%char s = false.
Definition plain_key (k : ObjectKey) : Prop := plain_name (key_Namespace k) /\ plain_name (key_Name k).
Definition plain_gvk (g : GroupVersionKind) : Prop :=
  plain_name (gvk_Group g) /\ plain_name (gvk_Version g) /\ plain_name (gvk_Kind g).

Lemma key_sep_inj k k' s s' :
  plain_key k -> plain_key k' ->
  ObjectKey_String k +:+ String colon s = ObjectKey_String k' +:+ String colon s' -> k = k' /\ s = s'.
Proof.
  destruct k as [ns n], k' as [ns' n']. rewrite !ObjectKey_String_eq. unfold plain_key, plain_name. simpl.
  intros [(?&_) (_&?&_)] [(?&_) (_&?&_)]. rewrite !app_assoc_str.
  change ("/" +:+ ?x) with (String slash x).
  intros [-> Heq]%sep_inj; [|done..]. by apply sep_inj in Heq as [-> ->].
Qed.

Lemma gvk_sep_inj g g' :
  plain_gvk g -> plain_gvk g' -> GVK_String g = GVK_String g' -> g = g'.
Proof.
  destruct g as [g v k], g' as [g' v' k']. rewrite !GVK_String_eq. unfold plain_gvk, plain_name. simpl.
  intros ((?&_) & (_&_&?) & _) ((?&_) & (_&_&?) & _).
  change ("/" +:+ ?x) with (String slash x). change (", Kind=" +:+ ?x) with (String ","%char (" Kind=" +:+ x)).
  intros [-> Heq]%sep_inj; [|done..]. apply sep_inj in Heq as [-> Heq]; [|done..].
  by apply (inj (String.app " Kind=")) in Heq as ->.
Qed.

Lemma gvk_colon_inj g g' s s' :
  plain_gvk g -> plain_gvk g' ->
  GVK_String g +:+ String colon s = GVK_String g' +:+ String colon s' -> g = g' /\ s = s'.
Proof.
  intros Hg Hg'. assert (forall g, plain_gvk g -> Contains colon (GVK_String g) = false) as Hc.
  { intros [a b c] ((_&?&_) & (_&?&_) & (_&?&_)). rewrite GVK_String_eq, !Contains_app. simpl in *.
    by rewrite H0, H1, H2. }
  intros [Heq ->]%sep_inj; [|by apply Hc..]. by apply gvk_sep_inj in Heq as ->.
Qed.

Lemma clusterAndGVK_String_inj k k' :
  plain_key (cg_ObjectKey k) -> plain_gvk (cg_GroupVersionKind k) ->
  plain_key (cg_ObjectKey k') -> plain_gvk (cg_GroupVersionKind k') ->
  clusterAndGVK_String k = clusterAndGVK_String k' -> k = k'.
Proof.
  destruct k as [o g], k' as [o' g']. unfold clusterAndGVK_String. simpl. intros ????.
  change (":" +:+ ?x) with (String colon x).
  intros [-> Heq]%key_sep_inj; [|done..]. by apply gvk_sep_inj in Heq as ->.
Qed.

Lemma targetIndexKey_inj c g k c' g' k' :
  plain_key c -> plain_gvk g -> plain_key k -> plain_key c' -> plain_gvk g' -> plain_key k' ->
  targetIndexKey c g k = targetIndexKey c' g' k' -> c = c' /\ g = g' /\ k = k'.
Proof.
  unfold targetIndexKey. intros ??????. change (":" +:+ ?x) with (String colon x).
  intros [-> Heq]%key_sep_inj; [|done..]. apply gvk_colon_inj in Heq as [-> Heq]; [|done..].
  assert (ObjectKey_String k +:+ String colon "" = ObjectKey_String k' +:+ String colon "") as Heq'
    by by rewrite Heq.
  by apply key_sep_inj in Heq' as [-> _].
Qed.

(** The names of a pipeline are Kubernetes names. *)
Definition plain_pipeline (p : Pipeline) : Prop :=
  (forall gvk, app_gvk p = Some gvk -> plain_gvk gvk) /\
  (forall t, has_target p t -> plain_key (target_cluster p t) /\ plain_key (target_key p t)).

(** The index behaves as controller-runtime documents: a lookup by value
    answers with the stored pipelines that have the value among their keys. *)
Definition index_answer (keys : Pipeline -> list string) (all : list Pipeline) (v : string)
    (items : list Pipeline) : Prop :=
  forall p, p ∈ items <-> p ∈ all /\ v ∈ keys p.


(** A cache counts as used exactly when a stored pipeline has a target
    that is read from it. *)
Theorem isCacheUsed_exact key (all : list Pipeline) :
  plain_key (cg_ObjectKey key) -> plain_gvk (cg_GroupVersionKind key) -> Forall plain_pipeline all ->
  wp (isCacheUsed key) (fun tr o => forall v items,
    omap ev_ListPipelines tr = [(cacheIndex, v, Ok items)] ->
    index_answer indexTargetCache all v items ->
    exists b, o = Done (Ok b) /\ (b = true <-> exists p, p ∈ all /\ uses_cache key p)).
Proof.
  intros Hk Hg Hall. unfold isCacheUsed.
  rewrite wp_bind, wp_trigger. intros [items|e]; cbn [wp_then]; [|done].
  intros v items' [= <- <-] Hindex. eexists. split; [done|]. rewrite bool_decide_eq_true.
  assert (0 < length items <-> exists p, p ∈ items) as ->.
  { destruct items as [|p items]; simpl; [|split; [intros _; exists p; by left|lia]].
    split; [lia|]. by intros (? & ?%elem_of_nil). }
  rewrite Forall_forall in Hall.
  split; [intros (p & [Hp Hin]%Hindex)|intros (p & Hp & t & Ht & Happ & Hcl)]; exists p.
  - split; [done|]. destruct (Hall p Hp) as [Hpg Hpt].
    apply indexTargets_spec in Hin as (t & g & Ht & Happ & Heq). destruct (Hpt t Ht).
    apply clusterAndGVK_String_inj in Heq; simpl; eauto. subst key. exists t. done.
  - apply Hindex. split; [done|]. apply indexTargets_spec. exists t, (cg_GroupVersionKind key).
    split_and!; [done|done|]. rewrite Hcl. by destruct key.
Qed.
End indexing.

(** ** At a concrete pipeline *)
#[local] Existing Instance Stock.stock.

Lemma edge_sample_plain : Forall plain_pipeline [edge_sample].
Proof.
  apply Forall_cons_2; [|apply Forall_nil_2]. split.
  - by intros gvk [= <-].
  - intros t (env & Henv & Ht). apply list_elem_of_singleton in Henv as ->.
    by apply list_elem_of_singleton in Ht as ->.
Qed.

Definition edge_sample_gvk := MkGVK "helm.toolkit.fluxcd.io" "v2" "HelmRelease".


Lemma isCacheUsed_exact_witness :
  wp (isCacheUsed (MkClusterAndGVK (MkKey "default" "prod-eu") edge_sample_gvk)) (fun tr o =>
    forall v items,
      omap ev_ListPipelines tr = [(cacheIndex, v, Ok items)] ->
      index_answer indexTargetCache [edge_sample] v items ->
      exists b, o = Done (Ok b) /\ (b = true <-> exists p, p ∈ [edge_sample] /\
        uses_cache (MkClusterAndGVK (MkKey "default" "prod-eu") edge_sample_gvk) p)).
Proof. apply isCacheUsed_exact; [done|done|apply edge_sample_plain]. Defined.
