(* ===== verification/Runner.v ===== *)
(** * The runner of the client caches (controllers/leveltriggered/runner.go)

    [newRunner], [run] and [Start] as a transition system: callers of [run],
    the manager's call of [Start], the two channels and the contexts.  The
    program's threads see a call of [run] as the call [RunnerRun], made with
    the mutex of the caches held; CachesConc.v puts the two together. *)

From S2P Require Export Prelude.

(** ** State

    Contexts are numbered; [rn_parents] is the context each was derived from
    by [context.WithCancel], [rn_cancelled] those whose cancel function was
    called. *)

(** A call [r.run(fn)]: before the receive from [r.ready], before the send on
    [r.tostart], returned with the cancel function of the context. *)
Inductive run_call :=
  | WaitReady (fn : nat)
  | SendToStart (fn ctx : nat)
  | RunReturned (fn ctx : nat).

(** The goroutine in [r.Start(ctx)]: before [close(r.ready)], in the
    [select], with a function received and not yet started, returned *)
Inductive start_call :=
  | NotStarted
  | RootSet
  | Selecting
  | Spawning (fn ctx : nat)
  | StartReturned.

Record runner := MkRunner {
  rn_rootContext : option nat;
  rn_ready_closed : bool;
  rn_start : start_call;
  rn_calls : list run_call;
  rn_started : list (nat * nat);
  rn_next : nat;
  rn_parents : gmap nat nat;
  rn_cancelled : gset nat;
  rn_panicked : bool }.

(** [newRunner()]; context 0 is the manager's. *)
Definition newRunner : runner := MkRunner None false NotStarted [] [] 1 ∅ ∅ false.

(** [ctx.Done()] is closed: the context or its parent was cancelled. *)
Definition Done_closed (r : runner) (ctx : nat) : Prop :=
  ctx ∈ rn_cancelled r \/ exists parent, rn_parents r !! ctx = Some parent /\ parent ∈ rn_cancelled r.

(** ** Steps *)

(** [r.run(fn)] is called. *)
Definition call_run (fn : nat) (r : runner) : runner :=
  MkRunner (rn_rootContext r) (rn_ready_closed r) (rn_start r) (rn_calls r ++ [WaitReady fn]) (rn_started r)
    (rn_next r) (rn_parents r) (rn_cancelled r) (rn_panicked r).

(** [ctx, cancel := context.WithCancel(r.rootContext)], which panics on a nil
    parent *)
Definition run_WithCancel (i fn : nat) (r : runner) : runner :=
  match rn_rootContext r with
  | None =>
      MkRunner None (rn_ready_closed r) (rn_start r) (rn_calls r) (rn_started r) (rn_next r)
        (rn_parents r) (rn_cancelled r) true
  | Some root =>
      MkRunner (Some root) (rn_ready_closed r) (rn_start r) (<[i := SendToStart fn (rn_next r)]> (rn_calls r))
        (rn_started r) (S (rn_next r)) (<[rn_next r := root]> (rn_parents r)) (rn_cancelled r) (rn_panicked r)
  end.

(** The send on the unbuffered [r.tostart] meets the receive of the [select]:
    [run] can return, and [Start] has the function in hand. *)
Definition start_received (i fn ctx : nat) (r : runner) : runner :=
  MkRunner (rn_rootContext r) (rn_ready_closed r) (Spawning fn ctx) (<[i := RunReturned fn ctx]> (rn_calls r))
    (rn_started r) (rn_next r) (rn_parents r) (rn_cancelled r) (rn_panicked r).

(** [go randc.run(randc.ctx)], and back to the [select] *)
Definition start_go (fn ctx : nat) (r : runner) : runner :=
  MkRunner (rn_rootContext r) (rn_ready_closed r) Selecting (rn_calls r)
    (rn_started r ++ [(fn, ctx)]) (rn_next r) (rn_parents r) (rn_cancelled r) (rn_panicked r).

Definition set_start (root : option nat) (ready : bool) (s : start_call) (r : runner) : runner :=
  MkRunner root ready s (rn_calls r) (rn_started r) (rn_next r) (rn_parents r) (rn_cancelled r)
    (rn_panicked r).

Definition cancel_ctx (ctx : nat) (r : runner) : runner :=
  MkRunner (rn_rootContext r) (rn_ready_closed r) (rn_start r) (rn_calls r) (rn_started r) (rn_next r)
    (rn_parents r) ({[ctx]} ∪ rn_cancelled r) (rn_panicked r).

(** A call of [run] goes on. *)
Inductive call_step (i : nat) : runner -> runner -> Prop :=
  | step_ready fn r :
      rn_calls r !! i = Some (WaitReady fn) -> rn_ready_closed r = true ->
      call_step i r (run_WithCancel i fn r)
  | step_received fn ctx r :
      rn_calls r !! i = Some (SendToStart fn ctx) -> rn_start r = Selecting ->
      call_step i r (start_received i fn ctx r).

(** [Start] goes on. *)
Inductive start_step : runner -> runner -> Prop :=
  | step_close r :
      rn_start r = RootSet -> start_step r (set_start (rn_rootContext r) true Selecting r)
  | step_go fn ctx r :
      rn_start r = Spawning fn ctx -> start_step r (start_go fn ctx r)
  | step_return r root :
      rn_start r = Selecting -> rn_rootContext r = Some root -> Done_closed r root ->
      start_step r (set_start (rn_rootContext r) (rn_ready_closed r) StartReturned r).

(** The manager calls [Start] once, with its context, and cancels that. *)
Inductive manager_step : runner -> runner -> Prop :=
  | step_root r :
      rn_start r = NotStarted -> manager_step r (set_start (Some 0) (rn_ready_closed r) RootSet r)
  | step_shutdown r : manager_step r (cancel_ctx 0 r).

(** The callers call [run] and the cancel functions it has returned. *)
Inductive runner_step : runner -> runner -> Prop :=
  | step_call i r r' : call_step i r r' -> runner_step r r'
  | step_start r r' : start_step r r' -> runner_step r r'
  | step_manager r r' : manager_step r r' -> runner_step r r'
  | step_call_run fn r : runner_step r (call_run fn r)
  | step_cancel i fn ctx r :
      rn_calls r !! i = Some (RunReturned fn ctx) -> runner_step r (cancel_ctx ctx r).

Definition reachable (r : runner) : Prop := rtc runner_step newRunner r.

(** ** The invariant *)

(** The context a call of [run] has made *)
Definition call_ctx (c : run_call) : option nat :=
  match c with WaitReady _ => None | SendToStart _ ctx | RunReturned _ ctx => Some ctx end.

(** The function a call of [run] has handed over, with its context *)
Definition call_go (c : run_call) : option (nat * nat) :=
  match c with RunReturned fn ctx => Some (fn, ctx) | _ => None end.

(** What [Start] has received and not started *)
Definition in_hand (s : start_call) : list (nat * nat) :=
  match s with Spawning fn ctx => [(fn, ctx)] | _ => [] end.

Record runner_inv (r : runner) : Prop := {
  inv_panic : rn_panicked r = false;
  inv_start : match rn_start r with
              | NotStarted => rn_rootContext r = None /\ rn_ready_closed r = false
              | RootSet => rn_rootContext r = Some 0 /\ rn_ready_closed r = false
              | _ => rn_rootContext r = Some 0 /\ rn_ready_closed r = true
              end;
  inv_blocked : rn_ready_closed r = false -> Forall (fun c => call_ctx c = None) (rn_calls r);
  inv_next : 0 < rn_next r /\ Forall (fun ctx => ctx < rn_next r) (omap call_ctx (rn_calls r));
  inv_distinct : NoDup (omap call_ctx (rn_calls r));
  inv_parents : forall ctx parent, rn_parents r !! ctx = Some parent <->
    parent = 0 /\ ctx ∈ omap call_ctx (rn_calls r);
  inv_started : rn_started r ++ in_hand (rn_start r) ≡ₚ omap call_go (rn_calls r) }.

(** Replacing one call in a list *)
Lemma omap_insert_perm {A B} (f : A -> option B) l i x y :
  l !! i = Some x ->
  exists rest, omap f l ≡ₚ option_list (f x) ++ rest /\ omap f (<[i := y]> l) ≡ₚ option_list (f y) ++ rest.
Proof.
  intros Hi. destruct (list_elem_of_split_length l i x Hi) as (l1 & l2 & -> & ->).
  exists (omap f l1 ++ omap f l2).
  assert (forall z, omap f (l1 ++ z :: l2) ≡ₚ option_list (f z) ++ omap f l1 ++ omap f l2) as Hz.
  { intros z. rewrite omap_app. simpl. destruct (f z); simpl; by rewrite <- ?Permutation_middle. }
  split; [apply Hz|]. rewrite insert_app_r_alt, Nat.sub_diag by done. apply Hz.
Qed.

Lemma runner_inv_init : runner_inv newRunner.
Proof. split; simpl; try done; try by repeat constructor. intros ctx parent. rewrite lookup_empty, elem_of_nil. naive_solver.
Qed.

Lemma call_step_inv i r r' : call_step i r r' -> runner_inv r -> runner_inv r'.
Proof.
  intros Hstep [Hpanic Hstart Hblocked [Hpos Hnext] Hdist Hpar Hgo].
  destruct Hstep as [fn r Hi Hready|fn ctx r Hi Hsel]; simpl in *.
  - assert (rn_rootContext r = Some 0) as Hroot by (destruct (rn_start r), Hstart; congruence).
    unfold run_WithCancel. rewrite Hroot.
    destruct (omap_insert_perm call_ctx _ i _ (SendToStart fn (rn_next r)) Hi) as (rest & H1 & H2).
    destruct (omap_insert_perm call_go _ i _ (SendToStart fn (rn_next r)) Hi) as (rest' & H1' & H2').
    simpl in *. rewrite H1 in Hnext, Hdist. setoid_rewrite H1 in Hpar.
    assert (rn_next r ∉ rest) as Hfresh.
    { intros Hin. rewrite Forall_forall in Hnext. specialize (Hnext _ Hin). lia. }
    split; simpl; try done.
    + destruct (rn_start r), Hstart; split; done || congruence.
    + by rewrite Hready.
    + rewrite H2. split; [lia|]. constructor; [lia|]. eapply Forall_impl; [exact Hnext|]. simpl. lia.
    + rewrite H2. by constructor.
    + intros ctx parent. rewrite H2. destruct (decide (ctx = rn_next r)) as [->|Hne].
      * rewrite lookup_insert_eq, elem_of_cons. naive_solver.
      * rewrite lookup_insert_ne, Hpar, elem_of_cons by done. naive_solver.
    + by rewrite Hgo, H1', H2'.
  - destruct (omap_insert_perm call_ctx _ i _ (RunReturned fn ctx) Hi) as (rest & H1 & H2).
    destruct (omap_insert_perm call_go _ i _ (RunReturned fn ctx) Hi) as (rest' & H1' & H2').
    simpl in *. rewrite Hsel in Hstart, Hgo. destruct Hstart as [Hroot Hready]. simpl in Hgo.
    split; simpl; try done.
    + by rewrite Hready.
    + rewrite H2, <- H1. done.
    + by rewrite H2, <- H1.
    + intros ctx' parent. by rewrite Hpar, H1, H2.
    + rewrite app_nil_r in Hgo. rewrite Hgo, H1', H2'. symmetry. apply Permutation_cons_append.
Qed.

Lemma start_step_inv r r' : start_step r r' -> runner_inv r -> runner_inv r'.
Proof.
  intros Hstep [Hpanic Hstart Hblocked Hnext Hdist Hpar Hgo].
  destruct Hstep as [r Hs|fn ctx r Hs|r root Hs Hr Hd]; rewrite Hs in Hstart, Hgo; simpl in *.
  - destruct Hstart as [Hroot _]. split; simpl; auto. done.
  - split; simpl; auto. by rewrite app_nil_r.
  - split; simpl; auto.
Qed.

Lemma manager_step_inv r r' : manager_step r r' -> runner_inv r -> runner_inv r'.
Proof.
  intros Hstep [Hpanic Hstart Hblocked Hnext Hdist Hpar Hgo]. destruct Hstep as [r Hs|r].
  - rewrite Hs in Hstart, Hgo. destruct Hstart as [_ Hready]. split; simpl; auto.
  - split; simpl; auto.
Qed.

Lemma runner_inv_step r r' : runner_step r r' -> runner_inv r -> runner_inv r'.
Proof.
  intros Hstep Hinv. destruct Hstep as [i r r' Hs|r r' Hs|r r' Hs|fn r|i fn ctx r Hi];
    [by eapply call_step_inv|by eapply start_step_inv|by eapply manager_step_inv|..];
    destruct Hinv as [Hpanic Hstart Hblocked [Hpos Hnext] Hdist Hpar Hgo].
  - assert (forall B (f : run_call -> option B), f (WaitReady fn) = None ->
      omap f (rn_calls r ++ [WaitReady fn]) = omap f (rn_calls r)) as Hsame.
    { intros B f Hf. rewrite omap_app. simpl. by rewrite Hf, app_nil_r. }
    split; simpl; rewrite ?Hsame by done; try done.
    intros Hf. apply Forall_app. split; [auto|repeat constructor].
  - split; simpl; auto.
Qed.

Lemma reachable_inv r : reachable r -> runner_inv r.
Proof.
  intros Hr. pattern r. eapply rtc_ind_r; [apply runner_inv_init| |exact Hr].
  intros r1 r2 _ Hstep. by apply runner_inv_step.
Qed.

(** ** What the runner promises *)

Lemma call_ctx_bound r i c ctx :
  runner_inv r -> rn_calls r !! i = Some c -> call_ctx c = Some ctx ->
  ctx ∈ omap call_ctx (rn_calls r).
Proof. intros _ Hi Hc. apply list_elem_of_omap. exists c. split; [by eapply list_elem_of_lookup_2|done]. Qed.

(** C28.  What the runner's comment promises, in every reachable state: no
    call panics; the goroutines started are those of the calls that can return,
    each once, but for the one [Start] has in hand; every call has a context of its own, derived from the
    manager's, and that context is done exactly when its cancel function was
    called or the manager's context was cancelled; and before the manager calls
    [Start] every call of [run] waits. *)
Theorem runner_sound r :
  reachable r ->
  rn_panicked r = false /\
  rn_started r ++ in_hand (rn_start r) ≡ₚ omap call_go (rn_calls r) /\
  NoDup (omap call_ctx (rn_calls r)) /\
  (forall c ctx, c ∈ rn_calls r -> call_ctx c = Some ctx ->
    Done_closed r ctx <-> ctx ∈ rn_cancelled r \/ 0 ∈ rn_cancelled r) /\
  (rn_ready_closed r = false -> forall c, c ∈ rn_calls r -> exists fn, c = WaitReady fn).
Proof.
  intros Hr. apply reachable_inv in Hr as [Hpanic Hstart Hblocked Hnext Hdist Hpar Hgo].
  split_and!; [done..| |].
  - intros c ctx Hc Hctx. unfold Done_closed. apply or_iff_compat_l. split.
    + intros (parent & Hp & Hcan). apply Hpar in Hp as [-> _]. done.
    + intros H0. exists 0. split; [|done]. apply Hpar. split; [done|].
      apply list_elem_of_omap. eauto.
  - intros Hready c Hc. apply Hblocked in Hready. rewrite Forall_forall in Hready.
    specialize (Hready c Hc). destruct c; [eauto|done..].
Qed.

(** ** Progress and the shutdown *)

(** The receive and the [go] that follows it *)
Lemma received_started r i fn ctx :
  rn_calls r !! i = Some (SendToStart fn ctx) -> rn_start r = Selecting ->
  exists r', rtc runner_step r r' /\ rn_calls r' !! i = Some (RunReturned fn ctx) /\
    (fn, ctx) ∈ rn_started r' /\ forall j, j <> i -> rn_calls r' !! j = rn_calls r !! j.
Proof.
  intros Hi Hs. apply lookup_lt_Some in Hi as Hlt.
  exists (start_go fn ctx (start_received i fn ctx r)). split_and!.
  - eapply rtc_l; [by eapply step_call, step_received|]. by apply rtc_once, step_start, step_go.
  - simpl. by rewrite list_lookup_insert_eq.
  - simpl. set_solver.
  - intros j Hj. simpl. by rewrite list_lookup_insert_ne.
Qed.

(** While [Start] serves, a call of [run] can always return with its
    function started: it is three steps away at most, and needs nothing from
    any other call. *)
Theorem run_can_return r i c :
  reachable r -> rn_start r = Selecting -> rn_calls r !! i = Some c ->
  exists r' fn ctx, rtc runner_step r r' /\ rn_calls r' !! i = Some (RunReturned fn ctx) /\
    (fn, ctx) ∈ rn_started r' /\ forall j, j <> i -> rn_calls r' !! j = rn_calls r !! j.
Proof.
  intros Hr Hsel Hi. apply reachable_inv in Hr as Hinv. apply lookup_lt_Some in Hi as Hlt.
  destruct Hinv as [Hpanic Hstart _ _ _ _ Hgo]. rewrite Hsel in Hstart, Hgo. destruct Hstart as [Hroot Hready].
  destruct c as [fn|fn ctx|fn ctx].
  - destruct (received_started (run_WithCancel i fn r) i fn (rn_next r)) as (r' & Hs & H1 & H2 & H3).
    + unfold run_WithCancel. rewrite Hroot. simpl. by rewrite list_lookup_insert_eq.
    + unfold run_WithCancel. by rewrite Hroot.
    + exists r', fn, (rn_next r). split_and!; [|done|done|].
      * eapply rtc_l; [by eapply step_call, step_ready|done].
      * intros j Hj. rewrite H3 by done. unfold run_WithCancel. rewrite Hroot. simpl.
        by rewrite list_lookup_insert_ne.
  - destruct (received_started r i fn ctx Hi Hsel) as (r' & Hs & H1 & H2 & H3). by exists r', fn, ctx.
  - exists r, fn, ctx. split_and!; [constructor|done| |done].
    simpl in Hgo. rewrite app_nil_r in Hgo. rewrite Hgo.
    apply list_elem_of_omap. exists (RunReturned fn ctx). split; [by eapply list_elem_of_lookup_2|done].
Qed.

(** A call of [run] that has not returned *)
Definition pending (c : run_call) : Prop := forall fn ctx, c <> RunReturned fn ctx.

Lemma run_WithCancel_keeps i fn r :
  rn_start (run_WithCancel i fn r) = rn_start r /\
  length (rn_calls (run_WithCancel i fn r)) = length (rn_calls r).
Proof. unfold run_WithCancel. destruct (rn_rootContext r); simpl; by rewrite ?length_insert. Qed.

(** After [Start] has returned, a pending call stays so, and a call made then
    is pending. *)
Lemma stopped_step r r' :
  runner_step r r' -> rn_start r = StartReturned ->
  rn_start r' = StartReturned /\ forall i,
    (forall c, rn_calls r !! i = Some c -> pending c) -> forall c, rn_calls r' !! i = Some c -> pending c.
Proof.
  intros Hstep Hs. destruct Hstep as [j r r' Hc|r r' Hc|r r' Hc|fn r|j fn ctx r Hj].
  - destruct Hc as [fn r Hj Hready|fn ctx r Hj Hsel]; [|congruence].
    destruct (run_WithCancel_keeps j fn r) as [Hk _]. split; [congruence|].
    intros i Hi c. unfold run_WithCancel. destruct (rn_rootContext r); simpl; [|apply Hi].
    destruct (decide (j = i)) as [->|Hne]; [|rewrite list_lookup_insert_ne by done; apply Hi].
    rewrite list_lookup_insert_eq by by eapply lookup_lt_Some. by intros [= <-].
  - destruct Hc; congruence.
  - destruct Hc; [congruence|]. by split.
  - split; [done|]. intros i Hi c [Hc|[_ Hc]]%lookup_app_Some; [by apply Hi|].
    by apply list_lookup_singleton_Some in Hc as [_ <-].
  - by split.
Qed.

(** A call that has returned stays so, and no call disappears. *)
Lemma returned_kept r r' j fn ctx :
  runner_step r r' -> rn_calls r !! j = Some (RunReturned fn ctx) -> rn_calls r' !! j = Some (RunReturned fn ctx).
Proof.
  intros Hstep Hj. destruct Hstep as [i r r' Hc|r r' Hc|r r' Hc|fn' r|]; [|by destruct Hc..| |done].
  - destruct Hc as [fn' r Hi _|fn' ctx' r Hi _]; [unfold run_WithCancel; destruct (rn_rootContext r)|]; simpl;
      try done; rewrite list_lookup_insert_ne; try done; intros <-; congruence.
  - by apply lookup_app_l_Some.
Qed.

Lemma calls_kept r r' : runner_step r r' -> length (rn_calls r) <= length (rn_calls r').
Proof.
  intros Hstep. destruct Hstep as [i r r' Hc|r r' Hc|r r' Hc|fn' r|]; simpl.
  - destruct Hc as [fn' r Hi _|fn' ctx' r Hi _]; [|simpl; by rewrite length_insert].
    by destruct (run_WithCancel_keeps i fn' r) as [_ ->].
  - by destruct Hc.
  - by destruct Hc.
  - rewrite length_app. lia.
  - done.
Qed.

(** No two calls have the same context. *)
Lemma ctx_call_unique r i j c c' ctx :
  reachable r -> rn_calls r !! i = Some c -> rn_calls r !! j = Some c' ->
  call_ctx c = Some ctx -> call_ctx c' = Some ctx -> i = j.
Proof.
  intros Hr Hi Hj Hc Hc'. apply reachable_inv in Hr as [_ _ _ _ Hdist _ _].
  destruct (decide (i = j)) as [|Hne]; [done|exfalso].
  destruct (list_elem_of_split_length _ _ _ Hi) as (l1 & l2 & Hl & ->).
  rewrite Hl, omap_app in Hdist. simpl in Hdist. rewrite Hc in Hdist.
  rewrite <- Permutation_middle, <- omap_app in Hdist. apply NoDup_cons in Hdist as [Hnot _].
  apply Hnot, list_elem_of_omap. exists c'. split; [|done]. apply elem_of_app.
  rewrite Hl in Hj. apply lookup_app_Some in Hj as [Hj|[Hge Hj]]; [left; by eapply list_elem_of_lookup_2|right].
  apply lookup_cons_Some in Hj as [[Heq _]|[_ Hj]]; [lia|by eapply list_elem_of_lookup_2].
Qed.

(** What a pending call waits for: nothing, a step of [Start], the manager's
    call of [Start], or, after [Start] has returned, for ever. *)
Definition waits (r : runner) (c : run_call) : Prop :=
  (rn_start r = NotStarted /\ exists fn, c = WaitReady fn) \/
  (rn_start r = StartReturned /\ exists fn ctx, c = SendToStart fn ctx).

Lemma run_progress r i c :
  reachable r -> rn_calls r !! i = Some c -> pending c ->
  (exists r', call_step i r r') \/ (exists r', start_step r r' /\ rn_start r' = Selecting) \/ waits r c.
Proof.
  intros Hr Hi Hp. apply reachable_inv in Hr as [_ Hstart Hblocked _ _ _ _].
  destruct (rn_start r) eqn:Hs; destruct Hstart as [Hroot Hready].
  - right. right. left. split; [done|]. specialize (Hblocked Hready). rewrite Forall_lookup in Hblocked.
    specialize (Hblocked i c Hi). destruct c; [eauto|done..].
  - right. left. eexists. split; [by apply step_close|done].
  - left. destruct c as [fn|fn ctx|fn ctx]; [by eexists; apply step_ready|by eexists; apply step_received|].
    by destruct (Hp fn ctx).
  - right. left. eexists. split; [by apply step_go|done].
  - destruct c as [fn|fn ctx|fn ctx]; [left; by eexists; apply step_ready| |by destruct (Hp fn ctx)].
    right. right. right. eauto.
Qed.

(** After the manager has shut down and [Start] has returned, a call of
    [run] never returns: whatever happens, one that had not returned by then
    still has not, and neither has any made later. *)
Theorem run_stuck_after_shutdown r r' i :
  rn_start r = StartReturned -> rtc runner_step r r' ->
  (forall c, rn_calls r !! i = Some c -> pending c) ->
  forall c, rn_calls r' !! i = Some c -> pending c.
Proof.
  intros Hs Hsteps. revert Hs. induction Hsteps as [r|r r1 r' Hstep _ IH]; intros Hs Hi; [done|].
  destruct (stopped_step r r1 Hstep Hs) as [Hs1 Hp]. exact (IH Hs1 (Hp i Hi)).
Qed.

(** ** A shutdown between the two channel operations of [run] *)
Definition shutdown_history : list (runner -> runner) :=
  [call_run 7;
   fun r => set_start (Some 0) (rn_ready_closed r) RootSet r;
   fun r => set_start (rn_rootContext r) true Selecting r;
   run_WithCancel 0 7;
   cancel_ctx 0;
   fun r => set_start (rn_rootContext r) (rn_ready_closed r) StartReturned r].

Definition after_shutdown : runner := foldl (fun r f => f r) newRunner shutdown_history.

Lemma after_shutdown_reachable : reachable after_shutdown.
Proof.
  eapply rtc_l; [apply (step_call_run 7)|]. eapply rtc_l; [by apply step_manager, step_root|].
  eapply rtc_l; [by apply step_start, step_close|]. eapply rtc_l; [by apply (step_call 0), (step_ready 0 7)|].
  eapply rtc_l; [apply step_manager, step_shutdown|]. eapply rtc_l; [|apply rtc_refl].
  apply step_start, (step_return _ 0); [done|done|]. left. simpl. set_solver.
Qed.

Lemma runner_sound_witness :
  rn_started after_shutdown ++ in_hand (rn_start after_shutdown) ≡ₚ omap call_go (rn_calls after_shutdown) /\
  rn_calls after_shutdown = [SendToStart 7 1].
Proof. split; [apply (runner_sound _ after_shutdown_reachable)|reflexivity]. Defined.

Lemma run_stuck_after_shutdown_witness :
  reachable after_shutdown /\ rn_calls after_shutdown = [SendToStart 7 1] /\
  forall r', rtc runner_step after_shutdown r' -> forall c, rn_calls r' !! 0 = Some c -> pending c.
Proof.
  split; [apply after_shutdown_reachable|]. split; [reflexivity|]. intros r' Hr'.
  apply (run_stuck_after_shutdown after_shutdown r' 0 eq_refl Hr'). by intros c [= <-].
Defined.

Definition serving : runner :=
  call_run 7 (set_start (Some 0) true Selecting (set_start (Some 0) false RootSet newRunner)).

Lemma serving_reachable : reachable serving.
Proof.
  eapply rtc_l; [by apply step_manager, step_root|]. eapply rtc_l; [by apply step_start, step_close|].
  eapply rtc_l; [apply (step_call_run 7)|apply rtc_refl].
Qed.

Lemma run_can_return_witness :
  exists r' fn ctx, rtc runner_step serving r' /\ rn_calls r' !! 0 = Some (RunReturned fn ctx) /\
    (fn, ctx) ∈ rn_started r' /\ forall j, j <> 0 -> rn_calls r' !! j = rn_calls serving !! j.
Proof. apply (run_can_return serving 0 (WaitReady 7)); [apply serving_reachable|reflexivity|reflexivity]. Defined.
