(* ===== verification/Caches.v ===== *)
(** * Client caches of the level-triggered controller
      (controllers/leveltriggered/caching.go)

    [watchTargetAndGetReader], [removeCache] and the garbage collector's loop,
    with the mutex, the map of caches and the queue as calls.  Theorems about
    single runs are here; [CachesConc] has those about interleaved runs. *)

From S2P Require Export Indexing.

Section caches.
Context `{ApiMachinery}.

Definition zero_ObjectKey := MkKey "" "".
Definition zero_clusterAndGVK := MkClusterAndGVK zero_ObjectKey (MkGVK "" "" "").

(** The key of the cluster an object stands for; nil is the local cluster. *)
Definition cluster_object_key (clusterObject : option GitopsCluster) : ObjectKey :=
  match clusterObject with
  | Some c => MkKey (gc_Namespace c) (gc_Name c)
  | None => zero_ObjectKey
  end.

(** The [*rest.Config] for a new cache *)
Definition cluster_config (clusterObject : option GitopsCluster) : io (res handle) :=
  match clusterObject with
  | None => cfg ← trigger LocalClusterConfig; mret (Ok cfg)
  | Some c =>
      match gc_CAPIClusterRef c, gc_SecretRef c with
      | Some ref, _ =>
          call kubeconfig <- trigger (CAPIKubeconfig (MkKey (gc_Namespace c) (ref_Name ref)))
            onerr err => mret (Err err);
          trigger (RESTConfigFromKubeConfig kubeconfig)
      | None, Some ref =>
          call sec <- trigger (GetSecret (MkKey (gc_Namespace c) (ref_Name ref)))
            onerr err => mret (Err err);
          match sec !! "kubeconfig" with
          | None => mret (Err (errorf "referenced Secret does not have data key kubeconfig"))
          | Some kubeconfig => trigger (RESTConfigFromKubeConfig kubeconfig)
          end
      | None, None =>
          mret (Err (errorf "GitopsCluster object has neither .secretRef nor .capiClusterRef populated, unable to get remote cluster config"))
      end
  end.

(** gc: [register] *)
Definition register (key : clusterAndGVK) : io unit := trigger (QueueAdd key).

(** The part under [!cacheFound]: the entry and whether it was found after
    all.  [c.runner.run] is the call [RunnerRun]; what happens in it is in
    Runner.v, and CachesConc.v has the two together. *)
Definition create_cache (clusterObject : option GitopsCluster) (cacheKey : clusterAndGVK) :
    io (res (cacheAndCancel * bool)) :=
  call cfg <- cluster_config clusterObject onerr err => mret (Err err);
  trigger LockCaches;;
  entry ← trigger (CachesGet cacheKey);
  match entry with
  | Some entry =>
      trigger UnlockCaches;;
      register cacheKey;;
      mret (Ok (entry, true))
  | None =>
      ca ← trigger (NewCache cfg);
      match ca with
      | Err err => trigger UnlockCaches;; mret (Err err)
      | Ok ca =>
          cancel ← trigger (RunnerRun ca);
          let entry := MkCacheAndCancel ca cancel in
          trigger (CachesSet cacheKey entry);;
          trigger UnlockCaches;;
          register cacheKey;;
          mret (Ok (entry, false))
      end
  end.

Definition watchTargetAndGetReader (clusterObject : option GitopsCluster)
    (target : GroupVersionKind) : io (res (handle * bool)) :=
  let clusterKey := cluster_object_key clusterObject in
  match GVKForObject target with
  | Err err => mret (Err err)
  | Ok targetGVK =>
      let cacheKey := MkClusterAndGVK clusterKey targetGVK in
      trigger LockCaches;;
      found ← trigger (CachesGet cacheKey);
      trigger UnlockCaches;;
      call (cacheEntry, cacheFound) <-
          (match found with
           | Some entry => mret (Ok (entry, true))
           | None => create_cache clusterObject cacheKey
           end) onerr err => mret (Err err);
      let typeCache := cc_cache cacheEntry in
      call inf <- trigger (GetInformer typeCache target) onerr err => mret (Err err);
      call _ <- (if cacheFound : bool then mret (Ok tt) else trigger (AddEventHandler inf clusterKey))
        onerr err => mret (Err err);
      synced ← trigger (HasSynced inf);
      mret (Ok (typeCache, synced))
  end.

(** The event handler [AddEventHandler] installs: one event per pipeline *)
Fixpoint send_events (pipelines : list Pipeline) : io unit :=
  match pipelines with
  | [] => mret tt
  | p :: ps => trigger (SendEvent p);; send_events ps
  end.

Definition enqueuePipelinesForTarget (clusterKey : ObjectKey)
    (eventObj : option (GroupVersionKind * ObjectKey)) : io unit :=
  match eventObj with
  | None => mret tt
  | Some (gvk, obj) =>
      pipelines ← pipelinesForApplication clusterKey gvk obj;
      match pipelines with
      | Err _ => mret tt
      | Ok pipelines => send_events pipelines
      end
  end.

Definition removeCache (key : clusterAndGVK) : io unit :=
  trigger LockCaches;;
  entry ← trigger (CachesGet key);
  match entry with
  | Some entry => trigger (CancelFunc (cc_cancel entry));; trigger (CachesDelete key)
  | None => mret tt
  end;;
  trigger UnlockCaches.

(** One round of [gc.loop]; [false] ends it. *)
Definition gc_round : io bool :=
  got ← trigger QueueGet;
  match got with
  | None => mret false
  | Some item =>
      let key := default zero_clusterAndGVK item in
      match item with
      | None => trigger (QueueForget item);; trigger (QueueDone item)
      | Some _ => mret tt
      end;;
      used ← isCacheUsed key;
      match used with
      | Err _ => mret tt
      | Ok true => trigger (QueueDone (Some key));; trigger (QueueAddRateLimited key)
      | Ok false =>
          trigger (QueueForget (Some key));;
          trigger (QueueDone (Some key));;
          removeCache key
      end;;
      mret true
  end.

(** [gc.loop] for at most [n] rounds; [true] when the queue was shut down *)
Fixpoint gc_loop (n : nat) : io bool :=
  match n with
  | O => mret false
  | S n => more ← gc_round; if more : bool then gc_loop n else mret true
  end.
End caches.

(** ** Reading a trace *)
Definition ev_CachesGet (ev : event sys) : option (clusterAndGVK * option cacheAndCancel) :=
  match ev with
  | Ev e x =>
      match e in sys X return X -> option (clusterAndGVK * option cacheAndCancel) with
      | CachesGet k => fun r => Some (k, r)
      | _ => fun _ => None
      end x
  end.

Definition ev_CachesSet (ev : event sys) : option (clusterAndGVK * cacheAndCancel) :=
  match ev with Ev e _ => match e with CachesSet k c => Some (k, c) | _ => None end end.

(** Cancelling and deleting *)
Definition ev_CachesDelete (ev : event sys) : option (handle + clusterAndGVK) :=
  match ev with
  | Ev e _ => match e with CancelFunc h => Some (inl h) | CachesDelete k => Some (inr k) | _ => None end
  end.

Definition ev_AddEventHandler (ev : event sys) : option (handle * ObjectKey * res unit) :=
  match ev with
  | Ev e x =>
      match e in sys X return X -> option (handle * ObjectKey * res unit) with
      | AddEventHandler inf k => fun r => Some (inf, k, r)
      | _ => fun _ => None
      end x
  end.

(** The queue operations that follow a delivery *)
Inductive queue_op :=
  | QAdd (k : clusterAndGVK)
  | QForget (item : option clusterAndGVK)
  | QDone (item : option clusterAndGVK)
  | QAddRateLimited (k : clusterAndGVK).

Definition ev_queue (ev : event sys) : option queue_op :=
  match ev with
  | Ev e _ =>
      match e with
      | QueueAdd k => Some (QAdd k)
      | QueueForget i => Some (QForget i)
      | QueueDone i => Some (QDone i)
      | QueueAddRateLimited k => Some (QAddRateLimited k)
      | _ => None
      end
  end.

Definition ev_QueueGet (ev : event sys) : option (option (option clusterAndGVK)) :=
  match ev with
  | Ev e x =>
      match e in sys X return X -> option (option (option clusterAndGVK)) with
      | QueueGet => fun r => Some r
      | _ => fun _ => None
      end x
  end.

Section single_run.
Context `{ApiMachinery}.

(** The reads that give the configuration of a cluster's client *)
Inductive config_read : option GitopsCluster -> list (event sys) -> handle -> Prop :=
  | config_local cfg : config_read None [Ev LocalClusterConfig cfg] cfg
  | config_capi c ref kubeconfig cfg : gc_CAPIClusterRef c = Some ref ->
      config_read (Some c)
        [Ev (CAPIKubeconfig (MkKey (gc_Namespace c) (ref_Name ref))) (Ok kubeconfig);
         Ev (RESTConfigFromKubeConfig kubeconfig) (Ok cfg)] cfg
  | config_secret c ref data kubeconfig cfg :
      gc_CAPIClusterRef c = None -> gc_SecretRef c = Some ref -> data !! "kubeconfig" = Some kubeconfig ->
      config_read (Some c)
        [Ev (GetSecret (MkKey (gc_Namespace c) (ref_Name ref))) (Ok data);
         Ev (RESTConfigFromKubeConfig kubeconfig) (Ok cfg)] cfg.

Lemma wp_cluster_config c Q :
  (forall tr cfg, config_read c tr cfg -> Q tr (Done (Ok cfg))) -> (forall tr e, Q tr (Done (Err e))) ->
  wp (cluster_config c) Q.
Proof.
  intros HQ He. unfold cluster_config. destruct c as [c|]; simpl; [|intros cfg; apply HQ; constructor].
  destruct (gc_CAPIClusterRef c) as [ref|] eqn:Hcapi; simpl.
  { intros [kc|e]; simpl; [|apply He]. intros [cfg|e]; [|apply He]. apply HQ. by constructor. }
  destruct (gc_SecretRef c) as [ref|] eqn:Hsecret; simpl; [|apply He].
  intros [sec|e]; simpl; [|apply He]. destruct (sec !! "kubeconfig") as [kc|] eqn:Hkc; simpl; [|apply He].
  intros [cfg|e]; [|apply He]. apply HQ. by econstructor.
Qed.

(** The calls of a look into the map of caches under the mutex *)
Definition lookup_calls (key : clusterAndGVK) (found : option cacheAndCancel) : list (event sys) :=
  [Ev LockCaches tt; Ev (CachesGet key) found; Ev UnlockCaches tt].

(** All calls of a successful watch, with the cache and whether its informer
    is synced: the entry is in the map; or it was put there while the
    configuration was read; or this run made a cache with the configuration of
    the cluster, had the runner run it, put it in the map, registered its key
    for collection and gave its informer the cluster's event handler. *)
Inductive watched (c : option GitopsCluster) (gvk : GroupVersionKind) :
    list (event sys) -> handle -> bool -> Prop :=
  | watched_found e inf synced :
      let key := MkClusterAndGVK (cluster_object_key c) gvk in
      watched c gvk
        (lookup_calls key (Some e) ++
         [Ev (GetInformer (cc_cache e) gvk) (Ok inf); Ev (HasSynced inf) synced]) (cc_cache e) synced
  | watched_late ctr cfg e inf synced :
      let key := MkClusterAndGVK (cluster_object_key c) gvk in
      config_read c ctr cfg ->
      watched c gvk
        (lookup_calls key None ++ ctr ++ lookup_calls key (Some e) ++ [Ev (QueueAdd key) tt] ++
         [Ev (GetInformer (cc_cache e) gvk) (Ok inf); Ev (HasSynced inf) synced]) (cc_cache e) synced
  | watched_new ctr cfg ca cancel inf synced :
      let key := MkClusterAndGVK (cluster_object_key c) gvk in
      config_read c ctr cfg ->
      watched c gvk
        (lookup_calls key None ++ ctr ++
         [Ev LockCaches tt; Ev (CachesGet key) None; Ev (NewCache cfg) (Ok ca);
          Ev (RunnerRun ca) cancel; Ev (CachesSet key (MkCacheAndCancel ca cancel)) tt;
          Ev UnlockCaches tt; Ev (QueueAdd key) tt; Ev (GetInformer ca gvk) (Ok inf);
          Ev (AddEventHandler inf (cluster_object_key c)) (Ok tt); Ev (HasSynced inf) synced]) ca synced.

Definition watch_post (c : option GitopsCluster) (gvk : GroupVersionKind) (tr : list (event sys))
    (o : outcome (res (handle * bool))) : Prop :=
  forall ca synced, o = Done (Ok (ca, synced)) -> watched c gvk tr ca synced.

Lemma watch_runs c gvk : wp (watchTargetAndGetReader c gvk) (watch_post c gvk).
Proof.
  unfold watchTargetAndGetReader, watch_post. destruct (GVKForObject gvk) as [g|e] eqn:Hg; [|done].
  apply GVKForObject_same in Hg as ->. cbn. intros [] found [].
  destruct found as [e|]; cbn.
  { intros [inf|err] synced; [|done]. intros ca b [= <- <-]. apply watched_found. }
  unfold create_cache. rewrite !wp_bind. apply wp_cluster_config; [|done].
  intros ctr cfg Hcfg. cbn. intros [] [e|].
  - cbn. intros [] [] [inf|err]; [|done]. intros synced ca b [= <- <-].
    rewrite <- app_assoc. by apply (watched_late c gvk ctr cfg e inf synced).
  - cbn. intros [ca|e]; [|by intros []]. cbn. intros cancel [] [] [] [inf|err]; [|done].
    cbn. intros [[]|err]; [|done]. intros synced ca' b [= <- <-]. rewrite <- app_assoc.
    by apply (watched_new c gvk ctr cfg ca cancel inf synced).
Qed.

(** C34.  All calls of a watch that succeeds: it returns the cache of the
    target's cluster and kind that it found in the map, perhaps only on the
    second look under the mutex; or one it made with the configuration of that
    cluster, which it then had the runner run, put in the map under that key,
    with the runner's cancel, registered for collection and gave the event
    handler of that cluster. *)
Theorem watch_result c gvk :
  wp (watchTargetAndGetReader c gvk) (fun tr o => forall ca synced,
    o = Done (Ok (ca, synced)) -> watched c gvk tr ca synced).
Proof. apply watch_runs. Qed.

(** The event handler can be lost: when the informer of a new cache
    cannot be had, the run fails with the cache already in the map, and a run
    that finds the entry in the map never installs a handler. *)
Theorem watch_handler_lost c gvk ca cancel err :
  GVKForObject gvk = Ok gvk -> c = None ->
  let key := MkClusterAndGVK (cluster_object_key c) gvk in
  (exists tr, runs (watchTargetAndGetReader c gvk) tr (Done (Err err)) /\
     omap ev_CachesSet tr = [(key, MkCacheAndCancel ca cancel)] /\ omap ev_AddEventHandler tr = []) /\
  wp (watchTargetAndGetReader c gvk) (fun tr _ => forall e rest,
    omap ev_CachesGet tr = (key, Some e) :: rest -> omap ev_AddEventHandler tr = []).
Proof.
  intros Hg ->. split.
  - exists [Ev LockCaches tt; Ev (CachesGet (MkClusterAndGVK zero_ObjectKey gvk)) None; Ev UnlockCaches tt;
            Ev LocalClusterConfig (Handle 0); Ev LockCaches tt;
            Ev (CachesGet (MkClusterAndGVK zero_ObjectKey gvk)) None; Ev (NewCache (Handle 0)) (Ok ca);
            Ev (RunnerRun ca) cancel;
            Ev (CachesSet (MkClusterAndGVK zero_ObjectKey gvk) (MkCacheAndCancel ca cancel)) tt;
            Ev UnlockCaches tt; Ev (QueueAdd (MkClusterAndGVK zero_ObjectKey gvk)) tt;
            Ev (GetInformer ca gvk) (Err err)].
    split; [|done]. unfold watchTargetAndGetReader. rewrite Hg. cbn.
    repeat (constructor; cbn).
  - unfold watchTargetAndGetReader. rewrite Hg, wp_bind, wp_trigger. intros []. cbn [wp_then].
    rewrite wp_bind, wp_trigger. intros [e|]; cbn [wp_then]; rewrite wp_bind, wp_trigger; intros [];
      cbn [wp_then].
    + cbn. by intros [inf|err'] ?.
    + apply wp_runs. intros tr o _. by intros.
Qed.

(** What the collector did with the item it got *)
Definition round_post (tr : list (event sys)) (o : outcome bool) : Prop :=
  match omap ev_QueueGet tr with
  | [None] => omap ev_queue tr = [] /\ o = Done false
  | [Some item] =>
      let key := default zero_clusterAndGVK item in
      let dropped := match item with None => [QForget None; QDone None] | Some _ => [] end in
      o = Done true /\
      exists answer, omap ev_ListPipelines tr = [(cacheIndex, clusterAndGVK_String key, answer)] /\
      match answer with
      | Err _ => omap ev_queue tr = dropped /\ omap ev_CachesDelete tr = []
      | Ok [] =>
          omap ev_queue tr = dropped ++ [QForget (Some key); QDone (Some key)] /\
          exists found, omap ev_CachesGet tr = [(key, found)] /\
            omap ev_CachesDelete tr =
              match found with Some e => [inl (cc_cancel e); inr key] | None => [] end
      | Ok (_ :: _) =>
          omap ev_queue tr = dropped ++ [QDone (Some key); QAddRateLimited key] /\
          omap ev_CachesDelete tr = []
      end
  | _ => False
  end.

Lemma gc_round_runs : wp gc_round round_post.
Proof.
  unfold gc_round. rewrite wp_bind, wp_trigger. intros [item|]; cbn [wp_then]; [|done].
  assert (forall tr0, omap ev_QueueGet tr0 = [] -> omap ev_ListPipelines tr0 = [] ->
    omap ev_CachesGet tr0 = [] -> omap ev_CachesDelete tr0 = [] ->
    omap ev_queue tr0 = match item with None => [QForget None; QDone None] | Some _ => [] end ->
    wp (used ← isCacheUsed (default zero_clusterAndGVK item);
        match used with
        | Err _ => mret tt
        | Ok true => trigger (QueueDone (Some (default zero_clusterAndGVK item)));;
            trigger (QueueAddRateLimited (default zero_clusterAndGVK item))
        | Ok false => trigger (QueueForget (Some (default zero_clusterAndGVK item)));;
            trigger (QueueDone (Some (default zero_clusterAndGVK item)));;
            removeCache (default zero_clusterAndGVK item)
        end;; mret true)
      (fun tr => round_post ([Ev QueueGet (Some item)] ++ tr0 ++ tr))) as Hrest.
  { intros tr0 H1 H2 H3 H4 H5. unfold round_post. cbn.
    intros [[|p items]|e]; cbn.
    - intros [] [] [] [e|]; cbn; [intros [] [] []|intros []]; cbn;
        rewrite !omap_app, H1, H2, H3, H4, H5; (split; [done|]); eexists; (split; [done|]); split; [done|by eexists|done|by eexists].
    - intros [] []. cbn. rewrite !omap_app, H1, H2, H4, H5. split; [done|]. by eexists.
    - rewrite !omap_app, H1, H2, H4, H5. cbn. rewrite !app_nil_r. split; [done|]. by eexists. }
  destruct item as [k|].
  - apply (Hrest []); done.
  - cbn. intros [] []. apply (Hrest [Ev (QueueForget None) tt; Ev (QueueDone None) tt]); done.
Qed.

End single_run.

(** ** The work queue

    What client-go documents of a queue: an item being processed is not
    delivered again before it is marked done. *)
Class WorkQueue (Q : Type) := {
  wq_get : Q -> option (clusterAndGVK * Q);
  wq_apply : queue_op -> Q -> Q;
  processing : Q -> clusterAndGVK -> Prop;
  wq_get_fresh q k q' : wq_get q = Some (k, q') -> ~ processing q k;
  wq_get_processing q k q' k' :
    wq_get q = Some (k, q') -> processing q' k' <-> k' = k \/ processing q k';
  wq_apply_processing op q k :
    processing (wq_apply op q) k <-> processing q k /\ op <> QDone (Some k) }.

Section stranding.
Context `{ApiMachinery} {Q : Type} `{!WorkQueue Q}.

Definition apply_ops (ops : list queue_op) (q : Q) : Q := foldl (fun q op => wq_apply op q) q ops.

(** A round of the collector on the queue, and the registration of a key *)
Inductive queue_step : Q -> Q -> Prop :=
  | queue_round q k q1 tr o :
      wq_get q = Some (k, q1) -> runs gc_round tr o -> omap ev_QueueGet tr = [Some (Some k)] ->
      queue_step q (apply_ops (omap ev_queue tr) q1)
  | queue_add q k : queue_step q (wq_apply (QAdd k) q).

(** The rounds mark at most the delivered key as done. *)
Lemma round_done k tr o k' :
  runs gc_round tr o -> omap ev_QueueGet tr = [Some (Some k)] -> k' <> k ->
  Forall (fun op => op <> QDone (Some k')) (omap ev_queue tr).
Proof.
  intros Hr Hget Hne. pose proof (proj1 (wp_runs _ _) gc_round_runs tr o Hr) as Hpost.
  unfold round_post in Hpost. rewrite Hget in Hpost. destruct Hpost as (_ & answer & _ & Hpost).
  destruct answer as [[|p items]|e]; destruct Hpost as [-> _]; simpl;
    rewrite ?Forall_cons, ?Forall_nil; split_and?; (done || congruence).
Qed.

Lemma apply_ops_processing ops q k :
  Forall (fun op => op <> QDone (Some k)) ops -> processing q k -> processing (apply_ops ops q) k.
Proof.
  intros Hops. revert q. induction Hops as [|op ops Hop _ IH]; intros q Hq; [done|].
  apply IH. by apply wq_apply_processing.
Qed.

Lemma processing_kept q q' k : rtc queue_step q q' -> processing q k -> processing q' k.
Proof.
  induction 1 as [|q q1 q2 Hstep _ IH]; [done|]. intros Hk. apply IH.
  destruct Hstep as [q k' q1 tr o Hget Hr Htr|q k'].
  - assert (k <> k') as Hne by (intros ->; by eapply wq_get_fresh).
    eapply apply_ops_processing; [by eapply round_done|]. eapply wq_get_processing; eauto.
  - by apply wq_apply_processing.
Qed.

(** C40.  A failed lookup strands the key: when [isCacheUsed] returns an error
    in the round of a key, the item is not marked done, so no later round
    ever gets the key again, however often it is registered; its cache is
    never collected. *)
Theorem gc_error_strands_key q k q1 tr o e q2 :
  wq_get q = Some (k, q1) -> runs gc_round tr o -> omap ev_QueueGet tr = [Some (Some k)] ->
  omap ev_ListPipelines tr = [(cacheIndex, clusterAndGVK_String k, Err e)] ->
  rtc queue_step (apply_ops (omap ev_queue tr) q1) q2 ->
  forall k' q3, wq_get q2 = Some (k', q3) -> k' <> k.
Proof.
  intros Hget Hr Htr Hlist Hsteps k' q3 Hget' ->.
  eapply wq_get_fresh; [exact Hget'|]. eapply processing_kept; [exact Hsteps|].
  pose proof (proj1 (wp_runs _ _) gc_round_runs tr o Hr) as Hpost.
  unfold round_post in Hpost. rewrite Htr in Hpost. destruct Hpost as (_ & answer & Hans & Hpost).
  cbn [from_option id] in Hans. rewrite Hans in Hlist. injection Hlist as ->.
  destruct Hpost as [-> _]. simpl. eapply wq_get_processing; [done|by left].
Qed.
End stranding.

(** ** An instance of the queue, and the theorems at it *)
Record simple_queue := MkQueue {
  q_items : list clusterAndGVK;
  q_processing : gset clusterAndGVK;
  q_dirty : gset clusterAndGVK }.

Definition simple_add (k : clusterAndGVK) (q : simple_queue) : simple_queue :=
  if decide (k ∈ q_processing q)
  then MkQueue (q_items q) (q_processing q) ({[k]} ∪ q_dirty q)
  else MkQueue (q_items q ++ [k]) (q_processing q) (q_dirty q).

Definition simple_get (q : simple_queue) : option (clusterAndGVK * simple_queue) :=
  '(i, k) ← list_find (fun k => k ∉ q_processing q) (q_items q);
  Some (k, MkQueue (delete i (q_items q)) ({[k]} ∪ q_processing q) (q_dirty q)).

Definition simple_done (k : clusterAndGVK) (q : simple_queue) : simple_queue :=
  let q' := MkQueue (q_items q) (q_processing q ∖ {[k]}) (q_dirty q ∖ {[k]}) in
  if decide (k ∈ q_dirty q) then simple_add k q' else q'.

Lemma simple_add_processing k q : q_processing (simple_add k q) = q_processing q.
Proof. unfold simple_add. by case_decide. Qed.

Lemma simple_done_processing k q : q_processing (simple_done k q) = q_processing q ∖ {[k]}.
Proof. unfold simple_done. case_decide; [by rewrite simple_add_processing|done]. Qed.

#[export, refine] Instance simple_WorkQueue : WorkQueue simple_queue := {|
  wq_get := simple_get;
  wq_apply op := match op with
                 | QAdd k | QAddRateLimited k => simple_add k
                 | QDone (Some k) => simple_done k
                 | _ => id
                 end;
  processing q k := k ∈ q_processing q |}.
Proof.
  - intros q k q'. unfold simple_get. destruct (list_find _ _) as [[i k']|] eqn:Hf; [|done].
    intros [= <- <-]. by apply list_find_Some in Hf as (_ & Hf & _).
  - intros q k q' k'. unfold simple_get. destruct (list_find _ _) as [[i k'']|]; [|done].
    intros [= <- <-]. simpl. set_solver.
  - intros op q k. destruct op as [k'|[k'|]|[k'|]|k']; rewrite ?simple_add_processing, ?simple_done_processing;
      try (split; [by split|by intros []]).
    rewrite elem_of_difference, elem_of_singleton. apply and_iff_dep. intros _.
    split; [congruence|]. by intros Hne ->.
Defined.

#[local] Existing Instance Stock.stock.

Definition a_key := MkClusterAndGVK (MkKey "default" "prod-eu") (MkGVK "helm.toolkit.fluxcd.io" "v2" "HelmRelease").

Lemma simple_get_one k : simple_get (MkQueue [k] ∅ ∅) = Some (k, MkQueue [] ({[k]} ∪ ∅) ∅).
Proof. unfold simple_get. simpl. by rewrite decide_True by apply not_elem_of_empty. Qed.

Lemma gc_error_strands_key_witness :
  let q2 := wq_apply (QAdd a_key) (MkQueue [] ({[a_key]} ∪ ∅) ∅) in
  q_dirty q2 = {[a_key]} ∪ ∅ /\
  (forall k' q3, wq_get q2 = Some (k', q3) -> k' <> a_key).
Proof.
  split.
  { cbn [wq_apply simple_WorkQueue]. unfold simple_add. by rewrite decide_True by set_solver. }
  set (err := errorf "connection refused").
  apply (gc_error_strands_key (MkQueue [a_key] ∅ ∅) a_key (MkQueue [] ({[a_key]} ∪ ∅) ∅)
    [Ev QueueGet (Some (Some a_key));
     Ev (ListPipelines cacheIndex (clusterAndGVK_String a_key)) (Err err)] (Done true) err).
  - apply simple_get_one.
  - unfold gc_round. cbn. repeat (constructor; cbn).
  - reflexivity.
  - reflexivity.
  - eapply rtc_l; [apply queue_add|apply rtc_refl].
Defined.

Lemma watch_handler_lost_witness :
  let gvk := MkGVK "helm.toolkit.fluxcd.io" "v2" "HelmRelease" in
  let err := errorf "no matches for kind" in
  (exists tr, runs (watchTargetAndGetReader None gvk) tr (Done (Err err)) /\
     omap ev_CachesSet tr = [(MkClusterAndGVK zero_ObjectKey gvk, MkCacheAndCancel (Handle 1) (Handle 2))] /\
     omap ev_AddEventHandler tr = []) /\
  wp (watchTargetAndGetReader None gvk) (fun tr _ => forall e rest,
    omap ev_CachesGet tr = (MkClusterAndGVK zero_ObjectKey gvk, Some e) :: rest ->
    omap ev_AddEventHandler tr = []).
Proof. apply (watch_handler_lost None); reflexivity. Defined.
