(* ===== verification/CachesConc.v ===== *)
(** * Interleaved use of the caches

    Reconciler workers and the garbage collector run [watchTargetAndGetReader],
    [removeCache] and the collector's rounds concurrently on one map of caches,
    guarded by a mutex.  The file gives the interleaving semantics as a step
    relation, a thread-local predicate [safe] (what a thread may assume and must
    restore at the lock), and proves that the map and the running caches agree
    whenever the lock is free.  The threads are then composed with the runner
    of Runner.v, whose [run] they call with the lock held: the composition
    takes only steps of the two, and what it waits for, and when it waits for
    ever, is stated exactly. *)

From S2P Require Import Runner.
From S2P Require Export Caches ApiServer.

#[export] Instance handle_countable : Countable handle.
Proof. refine (inj_countable' handle_id Handle _). by intros []. Defined.

(** ** The shared state

    [sh_running] holds the cancel functions of the caches that were started
    and not cancelled; [sh_used] all that were ever handed out. *)
Record shared := MkShared {
  sh_map : gmap clusterAndGVK cacheAndCancel;
  sh_running : gset handle;
  sh_used : gset handle }.

(** The map and the running caches agree: every entry's cache runs, every
    running cache has one entry. *)
Record agree (v : shared) : Prop := {
  agree_runs k e : sh_map v !! k = Some e -> cc_cancel e ∈ sh_running v;
  agree_entry h : h ∈ sh_running v -> exists k e, sh_map v !! k = Some e /\ cc_cancel e = h;
  agree_inj k k' e e' : sh_map v !! k = Some e -> sh_map v !! k' = Some e' ->
    cc_cancel e = cc_cancel e' -> k = k';
  agree_used : sh_running v ⊆ sh_used v }.

(** ** The machine *)

(** The effect of a call on the shared state, with its answer.  A context's
    cancel function is new; calls to the outside answer anything. *)
Definition effect {X} (e : sys X) : shared -> X -> shared -> Prop :=
  match e in sys X return shared -> X -> shared -> Prop with
  | CachesGet k => fun s x s' => x = sh_map s !! k /\ s' = s
  | CachesSet k c => fun s _ s' =>
      (s' = MkShared (<[k := c]> (sh_map s)) (sh_running s) (sh_used s))
  | CachesDelete k => fun s _ s' =>
      s' = MkShared (delete k (sh_map s)) (sh_running s) (sh_used s)
  | RunnerRun _ => fun s x s' =>
      (x ∉ sh_used s) /\ s' = MkShared (sh_map s) ({[x]} ∪ sh_running s) ({[x]} ∪ sh_used s)
  | CancelFunc h => fun s _ s' => s' = MkShared (sh_map s) (sh_running s ∖ {[h]}) (sh_used s)
  | _ => fun s _ s' => s' = s
  end.

(** The mutex: who holds it before and after a call of thread [i] *)
Definition lock_effect {X} (i : nat) (e : sys X) (owner owner' : option nat) : Prop :=
  match e with
  | LockCaches => owner = None /\ owner' = Some i
  | UnlockCaches => owner <> None /\ owner' = None
  | _ => owner' = owner
  end.

Record machine := MkMachine {
  m_shared : shared;
  m_owner : option nat;
  m_threads : list (io unit) }.

Inductive step : machine -> machine -> Prop :=
  | step_call i s owner ts X (e : sys X) k x s' owner' :
      ts !! i = Some (PVis e k) -> effect e s x s' -> lock_effect i e owner owner' ->
      step (MkMachine s owner ts) (MkMachine s' owner' (<[i := k x]> ts)).

(** ** What a thread may do

    [h] is the shared state as the thread knows it while it holds the lock. *)
Definition sem {X} (e : sys X) : option shared -> (X -> option shared -> Prop) -> Prop :=
  match e in sys X return option shared -> (X -> option shared -> Prop) -> Prop with
  | LockCaches => fun h K =>
      match h with None => forall v, agree v -> K tt (Some v) | Some _ => False end
  | UnlockCaches => fun h K =>
      match h with Some v => agree v /\ K tt None | None => False end
  | CachesGet _ as e | CachesSet _ _ as e | CachesDelete _ as e | RunnerRun _ as e => fun h K =>
      match h with Some v => forall x v', effect e v x v' -> K x (Some v') | None => False end
  | CancelFunc c as e => fun h K =>
      match h with
      | Some v => c ∈ sh_used v /\ forall x v', effect e v x v' -> K x (Some v')
      | None => False
      end
  | _ => fun h K => forall x, K x h
  end.

Fixpoint safe {A} (h : option shared) (p : io A) (Q : option shared -> A -> Prop) : Prop :=
  match p with
  | PRet a => Q h a
  | PPanic _ => False
  | PVis e k => sem e h (fun x h' => safe h' (k x) Q)
  end.

Lemma sem_mono {X} (e : sys X) h (K K' : X -> option shared -> Prop) :
  (forall x h', K x h' -> K' x h') -> sem e h K -> sem e h K'.
Proof. intros HK. destruct e, h; simpl; try done; intuition auto. Qed.

Lemma safe_mono {A} h (p : io A) (Q Q' : option shared -> A -> Prop) :
  (forall h a, Q h a -> Q' h a) -> safe h p Q -> safe h p Q'.
Proof.
  intros HQ. revert h. induction p as [a|w|X e k IH]; intros h; simpl; [apply HQ|done|].
  apply sem_mono. intros x h'. apply IH.
Qed.

Lemma safe_bind {A B} h (p : io A) (f : A -> io B) Q :
  safe h p (fun h' a => safe h' (f a) Q) -> safe h (p ≫= f) Q.
Proof.
  unfold mbind, prog_bind. revert h. induction p as [a|w|X e k IH]; intros h; simpl; [done|done|].
  apply sem_mono. intros x h'. apply IH.
Qed.

(** A thread of the pool: it starts and ends without the lock. *)
Definition released {A} (h : option shared) (_ : A) : Prop := h = None.
Definition good_thread (p : io unit) : Prop := safe None p released.

(** What thread [i] knows of the shared state *)
Definition known (i : nat) (owner : option nat) (s : shared) : option shared :=
  if decide (owner = Some i) then Some s else None.

Lemma known_owner i s : known i (Some i) s = Some s.
Proof. unfold known. by rewrite decide_True. Qed.

Lemma known_other i owner s : owner <> Some i -> known i owner s = None.
Proof. intros. unfold known. by rewrite decide_False. Qed.

(** A call that neither locks nor touches the shared state *)
Definition outside {X} (e : sys X) : bool :=
  match e with
  | LockCaches | UnlockCaches | CachesGet _ | CachesSet _ _ | CachesDelete _ | RunnerRun _
  | CancelFunc _ => false
  | _ => true
  end.

Lemma outside_sem {X} (e : sys X) h K : outside e = true -> sem e h K -> forall x, K x h.
Proof. by destruct e. Qed.

Lemma outside_effect {X} (e : sys X) s x s' i owner owner' :
  outside e = true -> effect e s x s' -> lock_effect i e owner owner' -> s' = s /\ owner' = owner.
Proof. by destruct e. Qed.

(** One step of a thread, seen by the thread and by the others *)
Lemma sem_step {X} (e : sys X) i s s' x owner owner' K :
  sem e (known i owner s) K ->
  effect e s x s' -> lock_effect i e owner owner' -> (owner = None -> agree s) ->
  K x (known i owner' s') /\ (owner' = None -> agree s') /\
  ((owner' = owner /\ (owner = Some i \/ s' = s)) \/
   (owner = None /\ owner' = Some i /\ s' = s) \/ (owner = Some i /\ owner' = None /\ s' = s)).
Proof.
  intros Hsem He Hl Hagree. destruct (outside e) eqn:Hout.
  { destruct (outside_effect e s x s' i owner owner') as [-> ->]; [done..|].
    split_and!; [by eapply outside_sem|done|tauto]. }
  destruct (decide (owner = Some i)) as [->|Hne].
  - rewrite known_owner in Hsem.
    destruct e; try done; simpl in *; repeat match goal with H : _ /\ _ |- _ => destruct H end; subst;
      rewrite ?known_owner; try rewrite known_other by done; destruct_and?;
      try destruct x; split_and!; try done; try (by apply Hsem); try (by auto); tauto.
  - rewrite known_other in Hsem by done.
    destruct e; try done; simpl in *. destruct Hl as [-> ->]. subst. rewrite known_owner. destruct x.
    split_and!; [by apply Hsem, Hagree|done|tauto].
Qed.

(** ** The invariant of the pool *)
Definition invariant (m : machine) : Prop :=
  (m_owner m = None -> agree (m_shared m)) /\
  (forall i p, m_threads m !! i = Some p -> safe (known i (m_owner m) (m_shared m)) p released) /\
  (forall i, m_owner m = Some i -> is_Some (m_threads m !! i)).

Lemma invariant_step m m' : step m m' -> invariant m -> invariant m'.
Proof.
  intros Hstep (Hagree & Hsafe & Howner). destruct Hstep as [i s owner ts X e k x s' owner' Hi He Hl].
  simpl in *. pose proof (Hsafe i _ Hi) as Hp. simpl in Hp.
  apply sem_step with (x := x) (s' := s') (owner' := owner') in Hp as (Hp & Hagree' & Hcases); [|done..].
  split_and!; simpl; [done| |].
  - intros j q Hj. destruct (decide (i = j)) as [<-|Hij].
    + rewrite list_lookup_insert_eq in Hj by by eapply lookup_lt_Some. by injection Hj as <-.
    + rewrite list_lookup_insert_ne in Hj by done. specialize (Hsafe j q Hj).
      destruct Hcases as [(-> & [-> | ->])|[(-> & -> & ->)|(-> & -> & ->)]]; [|done|..];
        rewrite known_other in Hsafe |- * by congruence; done.
  - intros j Hj. destruct (decide (i = j)) as [<-|Hij].
    + rewrite list_lookup_insert_eq by by eapply lookup_lt_Some. eauto.
    + rewrite list_lookup_insert_ne by done. apply Howner.
      destruct Hcases as [(-> & _)|[(_ & -> & _)|(_ & -> & _)]]; naive_solver.
Qed.

Lemma invariant_reachable m m' : rtc step m m' -> invariant m -> invariant m'.
Proof. induction 1; [done|]. intros Hinv. eauto using invariant_step. Qed.

(** ** The program's threads are good *)
Section threads.
Context `{ApiMachinery}.

Lemma agree_insert v k e x :
  agree v -> sh_map v !! k = None -> x ∉ sh_used v -> cc_cancel e = x ->
  agree (MkShared (<[k := e]> (sh_map v)) ({[x]} ∪ sh_running v) ({[x]} ∪ sh_used v)).
Proof.
  intros [Hruns Hentry Hinj Hused] Hk Hx <-.
  assert (forall k' e', sh_map v !! k' = Some e' -> cc_cancel e' <> cc_cancel e) as Hfresh.
  { intros k' e' He' Heq. apply Hx, Hused. rewrite <- Heq. eauto. }
  split; simpl.
  - intros k' e'. rewrite lookup_insert. case_decide; [intros [= <-]; set_solver|].
    intros He'. apply elem_of_union_r. eauto.
  - intros h [->%elem_of_singleton|Hh]%elem_of_union.
    + exists k, e. by rewrite lookup_insert_eq.
    + destruct (Hentry h Hh) as (k' & e' & He' & <-). exists k', e'.
      rewrite lookup_insert_ne; [done|congruence].
  - intros k1 k2 e1 e2. rewrite !lookup_insert.
    repeat case_decide; intros; simplify_eq; try done; eauto;
      exfalso; eapply Hfresh; eauto.
  - set_solver.
Qed.

Lemma agree_delete v k e :
  agree v -> sh_map v !! k = Some e ->
  agree (MkShared (delete k (sh_map v)) (sh_running v ∖ {[cc_cancel e]}) (sh_used v)).
Proof.
  intros [Hruns Hentry Hinj Hused] Hk. split; simpl.
  - intros k' e' [Hne He']%lookup_delete_Some. apply elem_of_difference. split; [eauto|].
    intros Heq%elem_of_singleton. apply Hne. eauto.
  - intros h [Hh Hne]%elem_of_difference. destruct (Hentry h Hh) as (k' & e' & He' & <-).
    exists k', e'. rewrite lookup_delete_ne; [done|]. intros <-. apply Hne. simplify_eq. set_solver.
  - intros k1 k2 e1 e2 [_ H1]%lookup_delete_Some [_ H2]%lookup_delete_Some. eauto.
  - set_solver.
Qed.

Lemma safe_cluster_config c Q :
  (forall r, Q None r) -> safe None (cluster_config c) Q.
Proof.
  intros HQ. unfold cluster_config. destruct c as [c|]; simpl; [|intros; apply HQ].
  destruct (gc_CAPIClusterRef c) as [ref|]; simpl.
  { intros [kc|e]; simpl; [intros|]; apply HQ. }
  destruct (gc_SecretRef c) as [ref|]; simpl; [|apply HQ].
  intros [sec|e]; simpl; [|apply HQ].
  destruct (sec !! "kubeconfig"); simpl; [intros|]; apply HQ.
Qed.

Lemma safe_create_cache c k Q :
  (forall r, Q None r) -> safe None (create_cache c k) Q.
Proof.
  intros HQ. unfold create_cache. apply safe_bind, safe_cluster_config. intros [cfg|e]; [|apply HQ].
  simpl. intros v Hv found ? [-> ->]. destruct (sh_map v !! k) as [e|] eqn:Hk; simpl.
  { split; [done|]. intros ?. apply HQ. }
  intros [ca|e]; simpl; [|by split].
  intros cancel ? [Hfresh ->] [] ? ->. simpl. split; [by apply agree_insert|]. intros ?. apply HQ.
Qed.

Lemma safe_watch c g : safe None (watchTargetAndGetReader c g) released.
Proof.
  unfold watchTargetAndGetReader. destruct (GVKForObject g) as [gvk|e]; [|done].
  simpl. intros v Hv found ? [-> ->]. split; [done|].
  apply safe_bind.
  assert (forall r : res (cacheAndCancel * bool), safe None
    (match r with
     | Ok (entry, found) =>
         call inf <- trigger (GetInformer (cc_cache entry) g) onerr err => mret (Err err);
         call _ <- (if found : bool then mret (Ok tt) else trigger (AddEventHandler inf (cluster_object_key c)))
           onerr err => mret (Err err);
         synced ← trigger (HasSynced inf);
         mret (Ok (cc_cache entry, synced))
     | Err err => mret (Err err)
     end) released) as Hrest.
  { intros [[e fnd]|e]; [|done]. simpl. intros [inf|e']; [|done].
    destruct fnd; simpl; [done|]. by intros [[]|e'']. }
  destruct (sh_map v !! _) as [e|]; [apply (Hrest (Ok (e, true)))|].
  apply safe_create_cache. apply Hrest.
Qed.

Lemma safe_removeCache k (Q : option shared -> unit -> Prop) :
  (forall u, Q None u) -> safe None (removeCache k) Q.
Proof.
  intros HQ. unfold removeCache. simpl. intros v Hv found ? [-> ->].
  destruct (sh_map v !! k) as [e|] eqn:Hk; simpl; [|by split].
  destruct Hv as [Hruns Hentry Hinj Hused]. split; [eapply Hused, Hruns, Hk|].
  intros [] ? -> [] ? ->. simpl. split; [|apply HQ]. by apply agree_delete; [split|].
Qed.

Lemma safe_gc_round (Q : option shared -> bool -> Prop) :
  (forall b, Q None b) -> safe None gc_round Q.
Proof.
  intros HQ. unfold gc_round. cbn. intros [item|]; [|apply HQ].
  apply (safe_bind (B := bool)).
  assert (safe None
    (used ← isCacheUsed (default zero_clusterAndGVK item);
     match used with
     | Err _ => mret tt
     | Ok true => trigger (QueueDone (Some (default zero_clusterAndGVK item)));;
         trigger (QueueAddRateLimited (default zero_clusterAndGVK item))
     | Ok false => trigger (QueueForget (Some (default zero_clusterAndGVK item)));;
         trigger (QueueDone (Some (default zero_clusterAndGVK item)));;
         removeCache (default zero_clusterAndGVK item)
     end;; mret true) Q) as Hrest.
  { simpl. intros [items|e]; simpl; [|apply HQ].
    case_bool_decide; simpl; [intros _ _; apply HQ|]. intros _ _.
    apply (safe_bind None (removeCache (default zero_clusterAndGVK item)) (fun _ => mret true)).
    apply safe_removeCache. intros _. apply HQ. }
  destruct item; simpl; intros; apply Hrest.
Qed.

Lemma safe_gc_loop n : safe None (gc_loop n) released.
Proof.
  induction n as [|n IH]; [done|]. cbn [gc_loop]. apply safe_bind, safe_gc_round.
  intros [|]; [apply IH|done].
Qed.
End threads.

#[export] Instance handle_infinite : Infinite handle.
Proof. refine (inj_infinite Handle (fun h => Some (handle_id h)) _). done. Defined.

(** ** The theorems *)
Section theorems.
Context `{ApiMachinery}.

(** A reconciler worker watches one target after the other; the collector
    does some number of rounds. *)
Inductive worker :=
  | Watcher (targets : list (option GitopsCluster * GroupVersionKind))
  | Collector (rounds : nat).

Fixpoint watch_all (targets : list (option GitopsCluster * GroupVersionKind)) : io unit :=
  match targets with
  | [] => mret tt
  | (c, g) :: targets => watchTargetAndGetReader c g;; watch_all targets
  end.

Definition thread_of (w : worker) : io unit :=
  match w with
  | Watcher targets => watch_all targets
  | Collector rounds => gc_loop rounds;; mret tt
  end.

Definition start (ws : list worker) : machine :=
  MkMachine (MkShared ∅ ∅ ∅) None (thread_of <$> ws).

Definition is_ret (p : io unit) : bool := match p with PRet _ => true | _ => false end.
Definition finished (p : io unit) : Prop := p = PRet tt.

Lemma thread_of_good w : good_thread (thread_of w).
Proof.
  unfold good_thread. destruct w as [ts|n]; simpl.
  - induction ts as [|[c g] ts IH]; [done|]. cbn [watch_all]. apply safe_bind.
    eapply safe_mono; [|apply safe_watch]. by intros h a ->.
  - apply safe_bind. eapply safe_mono; [|apply safe_gc_loop]. by intros h a ->.
Qed.

Lemma start_invariant ws : invariant (start ws).
Proof.
  split_and!; simpl; [|..|done].
  - intros _. split; simpl; [by setoid_rewrite lookup_empty| |by setoid_rewrite lookup_empty|done].
    intros h Hh. set_solver.
  - intros i p Hp. rewrite known_other by done. rewrite list_lookup_fmap in Hp.
    destruct (ws !! i) as [w|]; [|done]. injection Hp as <-. apply thread_of_good.
Qed.

(** C12.  No cache is lost or started twice: whatever the interleaving of any
    number of workers and collectors, whenever the mutex is free every cache
    in the map is running, and every running cache is in the map under
    exactly one cluster and kind. *)
Theorem caches_agree ws m :
  rtc step (start ws) m -> m_owner m = None ->
  (forall k e, sh_map (m_shared m) !! k = Some e -> cc_cancel e ∈ sh_running (m_shared m)) /\
  (forall h, h ∈ sh_running (m_shared m) ->
     exists! k, exists e, sh_map (m_shared m) !! k = Some e /\ cc_cancel e = h).
Proof.
  intros Hreach Hfree.
  destruct (invariant_reachable _ _ Hreach (start_invariant ws)) as (Hagree & _).
  destruct (Hagree Hfree) as [Hruns Hentry Hinj _]. split; [done|].
  intros h (k & e & He & Hh)%Hentry. exists k. split; [eauto|].
  intros k' (e' & He' & Hh'). eapply Hinj; [done..|congruence].
Qed.

(** A thread that may go on can: the outside answers, and the lock it needs
    is free. *)
Lemma sem_progress {X} (e : sys X) i s owner K :
  sem e (known i owner s) K -> (owner = None \/ owner = Some i) ->
  exists x s' owner', effect e s x s' /\ lock_effect i e owner owner'.
Proof.
  intros Hsem Hown. pose proof (map_handler _ e (sample_server false)) as [any _].
  destruct (outside e) eqn:Hout.
  { exists any, s, owner. by destruct e. }
  destruct Hown as [-> | ->]; [rewrite known_other in Hsem by done|rewrite known_owner in Hsem];
    destruct e; try done; simpl.
  - by eexists tt, _, _.
  - by eexists tt, _, _.
  - by eexists _, _, _.
  - by eexists tt, _, _.
  - by eexists tt, _, _.
  - exists (fresh (sh_used s)). do 2 eexists. split; [split; [apply is_fresh|done]|done].
  - by eexists tt, _, _.
Qed.

(** ** The threads and the runner

    [run] is called by the thread at [RunnerRun]: [sy_calls] is the thread's
    call among those of the runner.  A cache's cancel function is the one of
    the context [run] has made for it. *)
Record system := MkSystem {
  sy_machine : machine;
  sy_runner : runner;
  sy_calls : gmap nat nat }.

Definition system_start (ws : list worker) : system := MkSystem (start ws) newRunner ∅.

Definition is_run {X} (e : sys X) : bool := match e with RunnerRun _ => true | _ => false end.
Definition in_run (p : io unit) : bool := match p with PVis e _ => is_run e | _ => false end.

Definition ctx_cancel (ctx : nat) : handle := Handle (N.of_nat ctx).

(** A call of thread [i] outside of [run], seen by the runner *)
Definition cancels {X} (e : sys X) (r : runner) : runner :=
  match e with CancelFunc h => cancel_ctx (N.to_nat (handle_id h)) r | _ => r end.

Definition add_running (h : handle) (s : shared) : shared :=
  MkShared (sh_map s) ({[h]} ∪ sh_running s) ({[h]} ∪ sh_used s).

Inductive actor := Thread (i : nat) | StartLoop | Manager.

Inductive system_step : actor -> system -> system -> Prop :=
  | thread_call i s owner ts r calls X (e : sys X) k x s' owner' :
      ts !! i = Some (PVis e k) -> is_run e = false -> effect e s x s' -> lock_effect i e owner owner' ->
      system_step (Thread i) (MkSystem (MkMachine s owner ts) r calls)
        (MkSystem (MkMachine s' owner' (<[i := k x]> ts)) (cancels e r) calls)
  | thread_enters i m r calls p :
      m_threads m !! i = Some p -> in_run p = true -> calls !! i = None ->
      system_step (Thread i) (MkSystem m r calls)
        (MkSystem m (call_run (length (rn_calls r)) r) (<[i := length (rn_calls r)]> calls))
  | thread_runs i j m r r' calls :
      calls !! i = Some j -> call_step j r r' ->
      system_step (Thread i) (MkSystem m r calls) (MkSystem m r' calls)
  | thread_returns i j s owner ts r calls ca k fn ctx :
      ts !! i = Some (PVis (RunnerRun ca) k) -> calls !! i = Some j ->
      rn_calls r !! j = Some (RunReturned fn ctx) ->
      system_step (Thread i) (MkSystem (MkMachine s owner ts) r calls)
        (MkSystem (MkMachine (add_running (ctx_cancel ctx) s) owner (<[i := k (ctx_cancel ctx)]> ts)) r
           (delete i calls))
  | start_goes m r r' calls :
      start_step r r' -> system_step StartLoop (MkSystem m r calls) (MkSystem m r' calls)
  | manager_goes m r r' calls :
      manager_step r r' -> system_step Manager (MkSystem m r calls) (MkSystem m r' calls).

Definition any_step (y y' : system) : Prop := exists a, system_step a y y'.
Definition system_reaches (ws : list worker) (y : system) : Prop := rtc any_step (system_start ws) y.

(** The composition takes steps of the two only, a cancel function belongs to
    a call that has returned, and the threads with a call are in [run]. *)
Record system_inv (ws : list worker) (y : system) : Prop := {
  inv_machine : rtc step (start ws) (sy_machine y);
  inv_runner : reachable (sy_runner y);
  inv_calls : forall i j, sy_calls y !! i = Some j -> j < length (rn_calls (sy_runner y)) /\
    exists p, m_threads (sy_machine y) !! i = Some p /\ in_run p = true;
  inv_used : forall h, h ∈ sh_used (m_shared (sy_machine y)) -> exists j fn ctx,
    rn_calls (sy_runner y) !! j = Some (RunReturned fn ctx) /\ h = ctx_cancel ctx /\
    forall i, sy_calls y !! i <> Some j }.

Lemma machine_invariant ws m : rtc step (start ws) m -> invariant m.
Proof. intros Hr. eapply invariant_reachable, start_invariant. exact Hr. Qed.

(** A thread in [run] holds the lock. *)
Lemma run_holds_lock m i p :
  invariant m -> m_threads m !! i = Some p -> in_run p = true -> m_owner m = Some i.
Proof.
  intros (_ & Hsafe & _) Hi Hp. specialize (Hsafe i p Hi). unfold known in Hsafe.
  case_decide as Ho; [done|]. destruct p as [|?|X e k]; try done. by destruct e.
Qed.

Lemma calls_hold_lock ws y i j :
  system_inv ws y -> sy_calls y !! i = Some j -> m_owner (sy_machine y) = Some i.
Proof.
  intros [Hm _ Hcalls _] Hi. destruct (Hcalls i j Hi) as (_ & p & Hp & Hrun).
  eapply run_holds_lock; [by eapply machine_invariant|done..].
Qed.

(** What a thread's call outside of [run] does *)
Lemma thread_call_runner {X} (e : sys X) i m k r :
  invariant m -> m_threads m !! i = Some (PVis e k) ->
  (forall h, h ∈ sh_used (m_shared m) -> exists j fn ctx,
     rn_calls r !! j = Some (RunReturned fn ctx) /\ h = ctx_cancel ctx) ->
  cancels e r = r \/ runner_step r (cancels e r).
Proof.
  intros (_ & Hsafe & _) Hi Hused. specialize (Hsafe i _ Hi). simpl in Hsafe.
  destruct e; try by left. right. unfold known in Hsafe. simpl in Hsafe.
  case_decide; [|done]. destruct Hsafe as [Hh _].
  destruct (Hused _ Hh) as (j & fn & ctx & Hj & ->). simpl. rewrite Nat2N.id.
  eapply Runner.step_cancel. exact Hj.
Qed.

Lemma cancels_calls {X} (e : sys X) r : rn_calls (cancels e r) = rn_calls r.
Proof. by destruct e. Qed.

Lemma effect_used {X} (e : sys X) s x s' : is_run e = false -> effect e s x s' -> sh_used s' = sh_used s.
Proof. destruct e; simpl; try done; intros _; naive_solver. Qed.

(** A step of the runner in between *)
Lemma system_inv_runner ws m r r' calls :
  runner_step r r' -> system_inv ws (MkSystem m r calls) -> system_inv ws (MkSystem m r' calls).
Proof.
  intros Hs [Hm Hr Hcalls Hused]. simpl in *. split; simpl; [done| | |].
  - by eapply rtc_r.
  - intros i j Hi. destruct (Hcalls i j Hi) as [Hlt Hp]. split; [|done].
    pose proof (calls_kept _ _ Hs). lia.
  - intros h Hh. destruct (Hused h Hh) as (j & fn & ctx & Hj & Heq & Hno).
    exists j, fn, ctx. split; [by eapply returned_kept|done].
Qed.

Lemma inv_thread_call ws i s owner ts r calls X (e : sys X) k x s' owner' :
  ts !! i = Some (PVis e k) -> is_run e = false -> effect e s x s' -> lock_effect i e owner owner' ->
  system_inv ws (MkSystem (MkMachine s owner ts) r calls) ->
  system_inv ws (MkSystem (MkMachine s' owner' (<[i := k x]> ts)) (cancels e r) calls).
Proof.
  intros Hi Hrun He Hl [Hm Hr Hcalls Hused]. simpl in *. split; simpl.
  - eapply rtc_r; [exact Hm|by eapply step_call].
  - destruct (thread_call_runner e i (MkMachine s owner ts) k r) as [-> | Hs];
      [by eapply machine_invariant|done| |done|by eapply rtc_r].
    intros h Hh. destruct (Hused h Hh) as (j & fn & ctx & Hj & Heq & _). eauto.
  - intros i' j Hj. rewrite cancels_calls. destruct (Hcalls i' j Hj) as (Hlt & p & Hp & Hin).
    split; [done|]. exists p. split; [|done]. rewrite list_lookup_insert_ne; [done|].
    intros <-. rewrite Hi in Hp. injection Hp as <-. simpl in Hin. congruence.
  - rewrite (effect_used e s x s' Hrun He), cancels_calls. exact Hused.
Qed.

Lemma inv_thread_enters ws i m r calls p :
  m_threads m !! i = Some p -> in_run p = true ->
  system_inv ws (MkSystem m r calls) ->
  system_inv ws (MkSystem m (call_run (length (rn_calls r)) r) (<[i := length (rn_calls r)]> calls)).
Proof.
  intros Hi Hrun Hinv.
  destruct (system_inv_runner _ _ _ _ _ (step_call_run (length (rn_calls r)) r) Hinv) as [Hm Hr' Hcalls' Hused'].
  destruct Hinv as [_ _ _ Hused]. split; [done..| |]; simpl in *.
  - intros i' j. rewrite lookup_insert. case_decide as Hii; [subst|apply Hcalls'].
    intros [= <-]. rewrite length_app. simpl. split; [lia|eauto].
  - intros h Hh. destruct (Hused h Hh) as (j & fn & ctx & Hj & Heq & Hno).
    apply lookup_lt_Some in Hj as Hlt. exists j, fn, ctx. split_and!; [by apply lookup_app_l_Some|done|].
    intros i'. rewrite lookup_insert. case_decide; [|apply Hno]. intros [= Hlen]. lia.
Qed.

(** The context of a call that has not returned to its thread is not in use. *)
Lemma fresh_ctx ws m r calls i j fn ctx :
  system_inv ws (MkSystem m r calls) -> calls !! i = Some j ->
  rn_calls r !! j = Some (RunReturned fn ctx) -> ctx_cancel ctx ∉ sh_used (m_shared m).
Proof.
  intros [_ Hr _ Hused] Hi Hj Hin. simpl in *.
  destruct (Hused _ Hin) as (j' & fn' & ctx' & Hj' & Heq & Hno).
  assert (ctx' = ctx) as -> by (unfold ctx_cancel in Heq; simplify_eq; lia).
  rewrite (ctx_call_unique r j' j _ _ ctx Hr Hj' Hj) in Hno by done. by apply (Hno i).
Qed.

Lemma inv_thread_returns ws i j s owner ts r calls ca k fn ctx :
  ts !! i = Some (PVis (RunnerRun ca) k) -> calls !! i = Some j ->
  rn_calls r !! j = Some (RunReturned fn ctx) ->
  system_inv ws (MkSystem (MkMachine s owner ts) r calls) ->
  system_inv ws (MkSystem (MkMachine (add_running (ctx_cancel ctx) s) owner (<[i := k (ctx_cancel ctx)]> ts)) r
                   (delete i calls)).
Proof.
  intros Hi Hci Hj Hinv. pose proof (fresh_ctx _ _ _ _ _ _ _ _ Hinv Hci Hj) as Hfresh.
  pose proof (calls_hold_lock _ _ i j Hinv Hci) as Hown.
  assert (forall i', calls !! i' = Some j -> i' = i) as Honly.
  { intros i' Hi'. pose proof (calls_hold_lock _ _ i' j Hinv Hi') as Hown'. simpl in *. congruence. }
  destruct Hinv as [Hm Hr Hcalls Hused]. simpl in *. split; simpl; [|done| |].
  - eapply rtc_r; [exact Hm|]. eapply step_call; [exact Hi|by split|done].
  - intros i' j' [Hne Hi']%lookup_delete_Some. destruct (Hcalls i' j' Hi') as (Hlt & p & Hp & Hin).
    split; [done|]. exists p. by rewrite list_lookup_insert_ne.
  - intros h [->%elem_of_singleton|Hh]%elem_of_union.
    + exists j, fn, ctx. split_and!; [done..|]. intros i' [Hne Hi']%lookup_delete_Some.
      by apply Hne, symmetry, Honly.
    + destruct (Hused h Hh) as (j' & fn' & ctx' & Hj' & Heq & Hno). exists j', fn', ctx'.
      split_and!; [done..|]. intros i' [_ Hi']%lookup_delete_Some. by apply (Hno i').
Qed.

Lemma system_inv_step ws y y' : any_step y y' -> system_inv ws y -> system_inv ws y'.
Proof.
  intros [a Hs] Hinv. destruct Hs.
  - by eapply inv_thread_call.
  - by eapply inv_thread_enters.
  - eapply system_inv_runner; [by eapply Runner.step_call|done].
  - by eapply inv_thread_returns.
  - eapply system_inv_runner; [by eapply Runner.step_start|done].
  - eapply system_inv_runner; [by eapply Runner.step_manager|done].
Qed.

Lemma system_reaches_inv ws y : system_reaches ws y -> system_inv ws y.
Proof.
  intros Hr. pattern y. eapply rtc_ind_r; [| |exact Hr]; [|eauto using system_inv_step].
  split; simpl; [constructor..| |]; [by intros i j|]. intros h Hh. set_solver.
Qed.

(** A thread outside of [run] that may take the lock can go on. *)
Lemma thread_goes i y p :
  invariant (sy_machine y) -> m_threads (sy_machine y) !! i = Some p -> in_run p = false -> ~ finished p ->
  m_owner (sy_machine y) = None \/ m_owner (sy_machine y) = Some i ->
  exists y', system_step (Thread i) y y'.
Proof.
  destruct y as [[s owner ts] r calls]. simpl. intros (_ & Hsafe & _) Hi Hrun Hp Hown.
  specialize (Hsafe i p Hi). destruct p as [[]|w|X e k]; [by exfalso|done|].
  destruct (sem_progress e i s owner _ Hsafe Hown) as (x & s' & owner' & He & Hl).
  eexists. by eapply thread_call.
Qed.

(** A thread in [run] goes on, or [Start] does, or it waits. *)
Lemma run_goes ws y i p :
  system_inv ws y -> m_threads (sy_machine y) !! i = Some p -> in_run p = true ->
  (exists y', system_step (Thread i) y y') \/
  (exists y', system_step StartLoop y y' /\ rn_start (sy_runner y') = Selecting) \/
  (exists j c, sy_calls y !! i = Some j /\ rn_calls (sy_runner y) !! j = Some c /\ waits (sy_runner y) c).
Proof.
  intros [_ Hr Hcalls _] Hi Hp. destruct y as [[s owner ts] r calls]. simpl in *.
  destruct (calls !! i) as [j|] eqn:Hj; [|left; eexists; by eapply thread_enters].
  destruct (Hcalls i j Hj) as (Hlt & _). destruct (lookup_lt_is_Some_2 _ _ Hlt) as [c Hc].
  assert ((exists fn ctx, c = RunReturned fn ctx) \/ pending c) as [(fn & ctx & ->)|Hpend].
  { destruct c; [right; done..|left; eauto]. }
  - left. destruct p as [?|?|X e k]; try done. destruct e; try done. eexists. by eapply thread_returns.
  - destruct (run_progress r j c Hr Hc Hpend) as [(r' & Hs)|[(r' & Hs & Hsel)|Hw]].
    + left. eexists. by eapply thread_runs.
    + right. left. eexists. split; [by eapply start_goes|done].
    + right. right. eauto.
Qed.

(** C29.  The threads deadlock only in the runner: in every reachable state of
    any number of workers and collectors with the runner, if the mutex is free,
    every thread that has not finished can take a step; if it is held, its
    holder is one of the threads and can take a step, or is in [run] where
    [Start] has a step to take before it serves again, or is in [run] before the
    manager has called [Start], or is in [run] at the hand-over after [Start] has
    returned. *)
Theorem caches_progress ws y :
  system_reaches ws y ->
  match m_owner (sy_machine y) with
  | None => forall i p, m_threads (sy_machine y) !! i = Some p -> ~ finished p ->
      exists y', system_step (Thread i) y y'
  | Some i => is_Some (m_threads (sy_machine y) !! i) /\
      ((exists y', system_step (Thread i) y y') \/
       (exists y', system_step StartLoop y y' /\ rn_start (sy_runner y') = Selecting) \/
       (exists j c, sy_calls y !! i = Some j /\ rn_calls (sy_runner y) !! j = Some c /\ waits (sy_runner y) c))
  end.
Proof.
  intros Hr. apply system_reaches_inv in Hr as Hinv.
  pose proof (machine_invariant _ _ (inv_machine _ _ Hinv)) as Hm.
  destruct (m_owner (sy_machine y)) as [i|] eqn:Hown.
  - destruct (proj2 (proj2 Hm) i Hown) as [p Hp]. split; [by exists p|].
    destruct (in_run p) eqn:Hrun; [by eapply run_goes|]. left. eapply thread_goes; eauto.
    intros ->. pose proof (proj1 (proj2 Hm) i _ Hp) as Hsafe. by rewrite Hown, known_owner in Hsafe.
  - intros i p Hp Hnot. eapply thread_goes; eauto. destruct (in_run p) eqn:Hrun; [|done].
    pose proof (run_holds_lock _ _ _ Hm Hp Hrun). congruence.
Qed.

(** After the shutdown a thread whose [run] has not returned stays in it, with
    the mutex held, and so no other thread gets the mutex again. *)
Lemma stuck_step ws y y' i j :
  system_inv ws y -> any_step y y' -> rn_start (sy_runner y) = StartReturned ->
  sy_calls y !! i = Some j -> (forall c, rn_calls (sy_runner y) !! j = Some c -> pending c) ->
  rn_start (sy_runner y') = StartReturned /\ sy_calls y' !! i = Some j /\
  (forall c, rn_calls (sy_runner y') !! j = Some c -> pending c).
Proof.
  intros Hinv [a Hstep] Hs Hi Hp.
  assert (forall i' j', sy_calls y !! i' = Some j' -> i' = i) as Honly.
  { intros i' j' Hi'. pose proof (calls_hold_lock _ _ _ _ Hinv Hi). pose proof (calls_hold_lock _ _ _ _ Hinv Hi').
    congruence. }
  destruct Hstep as [i' s owner ts r calls X e k x s' owner' Hi' Hr He Hl|i' m r calls p Hi' Hr Hc
    |i' j' m r r' calls Hc Hs'|i' j' s owner ts r calls ca k fn ctx Hi' Hc Hj|m r r' calls Hs'|m r r' calls Hs'];
    simpl in *.
  - split_and!; [by destruct e|done|]. by rewrite cancels_calls.
  - destruct (stopped_step _ _ (step_call_run (length (rn_calls r)) r) Hs) as [Hs1 Hp1].
    split_and!; [done| |by apply Hp1]. rewrite lookup_insert_ne; [done|]. intros ->. congruence.
  - destruct (stopped_step _ _ (Runner.step_call _ _ _ Hs') Hs) as [Hs1 Hp1]. split_and!; [done..|by apply Hp1].
  - pose proof (Honly _ _ Hc) as ->. simplify_eq. by destruct (Hp _ Hj fn ctx).
  - destruct (stopped_step _ _ (Runner.step_start _ _ Hs') Hs) as [Hs1 Hp1]. split_and!; [done..|by apply Hp1].
  - destruct (stopped_step _ _ (Runner.step_manager _ _ Hs') Hs) as [Hs1 Hp1]. split_and!; [done..|by apply Hp1].
Qed.

Theorem shutdown_keeps_mutex ws y y' i j :
  system_reaches ws y -> rn_start (sy_runner y) = StartReturned -> sy_calls y !! i = Some j ->
  (forall c, rn_calls (sy_runner y) !! j = Some c -> pending c) ->
  rtc any_step y y' -> m_owner (sy_machine y') = Some i.
Proof.
  intros Hr Hs Hi Hp Hsteps. apply system_reaches_inv in Hr.
  induction Hsteps as [y|y y1 y' Hstep _ IH]; [by eapply calls_hold_lock|].
  destruct (stuck_step _ _ _ _ _ Hr Hstep Hs Hi Hp) as (Hs1 & Hi1 & Hp1).
  eauto using system_inv_step.
Qed.
End theorems.

(** ** Executing a schedule *)

(** A choice of answer: the first handle not used yet, and the sample server's
    answers for the outside *)
Definition next_handle (s : shared) : handle := fresh (sh_used s).

Definition choose {X} (e : sys X) : shared -> X * shared :=
  match e in sys X return shared -> X * shared with
  | CachesGet k => fun s => (sh_map s !! k, s)
  | CachesSet k c => fun s => (tt, MkShared (<[k := c]> (sh_map s)) (sh_running s) (sh_used s))
  | CachesDelete k => fun s => (tt, MkShared (delete k (sh_map s)) (sh_running s) (sh_used s))
  | RunnerRun _ => fun s =>
      (next_handle s, MkShared (sh_map s) ({[next_handle s]} ∪ sh_running s) ({[next_handle s]} ∪ sh_used s))
  | CancelFunc h => fun s => (tt, MkShared (sh_map s) (sh_running s ∖ {[h]}) (sh_used s))
  | e => fun s => ((map_handler _ e (sample_server false)).1, s)
  end.

Definition lock_choose {X} (i : nat) (e : sys X) (owner : option nat) : option (option nat) :=
  match e with
  | LockCaches => match owner with None => Some (Some i) | Some _ => None end
  | UnlockCaches => match owner with Some _ => Some None | None => None end
  | _ => Some owner
  end.

Definition exec_step (m : machine) (i : nat) : option machine :=
  match m_threads m !! i with
  | Some (PVis e k) =>
      owner ← lock_choose i e (m_owner m);
      let '(x, s) := choose e (m_shared m) in
      Some (MkMachine s owner (<[i := k x]> (m_threads m)))
  | _ => None
  end.

Fixpoint exec_schedule (m : machine) (sched : list nat) : option machine :=
  match sched with
  | [] => Some m
  | i :: sched => m ← exec_step m i; exec_schedule m sched
  end.

Lemma choose_effect {X} (e : sys X) s x s' : choose e s = (x, s') -> effect e s x s'.
Proof.
  intros Hc. destruct e; try (simpl in *; injection Hc as <- <-; done). injection Hc as <- <-.
  split; [unfold next_handle; apply is_fresh|done].
Qed.

Lemma lock_choose_effect {X} i (e : sys X) owner owner' :
  lock_choose i e owner = Some owner' -> lock_effect i e owner owner'.
Proof. destruct e, owner; simpl in *; naive_solver. Qed.

Lemma exec_step_sound m i m' : exec_step m i = Some m' -> step m m'.
Proof.
  unfold exec_step. destruct m as [s owner ts]. simpl.
  destruct (ts !! i) as [[a|w|X e k]|] eqn:Hi; try done.
  destruct (lock_choose i e owner) as [owner'|] eqn:Hl; simpl; [|done].
  destruct (choose e s) as [x s'] eqn:Hc. intros [= <-].
  eapply step_call; [done|by apply choose_effect|by apply lock_choose_effect].
Qed.

Lemma exec_schedule_sound m sched m' : exec_schedule m sched = Some m' -> rtc step m m'.
Proof.
  revert m. induction sched as [|i sched IH]; intros m; simpl; [intros [= ->]; constructor|].
  destruct (exec_step m i) as [m1|] eqn:Hm1; simpl; [|done].
  intros Hm. eapply rtc_l; [by eapply exec_step_sound|by apply IH].
Qed.

(** Two workers race for the same kind on the local cluster; both have seen the
    map empty before the first creates the cache. *)
#[local] Existing Instance Stock.stock.

Definition sample_gvk := MkGVK "helm.toolkit.fluxcd.io" "v2" "HelmRelease".
Definition race : list worker := [Watcher [(None, sample_gvk)]; Watcher [(None, sample_gvk)]].
Definition race_schedule : list nat :=
  [0; 0; 0; 1; 1; 1; 0; 1; 0; 0; 0; 0; 0; 0; 0; 1; 1; 1; 1; 1; 1; 0; 0; 0].

Lemma caches_agree_witness :
  exists m, rtc step (start race) m /\ m_owner m = None /\ size (sh_map (m_shared m)) = 1 /\
    (forall k e, sh_map (m_shared m) !! k = Some e -> cc_cancel e ∈ sh_running (m_shared m)) /\
    (forall h, h ∈ sh_running (m_shared m) ->
       exists! k, exists e, sh_map (m_shared m) !! k = Some e /\ cc_cancel e = h).
Proof.
  assert ((fun m => (m_owner m, size (sh_map (m_shared m)))) <$> exec_schedule (start race) race_schedule
    = Some (None, 1)) as Hv by (vm_compute; reflexivity).
  destruct (exec_schedule (start race) race_schedule) as [m|] eqn:Hm; [|done].
  injection Hv as Hfree Hsize.
  apply exec_schedule_sound in Hm. exists m. split; [done|]. split; [done|]. split; [done|].
  apply (caches_agree race m Hm Hfree).
Defined.

(** The same with the runner: a thread makes its next call, enters [run], goes
    on in it or returns from it; [Start] and the manager take a step. *)
Inductive action := ACall (i : nat) | AEnter (i : nat) | ARun (i : nat) | ALeave (i : nat)
  | AClose | AGo | AReturn | ARoot | AShutdown.

Definition exec_call (i : nat) (y : system) : option system :=
  match m_threads (sy_machine y) !! i with
  | Some (PVis e k) =>
      if is_run e then None else
      owner ← lock_choose i e (m_owner (sy_machine y));
      let '(x, s) := choose e (m_shared (sy_machine y)) in
      Some (MkSystem (MkMachine s owner (<[i := k x]> (m_threads (sy_machine y))))
              (cancels e (sy_runner y)) (sy_calls y))
  | _ => None
  end.

Definition exec_enter (i : nat) (y : system) : option system :=
  match m_threads (sy_machine y) !! i, sy_calls y !! i with
  | Some p, None =>
      if in_run p then
        let j := length (rn_calls (sy_runner y)) in
        Some (MkSystem (sy_machine y) (call_run j (sy_runner y)) (<[i := j]> (sy_calls y)))
      else None
  | _, _ => None
  end.

Definition exec_run (i : nat) (y : system) : option system :=
  j ← sy_calls y !! i;
  match rn_calls (sy_runner y) !! j, rn_ready_closed (sy_runner y), rn_start (sy_runner y) with
  | Some (WaitReady fn), true, _ =>
      Some (MkSystem (sy_machine y) (run_WithCancel j fn (sy_runner y)) (sy_calls y))
  | Some (SendToStart fn ctx), _, Selecting =>
      Some (MkSystem (sy_machine y) (start_received j fn ctx (sy_runner y)) (sy_calls y))
  | _, _, _ => None
  end.

Definition exec_leave (i : nat) (y : system) : option system :=
  j ← sy_calls y !! i;
  match m_threads (sy_machine y) !! i, rn_calls (sy_runner y) !! j with
  | Some (PVis e k), Some (RunReturned fn ctx) =>
      let m := sy_machine y in
      match e in sys X return (X -> io unit) -> option system with
      | RunnerRun _ => fun k =>
          Some (MkSystem (MkMachine (add_running (ctx_cancel ctx) (m_shared m)) (m_owner m)
                            (<[i := k (ctx_cancel ctx)]> (m_threads m)))
                  (sy_runner y) (delete i (sy_calls y)))
      | _ => fun _ => None
      end k
  | _, _ => None
  end.

Definition exec_runner (a : action) (r : runner) : option runner :=
  match a, rn_start r with
  | AClose, RootSet => Some (Runner.set_start (rn_rootContext r) true Selecting r)
  | AGo, Spawning fn ctx => Some (start_go fn ctx r)
  | AReturn, Selecting =>
      root ← rn_rootContext r;
      if decide (root ∈ rn_cancelled r)
      then Some (Runner.set_start (rn_rootContext r) (rn_ready_closed r) StartReturned r) else None
  | ARoot, NotStarted => Some (Runner.set_start (Some 0) (rn_ready_closed r) RootSet r)
  | AShutdown, _ => Some (cancel_ctx 0 r)
  | _, _ => None
  end.

Definition exec_action (a : action) (y : system) : option system :=
  match a with
  | ACall i => exec_call i y
  | AEnter i => exec_enter i y
  | ARun i => exec_run i y
  | ALeave i => exec_leave i y
  | a => r ← exec_runner a (sy_runner y); Some (MkSystem (sy_machine y) r (sy_calls y))
  end.

Definition exec_actions (y : system) (l : list action) : option system :=
  foldl (fun y a => y ≫= exec_action a) (Some y) l.

Lemma exec_call_sound i y y' : exec_call i y = Some y' -> any_step y y'.
Proof.
  destruct y as [[s owner ts] r calls]. unfold exec_call. simpl. intros Hex.
  destruct (ts !! i) as [[a|w|X e k]|] eqn:Hi; try done.
  destruct (is_run e) eqn:Hr; [done|]. destruct (lock_choose i e owner) as [owner'|] eqn:Hl; [|done].
  simpl in Hex. destruct (choose e s) as [x s'] eqn:Hc. injection Hex as <-.
  exists (Thread i). eapply thread_call; [exact Hi|done|by apply choose_effect|by apply lock_choose_effect].
Qed.

Lemma exec_run_sound i y y' : exec_run i y = Some y' -> any_step y y'.
Proof.
  destruct y as [m r calls]. unfold exec_run. simpl. intros Hex. exists (Thread i).
  destruct (calls !! i) as [j|] eqn:Hi; [|done]. simpl in Hex.
  destruct (rn_calls r !! j) as [[fn|fn ctx|fn ctx]|] eqn:Hj; [| |done..].
  - destruct (rn_ready_closed r) eqn:Hready; [|done]. injection Hex as <-.
    eapply thread_runs; [done|by apply step_ready].
  - destruct (rn_start r) eqn:Hs, (rn_ready_closed r); simplify_eq;
      (eapply thread_runs; [done|by apply step_received]).
Qed.

Lemma exec_leave_sound i y y' : exec_leave i y = Some y' -> any_step y y'.
Proof.
  destruct y as [[s owner ts] r calls]. unfold exec_leave. simpl. intros Hex. exists (Thread i).
  destruct (calls !! i) as [j|] eqn:Hi; [|done]. simpl in Hex.
  destruct (ts !! i) as [[a|w|X e k]|] eqn:Hp; try done.
  destruct (rn_calls r !! j) as [[fn|fn ctx|fn ctx]|] eqn:Hj; try done.
  destruct e; try done. injection Hex as <-. by eapply thread_returns.
Qed.

Lemma exec_runner_sound a m r r' calls :
  exec_runner a r = Some r' -> any_step (MkSystem m r calls) (MkSystem m r' calls).
Proof.
  intros Hex. destruct a; try done; simpl in Hex.
  - destruct (rn_start r) eqn:Hs; simplify_eq. exists StartLoop. by apply start_goes, step_close.
  - destruct (rn_start r) eqn:Hs; simplify_eq. exists StartLoop. by apply start_goes, step_go.
  - destruct (rn_start r) eqn:Hs; simplify_eq. destruct (rn_rootContext r) as [root|] eqn:Hroot; [|done].
    simpl in Hex. case_decide; simplify_eq. exists StartLoop. rewrite <- Hroot.
    apply start_goes, (step_return _ root); [done..|by left].
  - destruct (rn_start r) eqn:Hs; simplify_eq. exists Manager. by apply manager_goes, step_root.
  - assert (Some (cancel_ctx 0 r) = Some r') as [= <-] by (by destruct (rn_start r)).
    exists Manager. apply manager_goes, step_shutdown.
Qed.

Lemma exec_action_sound a y y' : exec_action a y = Some y' -> any_step y y'.
Proof.
  assert (forall a, (r ← exec_runner a (sy_runner y); Some (MkSystem (sy_machine y) r (sy_calls y))) = Some y' ->
    any_step y y') as Hown.
  { intros a'. destruct (exec_runner a' (sy_runner y)) as [r|] eqn:Hr; [|done]. intros [= <-].
    destruct y. by eapply exec_runner_sound. }
  destruct a; unfold exec_action; eauto using exec_call_sound, exec_run_sound, exec_leave_sound.
  destruct y as [m r calls]. unfold exec_enter. simpl.
  destruct (m_threads m !! i) as [p|] eqn:Hp; [|done]. destruct (calls !! i) eqn:Hc; [done|].
  destruct (in_run p) eqn:Hrun; [|done]. intros [= <-]. exists (Thread i). by eapply thread_enters.
Qed.

Lemma exec_actions_sound l y y' : exec_actions y l = Some y' -> rtc any_step y y'.
Proof.
  unfold exec_actions. revert y. induction l as [|a l IH]; intros y; simpl; [by intros [= ->]|].
  destruct (exec_action a y) as [y1|] eqn:Hy1.
  - intros Hl. eapply rtc_l; [by eapply exec_action_sound|by apply IH].
  - assert (forall l, foldl (fun y a => y ≫= exec_action a) None l = None :> option system) as Hnone
      by (clear; induction l; done). by rewrite Hnone.
Qed.

(** The manager shuts down while the first worker is between the two channel
    operations of [run]: the first worker keeps the mutex, the second is stuck
    at it. *)
Definition shutdown_race : list action :=
  [ARoot; AClose] ++ (ACall <$> [1; 1; 1; 1; 0; 0; 0; 0; 0; 0; 0]) ++ [AEnter 0; ARun 0; AShutdown; AReturn].

(** A run through the runner to the end *)
Definition served_race : list action :=
  (ACall <$> [0; 0; 0; 0; 0; 0; 0]) ++ [AEnter 0; ARoot; AClose; ARun 0; ARun 0; ALeave 0; ACall 0; AGo; ACall 0].

Lemma caches_progress_witness :
  (exists y, system_reaches race y /\ m_owner (sy_machine y) = Some 0 /\
     ((exists y', system_step (Thread 0) y y') \/
      (exists y', system_step StartLoop y y' /\ rn_start (sy_runner y') = Selecting) \/
      (exists j c, sy_calls y !! 0 = Some j /\ rn_calls (sy_runner y) !! j = Some c /\ waits (sy_runner y) c))) /\
  (exists y, system_reaches race y /\ size (sh_map (m_shared (sy_machine y))) = 1 /\
     forall i p, m_threads (sy_machine y) !! i = Some p -> ~ finished p -> exists y', system_step (Thread i) y y').
Proof.
  split.
  - assert ((fun y => m_owner (sy_machine y)) <$> exec_actions (system_start race) shutdown_race = Some (Some 0))
      as Hv by (vm_compute; reflexivity).
    destruct (exec_actions (system_start race) shutdown_race) as [y|] eqn:Hy; [|done].
    injection Hv as Hown. apply exec_actions_sound in Hy. exists y. split; [done|]. split; [done|].
    pose proof (caches_progress race y Hy) as Hp. rewrite Hown in Hp. apply Hp.
  - assert ((fun y => (m_owner (sy_machine y), size (sh_map (m_shared (sy_machine y))))) <$>
      exec_actions (system_start race) served_race = Some (None, 1)) as Hv by (vm_compute; reflexivity).
    destruct (exec_actions (system_start race) served_race) as [y|] eqn:Hy; [|done].
    injection Hv as Hown Hsize. apply exec_actions_sound in Hy. exists y. split; [done|]. split; [done|].
    pose proof (caches_progress race y Hy) as Hp. rewrite Hown in Hp. exact Hp.
Defined.

Lemma shutdown_keeps_mutex_witness : exists y, system_reaches race y /\
  forall y', rtc any_step y y' -> m_owner (sy_machine y') = Some 0.
Proof.
  assert ((fun y => (rn_start (sy_runner y), rn_calls (sy_runner y), sy_calls y !! 0)) <$>
    exec_actions (system_start race) shutdown_race = Some (StartReturned, [SendToStart 0 1], Some 0))
    as Hv by (vm_compute; reflexivity).
  destruct (exec_actions (system_start race) shutdown_race) as [y|] eqn:Hy; [|done].
  injection Hv as Hs Hc Hi. apply exec_actions_sound in Hy. exists y. split; [done|].
  intros y' Hy'. apply (shutdown_keeps_mutex race y y' 0 0); [done..| |done].
  rewrite Hc. by intros c [= <-].
Defined.
