(* ===== verification/LevelController.v ===== *)
(** * The level-triggered reconciler (controllers/leveltriggered/controller.go)

    [Reconcile] observes the application object of every target, records what
    it saw in the status, and promotes the revision of the first environment
    to the next environment that does not have it. *)

From S2P Require Export Caches Strategies ApiServer.

(** ** Checks on the status of an environment *)
Fixpoint any_revision (targets : list TargetStatus) (revision : string) : bool :=
  match targets with
  | [] => false
  | t :: targets => if bool_decide (ts_Revision t = revision) then true else any_revision targets revision
  end.

Fixpoint all_revision (targets : list TargetStatus) (revision : string) : bool :=
  match targets with
  | [] => true
  | t :: targets => if bool_decide (ts_Revision t <> revision) then false else all_revision targets revision
  end.

Fixpoint all_ready (targets : list TargetStatus) : bool :=
  match targets with
  | [] => true
  | t :: targets => if negb (ts_Ready t) then false else all_ready targets
  end.

Definition checkAnyTargetHasRevision (env : EnvironmentStatus) (revision : string) : bool :=
  any_revision (es_Targets env) revision.

Definition checkAllTargetsRunRevision (env : EnvironmentStatus) (revision : string) : bool :=
  all_revision (es_Targets env) revision.

Definition checkAllTargetsHaveSameRevision (env : EnvironmentStatus) : string :=
  match es_Targets env with
  | [] => ""
  | t :: _ =>
      let revision := ts_Revision t in
      if all_revision (es_Targets env) revision then revision else ""
  end.

Definition checkAllTargetsAreReady (env : EnvironmentStatus) : bool := all_ready (es_Targets env).

Definition clusterPrefix (ref : option CrossNamespaceClusterReference) : string :=
  match ref with
  | None => ""
  | Some ref => cr_Namespace ref +:+ "/" +:+ cr_Name ref +:+ ":"
  end.

(** What is left of [Reconcile] after the observation of one target: a status,
    with whether it makes the pipeline unready, or an early return *)
Inductive observation :=
  | Observed (status : TargetStatus) (unready : bool)
  | Return (ret : Result * option error).

Section reconciler.
Context `{ApiMachinery} (r : PipelineReconciler) (stratReg : StrategyRegistry).

Definition setPendingCondition (pipeline : Pipeline) (reason message : string) : Pipeline :=
  let condition := MkCondition PromotionPendingCondition ConditionTrue reason message in
  let st := pl_Status pipeline in
  set_Status (set_Conditions (SetStatusCondition (st_Conditions st) condition) st) pipeline.

Definition removePendingCondition (pipeline : Pipeline) : Pipeline :=
  let st := pl_Status pipeline in
  set_Status
    (set_Conditions (RemoveStatusCondition (st_Conditions st) PromotionPendingCondition) st) pipeline.

(** [targetObject]: the kind and the key of the object to read *)
Definition targetObject (pipeline : Pipeline) (target : Target) : res (GroupVersionKind * ObjectKey) :=
  let ref := spec_AppRef (pl_Spec pipeline) in
  match ParseGroupVersion (app_APIVersion ref) with
  | Err err => Err err
  | Ok (group, version) =>
      Ok (MkGVK group version (app_Kind ref), MkKey (tgt_Namespace target) (app_Name ref))
  end.

(** [setTargetStatus] on an unstructured object, the only type
    [targetObject] makes *)
Definition setTargetStatus (status : TargetStatus) (obj : value) : TargetStatus :=
  match NestedSlice obj ["status"; "conditions"] with
  | Ok (Some conds) =>
      let status := set_Ready (IsReadyUnstructured conds) status in
      match NestedString obj ["status"; "lastAppliedRevision"] with
      | Ok (Some lastAppliedRev) => set_Revision lastAppliedRev status
      | _ =>
          if ts_Ready status
          then set_Ready false
                 (set_Error "unable to find .status.lastAppliedRevision in ready target object" status)
          else status
      end
  | _ => set_Ready false status
  end.

(** The loop's body from [targetObject] on *)
Definition observe_app (pipeline : Pipeline) (target : Target) (ts : TargetStatus)
    (clusterObject : option GitopsCluster) : io observation :=
  match targetObject pipeline target with
  | Err err =>
      mret (Observed (set_Error ("target spec could not be interpreted as an object: " +:+ Error err) ts)
              true)
  | Ok (gvk, targetKey) =>
      call (clusterClient, ok) <- watchTargetAndGetReader clusterObject gvk onerr err =>
        mret (Return (zero_Result, Some err));
      when negb ok return
        mret (Observed (set_Error "Target cluster client is not synced" ts) true);
      obj ← trigger (CacheRead clusterClient gvk targetKey);
      match obj with
      | Err err =>
          emitEventf r pipeline EventTypeWarning "GetAppError"
            ("Failed to get application object " +:+ clusterPrefix (tgt_ClusterRef target) +:+
             key_Namespace targetKey +:+ "/" +:+ key_Name targetKey +:+
             " for pipeline " +:+ pipeline_name pipeline +:+ ": " +:+ Error err);;
          mret (Observed (set_Error (Error err) ts) true)
      | Ok obj => mret (Observed (setTargetStatus ts obj) false)
      end
  end.

(** The body of the loop over the targets *)
Definition observe_target (pipeline : Pipeline) (target : Target) : io observation :=
  let appRef := spec_AppRef (pl_Spec pipeline) in
  match tgt_ClusterRef target with
  | None =>
      observe_app pipeline target
        (set_ClusterAppRef (MkClusterAppReference appRef None) zero_TargetStatus) None
  | Some ref =>
      let ts := set_ClusterAppRef (MkClusterAppReference appRef (Some ref)) zero_TargetStatus in
      clusterObject ← getCluster pipeline ref;
      match clusterObject with
      | Err err =>
          emitEventf r pipeline EventTypeWarning "GetClusterError"
            ("Failed to get cluster " +:+ cr_Namespace ref +:+ "/" +:+ cr_Name ref +:+
             " for pipeline " +:+ pipeline_name pipeline +:+ ": " +:+ Error err);;
          mret (if IsNotFound err then Observed (set_Error (Error err) ts) true
                else Return (zero_Result, Some err))
      | Ok clusterObject =>
          if IsReady (gc_Conditions clusterObject)
          then observe_app pipeline target ts (Some clusterObject)
          else
            s ← ClusterRef_String (Some ref);
            mret (Observed (set_Error ("Target cluster '" +:+ s +:+ "' not ready") ts) true)
      end
  end.

(** The loops; [inr] is an early return. *)
Fixpoint observe_targets (pipeline : Pipeline) (targets : list Target) :
    io (list TargetStatus * bool + Result * option error) :=
  match targets with
  | [] => mret (inl ([], false))
  | target :: targets =>
      o ← observe_target pipeline target;
      match o with
      | Return ret => mret (inr ret)
      | Observed ts unready =>
          rest ← observe_targets pipeline targets;
          mret match rest with
               | inl (statuses, unready') => inl (ts :: statuses, unready || unready')
               | inr ret => inr ret
               end
      end
  end.

Fixpoint observe_environments (pipeline : Pipeline) (envs : list Environment)
    (envStatuses : gmap string (option EnvironmentStatus)) (unready : bool) :
    io (gmap string (option EnvironmentStatus) * bool + Result * option error) :=
  match envs with
  | [] => mret (inl (envStatuses, unready))
  | env :: envs =>
      o ← observe_targets pipeline (env_Targets env);
      match o with
      | inr ret => mret (inr ret)
      | inl (statuses, unready') =>
          observe_environments pipeline envs
            (<[env_Name env := Some (MkEnvironmentStatus zero_WaitingApproval statuses)]> envStatuses)
            (unready || unready')
      end
  end.

Definition readyCondition (unready : bool) : Condition :=
  if unready
  then MkCondition ReadyCondition ConditionFalse TargetNotReadableReason
         "One or more targets was not reachable or not present"
  else MkCondition ReadyCondition ConditionTrue ReconciliationSucceededReason
         (trimString "All clusters checked" MaxConditionMessageLength).

(** [pipeline.Status.Environments[name]], through the pointer *)
Definition env_status (pipeline : Pipeline) (name : string) : io EnvironmentStatus :=
  deref (mjoin (st_Environments (pl_Status pipeline) !! name)).

Definition promoteLatestRevision (pipeline : Pipeline) (env : Environment) (revision : string) :
    io (res unit) :=
  match GetPromotion (pl_Spec pipeline) (env_Name env) with
  | None => mret (Ok tt)
  | Some promotion =>
      match Registry_Get stratReg promotion with
      | Err err => mret (Err (wrapf "error getting strategy from registry: " err))
      | Ok strat =>
          let prom := MkStrategyPromotion (pl_Namespace pipeline) (pl_Name pipeline) env revision in
          promSpec ← deref (spec_Promotion (pl_Spec pipeline));
          call _ <- Promote strat promSpec prom onerr err => mret (Err err);
          mret (Ok tt)
      end
  end.

(** The loop over the environments after the first *)
Fixpoint promote_loop (pipeline : Pipeline) (envs : list Environment) (latestRevision : string) :
    io (Result * option error) :=
  match envs with
  | [] => mret (zero_Result, None)
  | env :: envs =>
      status ← env_status pipeline (env_Name env);
      if checkAllTargetsRunRevision status latestRevision && checkAllTargetsAreReady status
      then promote_loop pipeline envs latestRevision
      else if checkAnyTargetHasRevision status latestRevision then mret (zero_Result, None)
      else
        call _ <- promoteLatestRevision pipeline env latestRevision onerr err =>
          mret (zero_Result, Some (wrapf "error promoting new version: " err));
        mret (zero_Result, None)
  end.

(** [Reconcile] after the first patch *)
Definition advance (pipeline : Pipeline) : io (Result * option error) :=
  let patch p := trigger (PatcherPatch p (pr_ControllerName r)) in
  firstEnv ← index (spec_Environments (pl_Spec pipeline)) 0;
  first ← env_status pipeline (env_Name firstEnv);
  let latestRevision := checkAllTargetsHaveSameRevision first in
  if bool_decide (latestRevision = "") then
    call _ <- patch (setPendingCondition pipeline EnvironmentNotReadyReason
                       "Waiting for all targets to have the same revision") onerr err =>
      mret (MkResult true 0, Some (wrapf "error setting pending condition: " err));
    mret (zero_Result, None)
  else if negb (checkAllTargetsAreReady first) then
    call _ <- patch (setPendingCondition pipeline EnvironmentNotReadyReason
                       "Waiting for all targets to be ready") onerr err =>
      mret (zero_Result, Some (wrapf "error setting pending condition: " err));
    mret (zero_Result, None)
  else
    let pipeline := removePendingCondition pipeline in
    call _ <- patch pipeline onerr err =>
      mret (zero_Result, Some (wrapf "error removing pending condition: " err));
    promote_loop pipeline (tail (spec_Environments (pl_Spec pipeline))) latestRevision.

Definition Reconcile (req : ObjectKey) : io (Result * option error) :=
  call pipeline <- trigger (GetPipeline req) onerr err => mret (zero_Result, IgnoreNotFound err);
  when bool_decide (pl_DeletionTimestamp pipeline <> None) return mret (zero_Result, None);
  o ← observe_environments pipeline (spec_Environments (pl_Spec pipeline)) ∅ false;
  match o with
  | inr ret => mret ret
  | inl (envStatuses, unready) =>
      let pipeline := set_Status (set_Environments envStatuses
                        (with_condition pipeline (readyCondition unready))) pipeline in
      patched ← trigger (PatcherPatch pipeline (pr_ControllerName r));
      match patched with
      | Err err =>
          emitEventf r pipeline EventTypeWarning "SetStatus"
            ("Failed to patch status for pipeline " +:+ pipeline_name pipeline +:+ ": " +:+ Error err);;
          mret (MkResult true 0, Some err)
      | Ok _ =>
          emitEventf r pipeline EventTypeNormal "Updated"
            ("Updated pipeline " +:+ pipeline_name pipeline);;
          advance pipeline
      end
  end.
End reconciler.
