(* ===== verification/LevelSpec.v ===== *)
(** * What the level-triggered reconciler does

    The theorems about [LevelController.Reconcile]: what a run reads, records,
    promotes and may panic on. *)

From S2P Require Export LevelController.

(** ** Lemmas on the checks *)
Lemma all_revision_spec ts rev :
  all_revision ts rev = true <-> Forall (fun t => ts_Revision t = rev) ts.
Proof.
  induction ts as [|t ts IH]; simpl; [split; [constructor|done]|]. rewrite Forall_cons.
  destruct (decide (ts_Revision t = rev)) as [Ht|Ht].
  - rewrite bool_decide_false by (intros Hn; by apply Hn). tauto.
  - rewrite bool_decide_true by done. naive_solver.
Qed.

Lemma any_revision_false ts rev :
  any_revision ts rev = false <-> Forall (fun t => ts_Revision t <> rev) ts.
Proof.
  induction ts as [|t ts IH]; simpl; [split; [constructor|done]|]. rewrite Forall_cons.
  case_bool_decide; naive_solver.
Qed.

Lemma all_ready_spec ts : all_ready ts = true <-> Forall (fun t => ts_Ready t = true) ts.
Proof.
  induction ts as [|t ts IH]; simpl; [split; [constructor|done]|]. rewrite Forall_cons.
  destruct (ts_Ready t); simpl; naive_solver.
Qed.

(** Every target runs the revision and is ready. *)
Definition settled (es : EnvironmentStatus) (rev : string) : Prop :=
  Forall (fun t => ts_Revision t = rev /\ ts_Ready t = true) (es_Targets es).

Lemma settled_spec es rev :
  checkAllTargetsRunRevision es rev && checkAllTargetsAreReady es = true <-> settled es rev.
Proof.
  unfold checkAllTargetsRunRevision, checkAllTargetsAreReady, settled.
  rewrite andb_true_iff, all_revision_spec, all_ready_spec, <- Forall_and. done.
Qed.

Lemma same_revision_spec es rev :
  rev <> "" ->
  checkAllTargetsHaveSameRevision es = rev <->
  es_Targets es <> [] /\ Forall (fun t => ts_Revision t = rev) (es_Targets es).
Proof.
  intros Hne. unfold checkAllTargetsHaveSameRevision. destruct (es_Targets es) as [|t ts] eqn:Ht.
  - naive_solver.
  - destruct (all_revision (t :: ts) (ts_Revision t)) eqn:Hall.
    + apply all_revision_spec in Hall. split; [by intros <-|].
      intros [_ Hrev]. by inversion Hrev.
    + split; [congruence|]. intros [_ Hrev]. inversion Hrev; subst.
      apply all_revision_spec in Hrev. congruence.
Qed.

(** ** What a target's object says *)
Section object.
Context `{ApiMachinery}.

(** A Ready condition that is true, and the revision last applied *)
Definition app_ready (obj : value) : Prop :=
  exists conds, field obj ["status"; "conditions"] = Some (VSlice conds) /\
    IsReadyUnstructured conds = true.
Definition app_revision (obj : value) (rev : string) : Prop :=
  field obj ["status"; "lastAppliedRevision"] = Some (VString rev).

Lemma setTargetStatus_ready_iff ts obj :
  ts_Ready (setTargetStatus ts obj) = true <-> app_ready obj /\ exists rev, app_revision obj rev.
Proof.
  unfold setTargetStatus, app_ready, app_revision. setoid_rewrite <- NestedSlice_found.
  setoid_rewrite <- NestedString_found.
  destruct (NestedSlice obj ["status"; "conditions"]) as [[conds|]|e]; [|simpl; naive_solver..].
  destruct (NestedString obj ["status"; "lastAppliedRevision"]) as [[rev|]|e]; simpl;
    destruct (IsReadyUnstructured conds) eqn:Hc; simpl; naive_solver.
Qed.

(** The status an object gives a target *)
Inductive object_status (ts : TargetStatus) (obj : value) : TargetStatus -> Prop :=
  | object_ready rev : app_ready obj -> app_revision obj rev ->
      object_status ts obj (set_Revision rev (set_Ready true ts))
  | object_no_revision : app_ready obj -> (forall rev, ~ app_revision obj rev) ->
      object_status ts obj
        (set_Ready false
           (set_Error "unable to find .status.lastAppliedRevision in ready target object"
              (set_Ready true ts)))
  | object_unready rev conds : ~ app_ready obj ->
      field obj ["status"; "conditions"] = Some (VSlice conds) -> app_revision obj rev ->
      object_status ts obj (set_Revision rev (set_Ready false ts))
  | object_bare : ~ app_ready obj ->
      (forall rev conds, field obj ["status"; "conditions"] = Some (VSlice conds) ->
         ~ app_revision obj rev) ->
      object_status ts obj (set_Ready false ts).

Lemma setTargetStatus_says ts obj : object_status ts obj (setTargetStatus ts obj).
Proof.
  assert (forall conds, NestedSlice obj ["status"; "conditions"] = Ok (Some conds) ->
    (app_ready obj <-> IsReadyUnstructured conds = true)) as Hready.
  { intros conds Hc%NestedSlice_found. unfold app_ready. split; [|by exists conds].
    intros (conds' & Hc' & ?). rewrite Hc in Hc'. by injection Hc' as <-. }
  assert ((forall conds, NestedSlice obj ["status"; "conditions"] <> Ok (Some conds)) ->
    object_status ts obj (set_Ready false ts)) as Hbare.
  { intros Hno. apply object_bare.
    - intros (conds & Hc%NestedSlice_found & _). by eapply Hno.
    - intros rev conds Hc%NestedSlice_found. intros _. by eapply Hno. }
  unfold setTargetStatus.
  destruct (NestedSlice obj ["status"; "conditions"]) as [[conds|]|e] eqn:Hc; [|by apply Hbare..].
  specialize (Hready conds eq_refl). apply NestedSlice_found in Hc.
  assert ((forall rev, NestedString obj ["status"; "lastAppliedRevision"] <> Ok (Some rev)) ->
    object_status ts obj
      (if ts_Ready (set_Ready (IsReadyUnstructured conds) ts)
       then set_Ready false (set_Error "unable to find .status.lastAppliedRevision in ready target object"
              (set_Ready (IsReadyUnstructured conds) ts))
       else set_Ready (IsReadyUnstructured conds) ts)) as Hnorev.
  { intros Hno. assert (forall rev, ~ app_revision obj rev) as Hno' by by intros rev Hr%NestedString_found; eapply Hno.
    cbn [ts_Ready set_Ready]. destruct (IsReadyUnstructured conds) eqn:Hr.
    - apply object_no_revision; [by apply Hready|done].
    - apply object_bare; [by intros ?%Hready|by intros]. }
  destruct (NestedString obj ["status"; "lastAppliedRevision"]) as [[rev|]|e] eqn:Hrev; [|by apply Hnorev..].
  apply NestedString_found in Hrev. destruct (IsReadyUnstructured conds) eqn:Hr.
  - apply object_ready; [by apply Hready|done].
  - eapply object_unready; [by intros ?%Hready|done|done].
Qed.

(** What is recorded of an application object: a target is ready exactly
    when the object has a true Ready condition and a last applied revision,
    and the recorded revision of a ready target is that one. *)
Theorem setTargetStatus_ready ts obj :
  (ts_Ready (setTargetStatus ts obj) = true <-> app_ready obj /\ exists rev, app_revision obj rev) /\
  (ts_Ready (setTargetStatus ts obj) = true ->
     app_revision obj (ts_Revision (setTargetStatus ts obj))) /\
  (app_ready obj -> ts_Ready (setTargetStatus ts obj) = false ->
     ts_Error (setTargetStatus ts obj) <> "").
Proof.
  split; [apply setTargetStatus_ready_iff|].
  unfold setTargetStatus, app_ready, app_revision. setoid_rewrite <- NestedSlice_found.
  rewrite <- NestedString_found.
  destruct (NestedSlice obj ["status"; "conditions"]) as [[conds|]|e];
    [|split; [done|]; intros (? & ? & _); congruence..].
  destruct (NestedString obj ["status"; "lastAppliedRevision"]) as [[rev|]|e]; simpl;
    destruct (IsReadyUnstructured conds) eqn:Hc; simpl; split; try done;
    intros (conds' & [= <-] & Hc'); congruence.
Qed.
End object.

(** ** The next environment *)
Definition status_of (p : Pipeline) (env : Environment) : option EnvironmentStatus :=
  mjoin (st_Environments (pl_Status p) !! env_Name env).

(** [env] is the first of [envs] that is not settled, and nothing in it runs
    the revision yet. *)
Definition next_for (p : Pipeline) (envs : list Environment) (rev : string) (env : Environment) : Prop :=
  exists pre post es, envs = pre ++ env :: post /\
    Forall (fun e => exists es, status_of p e = Some es /\ settled es rev) pre /\
    status_of p env = Some es /\ es_Targets es <> [] /\
    Forall (fun t => ts_Revision t <> rev) (es_Targets es).

(** The revision is to be promoted to [env]: every target of the first
    environment runs it and is ready, and [env] is next. *)
Definition promotable (p : Pipeline) (env : Environment) (rev : string) : Prop :=
  exists first rest es, spec_Environments (pl_Spec p) = first :: rest /\
    status_of p first = Some es /\ es_Targets es <> [] /\ settled es rev /\ rev <> "" /\
    next_for p rest rev env.

Lemma next_for_cons_settled p e envs rev env es :
  status_of p e = Some es -> settled es rev ->
  next_for p (e :: envs) rev env <-> next_for p envs rev env.
Proof.
  intros Hes Hset. split.
  - intros ([|e' pre] & post & es' & Heq & Hpre & Henv & Hne & Hrev); injection Heq as -> ->.
    + rewrite Hes in Henv. injection Henv as <-. destruct (es_Targets es) as [|t ts] eqn:Ht; [done|].
      unfold settled in Hset. rewrite Ht, !Forall_cons in *. naive_solver.
    + inversion_clear Hpre. exists pre, post, es'. done.
  - intros (pre & post & es' & -> & Hpre & Henv). exists (e :: pre), post, es'.
    split_and!; [done| |apply Henv..]. constructor; eauto.
Qed.

Lemma next_for_cons_not p e envs rev env es :
  status_of p e = Some es -> ~ settled es rev ->
  next_for p (e :: envs) rev env -> e = env /\ Forall (fun t => ts_Revision t <> rev) (es_Targets es).
Proof.
  intros Hes Hset ([|e' pre] & post & es' & Heq & Hpre & Henv & Hne & Hrev); injection Heq as -> ->.
  - rewrite Hes in Henv. by injection Henv as <-.
  - inversion_clear Hpre as [|?? (es'' & Hes'' & Hset'') _]. congruence.
Qed.

Section promotion.
Context `{ApiMachinery} (r : PipelineReconciler) (stratReg : StrategyRegistry).
Abbreviation promoteLatestRevision := (promoteLatestRevision stratReg).
Abbreviation promote_loop := (promote_loop stratReg).

(** How the outcome of a promotion becomes the outcome of the run *)
Definition promotion_outcome (o : outcome (res unit)) : outcome (Result * option error) :=
  match o with
  | Done (Ok _) => Done (zero_Result, None)
  | Done (Err err) => Done (zero_Result, Some (wrapf "error promoting new version: " err))
  | Panicked w => Panicked w
  end.

Definition loop_post (p : Pipeline) (envs : list Environment) (rev : string)
    (tr : list (event sys)) (o : outcome (Result * option error)) : Prop :=
  (exists env out, next_for p envs rev env /\
     runs (promoteLatestRevision p env rev) tr out /\ o = promotion_outcome out) \/
  (tr = [] /\ o = Done (zero_Result, None) /\ forall env, ~ next_for p envs rev env) \/
  (tr = [] /\ exists w env, o = Panicked w /\ env ∈ envs /\ status_of p env = None).

Lemma promote_loop_runs p envs rev : wp (promote_loop p envs rev) (loop_post p envs rev).
Proof.
  unfold loop_post. induction envs as [|e envs IH]; cbn [LevelController.promote_loop].
  { right. left. split_and!; [done|done|]. by intros env ([] & ? & ? & ? & _). }
  unfold env_status. fold (status_of p e). destruct (status_of p e) as [es|] eqn:Hes.
  2: { right. right. split; [done|]. do 2 eexists. split; [done|]. split; [by left|done]. }
  cbn [deref]. rewrite bind_ret_l.
  destruct (checkAllTargetsRunRevision es rev && checkAllTargetsAreReady es) eqn:Hset.
  - apply settled_spec in Hset. eapply wp_mono; [|exact IH].
    setoid_rewrite (next_for_cons_settled p e envs rev _ es Hes Hset).
    intros tr o [?|[?|(? & w & env & ? & ? & ?)]]; [by left|by right; left|].
    right. right. split; [done|]. exists w, env. split_and!; [done|by right|done].
  - assert (~ settled es rev) as Hnot by (rewrite <- settled_spec; by rewrite Hset).
    unfold checkAnyTargetHasRevision. destruct (any_revision (es_Targets es) rev) eqn:Hany.
    + right. left. split_and!; [done|done|]. intros env Hnext.
      apply (next_for_cons_not p e envs rev env es Hes Hnot) in Hnext as [_ Hrev].
      apply any_revision_false in Hrev. congruence.
    + rewrite wp_bind. apply wp_runs. intros tr out Hruns.
      assert (loop_post p (e :: envs) rev tr (promotion_outcome out)) as Hpost.
      { left. exists e, out. split_and!; [|done|done]. apply any_revision_false in Hany.
        exists [], envs, es. split_and!; [done|constructor|done| |done].
        intros Hnil. apply Hnot. unfold settled. by rewrite Hnil. }
      destruct out as [[[]|err]|w]; cbn; rewrite ?app_nil_r; exact Hpost.
Qed.
End promotion.

(** ** Reading a trace of the reconciler *)
Definition ev_CacheRead (ev : event sys) :
    option (handle * GroupVersionKind * ObjectKey * res value) :=
  match ev with
  | Ev e x =>
      match e in sys X return X -> option (handle * GroupVersionKind * ObjectKey * res value) with
      | CacheRead ca g k => fun r => Some (ca, g, k, r)
      | _ => fun _ => None
      end x
  end.

Definition ev_PatcherPatch (ev : event sys) : option (Pipeline * res unit) :=
  match ev with
  | Ev e x =>
      match e in sys X return X -> option (Pipeline * res unit) with
      | PatcherPatch p _ => fun r => Some (p, r)
      | _ => fun _ => None
      end x
  end.

(** The calls the reconciler makes itself: it announces nothing and writes
    nothing but its patches. *)
Definition own_call (ev : event sys) : bool :=
  match ev with
  | Ev e _ =>
      match e with
      | AnnotatedEventf _ _ _ _ _ | StatusUpdate _ | StatusPatch _ _ _ | Sleep _ | SendEvent _
      | Git _ => false
      | _ => true
      end
  end.
Definition own_calls (tr : list (event sys)) : Prop := Forall (fun ev => own_call ev = true) tr.

Section observation.
Context `{ApiMachinery} (r : PipelineReconciler).

(** The status a target starts with *)
Definition initial_status (p : Pipeline) (t : Target) : TargetStatus :=
  MkTargetStatus (MkClusterAppReference (spec_AppRef (pl_Spec p)) (tgt_ClusterRef t)) false "" "".

(** The cluster of a target: the local one, or one that was read and is ready *)
Inductive cluster_seen (p : Pipeline) (t : Target) :
    list (event sys) -> option GitopsCluster -> Prop :=
  | seen_local : tgt_ClusterRef t = None -> cluster_seen p t [] None
  | seen_ready ref c : tgt_ClusterRef t = Some ref -> IsReady (gc_Conditions c) = true ->
      cluster_seen p t [Ev (GetCluster (cluster_key p ref)) (Ok c)] (Some c).

(** The reads that give the status of a target, and whether it makes the
    pipeline unready: its object was read with the client of the target's
    cluster for the target's kind; or one of the steps on the way failed. *)
Inductive observes (p : Pipeline) (t : Target) : list (event sys) -> TargetStatus -> bool -> Prop :=
  | obs_read ctr c gvk key wtr ca obj ts :
      cluster_seen p t ctr c -> targetObject p t = Ok (gvk, key) -> watched c gvk wtr ca true ->
      object_status (initial_status p t) obj ts ->
      observes p t (ctr ++ wtr ++ [Ev (CacheRead ca gvk key) (Ok obj)]) ts false
  | obs_unreadable ctr c gvk key wtr ca err :
      cluster_seen p t ctr c -> targetObject p t = Ok (gvk, key) -> watched c gvk wtr ca true ->
      observes p t (ctr ++ wtr ++ [Ev (CacheRead ca gvk key) (Err err)])
        (set_Error (Error err) (initial_status p t)) true
  | obs_not_synced ctr c gvk key wtr ca :
      cluster_seen p t ctr c -> targetObject p t = Ok (gvk, key) -> watched c gvk wtr ca false ->
      observes p t (ctr ++ wtr)
        (set_Error "Target cluster client is not synced" (initial_status p t)) true
  | obs_no_object ctr c err :
      cluster_seen p t ctr c -> targetObject p t = Err err ->
      observes p t ctr (set_Error ("target spec could not be interpreted as an object: " +:+ Error err)
        (initial_status p t)) true
  | obs_not_ready ref c :
      tgt_ClusterRef t = Some ref -> IsReady (gc_Conditions c) = false ->
      observes p t [Ev (GetCluster (cluster_key p ref)) (Ok c)]
        (set_Error ("Target cluster '" +:+ ref_name ref +:+ "' not ready") (initial_status p t)) true
  | obs_no_cluster ref err :
      tgt_ClusterRef t = Some ref -> IsNotFound err = true ->
      observes p t [Ev (GetCluster (cluster_key p ref)) (Err err)]
        (set_Error (Error err) (initial_status p t)) true.

(** The status comes from reads of this run. *)
Definition observed (p : Pipeline) (tr : list (event sys)) (t : Target)
    (o : TargetStatus * bool) : Prop :=
  exists pre seg post, tr = pre ++ seg ++ post /\ observes p t seg o.1 o.2.

Lemma observed_app p tr0 tr tr1 t o : observed p tr t o -> observed p (tr0 ++ tr ++ tr1) t o.
Proof.
  intros (pre & seg & post & -> & Ho). exists (tr0 ++ pre), seg, (post ++ tr1).
  by rewrite <- !app_assoc.
Qed.

Lemma observes_observed p t seg post ts u : observes p t seg ts u -> observed p (seg ++ post) t (ts, u).
Proof. intros Ho. by exists [], seg, post. Qed.

(** Nothing patched, only own calls *)
Definition quiet (tr : list (event sys)) : Prop := omap ev_PatcherPatch tr = [] /\ own_calls tr.

Lemma quiet_nil : quiet [].
Proof. by split; [|constructor]. Qed.

Lemma quiet_app tr tr' : quiet (tr ++ tr') <-> quiet tr /\ quiet tr'.
Proof.
  unfold quiet, own_calls. rewrite omap_app, Forall_app. split.
  - by intros [[? ?]%app_eq_nil [? ?]].
  - by intros [[-> ?] [-> ?]].
Qed.

Lemma wp_quiet_bind {A B} (m : io A) (f : A -> io B) Q :
  wp m (fun tr o => quiet tr /\ exists a, o = Done a) ->
  (forall tr a, quiet tr -> wp (f a) (fun tr' => Q (tr ++ tr'))) ->
  wp (m ≫= f) Q.
Proof.
  intros Hm Hf. rewrite wp_bind. eapply wp_mono; [|exact Hm]. intros tr o [Hq [a ->]]. by apply Hf.
Qed.

Local Ltac quiet_calls :=
  repeat match goal with
  | |- _ /\ _ => split
  | |- quiet _ => split; [done|by repeat constructor]
  | |- exists a, Done _ = Done a => by eexists
  | |- forall _, _ => intros ?
  | |- context [match ?x with _ => _ end] => destruct x; cbn
  end.

Lemma quiet_watch c g :
  wp (watchTargetAndGetReader c g) (fun tr o => quiet tr /\ exists a, o = Done a).
Proof.
  unfold watchTargetAndGetReader, create_cache, cluster_config.
  destruct (GVKForObject g) as [gvk|e]; cbn; quiet_calls.
Qed.

Lemma quiet_emitEventf p t reason msg :
  wp (emitEventf r p t reason msg) (fun tr o => quiet tr /\ exists a, o = Done a).
Proof. unfold emitEventf. destruct (pr_recorder r); cbn; quiet_calls. Qed.

(** What observing one target gives *)
Definition target_post (p : Pipeline) (t : Target) (tr : list (event sys)) (o : outcome observation) : Prop :=
  quiet tr /\
  ((exists ts u, o = Done (Observed ts u) /\ observed p tr t (ts, u)) \/
   exists err, o = Done (Return (zero_Result, Some err))).

Lemma quiet_cons {X} (e : sys X) x tr :
  ev_PatcherPatch (Ev e x) = None -> own_call (Ev e x) = true -> quiet tr -> quiet (Ev e x :: tr).
Proof.
  intros He Ho Htr. apply (quiet_app [Ev e x] tr). split; [|done].
  split; [|by repeat constructor]. cbn [omap list_omap]. by rewrite He.
Qed.

Lemma quiet_watched c g :
  wp (watchTargetAndGetReader c g) (fun tr o => quiet tr /\ watch_post c g tr o /\ exists a, o = Done a).
Proof.
  apply wp_runs. intros tr o Hr. pose proof (proj1 (wp_runs _ _) (quiet_watch c g) _ _ Hr) as [Hq Ho].
  split_and!; [done|exact (proj1 (wp_runs _ _) (watch_runs c g) _ _ Hr)|done].
Qed.

Lemma observe_app_spec p t ctr c :
  cluster_seen p t ctr c -> quiet ctr ->
  wp (observe_app r p t (initial_status p t) c) (fun tr => target_post p t (ctr ++ tr)).
Proof.
  intros Hc Hctr. unfold observe_app. destruct (targetObject p t) as [[gvk key]|e] eqn:Hobj.
  2: { cbn. rewrite app_nil_r. split; [done|]. left. do 2 eexists. split; [done|].
       rewrite <- (app_nil_r ctr). by eapply observes_observed, obs_no_object. }
  rewrite wp_bind. eapply wp_mono; [|apply quiet_watched].
  intros wtr o (Hq & Hwatch & [[ca ok]|e] & ->); cbn [wp_then].
  2: { cbn. rewrite app_nil_r. split; [by apply quiet_app|]. right. eauto. }
  specialize (Hwatch _ _ eq_refl). destruct ok; cbn [negb].
  2: { cbn. rewrite app_nil_r. split; [by apply quiet_app|]. left. do 2 eexists. split; [done|].
       rewrite <- (app_nil_r (ctr ++ wtr)). by eapply observes_observed, obs_not_synced. }
  rewrite wp_bind, wp_trigger. intros [obj|e]; cbn [wp_then].
  - cbn. split; [repeat (apply quiet_app; split); [done..|by apply quiet_cons, quiet_nil]|].
    left. do 2 eexists. split; [done|]. rewrite <- (app_nil_r (ctr ++ _)).
    eapply observes_observed, obs_read; [done..|apply setTargetStatus_says].
  - apply wp_quiet_bind; [apply quiet_emitEventf|]. intros tr' [] Hq'. cbn. rewrite app_nil_r.
    split; [repeat (apply quiet_app; split); [done..|by apply quiet_cons]|].
    left. do 2 eexists. split; [done|].
    change (Ev ?e ?x :: tr') with ([Ev e x] ++ tr'). rewrite !app_assoc, <- (app_assoc ctr).
    by eapply observes_observed, obs_unreadable.
Qed.

Lemma observe_target_spec p t : wp (observe_target r p t) (target_post p t).
Proof.
  unfold observe_target.
  pose proof (observe_app_spec p t) as Happ. unfold initial_status in Happ.
  destruct (tgt_ClusterRef t) as [ref|] eqn:Href.
  2: { apply (Happ [] None); [by constructor|apply quiet_nil]. }
  unfold getCluster. rewrite wp_bind, wp_bind, wp_trigger. intros [c|e]; cbn [wp_then].
  - cbn [mret prog_ret wp wp_then app].
    assert (quiet [Ev (GetCluster (cluster_key p ref)) (Ok c)]) as Hq by by apply quiet_cons, quiet_nil.
    destruct (IsReady (gc_Conditions c)) eqn:Hready.
    + apply (Happ [Ev (GetCluster (cluster_key p ref)) (Ok c)] (Some c)); [by constructor|done].
    + rewrite ClusterRef_String_eq, bind_ret_l. split; [done|].
      left. do 2 eexists. split; [done|]. pose proof (obs_not_ready p t ref c Href Hready) as Ho.
      unfold initial_status in Ho. rewrite Href in Ho.
      by apply (observes_observed p t [_] []).
  - cbn [mret prog_ret wp wp_then app]. apply wp_quiet_bind; [apply quiet_emitEventf|].
    intros tr' [] Hq'. cbn. rewrite app_nil_r. split; [by apply quiet_cons|].
    destruct (IsNotFound e) eqn:Hnf; [left|right; by eexists].
    do 2 eexists. split; [done|]. pose proof (obs_no_cluster p t ref e Href Hnf) as Ho.
    unfold initial_status in Ho. rewrite Href in Ho.
    by apply (observes_observed p t [_] tr').
Qed.

(** The statuses of an environment: one per target, and whether one of them
    could not be read *)
Definition env_observed (p : Pipeline) (tr : list (event sys)) (targets : list Target)
    (statuses : list TargetStatus) (unready : bool) : Prop :=
  exists out, Forall2 (observed p tr) targets out /\ statuses = out.*1 /\ unready = existsb snd out.

Lemma env_observed_app p tr0 tr tr1 ts sts u :
  env_observed p tr ts sts u -> env_observed p (tr0 ++ tr ++ tr1) ts sts u.
Proof.
  intros (out & Hout & Hs & Hu). exists out. split_and!; [|done|done].
  eapply Forall2_impl; [exact Hout|]. intros t o. apply observed_app.
Qed.

Definition failed (o : Result * option error) : Prop := exists err, o = (zero_Result, Some err).

Lemma observe_targets_spec p ts :
  wp (observe_targets r p ts) (fun tr o => quiet tr /\
    ((exists sts u, o = Done (inl (sts, u)) /\ env_observed p tr ts sts u) \/
     exists ret, o = Done (inr ret) /\ failed ret)).
Proof.
  induction ts as [|t ts IH]; cbn [observe_targets].
  { split; [apply quiet_nil|]. left. exists [], false. split; [done|]. by exists []. }
  rewrite wp_bind. eapply wp_mono; [|apply observe_target_spec].
  intros tr o [Hq [(s & u & -> & Hob)|[err ->]]]; cbn [wp_then].
  2: { cbn. rewrite app_nil_r. split; [done|]. right. eexists. split; [done|by eexists]. }
  rewrite wp_bind. eapply wp_mono; [|exact IH].
  intros tr' o [Hq' [(sts & u' & -> & out & Hout & -> & ->)|(ret & -> & Hret)]]; cbn; rewrite app_nil_r;
    (split; [by apply quiet_app|]); [left|right; eauto].
  do 2 eexists. split; [done|]. exists ((s, u) :: out). split_and!; [|done|done]. constructor.
  - by apply (observed_app p [] tr tr').
  - eapply Forall2_impl; [exact Hout|]. intros t' o' Ho'.
    rewrite <- (app_nil_r tr'). by apply (observed_app p tr tr' []).
Qed.

(** The map of statuses: an entry for every environment, each from the
    targets of an environment of that name *)
Definition statuses_from (p : Pipeline) (tr : list (event sys)) (envs : list Environment)
    (m : gmap string (option EnvironmentStatus)) : Prop :=
  (forall env, env ∈ envs -> is_Some (m !! env_Name env)) /\
  (forall name v, m !! name = Some v -> exists env sts u, env ∈ envs /\ env_Name env = name /\
     v = Some (MkEnvironmentStatus zero_WaitingApproval sts) /\
     env_observed p tr (env_Targets env) sts u).

(** The object of every target of [envs] was read. *)
Definition all_read (p : Pipeline) (tr : list (event sys)) (envs : list Environment) : Prop :=
  forall env t, env ∈ envs -> t ∈ env_Targets env -> exists ts, observed p tr t (ts, false).

Lemma env_observed_read p tr ts sts :
  env_observed p tr ts sts false -> forall t, t ∈ ts -> exists s, observed p tr t (s, false).
Proof.
  intros (out & Hout & _ & Hu) t Ht. symmetry in Hu.
  apply list_elem_of_lookup in Ht as [i Ht].
  destruct (Forall2_lookup_l _ _ _ _ _ Hout Ht) as ([s u] & Ho%list_elem_of_lookup_2 & Hin).
  assert (u = false) as ->.
  { apply not_true_is_false. intros ->. apply not_true_iff_false in Hu. apply Hu, existsb_exists.
    exists (s, true). split; [by apply list_elem_of_In|done]. }
  by exists s.
Qed.

Lemma observe_environments_spec p (seen envs : list Environment) m u tr0 :
  statuses_from p tr0 seen m -> (u = false -> all_read p tr0 seen) ->
  wp (observe_environments r p envs m u) (fun tr o => quiet tr /\
    ((exists m' u', o = Done (inl (m', u')) /\ statuses_from p (tr0 ++ tr) (seen ++ envs) m' /\
        (u' = false -> all_read p (tr0 ++ tr) (seen ++ envs))) \/
     exists ret, o = Done (inr ret) /\ failed ret)).
Proof.
  revert seen m u tr0. induction envs as [|env envs IH]; intros seen m u tr0 Hm Hu;
    cbn [observe_environments].
  { split; [apply quiet_nil|]. left. exists m, u. by rewrite !app_nil_r. }
  rewrite wp_bind. eapply wp_mono; [|apply observe_targets_spec].
  intros tr o [Hq [(sts & u1 & -> & Hob)|(ret & -> & Hret)]]; cbn [wp_then].
  2: { cbn. rewrite app_nil_r. split; [done|]. right. eauto. }
  assert (env_observed p (tr0 ++ tr) (env_Targets env) sts u1) as Hob'.
  { rewrite <- (app_nil_r tr). by apply env_observed_app. }
  eapply wp_mono; [|apply (IH (seen ++ [env]) _ _ (tr0 ++ tr))].
  - intros tr' o' [Hq' Ho']. split; [by apply quiet_app|]. by rewrite <- !app_assoc in Ho'.
  - destruct Hm as [Hdom Hval]. split.
    + intros e He. rewrite lookup_insert_is_Some. apply elem_of_app in He as [He| ->%list_elem_of_singleton].
      * destruct (decide (env_Name env = env_Name e)); [by left|right; eauto].
      * by left.
    + intros name v. rewrite lookup_insert. case_decide as Hn.
      * intros [= <-]. exists env, sts, u1. split_and!; [|done|done|done]. set_solver.
      * intros (e & sts' & u' & He & ? & ? & Ho)%Hval. exists e, sts', u'.
        split_and!; [set_solver|done|done|]. by apply (env_observed_app p [] tr0 tr).
  - intros [-> ->]%orb_false_iff. intros e t [He| ->%list_elem_of_singleton]%elem_of_app Ht.
    + destruct (Hu eq_refl e t He Ht) as (ts & Hseen). exists ts. by apply (observed_app p [] tr0 tr).
    + by eapply env_observed_read.
Qed.
End observation.

(** ** The reconciler *)
Section reconcile.
Context `{ApiMachinery} (r : PipelineReconciler) (stratReg : StrategyRegistry).
Abbreviation promoteLatestRevision := (promoteLatestRevision stratReg).
Abbreviation advance := (advance r stratReg).
Abbreviation Reconcile := (LevelController.Reconcile r stratReg).

Lemma promotable_removePending p env rev :
  promotable (removePendingCondition p) env rev <-> promotable p env rev.
Proof. done. Qed.

Lemma promotable_setPending p reason msg env rev :
  promotable (setPendingCondition p reason msg) env rev <-> promotable p env rev.
Proof. done. Qed.

(** After the first patch: a promotion that is due, or own calls only, after
    which nothing is due unless a patch failed *)
Definition advance_post (p : Pipeline) (tr : list (event sys))
    (o : outcome (Result * option error)) : Prop :=
  (exists env rev tr2 out, promotable p env rev /\
     tr = Ev (PatcherPatch (removePendingCondition p) (pr_ControllerName r)) (Ok tt) :: tr2 /\
     runs (promoteLatestRevision (removePendingCondition p) env rev) tr2 out /\
     o = promotion_outcome out) \/
  (own_calls tr /\ (forall w, o = Panicked w -> spec_Environments (pl_Spec p) = []) /\
   ((forall env rev, ~ promotable p env rev) /\
    (forall q x, (q, x) ∈ omap ev_PatcherPatch tr -> forall env rev, ~ promotable q env rev) \/
    exists q e, omap ev_PatcherPatch tr = [(q, Err e)])).

(** Promoting is due only when the first environment is settled. *)
Lemma promotable_first p env rev first rest es :
  promotable p env rev -> spec_Environments (pl_Spec p) = first :: rest ->
  status_of p first = Some es ->
  checkAllTargetsHaveSameRevision es = rev /\ rev <> "" /\ checkAllTargetsAreReady es = true /\
  next_for p rest rev env.
Proof.
  intros (first' & rest' & es' & Henvs & Hes & Hne & Hset & Hrev & Hnext) Henvs' Hes'.
  rewrite Henvs in Henvs'. injection Henvs' as -> ->. rewrite Hes in Hes'. injection Hes' as ->.
  apply settled_spec in Hset as [H1 H2]%andb_true_iff. apply all_revision_spec in H1.
  split_and!; [by apply same_revision_spec|done|done|done].
Qed.

Local Ltac pending Hno :=
  unfold advance_post; right; (split; [by repeat constructor|]); (split; [done|]); left; split; [exact Hno|];
  intros q x [= -> ->]%list_elem_of_singleton; exact Hno.

Lemma advance_runs p :
  (forall env, env ∈ spec_Environments (pl_Spec p) -> is_Some (status_of p env)) ->
  wp (advance p) (advance_post p).
Proof.
  intros Hstatus. unfold LevelController.advance.
  destruct (spec_Environments (pl_Spec p)) as [|first rest] eqn:Henvs.
  { right. split; [constructor|]. split; [done|]. left. split; [|by intros q x ?%elem_of_nil].
    intros env rev (f & rs & es & Heq & _). congruence. }
  cbn [index lookup list_lookup]. rewrite bind_ret_l. unfold env_status. fold (status_of p first).
  destruct (Hstatus first ltac:(by left)) as [es Hes]. rewrite Hes. cbn [deref]. rewrite bind_ret_l.
  pose proof (fun env rev Hp => promotable_first p env rev first rest es Hp Henvs Hes) as Hfirst.
  cbv zeta. case_bool_decide as Hrev.
  { assert (forall env rev, ~ promotable p env rev) as Hno.
    { intros env rev (Hsame & Hne & _)%Hfirst. congruence. }
    rewrite wp_bind, wp_trigger. intros [[]|e]; cbn.
    - pending Hno.
    - right. split; [by repeat constructor|]. split; [done|]. right. eauto. }
  destruct (checkAllTargetsAreReady es) eqn:Hready; cbn [negb].
  2: { assert (forall env rev, ~ promotable p env rev) as Hno.
       { intros env rev (_ & _ & Hr & _)%Hfirst. congruence. }
       rewrite wp_bind, wp_trigger. intros [[]|e]; cbn.
       - pending Hno.
       - right. split; [by repeat constructor|]. split; [done|]. right. eauto. }
  rewrite wp_bind, wp_trigger. intros [[]|e]; cbn [wp_then].
  2: { cbn. right. split; [by repeat constructor|]. split; [done|]. right. eauto. }
  change (pl_Spec (removePendingCondition p)) with (pl_Spec p). rewrite Henvs. cbn [tail].
  set (rev := checkAllTargetsHaveSameRevision es) in *.
  eapply wp_mono; [|apply promote_loop_runs].
  intros tr o [(env & out & Hnext & Hruns & ->)|[(-> & -> & Hno)|(-> & w & env & -> & Henv & Hnone)]].
  - left. exists env, rev, tr, out. split_and!; [|done|done|done].
    destruct (proj1 (same_revision_spec es rev Hrev) eq_refl) as [Hne Hall].
    exists first, rest, es. split_and!; [done|done|done| |done|done].
    apply settled_spec. rewrite Hready, andb_true_r. by apply all_revision_spec.
  - assert (forall env rev', ~ promotable p env rev') as Hno'.
    { intros env rev' (Heq & _ & _ & Hn)%Hfirst. subst rev'. by eapply Hno. }
    pending Hno'.
  - exfalso. destruct (Hstatus env ltac:(by right)) as [es' Hes'].
    change (status_of (removePendingCondition p) env) with (status_of p env) in Hnone. congruence.
Qed.

Lemma statuses_from_status p tr m st env :
  statuses_from p tr (spec_Environments (pl_Spec p)) m -> st_Environments st = m ->
  env ∈ spec_Environments (pl_Spec p) -> is_Some (status_of (set_Status st p) env).
Proof.
  intros [Hdom Hval] <- Henv. destruct (Hdom env Henv) as [v Hv].
  destruct (Hval _ _ Hv) as (e & sts & u & _ & _ & -> & _). unfold status_of. simpl. rewrite Hv. eauto.
Qed.

(** The pipeline as the first patch writes it *)
Definition recorded (p q : Pipeline) (tr : list (event sys)) : Prop :=
  exists m u, q = set_Status (set_Environments m (with_condition p (readyCondition u))) p /\
    statuses_from p tr (spec_Environments (pl_Spec p)) m /\
    (u = false -> all_read p tr (spec_Environments (pl_Spec p))).

(** What a run is: reads only; or a first patch of what was observed, which
    may fail, and then the rest *)
Definition level_post (req : ObjectKey) (tr : list (event sys))
    (o : outcome (Result * option error)) : Prop :=
  (quiet tr /\ exists ret, o = Done ret) \/
  exists p q tr1 x tr2,
    tr = (Ev (GetPipeline req) (Ok p) :: tr1) ++ Ev (PatcherPatch q (pr_ControllerName r)) x :: tr2 /\
    quiet tr1 /\ recorded p q tr1 /\
    ((exists err, x = Err err /\ quiet tr2 /\ o = Done (MkResult true 0, Some err)) \/
     (x = Ok tt /\ exists tr3 tr4, tr2 = tr3 ++ tr4 /\ quiet tr3 /\ advance_post q tr4 o)).

Lemma level_runs req : wp (Reconcile req) (level_post req).
Proof.
  unfold LevelController.Reconcile. rewrite wp_bind, wp_trigger. intros [p|e]; cbn [wp_then].
  2: { left. split; [by apply quiet_cons, quiet_nil|by eexists]. }
  case_bool_decide as Hdel.
  { left. split; [by apply quiet_cons, quiet_nil|by eexists]. }
  rewrite wp_bind. eapply wp_mono;
    [|apply (observe_environments_spec r p [] (spec_Environments (pl_Spec p)) ∅ false [])].
  2: { split; [by intros ??%elem_of_nil|]. intros name v. by rewrite lookup_empty. }
  2: { by intros _ ???%elem_of_nil. }
  intros tr1 o [Hq [(m & u & -> & Hm & Hu)|(ret & -> & _)]]; cbn [wp_then].
  2: { cbn. rewrite app_nil_r. left. split; [by apply quiet_cons|by eexists]. }
  cbv zeta. set (q := set_Status _ p). rewrite wp_bind, wp_trigger.
  assert (recorded p q tr1) as Hrec by by exists m, u.
  assert (forall x tr2 o, ((exists err, x = Err err /\ quiet tr2 /\ o = Done (MkResult true 0, Some err)) \/
    (x = Ok tt /\ exists tr3 tr4, tr2 = tr3 ++ tr4 /\ quiet tr3 /\ advance_post q tr4 o)) ->
    level_post req ([Ev (GetPipeline req) (Ok p)] ++ tr1 ++
      [Ev (PatcherPatch q (pr_ControllerName r)) x] ++ tr2) o) as Hpost.
  { intros x tr2 o Hx. right. exists p, q, tr1, x, tr2. done. }
  intros [[]|e]; cbn [wp_then]; (apply wp_quiet_bind; [apply quiet_emitEventf|]); intros tr2 [] Hq2.
  - eapply wp_mono; [|apply advance_runs].
    + intros tr4 o Hadv. apply Hpost. right. split; [done|]. by exists tr2, tr4.
    + intros env Henv. eapply (statuses_from_status p tr1); [done|done|exact Henv].
  - cbn. rewrite app_nil_r. apply Hpost. left. by exists e.
Qed.


Lemma own_calls_app tr tr' : own_calls (tr ++ tr') <-> own_calls tr /\ own_calls tr'.
Proof. apply Forall_app. Qed.

(** What the rule says of a run *)
Definition rule_post (tr : list (event sys)) (o : outcome (Result * option error)) : Prop :=
    (exists p env rev tr1 tr2 out, tr = tr1 ++ tr2 /\ own_calls tr1 /\
       last (omap ev_PatcherPatch tr1) = Some (p, Ok tt) /\ promotable p env rev /\
       runs (promoteLatestRevision p env rev) tr2 out /\ o = promotion_outcome out) \/
    (own_calls tr /\ forall p, last (omap ev_PatcherPatch tr) = Some (p, Ok tt) ->
       forall env rev, ~ promotable p env rev).

Lemma promotion_rule_runs req : wp (Reconcile req) rule_post.
Proof.
  eapply wp_mono; [|apply level_runs].
  intros tr o [[[Hq Hown] _]|(p & q & tr1 & x & tr2 & -> & [Hp1 Ho1] & Hrec & Hx)].
  { right. split; [done|]. by rewrite Hq. }
  assert (own_calls ((Ev (GetPipeline req) (Ok p) :: tr1) ++ [Ev (PatcherPatch q (pr_ControllerName r)) x])) as Hown.
  { apply own_calls_app. split; [by constructor|by repeat constructor]. }
  destruct Hx as [(err & -> & [Hp2 Ho2] & ->)|(-> & tr3 & tr4 & -> & [Hp3 Ho3] & Hadv)].
  { right. split; [rewrite cons_middle, app_assoc; by apply own_calls_app|].
    rewrite omap_app. cbn. by rewrite Hp1, Hp2. }
  destruct Hadv as [(env & rev & tr5 & out & Hprom & -> & Hruns & ->)|(Ho4 & _ & Hno)].
  - left. exists (removePendingCondition q), env, rev.
    exists (((Ev (GetPipeline req) (Ok p) :: tr1) ++ [Ev (PatcherPatch q (pr_ControllerName r)) (Ok tt)]) ++
            (tr3 ++ [Ev (PatcherPatch (removePendingCondition q) (pr_ControllerName r)) (Ok tt)])), tr5, out.
    split_and!; [by rewrite <- !app_assoc|..|done|done|done].
    + apply own_calls_app. split; [done|]. apply own_calls_app. split; [done|by repeat constructor].
    + rewrite !omap_app. cbn. by rewrite Hp1, Hp3.
  - right. split.
    { rewrite cons_middle, app_assoc. apply own_calls_app. split; [done|]. by apply own_calls_app. }
    intros p' Hlast. rewrite omap_app in Hlast. cbn in Hlast. rewrite Hp1, omap_app, Hp3 in Hlast.
    cbn in Hlast. destruct Hno as [[Hno Hno']|(q' & e & He)].
    + destruct (omap ev_PatcherPatch tr4) as [|a l] eqn:Htr4.
      * injection Hlast as <-. exact Hno.
      * intros env rev. eapply Hno'. rewrite last_cons_cons in Hlast.
        apply last_Some_elem_of in Hlast. rewrite <- Htr4 in *. exact Hlast.
    + by rewrite He in Hlast.
Qed.


(** The status is written without waiting approvals: after the first
    patch of a run no environment waits for an approval, whatever the
    webhooks recorded before. *)
Theorem level_patch_clears_approvals req :
  wp (Reconcile req) (fun tr o => forall q x rest, omap ev_PatcherPatch tr = (q, x) :: rest ->
    forall env, waiting (pl_Status q) env = "").
Proof.
  eapply wp_mono; [|apply level_runs].
  intros tr o [[[Hq _] _]|(p & q & tr1 & x & tr2 & -> & Hq1 & Hrec & _)] q' x' rest Hpatch env;
    [by rewrite Hq in Hpatch|].
  rewrite omap_app in Hpatch. cbn in Hpatch. rewrite (proj1 Hq1) in Hpatch. injection Hpatch as <- <- _.
  destruct Hrec as (m & u & -> & [_ Hval] & _). unfold waiting. cbn.
  destruct (m !! env) as [v|] eqn:Hv; [|done].
  by destruct (Hval env v Hv) as (e & sts & u' & _ & _ & -> & _).
Qed.

(** When [promoteLatestRevision] panics *)
Lemma promoteLatestRevision_panic p env rev :
  (forall s, s ∈ stratReg -> forall spec prom, wp (Promote s spec prom) (fun _ o => exists a, o = Done a)) ->
  wp (promoteLatestRevision p env rev) (fun _ o => forall w, o = Panicked w ->
    spec_Promotion (pl_Spec p) = None /\ GetPromotion (pl_Spec p) (env_Name env) <> None).
Proof.
  intros Hstrat. unfold LevelController.promoteLatestRevision.
  destruct (GetPromotion (pl_Spec p) (env_Name env)) as [own|]; [|done].
  destruct (Registry_Get stratReg own) as [strat|err] eqn:Hget; [|done].
  destruct (spec_Promotion (pl_Spec p)) as [d|]; [|by intros w _].
  cbn [deref]. rewrite bind_ret_l, wp_bind.
  apply Registry_Get_ok in Hget as (r1 & r2 & Hreg & _).
  eapply wp_mono; [|apply (Hstrat strat); rewrite Hreg; set_solver].
  intros tr o [[res|err] ->]; done.
Qed.

(** C38.  When the reconciler can panic: with strategies that return, only on
    a pipeline without environments, or on one that has no promotion of its
    own while an environment has. *)
Theorem level_panics_only_if req :
  (forall s, s ∈ stratReg -> forall spec prom, wp (Promote s spec prom) (fun _ o => exists a, o = Done a)) ->
  wp (Reconcile req) (fun tr o => forall w, o = Panicked w ->
    exists p, head (omap ev_GetPipeline tr) = Some (req, Ok p) /\
      (spec_Environments (pl_Spec p) = [] \/
       spec_Promotion (pl_Spec p) = None /\
         exists env, GetPromotion (pl_Spec p) (env_Name env) <> None)).
Proof.
  intros Hstrat. eapply wp_mono; [|apply level_runs].
  intros tr o [[_ [ret ->]]|(p & q & tr1 & x & tr2 & -> & _ & (m & u & -> & _) & Hx)] w; [done|].
  destruct Hx as [(err & _ & _ & ->)|(_ & tr3 & tr4 & -> & _ & Hadv)]; [done|].
  intros ->. exists p. split; [done|].
  destruct Hadv as [(env & rev & tr5 & out & _ & _ & Hruns & Hout)|(_ & Hpanic & _)]; [right|left; eauto].
  destruct out as [[[]|err]|w']; try done.
  pose proof (proj1 (wp_runs _ _) (promoteLatestRevision_panic _ env rev Hstrat) _ _ Hruns w' eq_refl)
    as [Hnone Hown].
  split; [exact Hnone|]. exists env. exact Hown.
Qed.

(** A pipeline without environments makes every run that gets past its
    first patch panic. *)
Theorem level_no_environments_panics req :
  wp (Reconcile req) (fun tr o => forall p q,
    head (omap ev_GetPipeline tr) = Some (req, Ok p) -> spec_Environments (pl_Spec p) = [] ->
    omap ev_PatcherPatch tr = [(q, Ok tt)] -> exists w, o = Panicked w).
Proof.
  unfold LevelController.Reconcile. rewrite wp_bind, wp_trigger. intros [p|e]; cbn [wp_then]; [|done].
  case_bool_decide as Hdel; [done|].
  destruct (spec_Environments (pl_Spec p)) as [|env envs] eqn:Henvs.
  - cbn [observe_environments]. rewrite wp_bind, wp_ret. cbn [wp_then]. cbv zeta. rewrite wp_bind, wp_trigger.
    intros [[]|e]; cbn [wp_then]; rewrite wp_bind; (eapply wp_mono; [|apply quiet_emitEventf]);
      intros tr ? [Hq [[] ->]]; cbn [wp_then].
    + unfold LevelController.advance. cbn [pl_Spec set_Status]. rewrite Henvs. cbn. eauto.
    + cbn. intros p' q _ _ Hpatch. exfalso. by rewrite app_nil_r in Hpatch.
  - apply wp_runs. intros tr o _ p' q [= <-] Hnil. congruence.
Qed.

(** A promotion of the level-triggered controller is carried out with
    the pipeline's default promotion: the environment's own promotion selects
    the strategy, but neither its settings nor its [Manual] flag are used. *)
Theorem level_promotion_uses_default p env rev own dflt strat :
  GetPromotion (pl_Spec p) (env_Name env) = Some own ->
  spec_Promotion (pl_Spec p) = Some dflt -> Registry_Get stratReg own = Ok strat ->
  promoteLatestRevision p env rev =
    (call _ <- Promote strat dflt (MkStrategyPromotion (pl_Namespace p) (pl_Name p) env rev)
       onerr err => mret (Err err);
     mret (Ok tt)).
Proof.
  intros Hown Hdflt Hstrat. unfold LevelController.promoteLatestRevision.
  by rewrite Hown, Hstrat, Hdflt.
Qed.
End reconcile.

(** ** At a concrete pipeline *)
#[local] Existing Instance Stock.stock.

Definition level_reconciler := MkPipelineReconciler "pipeline-controller" true.

(** A ready release at a revision *)
Definition release (rev : string) : value :=
  VMap [("status", VMap [("conditions", VSlice [json_of (MkCondition "Ready" "True" "" "")]);
                         ("lastAppliedRevision", VString rev)])].

(** dev runs 5.0.1, everything else 5.0.0 *)
Definition level_handler : handler (E := sys) map_server := fun X e =>
  match e in sys X return map_server -> X * map_server with
  | CacheRead _ _ k => fun s =>
      (Ok (release (if bool_decide (key_Namespace k = "dev-ns") then "5.0.1" else "5.0.0")), s)
  | e => map_handler _ e
  end.

(** The announcements of a trace *)
Definition ev_AnnotatedEventf (ev : event sys) : option (ObjectKey * list (string * string)) :=
  match ev with Ev e _ => match e with AnnotatedEventf o m _ _ _ => Some (o, m) | _ => None end end.

Example level_promotes_to_staging :
  let '(tr, o, s) := exec level_handler
    (Reconcile level_reconciler [Notification.NewNotification] (MkKey "default" "podinfo"))
    (sample_server false) in
  o = Done (zero_Result, None) /\
  omap ev_AnnotatedEventf tr =
    [(MkKey "default" "podinfo", [("environment", "staging"); ("version", "5.0.1")])].
Proof. vm_compute. split; reflexivity. Qed.

Lemma level_panics_only_if_witness :
  wp (Reconcile level_reconciler [Notification.NewNotification] (MkKey "default" "podinfo"))
    (fun tr o => forall w, o = Panicked w ->
      exists p, head (omap ev_GetPipeline tr) = Some (MkKey "default" "podinfo", Ok p) /\
        (spec_Environments (pl_Spec p) = [] \/
         spec_Promotion (pl_Spec p) = None /\
           exists env, GetPromotion (pl_Spec p) (env_Name env) <> None)).
Proof.
  apply level_panics_only_if. intros s ->%list_elem_of_singleton spec prom.
  cbn. intros [p|e]; cbn; [intros []|]; by eexists.
Defined.

(** [prod] of the sample asks for manual approval; the promotion is carried
    out all the same. *)
Lemma level_promotion_uses_default_witness :
  let p := sample_pipeline false sample_status in
  let prod := MkEnvironment "prod" [MkTarget "prod-ns" None]
                (Some (MkPromotion true (prom_Strategy (MkPromotion false
                   (MkStrategy None (Some MkNotificationPromotion) None))))) in
  let dflt := MkPromotion false (MkStrategy None (Some MkNotificationPromotion) None) in
  promoteLatestRevision [Notification.NewNotification] p prod "5.0.1" =
    (call _ <- Promote Notification.NewNotification dflt
                 (MkStrategyPromotion "default" "podinfo" prod "5.0.1")
       onerr err => mret (Err err);
     mret (Ok tt)).
Proof.
  apply (level_promotion_uses_default [Notification.NewNotification] (sample_pipeline false sample_status) _ "5.0.1"
    (MkPromotion true (MkStrategy None (Some MkNotificationPromotion) None))); reflexivity.
Defined.
