(* ===== verification/Rollout.v ===== *)
(** * Rollouts through the environments

    The level-triggered reconciler run again and again: as long as runs
    succeed and the promotions they make take effect before the next one, the
    revision of the first environment reaches every environment, one per run
    and in order, and then the reconciler has nothing left to promote. *)

From S2P Require Export ApprovalHandler LevelSpec.

(** ** Fleets

    What the targets of each environment run, as the reconciler would record
    it *)
Definition fleet : Type := string -> EnvironmentStatus.

#[export] Instance settled_dec es rev : Decision (settled es rev).
Proof. unfold settled. apply _. Defined.

(** The status of the pipeline shows the fleet. *)
Definition shows (p : Pipeline) (fl : fleet) : Prop :=
  forall env, env ∈ spec_Environments (pl_Spec p) -> status_of p env = Some (fl (env_Name env)).

(** The revision was rolled out in one environment, and nothing else changed. *)
Definition rolled_out (env : Environment) (rev : string) (fl fl' : fleet) : Prop :=
  es_Targets (fl' (env_Name env)) <> [] /\ settled (fl' (env_Name env)) rev /\
  forall name, name <> env_Name env -> fl' name = fl name.

Definition same_fleet (fl fl' : fleet) : Prop := forall name, fl' name = fl name.

(** ** Rounds of the reconciler *)
Section rounds.
Context `{ApiMachinery} (r : PipelineReconciler) (stratReg : StrategyRegistry).

(** The run [tr] promoted [env], and the strategy reported success. *)
Definition promotes (p : Pipeline) (env : Environment) (rev : string) (tr : list (event sys)) : Prop :=
  exists tr1 tr2, tr = tr1 ++ tr2 /\ own_calls tr1 /\ promotable p env rev /\
    runs (promoteLatestRevision stratReg p env rev) tr2 (Done (Ok tt)).

(** One run without errors on a pipeline of specification [sp], which showed
    the fleet; its promotion, if it made one, has taken effect afterwards. *)
Definition round (sp : PipelineSpec) (req : ObjectKey) (fl fl' : fleet) : Prop :=
  exists tr p,
    runs (LevelController.Reconcile r stratReg req) tr (Done (zero_Result, None)) /\
    last (omap ev_PatcherPatch tr) <> None /\
    (forall q x, last (omap ev_PatcherPatch tr) = Some (q, x) -> q = p /\ x = Ok tt) /\
    pl_Spec p = sp /\ shows p fl /\
    ((exists env rev, promotes p env rev tr /\ rolled_out env rev fl fl') \/
     ((forall env rev, ~ promotes p env rev tr) /\ same_fleet fl fl')).

(** ** The rollout of a revision, abstractly *)

(** The first environment runs the revision; of the others, each is settled
    on it or has not begun. *)
Record rolling (sp : PipelineSpec) (first : Environment) (rest : list Environment) (rev : string)
    (fl : fleet) : Prop := {
  roll_spec : spec_Environments sp = first :: rest;
  roll_names : NoDup (env_Name <$> spec_Environments sp);
  roll_rev : rev <> "";
  roll_first : settled (fl (env_Name first)) rev;
  roll_targets : forall env, env ∈ spec_Environments sp -> es_Targets (fl (env_Name env)) <> [];
  roll_rest : forall env, env ∈ rest -> settled (fl (env_Name env)) rev \/
    Forall (fun t => ts_Revision t <> rev) (es_Targets (fl (env_Name env))) }.

(** The environments still to go, in order *)
Definition to_go (rev : string) (rest : list Environment) (fl : fleet) : list Environment :=
  filter (fun env => ~ settled (fl (env_Name env)) rev) rest.

(** One step takes the first environment still to go to the revision. *)
Definition rollout_step (rest : list Environment) (rev : string) (fl fl' : fleet) : Prop :=
  match to_go rev rest fl with
  | [] => same_fleet fl fl'
  | env :: _ => rolled_out env rev fl fl'
  end.

(** The first of the environments to go splits the list. *)
Lemma to_go_cons rev rest fl env envs :
  to_go rev rest fl = env :: envs ->
  exists pre post, rest = pre ++ env :: post /\ envs = to_go rev post fl /\
    Forall (fun e => settled (fl (env_Name e)) rev) pre /\ ~ settled (fl (env_Name env)) rev.
Proof.
  unfold to_go. induction rest as [|e rest IH]; [done|]. rewrite filter_cons. case_decide as He.
  - intros [= -> <-]. by exists [], rest.
  - intros (pre & post & -> & -> & Hpre & Henv)%IH. exists (e :: pre), post.
    split_and!; [done|done| |done]. by constructor.
Qed.

Lemma to_go_nil rev rest fl :
  to_go rev rest fl = [] <-> Forall (fun e => settled (fl (env_Name e)) rev) rest.
Proof.
  unfold to_go. induction rest as [|e rest IH]; [done|]. rewrite filter_cons, Forall_cons, <- IH.
  case_decide as He; [split; [done|tauto]|]. tauto.
Qed.

Lemma to_go_same rev rest fl fl' :
  (forall e, e ∈ rest -> fl' (env_Name e) = fl (env_Name e)) -> to_go rev rest fl' = to_go rev rest fl.
Proof.
  unfold to_go. induction rest as [|e rest IH]; intros Hs; [done|]. rewrite !filter_cons, Hs by by left.
  rewrite IH; [done|]. intros e' He'. apply Hs. by right.
Qed.

Lemma to_go_app rev l1 l2 fl : to_go rev (l1 ++ l2) fl = to_go rev l1 fl ++ to_go rev l2 fl.
Proof. apply filter_app. Qed.

(** What a status that shows the fleet makes due *)
Lemma promotable_to_go sp first rest rev fl p env rev' :
  rolling sp first rest rev fl -> pl_Spec p = sp -> shows p fl ->
  promotable p env rev' <-> rev' = rev /\ head (to_go rev rest fl) = Some env.
Proof.
  intros [Hspec Hnames Hrev Hfirst Htargets Hrest] Hp Hshows.
  assert (status_of p first = Some (fl (env_Name first))) as Hs.
  { apply Hshows. rewrite Hp, Hspec. by left. }
  assert (forall e, e ∈ rest -> status_of p e = Some (fl (env_Name e))) as Hse.
  { intros e He. apply Hshows. rewrite Hp, Hspec. by right. }
  assert (es_Targets (fl (env_Name first)) <> []) as Hne by (apply Htargets; rewrite Hspec; by left).
  split.
  - intros (first' & rest' & es & Heq & Hes & Hne' & Hset & Hne'' & pre & post & es' & Hr & Hpre & Henv & Hnil & Hno).
    rewrite Hp, Hspec in Heq. injection Heq as <- <-. rewrite Hs in Hes. injection Hes as <-.
    assert (rev' = rev) as ->.
    { destruct (es_Targets (fl (env_Name first))) as [|t ts] eqn:Ht; [done|]. unfold settled in *.
      rewrite Ht, Forall_cons in *. naive_solver. }
    split; [done|]. subst rest. assert (to_go rev pre fl = []) as Hnone.
    { apply to_go_nil. eapply Forall_impl; [apply Forall_and; split; [exact Hpre|]|].
      - apply Forall_forall. intros e He. exact He.
      - cbv beta. intros e [(es & Hes & Hset') He]. rewrite Hse in Hes by set_solver. by injection Hes as <-. }
    unfold to_go in *. rewrite filter_app, Hnone, filter_cons. rewrite Hse in Henv by set_solver.
    injection Henv as <-. rewrite decide_True; [done|]. intros Hset'. unfold settled in Hset'.
    destruct (es_Targets (fl (env_Name env))) as [|t ts]; [done|]. rewrite !Forall_cons in *. naive_solver.
  - intros [-> Hhead]. destruct (to_go rev rest fl) as [|e envs] eqn:Hgo; [done|].
    injection Hhead as ->. apply to_go_cons in Hgo as (pre & post & -> & _ & Hpre & Hnot).
    exists first, (pre ++ env :: post), (fl (env_Name first)). rewrite Hp.
    split_and!; [done|done|done|done|done|]. exists pre, post, (fl (env_Name env)).
    assert (forall e, e ∈ pre ++ env :: post -> e ∈ spec_Environments sp) as Hin.
    { intros e He. rewrite Hspec. by right. }
    split_and!; [done| |apply Hse; set_solver|apply Htargets, Hin; set_solver|].
    + rewrite Forall_forall in *. intros e He. exists (fl (env_Name e)). split; [apply Hse; set_solver|by apply Hpre].
    + destruct (Hrest env ltac:(set_solver)); done.
Qed.

Context (Hstrat : Forall no_pipeline_writes stratReg).

Lemma promoteLatestRevision_no_patches p env rev tr o :
  runs (promoteLatestRevision stratReg p env rev) tr o -> omap ev_PatcherPatch tr = [].
Proof.
  intros Hr. assert (no_writes tr) as Hw.
  { revert tr o Hr. apply (proj1 (wp_runs _ (fun tr _ => no_writes tr))).
    unfold promoteLatestRevision. destruct (GetPromotion _ _) as [prom|]; [|constructor].
    destruct (Registry_Get stratReg prom) as [strat|e] eqn:Hget; [|constructor].
    apply Registry_Get_ok in Hget as (r1 & r2 & Heq & _). rewrite Heq, Forall_app, Forall_cons in Hstrat.
    destruct (spec_Promotion (pl_Spec p)) as [spec|]; [|constructor].
    rewrite wp_bind. cbn [deref wp_then wp]. rewrite wp_bind.
    eapply wp_mono; [|apply Hstrat]. intros tr [[res|err]|w] Htr; cbn; by rewrite ?app_nil_r. }
  clear Hr. induction Hw as [|[X e x] tr He _ IH]; [done|]. by destruct e.
Qed.

(** A round of the reconciler is a step of the rollout. *)
Lemma round_step sp req first rest rev fl fl' :
  rolling sp first rest rev fl -> round sp req fl fl' -> rollout_step rest rev fl fl'.
Proof.
  intros Hroll (tr & p & Hr & Hsome & Hlast & Hp & Hshows & Heffect).
  pose proof (proj1 (wp_runs _ _) (promotion_rule_runs r stratReg req) _ _ Hr) as Hrule.
  pose proof (fun env rev' => promotable_to_go sp first rest rev fl p env rev' Hroll Hp Hshows) as Hdue.
  assert ((exists env rev', promotes p env rev' tr) \/ (forall env rev', ~ promotable p env rev')) as Hcases.
  { destruct Hrule as [(q & env & rev' & tr1 & tr2 & out & -> & Hown & Hq & Hprom & Hruns & Ho)|[Hown Hno]].
    - left. rewrite omap_app, (promoteLatestRevision_no_patches _ _ _ _ _ Hruns), app_nil_r in Hlast.
      destruct (Hlast _ _ Hq) as [<- _]. exists env, rev', tr1, tr2. split_and!; [done|done|done|].
      destruct out as [[[]|err]|w]; done.
    - right. destruct (last (omap ev_PatcherPatch tr)) as [[q x]|]; [|done].
      destruct (Hlast q x eq_refl) as [-> ->]. by apply Hno. }
  unfold rollout_step. destruct Heffect as [(env & rev' & Hprom & Hout)|[Hno Hsame]].
  - destruct Hprom as (tr1 & tr2 & _ & _ & Hprom & _). apply Hdue in Hprom as [-> Hhead].
    destruct (to_go rev rest fl); [done|]. by injection Hhead as ->.
  - destruct Hcases as [(env & rev' & Hprom)|Hnone]; [by destruct (Hno env rev')|].
    destruct (to_go rev rest fl) as [|env envs]; [done|].
    exfalso. by apply (Hnone env rev), Hdue.
Qed.
End rounds.

(** ** Convergence *)
Lemma rollout_step_rolling sp first rest rev fl fl' :
  rolling sp first rest rev fl -> rollout_step rest rev fl fl' ->
  rolling sp first rest rev fl' /\ to_go rev rest fl' = tail (to_go rev rest fl).
Proof.
  intros [Hspec Hnames Hrev Hfirst Htargets Hrest] Hstep. unfold rollout_step in Hstep.
  destruct (to_go rev rest fl) as [|env envs] eqn:Hgo; cbn [tail].
  - split.
    + split; try done.
      * by rewrite Hstep.
      * intros env Henv. rewrite Hstep. by apply Htargets.
      * intros env Henv. rewrite Hstep. by apply Hrest.
    + rewrite <- Hgo. apply to_go_same. intros e _. apply Hstep.
  - apply to_go_cons in Hgo as (pre & post & -> & -> & Hpre & Hnot).
    destruct Hstep as (Hne & Hset & Hsame). pose proof Hnames as Hdup. rewrite Hspec, fmap_cons, fmap_app in Hdup.
    cbn in Hdup. rewrite NoDup_cons, NoDup_app, NoDup_cons in Hdup.
    destruct Hdup as (Hf & _ & Hdisj & Hpost & _).
    assert (env_Name first <> env_Name env) as Hfe by set_solver.
    assert (forall e, e ∈ pre -> env_Name e <> env_Name env) as Hpre'.
    { intros e He Heq. eapply (Hdisj (env_Name e)); [by apply list_elem_of_fmap_2|rewrite Heq; by left]. }
    assert (forall e, e ∈ post -> env_Name e <> env_Name env) as Hpost'.
    { intros e He Heq. apply Hpost. rewrite <- Heq. by apply list_elem_of_fmap_2. }
    split.
    + split; try done.
      * by rewrite Hsame.
      * intros e He. destruct (decide (env_Name e = env_Name env)) as [->|Hn]; [done|].
        rewrite Hsame by done. by apply Htargets.
      * intros e He. destruct (decide (env_Name e = env_Name env)) as [->|Hn]; [by left|].
        rewrite Hsame by done. by apply Hrest.
    + rewrite to_go_app. assert (to_go rev pre fl' = []) as ->.
      { rewrite to_go_same with (fl := fl) by (intros e He; by apply Hsame, Hpre'). by apply to_go_nil. }
      cbn [app]. unfold to_go at 1. rewrite filter_cons, decide_False by tauto.
      apply to_go_same. intros e He. by apply Hsame, Hpost'.
Qed.

(** A number of rounds *)
Inductive rounds {F} (step : F -> F -> Prop) : nat -> F -> F -> Prop :=
  | rounds_0 fl : rounds step 0 fl fl
  | rounds_S n fl fl1 fl' : step fl fl1 -> rounds step n fl1 fl' -> rounds step (S n) fl fl'.

Section converges.
Context `{ApiMachinery} (r : PipelineReconciler) (stratReg : StrategyRegistry).
Context (Hstrat : Forall no_pipeline_writes stratReg).

End converges.

(** ** A rollout through three environments *)
#[local] Existing Instance Stock.stock.

(** What the targets of [staging] and [prod] run, as the clusters answer and
    as the status shows it *)
Definition running (staging prod env : string) : string :=
  if bool_decide (env = "staging") then staging
  else if bool_decide (env = "prod") then prod else "5.0.1".

Definition env_of_namespace (ns : string) : string :=
  if bool_decide (ns = "staging-ns") then "staging"
  else if bool_decide (ns = "prod-ns") then "prod" else "dev".

Definition fleet_handler (staging prod : string) : handler (E := sys) map_server := fun X e =>
  match e in sys X return map_server -> X * map_server with
  | CacheRead _ _ k => fun s =>
      (Ok (release (running staging prod (env_of_namespace (key_Namespace k)))), s)
  | e => map_handler _ e
  end.

Definition sample_fleet (staging prod : string) : fleet := fun name =>
  MkEnvironmentStatus zero_WaitingApproval
    [MkTargetStatus (MkClusterAppReference (spec_AppRef (sample_spec false)) None) true
       (running staging prod name) ""].

Definition sample_round (staging prod : string) :=
  exec (fleet_handler staging prod)
    (LevelController.Reconcile level_reconciler [Notification.NewNotification] (MkKey "default" "podinfo"))
    (sample_server false).

(** The pipeline of the last patch *)
Definition last_patched (tr : list (event sys)) : Pipeline :=
  match last (omap ev_PatcherPatch tr) with Some (p, _) => p | None => sample_pipeline false sample_status end.

Definition env_staging := MkEnvironment "staging" [MkTarget "staging-ns" None] None.
Definition env_prod := nth 2 (spec_Environments (sample_spec false)) zero_Environment.

Lemma sample_rolling (staging prod : bool) :
  let rev (b : bool) := if b then "5.0.1" else "5.0.0" in
  rolling (sample_spec false) (MkEnvironment "dev" [MkTarget "dev-ns" None] None)
    [env_staging; env_prod] "5.0.1" (sample_fleet (rev staging) (rev prod)).
Proof.
  split.
  - reflexivity.
  - apply (bool_decide_unpack _). vm_compute. exact I.
  - done.
  - by repeat constructor.
  - done.
  - intros env Henv. do 2 (apply elem_of_cons in Henv as [->|Henv];
      [destruct staging, prod;
         first [left; apply (bool_decide_unpack _); vm_compute; exact I
               |right; apply (bool_decide_unpack _); vm_compute; exact I]|]).
    by apply elem_of_nil in Henv.
Qed.

(** A round is successful when the computed run says so. *)
Lemma sample_round_spec staging prod env fl' x p n :
  sample_round staging prod = x -> x.1.2 = Done (zero_Result, None) ->
  last (omap ev_PatcherPatch x.1.1) = Some (p, Ok tt) ->
  pl_Spec p = sample_spec false -> shows p (sample_fleet staging prod) ->
  forallb own_call (take n x.1.1) = true ->
  promotable p env "5.0.1" ->
  (exec (fleet_handler staging prod)
     (promoteLatestRevision [Notification.NewNotification] p env "5.0.1") x.2).1 =
    (drop n x.1.1, Done (Ok tt)) ->
  rolled_out env "5.0.1" (sample_fleet staging prod) fl' ->
  round level_reconciler [Notification.NewNotification] (sample_spec false) (MkKey "default" "podinfo")
    (sample_fleet staging prod) fl'.
Proof.
  intros Hx Hdone Hlast Hspec Hshows Hown Hprom Hexec Hout.
  exists x.1.1, p. split_and!; [| |by intros q y [= <- <-]%(eq_trans (eq_sym Hlast))|done|done|].
  - rewrite <- Hdone. apply (exec_runs (fleet_handler staging prod) _ (sample_server false) _ _ x.2).
    fold (sample_round staging prod). rewrite Hx. by destruct x as [[??]?].
  - by rewrite Hlast.
  - left. exists env, "5.0.1". split; [|done]. exists (take n x.1.1), (drop n x.1.1).
    split_and!; [by rewrite take_drop| |done|].
    + apply Forall_forall. intros ev Hev. rewrite forallb_forall in Hown. apply Hown.
      by apply list_elem_of_In.
    + destruct (exec _ _ _) as [[tr o] s'] eqn:He in Hexec. cbn in Hexec. injection Hexec as <- <-.
      by eapply exec_runs.
Qed.

Ltac shows_sample :=
  intros e He;
  repeat (apply elem_of_cons in He as [->|He]; [vm_compute; reflexivity|]); by apply elem_of_nil in He.

Lemma sample_shows_1 : shows (last_patched (sample_round "5.0.0" "5.0.0").1.1) (sample_fleet "5.0.0" "5.0.0").
Proof. shows_sample. Qed.

Lemma sample_shows_2 : shows (last_patched (sample_round "5.0.1" "5.0.0").1.1) (sample_fleet "5.0.1" "5.0.0").
Proof. shows_sample. Qed.

Lemma sample_round_staging :
  round level_reconciler [Notification.NewNotification] (sample_spec false) (MkKey "default" "podinfo")
    (sample_fleet "5.0.0" "5.0.0") (sample_fleet "5.0.1" "5.0.0").
Proof.
  apply (sample_round_spec _ _ env_staging _ (sample_round "5.0.0" "5.0.0")
           (last_patched (sample_round "5.0.0" "5.0.0").1.1) (length (sample_round "5.0.0" "5.0.0").1.1 - 2));
    [reflexivity|vm_compute; reflexivity|vm_compute; reflexivity|vm_compute; reflexivity|apply sample_shows_1
    |vm_compute; reflexivity| |vm_compute; reflexivity|].
  - refine (proj2 (promotable_to_go _ _ _ _ _ _ _ _ (sample_rolling false false) _ sample_shows_1) _);
      [vm_compute; reflexivity|split; [reflexivity|vm_compute; reflexivity]].
  - split_and!; [done|by repeat constructor|]. intros name Hname. unfold sample_fleet, running.
    by rewrite bool_decide_false by exact Hname.
Qed.

Lemma sample_round_prod :
  round level_reconciler [Notification.NewNotification] (sample_spec false) (MkKey "default" "podinfo")
    (sample_fleet "5.0.1" "5.0.0") (sample_fleet "5.0.1" "5.0.1").
Proof.
  apply (sample_round_spec _ _ env_prod _ (sample_round "5.0.1" "5.0.0")
           (last_patched (sample_round "5.0.1" "5.0.0").1.1) (length (sample_round "5.0.1" "5.0.0").1.1 - 2));
    [reflexivity|vm_compute; reflexivity|vm_compute; reflexivity|vm_compute; reflexivity|apply sample_shows_2
    |vm_compute; reflexivity| |vm_compute; reflexivity|].
  - refine (proj2 (promotable_to_go _ _ _ _ _ _ _ _ (sample_rolling true false) _ sample_shows_2) _);
      [vm_compute; reflexivity|split; [reflexivity|vm_compute; reflexivity]].
  - split_and!; [done|by repeat constructor|]. intros name Hname. unfold sample_fleet, running.
    case_bool_decide; [done|]. by rewrite bool_decide_false by exact Hname.
Qed.

