(* ===== verification/RolloutOrder.v ===== *)
(** * The order of rollouts

    [Rollout] has promotions take effect before the next run.  Here they take
    effect whenever they like, or never, runs may fail, environments may become
    unready in between and the first environment may be given any release.  All
    that is asked of the outside is that it deploys to an environment behind the
    first only what the strategies' calls were seen to promote to it.  Then no
    revision runs in an environment without having been settled in all
    environments before it, at one time. *)

From S2P Require Export Rollout.

(** What an observer of the calls takes for a promotion, with the environment
    and the revision: the reconciler's own calls are none, and a strategy makes
    none but of what it is asked to promote. *)
Class SaysPromotions (stratReg : StrategyRegistry) := {
  asked : event sys -> option (string * string);
  asked_own ev : own_call ev = true -> asked ev = None;
  asked_promoted s spec prom : s ∈ stratReg ->
    wp (Promote s spec prom) (fun tr _ =>
      Forall (eq (env_Name (sp_Environment prom), sp_Version prom)) (omap asked tr)) }.

(** What runs where, and what has been promoted: the names of environments
    with the revisions *)
Record world := MkWorld {
  w_fleet : fleet;
  w_promoted : list (string * string) }.

Section order.
Context `{ApiMachinery} (r : PipelineReconciler) (stratReg : StrategyRegistry).
Context (sp : PipelineSpec) (req : ObjectKey) (first : Environment) (rest : list Environment).
Context (Hspec : spec_Environments sp = first :: rest).
Context (Hstrat : Forall no_pipeline_writes stratReg) `{!SaysPromotions stratReg}.

(** The revisions that may turn up in the environment [name] *)
Definition deployable (w : world) (name rev : string) : Prop :=
  rev = "" \/ (name, rev) ∈ w_promoted w \/
  exists t, t ∈ es_Targets (w_fleet w name) /\ ts_Revision t = rev.

Inductive world_step : world -> world -> Prop :=
  (** A run of the reconciler, which read the fleet as it is: what it made its
      strategies promote is promoted from now on. *)
  | step_run w tr o :
      runs (LevelController.Reconcile r stratReg req) tr o ->
      (forall q x, last (omap ev_PatcherPatch tr) = Some (q, x) ->
         pl_Spec q = sp /\ shows q (w_fleet w)) ->
      world_step w (MkWorld (w_fleet w) (omap asked tr ++ w_promoted w))
  (** The targets of one environment change. *)
  | step_deploy w fl name :
      (forall name', name' <> name -> fl name' = w_fleet w name') ->
      (name <> env_Name first ->
       forall t, t ∈ es_Targets (fl name) -> deployable w name (ts_Revision t)) ->
      world_step w (MkWorld fl (w_promoted w)).

(** A history, with the fleets there were when something was promoted or
    deployed *)
Inductive history (w0 : world) : list fleet -> world -> Prop :=
  | history_nil : history w0 [] w0
  | history_snoc hist w w' :
      history w0 hist w -> world_step w w' -> history w0 (hist ++ [w_fleet w]) w'.

(** All environments before one of that name were settled on the revision. *)
Definition cleared (fl : fleet) (name rev : string) : Prop :=
  exists pre env post, rest = pre ++ env :: post /\ env_Name env = name /\
    es_Targets (fl (env_Name first)) <> [] /\
    Forall (fun e => settled (fl (env_Name e)) rev) (first :: pre).

Lemma own_calls_silent tr : own_calls tr -> omap asked tr = [].
Proof.
  intros Hown. induction Hown as [|ev tr Hev _ IH]; [done|]. cbn [omap list_omap].
  by rewrite asked_own, IH.
Qed.

(** The last step of a run that promotes asks for one promotion only. *)
Lemma promoteLatestRevision_asked p env rev tr o :
  runs (promoteLatestRevision stratReg p env rev) tr o ->
  Forall (eq (env_Name env, rev)) (omap asked tr).
Proof.
  revert tr o. apply (proj1 (wp_runs _ (fun tr _ => Forall (eq (env_Name env, rev)) (omap asked tr)))).
  unfold promoteLatestRevision. destruct (GetPromotion _ _) as [prom|]; [|constructor].
  destruct (Registry_Get stratReg prom) as [strat|e] eqn:Hget; [|constructor].
  apply Registry_Get_ok in Hget as (r1 & r2 & Heq & _).
  assert (strat ∈ stratReg) as Hin by (rewrite Heq; set_solver).
  destruct (spec_Promotion (pl_Spec p)) as [spec|]; [|constructor].
  rewrite wp_bind. cbn [deref wp_then wp]. rewrite wp_bind.
  eapply wp_mono; [|by apply asked_promoted]. intros tr [[res|err]|w] Htr; cbn; by rewrite ?app_nil_r.
Qed.

(** What a run makes its strategies promote is due. *)
Lemma run_cleared fl tr o name rev :
  runs (LevelController.Reconcile r stratReg req) tr o ->
  (forall q x, last (omap ev_PatcherPatch tr) = Some (q, x) -> pl_Spec q = sp /\ shows q fl) ->
  (name, rev) ∈ omap asked tr -> cleared fl name rev.
Proof.
  intros Hr Hpatch Hin. apply (proj1 (wp_runs _ _) (promotion_rule_runs r stratReg req)) in Hr.
  destruct Hr as [(p & env & rev' & tr1 & tr2 & out & -> & Hown & Hlast & Hprom & Hruns & _)|[Hown _]].
  2: { rewrite own_calls_silent in Hin by done. by apply elem_of_nil in Hin. }
  rewrite omap_app, (promoteLatestRevision_no_patches stratReg Hstrat _ _ _ _ _ Hruns), app_nil_r in Hpatch.
  destruct (Hpatch p (Ok tt) Hlast) as [Hp Hshows].
  rewrite omap_app, own_calls_silent in Hin by done. cbn [app] in Hin.
  apply promoteLatestRevision_asked in Hruns. rewrite Forall_forall in Hruns.
  apply Hruns in Hin. injection Hin as <- <-.
  destruct Hprom as (first' & rest' & es & Heq & Hes & Hne & Hset & _ & pre & post & es' & -> & Hpre & _).
  rewrite Hp, Hspec in Heq. injection Heq as <- ->.
  assert (forall e, e ∈ first :: pre ++ env :: post -> status_of p e = Some (fl (env_Name e))) as Hst.
  { intros e He. apply Hshows. by rewrite Hp, Hspec. }
  rewrite Hst in Hes by by left. injection Hes as <-. exists pre, env, post.
  split_and!; [done|done|done|]. constructor; [done|]. apply Forall_forall. intros e He.
  rewrite Forall_forall in Hpre. destruct (Hpre e He) as (es & Hes & Hse).
  rewrite Hst in Hes by set_solver. by injection Hes as <-.
Qed.

(** What has been promoted, and what runs behind the first environment, was
    cleared before or was there from the start. *)
Definition in_order (w0 : world) (hist : list fleet) (name rev : string) : Prop :=
  (name, rev) ∈ w_promoted w0 \/
  (exists t, t ∈ es_Targets (w_fleet w0 name) /\ ts_Revision t = rev) \/
  exists fl, fl ∈ hist /\ cleared fl name rev.

Lemma in_order_snoc w0 hist fl name rev :
  in_order w0 hist name rev -> in_order w0 (hist ++ [fl]) name rev.
Proof. unfold in_order. set_solver. Qed.

Lemma history_in_order w0 hist w :
  history w0 hist w ->
  (forall name rev, (name, rev) ∈ w_promoted w -> in_order w0 hist name rev) /\
  (forall name t, name <> env_Name first -> t ∈ es_Targets (w_fleet w name) ->
     ts_Revision t = "" \/ in_order w0 hist name (ts_Revision t)).
Proof.
  intros Hh. induction Hh as [|hist w w' _ [IHp IHt] Hstep].
  { split; [by left|]. intros name t _ Ht. right. right. left. eauto. }
  destruct Hstep as [w tr o Hr Hpatch|w fl name Hsame Hdep]; cbn [w_fleet w_promoted].
  - split.
    + intros name rev [Hin|Hin]%elem_of_app; [|by apply in_order_snoc, IHp].
      right. right. exists (w_fleet w). split; [set_solver|]. by eapply run_cleared.
    + intros name t Hn Ht. destruct (IHt name t Hn Ht); [by left|right]. by apply in_order_snoc.
  - split; [intros name' rev Hin; by apply in_order_snoc, IHp|].
    intros name' t Hn Ht. destruct (decide (name' = name)) as [->|Hne].
    + destruct (Hdep Hn t Ht) as [?|[Hin|(t' & Ht' & Heq)]]; [by left|right|].
      * by apply in_order_snoc, IHp.
      * rewrite <- Heq. destruct (IHt name t' Hn Ht'); [by left|right]. by apply in_order_snoc.
    + rewrite Hsame in Ht by done. destruct (IHt name' t Hn Ht); [by left|right]. by apply in_order_snoc.
Qed.

(** C7.  While the specification stays as it is: in every history of runs of the
    level-triggered reconciler and of changes to the clusters that deploy behind
    the first environment only what the strategies were seen to promote, a
    revision that a target there runs ran there from the start, or at some
    moment before every target of all the environments before it ran that
    revision and was ready. *)
Theorem rollouts_in_order w0 hist w name t :
  history w0 hist w -> w_promoted w0 = [] -> name <> env_Name first ->
  t ∈ es_Targets (w_fleet w name) -> ts_Revision t <> "" ->
  (exists t0, t0 ∈ es_Targets (w_fleet w0 name) /\ ts_Revision t0 = ts_Revision t) \/
  exists fl, fl ∈ hist /\ cleared fl name (ts_Revision t).
Proof.
  intros Hh Hw0 Hn Ht Hrev. apply history_in_order in Hh as [_ Hall].
  destruct (Hall name t Hn Ht) as [?|[Hin|?]]; [done| |done].
  rewrite Hw0 in Hin. by apply elem_of_nil in Hin.
Qed.

End order.

(** ** The notification strategy says what it promotes *)
Definition announced (ev : event sys) : option (string * string) :=
  match ev with
  | Ev e _ =>
      match e with
      | AnnotatedEventf _ [("environment", env); ("version", rev)] _ _ _ => Some (env, rev)
      | _ => None
      end
  end.

#[export, refine] Instance notification_says : SaysPromotions [Notification.NewNotification] := {|
  asked := announced |}.
Proof.
  - intros [X e x]. by destruct e.
  - intros s spec prom ->%list_elem_of_singleton. cbn. intros [p|e]; cbn; [|constructor].
    intros []. by repeat constructor.
Defined.

(** ** The rollout of [Rollout], as a history *)
#[local] Existing Instance Stock.stock.

Lemma sample_no_writes : Forall no_pipeline_writes [Notification.NewNotification].
Proof. repeat constructor. apply notification_no_writes. Qed.

Definition env_dev := MkEnvironment "dev" [MkTarget "dev-ns" None] None.

Abbreviation sample_history :=
  (history level_reconciler [Notification.NewNotification] (sample_spec false)
     (MkKey "default" "podinfo") env_dev (MkWorld (sample_fleet "5.0.0" "5.0.0") [])).

(** A computed round, and the deployment of what it announced *)
Lemma sample_history_round staging prod staging' prod' name hist promoted :
  let tr := (sample_round staging prod).1.1 in
  sample_history hist (MkWorld (sample_fleet staging prod) promoted) ->
  omap announced tr = [(name, "5.0.1")] ->
  last (omap ev_PatcherPatch tr) = Some (last_patched tr, Ok tt) ->
  pl_Spec (last_patched tr) = sample_spec false -> shows (last_patched tr) (sample_fleet staging prod) ->
  rolled_out (MkEnvironment name [] None) "5.0.1" (sample_fleet staging prod) (sample_fleet staging' prod') ->
  sample_history (hist ++ [sample_fleet staging prod] ++ [sample_fleet staging prod])
    (MkWorld (sample_fleet staging' prod') ((name, "5.0.1") :: promoted)).
Proof.
  intros tr Hh Hsays Hlast Hspec Hshows (_ & Hset & Hsame). rewrite app_assoc.
  eapply (history_snoc _ _ _ _ _ _ _ (MkWorld (sample_fleet staging prod) ((name, "5.0.1") :: promoted)));
    [eapply (history_snoc _ _ _ _ _ _ _ (MkWorld (sample_fleet staging prod) promoted)); [done|]|].
  - assert ((name, "5.0.1") :: promoted = omap asked tr ++ promoted) as ->.
    { change (omap asked tr) with (omap announced tr). by rewrite Hsays. }
    apply (step_run _ _ _ _ _ (MkWorld (sample_fleet staging prod) promoted) tr
             (sample_round staging prod).1.2).
    + apply (exec_runs (fleet_handler staging prod) _ (sample_server false) _ _ (sample_round staging prod).2).
      fold (sample_round staging prod). unfold tr. by destruct (sample_round staging prod) as [[??]?].
    + intros q x Hq. rewrite Hlast in Hq. by injection Hq as <- <-.
  - apply (step_deploy _ _ _ _ _ (MkWorld _ _) _ name); [exact Hsame|]. intros _ t Ht. right. left.
    unfold settled in Hset. rewrite Forall_forall in Hset. destruct (Hset t Ht) as [-> _]. by left.
Qed.

Lemma sample_rolled_staging :
  rolled_out (MkEnvironment "staging" [] None) "5.0.1" (sample_fleet "5.0.0" "5.0.0")
    (sample_fleet "5.0.1" "5.0.0").
Proof.
  split_and!; [done|by repeat constructor|]. intros name Hname. unfold sample_fleet, running.
  by rewrite bool_decide_false by exact Hname.
Qed.

Lemma sample_rolled_prod :
  rolled_out (MkEnvironment "prod" [] None) "5.0.1" (sample_fleet "5.0.1" "5.0.0")
    (sample_fleet "5.0.1" "5.0.1").
Proof.
  split_and!; [done|by repeat constructor|]. intros name Hname. unfold sample_fleet, running.
  case_bool_decide; [done|]. by rewrite bool_decide_false by exact Hname.
Qed.

Lemma rollouts_in_order_witness :
  exists hist w t, sample_history hist w /\
    t ∈ es_Targets (w_fleet w "prod") /\ ts_Revision t = "5.0.1" /\
    exists fl, fl ∈ hist /\ cleared env_dev [env_staging; env_prod] fl "prod" "5.0.1".
Proof.
  pose proof (sample_history_round "5.0.0" "5.0.0" "5.0.1" "5.0.0" "staging" [] []
    (history_nil _ _ _ _ _ _) ltac:(vm_compute; reflexivity) ltac:(vm_compute; reflexivity)
    ltac:(vm_compute; reflexivity) sample_shows_1 sample_rolled_staging) as H1.
  pose proof (sample_history_round "5.0.1" "5.0.0" "5.0.1" "5.0.1" "prod" _ _
    H1 ltac:(vm_compute; reflexivity) ltac:(vm_compute; reflexivity)
    ltac:(vm_compute; reflexivity) sample_shows_2 sample_rolled_prod) as H2.
  eexists _, _, _. split_and!; [exact H2|by left|reflexivity|].
  destruct (rollouts_in_order level_reconciler [Notification.NewNotification] (sample_spec false)
    (MkKey "default" "podinfo") env_dev
    [env_staging; env_prod] (roll_spec _ _ _ _ _ (sample_rolling false false)) sample_no_writes
    _ _ _ "prod" (MkTargetStatus (MkClusterAppReference (spec_AppRef (sample_spec false)) None) true
      "5.0.1" "") H2) as [(t0 & Ht0 & Hrev)|Hcleared]; [done|done|by left|done| |exact Hcleared].
  apply list_elem_of_singleton in Ht0 as ->. discriminate Hrev.
Defined.
