(* ===== verification/StatusTypes.v ===== *)
(** * Well-formed statuses

    In Go the entries of a status' environments are pointers, and the code
    reads through them without a check.  The file says which calls keep the
    stored statuses free of nil entries, as a typing of programs in the style
    of rely and guarantee: as long as what a program reads is well-formed, what
    it writes is; and shows that every writer of the program is typed. *)

From S2P Require Export Protocol LevelSpec.

(** ** Typed calls, programs and traces *)

Definition well_formed (p : Pipeline) : Prop := no_nil (pl_Status p).

(** What the program may rely on in an answer, and what it guarantees of a
    call *)
Definition wf_answer {X} (e : sys X) : X -> Prop :=
  match e in sys X return X -> Prop with
  | GetPipeline _ => fun r => match r with Ok p => well_formed p | Err _ => True end
  | _ => fun _ => True
  end.

Definition wf_call {X} (e : sys X) : Prop :=
  match e with
  | StatusUpdate p | StatusPatch _ p _ | PatcherPatch p _ => well_formed p
  | _ => True
  end.

(** The calls are well-formed as long as the answers were. *)
Fixpoint typed (tr : list (event sys)) : Prop :=
  match tr with
  | [] => True
  | Ev e x :: tr => wf_call e /\ (wf_answer e x -> typed tr)
  end.

(** The same of a program, with what it returns *)
Fixpoint types {A} (p : io A) (Q : A -> Prop) : Prop :=
  match p with
  | PRet a => Q a
  | PPanic _ => True
  | PVis e k => wf_call e /\ forall x, wf_answer e x -> types (k x) Q
  end.

Abbreviation typed_prog p := (types p (fun _ => True)).

Lemma types_typed {A} (p : io A) Q : types p Q -> wp p (fun tr _ => typed tr).
Proof.
  induction p as [a|w|X e k IH]; simpl; [done|done|]. intros [Hc Hk] x.
  apply wp_runs. intros tr o Hr. split; [done|]. intros Hx.
  by eapply (proj1 (wp_runs _ _) (IH x (Hk x Hx))).
Qed.

Lemma types_mono {A} (p : io A) (Q Q' : A -> Prop) :
  (forall a, Q a -> Q' a) -> types p Q -> types p Q'.
Proof.
  intros HQ. induction p as [a|w|X e k IH]; simpl; [apply HQ|done|].
  intros [Hc Hk]. split; [done|]. intros x Hx. by apply IH, Hk.
Qed.

Lemma types_bind {A B} (p : io A) (f : A -> io B) Q Q' :
  types p Q -> (forall a, Q a -> types (f a) Q') -> types (p ≫= f) Q'.
Proof.
  intros Hp Hf. unfold mbind, prog_bind. induction p as [a|w|X e k IH]; simpl in *; [by apply Hf|done|].
  destruct Hp as [Hc Hk]. split; [done|]. intros x Hx. by apply IH, Hk.
Qed.

Lemma types_ret {A} (a : A) (Q : A -> Prop) : Q a -> types (mret a) Q.
Proof. done. Qed.

Lemma types_trigger {X} (e : sys X) Q :
  wf_call e -> (forall x, wf_answer e x -> Q x) -> types (trigger e) Q.
Proof. done. Qed.

(** Every program has a run. *)
Lemma has_run {A} (p : io A) : exists tr o, runs p tr o.
Proof.
  destruct (exec map_handler p (MkMapServer ∅ ∅)) as [[tr o] s'] eqn:He.
  exists tr, o. by eapply exec_runs.
Qed.

(** A program that writes nothing is typed. *)
Lemma types_no_writes {A} (p : io A) : wp p (fun tr _ => no_writes tr) -> typed_prog p.
Proof.
  induction p as [a|w|X e k IH]; simpl; [done|done|]. intros Hw. split.
  - specialize (Hw (map_handler X e (MkMapServer ∅ ∅)).1).
    destruct (has_run (k (map_handler X e (MkMapServer ∅ ∅)).1)) as (tr & o & Hr).
    pose proof (proj1 (wp_runs _ _) Hw tr o Hr) as Hnw. inversion Hnw as [|?? He _]. by destruct e.
  - intros x _. apply IH. eapply wp_mono; [|exact (Hw x)]. cbv beta. intros tr o Hnw. by inversion Hnw.
Qed.

Lemma types_call {X A} (e : sys X) (f : X -> io A) Q :
  wf_call e -> (forall x, wf_answer e x -> types (f x) Q) -> types (trigger e ≫= f) Q.
Proof. done. Qed.

Lemma types_seq {A B} (p : io A) (f : A -> io B) Q :
  typed_prog p -> (forall a, types (f a) Q) -> types (p ≫= f) Q.
Proof. intros Hp Hf. eapply types_bind; [exact Hp|]. intros a _. apply Hf. Qed.

(** Descend into a program, with the typed parts the database knows. *)
Create HintDb types.
Ltac types_step :=
  lazymatch goal with
  | |- types (mret _) _ => apply types_ret
  | |- types (PRet _) _ => apply types_ret
  | |- types (PPanic _) _ => exact I
  | |- types (deref ?x) _ => unfold deref; destruct x
  | |- types (index _ _) _ => unfold index; destruct (_ !! _)
  | |- types (trigger _) _ => apply types_trigger; [try exact I|try (intros ? ?; exact I)]
  | |- types (trigger _ ≫= _) _ => apply types_call; [try exact I|intros ? ?]
  | |- types (_ ≫= _) _ => apply types_seq; [|intros ?]
  | |- types match ?x with _ => _ end _ => first [is_var x; destruct x | destruct x eqn:?]
  | |- types (let _ := _ in _) _ => cbv zeta
  end.
Ltac types_tac := repeat first [progress eauto with types nocore | types_step]; try done.

(** ** The writers *)
Lemma wf_set_Status p st : well_formed (set_Status st p) <-> no_nil st.
Proof. done. Qed.

Lemma types_setWaitingApproval p env wa :
  no_nil p -> types (setWaitingApproval p env wa) no_nil.
Proof. intros Hp. destruct wa as [rev]. rewrite setWaitingApproval_upd by done. by apply no_nil_upd. Qed.

Lemma types_verify p header body : typed_prog (verifyXSignature p header body).
Proof.
  apply types_no_writes. eapply wp_mono; [|apply verifyXSignature_spec].
  intros tr o [Hr _]. by apply reads_no_writes.
Qed.

Lemma types_update f k :
  (forall st, no_nil st -> types (f st) no_nil) -> typed_prog (write_back f k).
Proof.
  intros Hf. unfold write_back. eapply types_bind; [by apply types_trigger; [|intros x Hx; exact Hx]|].
  intros [p|e] Hp; [|done]. eapply types_bind; [by apply Hf|]. intros st Hst. by apply types_trigger.
Qed.

#[export] Hint Resolve types_verify : types.

Lemma types_setWaiting p env rev : typed_prog (setWaitingApproval_ p env rev).
Proof.
  apply (types_update (fun st => SetWaitingApproval st env rev) (pl_Key p)). intros st Hst.
  by apply types_setWaitingApproval.
Qed.

Lemma types_resetWaiting p env : typed_prog (Approval.resetWaitingApproval p env).
Proof.
  apply (types_update (fun st => ResetWaitingApproval st env) (pl_Key p)). intros st Hst.
  by apply types_setWaitingApproval.
Qed.
#[export] Hint Resolve types_setWaiting types_resetWaiting : types.

Section writers.
Context (stratReg : StrategyRegistry) (Hstrat : Forall no_pipeline_writes stratReg).

Lemma types_promote retry spec prom : typed_prog (promote stratReg retry (Some spec) prom).
Proof. by apply types_no_writes, promote_no_writes. Qed.

Lemma types_Approval_promote spec prom : typed_prog (Approval.promote stratReg (Some spec) prom).
Proof. by apply types_no_writes, strategy_no_writes. Qed.
Hint Resolve types_promote types_Approval_promote : types.

Lemma types_promotion decode_event retry r w : typed_prog (ServeHTTP decode_event stratReg retry r w).
Proof. unfold ServeHTTP, respond_promoted. types_tac. Qed.

Lemma types_approval r w : typed_prog (Approval.ServeHTTP stratReg r w).
Proof. unfold Approval.ServeHTTP, respond_promoted, GetWaitingApproval. types_tac. Qed.

(** ** The server *)
Lemma types_serve decode_event format_RFC1123 redirect healthz s limiter r :
  own_handlers decode_event s -> ps_stratReg s = stratReg ->
  (forall r w, wp (healthz r w) (fun tr _ => reads_only tr)) ->
  typed_prog (serve format_RFC1123 redirect healthz s limiter r).
Proof.
  intros [Hp Ha] Hreg Hhealthz. pose proof types_promotion as Hprom. pose proof types_approval as Happr.
  unfold serve, rateLimitMiddleware, limiter_Hit, StripPrefix, handler_of. rewrite Hp, Ha, Hreg.
  assert (forall r w, typed_prog (healthz r w)) as Hh.
  { intros r' w. apply types_no_writes. eapply wp_mono; [|apply Hhealthz]. intros tr o Hr.
    by apply reads_no_writes. }
  repeat first [apply Hprom|apply Happr|apply Hh|types_step]; done.
Qed.
End writers.

(** ** The reconcilers *)
Section reconcilers.
Context `{ApiMachinery} (r : PipelineReconciler).

Lemma types_emitEventf p t reason msg : typed_prog (emitEventf r p t reason msg).
Proof. unfold emitEventf. types_tac. Qed.
Hint Resolve types_emitEventf : types.

Lemma no_nil_with_condition p c : well_formed p -> no_nil (with_condition p c).
Proof. done. Qed.

Lemma types_patchStatus k st : no_nil st -> typed_prog (patchStatus r k st).
Proof. intros Hst. unfold patchStatus. types_tac. Qed.

Lemma types_setStatusCondition p msg reason : well_formed p -> typed_prog (setStatusCondition r p msg reason).
Proof.
  intros Hp. unfold setStatusCondition.
  apply types_seq; [by apply types_patchStatus, no_nil_with_condition|intros ?]. types_tac.
Qed.

Lemma types_stop_with p msg reason : well_formed p -> typed_prog (stop_with r p msg reason).
Proof. intros Hp. unfold stop_with. apply types_seq; [by apply types_setStatusCondition|intros ?]. types_tac. Qed.
Hint Resolve types_stop_with : types.

Lemma types_check_environments p envs : well_formed p -> typed_prog (check_environments r p envs).
Proof.
  intros Hp. assert (forall t, typed_prog (check_target r p t)) as Ht.
  { intros t. unfold check_target, getCluster, ClusterRef_String. types_tac. }
  assert (forall ts, typed_prog (check_targets r p ts)) as Hts.
  { intros ts. induction ts as [|t ts IH]; simpl; types_tac. }
  induction envs as [|e envs IH]; simpl; types_tac.
Qed.

Lemma types_edge req : typed_prog (EdgeController.Reconcile r req).
Proof.
  unfold EdgeController.Reconcile. apply types_call; [exact I|]. intros [p|e] Hp; [|done].
  types_step; [done|]. apply types_seq; [by apply types_check_environments|]. intros [ret|]; [done|].
  apply types_seq; [by apply types_patchStatus, no_nil_with_condition|intros ?]. types_tac.
Qed.

(** The level-triggered reconciler *)
Lemma types_watch c gvk : typed_prog (watchTargetAndGetReader c gvk).
Proof. unfold watchTargetAndGetReader, create_cache, cluster_config, register. types_tac. Qed.
Hint Resolve types_watch : types.

Lemma types_observe_target p t : typed_prog (observe_target r p t).
Proof. unfold observe_target, observe_app, getCluster, ClusterRef_String. types_tac. Qed.
Hint Resolve types_observe_target : types.

Lemma types_observe_targets p ts : typed_prog (observe_targets r p ts).
Proof. induction ts as [|t ts IH]; simpl; types_tac. Qed.

(** The map of freshly made statuses has no nil entry. *)
Definition no_nil_map (m : gmap string (option EnvironmentStatus)) : Prop := forall env, m !! env <> Some None.

Lemma types_observe_environments p envs m u :
  no_nil_map m ->
  types (observe_environments r p envs m u)
    (fun o => match o with inl (m', _) => no_nil_map m' | inr _ => True end).
Proof.
  revert m u. induction envs as [|e envs IH]; intros m u Hm; simpl; [done|].
  apply types_seq; [apply types_observe_targets|]. intros [[sts u']|ret]; [|done].
  apply IH. intros env. rewrite lookup_insert. by case_decide.
Qed.

Context (stratReg : StrategyRegistry) (Hstrat : Forall no_pipeline_writes stratReg).

Lemma types_promoteLatestRevision p env rev : typed_prog (promoteLatestRevision stratReg p env rev).
Proof.
  unfold promoteLatestRevision. destruct (GetPromotion _ _) as [prom|]; [|done].
  destruct (Registry_Get stratReg prom) as [strat|e] eqn:Hget; [|done].
  apply Registry_Get_ok in Hget as (r1 & r2 & Heq & _). rewrite Heq, Forall_app, Forall_cons in Hstrat.
  types_step; [types_tac|]. types_step; [apply types_no_writes, Hstrat|]. types_tac.
Qed.
Hint Resolve types_promoteLatestRevision : types.

Lemma types_promote_loop p envs rev : typed_prog (promote_loop stratReg p envs rev).
Proof. induction envs as [|e envs IH]; simpl; unfold env_status; types_tac. Qed.
Hint Resolve types_promote_loop : types.

Lemma types_advance p : well_formed p -> typed_prog (advance r stratReg p).
Proof. intros Hp. unfold advance, env_status. types_tac. Qed.

Lemma types_level req : typed_prog (LevelController.Reconcile r stratReg req).
Proof.
  unfold LevelController.Reconcile. apply types_call; [exact I|]. intros [p|e] Hp; [|done].
  types_step; [done|]. eapply types_bind.
  { apply types_observe_environments. intros env. by rewrite lookup_empty. }
  intros [[m u]|ret] Hm; [|done].
  apply types_call; [exact Hm|]. intros [[]|e] _; [|types_tac].
  apply types_seq; [apply types_emitEventf|]. intros _. by apply types_advance.
Qed.
End reconcilers.

(** C13.  Statuses stay well-formed.  Every writer of the program, that is the
    promotion server with its own webhooks and both reconcilers, writes only
    statuses without nil entries as long as the pipelines it reads have none,
    and reading or setting what waits in such a status does not panic. *)
Theorem statuses_well_formed `{ApiMachinery} decode_event format_RFC1123 redirect healthz s r stratReg :
  own_handlers decode_event s -> Forall no_pipeline_writes (ps_stratReg s) ->
  Forall no_pipeline_writes stratReg -> (forall r w, wp (healthz r w) (fun tr _ => reads_only tr)) ->
  (forall limiter rq, wp (serve format_RFC1123 redirect healthz s limiter rq) (fun tr _ => typed tr)) /\
  (forall req, wp (EdgeController.Reconcile r req) (fun tr _ => typed tr)) /\
  (forall req, wp (LevelController.Reconcile r stratReg req) (fun tr _ => typed tr)) /\
  (forall st env rev, no_nil st ->
     wp (GetWaitingApproval (E := sys) st env) (fun _ o => exists wa, o = Done wa) /\
     wp (SetWaitingApproval (E := sys) st env rev) (fun _ o => exists st', o = Done st' /\ no_nil st')).
Proof.
  intros Hown Hs Hstrat Hhealthz. split_and!.
  - intros limiter rq. eapply types_typed. by apply (types_serve (ps_stratReg s) Hs decode_event).
  - intros req. eapply types_typed, types_edge.
  - intros req. eapply types_typed. by apply types_level.
  - intros st env rev Hst. rewrite GetWaitingApproval_waiting by done. unfold SetWaitingApproval.
    rewrite setWaitingApproval_upd by done. split; eexists; [done|]. split; [done|]. by apply no_nil_upd.
Qed.

(** ** Types are preserved *)

(** Against an API server that keeps its promises, well-formed stored
    pipelines stay well-formed over any request. *)
Section preservation.
Context {S : Type} (h : handler (E := sys) S) `{!ApiServer h}.

Definition stored_well_formed (s : S) : Prop := forall k p, stored s k = Some p -> well_formed p.

(** The server writes by status updates alone. *)
Definition serving_call (ev : event sys) : Prop :=
  match ev with Ev e _ => match e with StatusPatch _ _ _ | PatcherPatch _ _ => False | _ => True end end.

Lemma no_writes_serving tr : no_writes tr -> Forall serving_call tr.
Proof. intros Hw. eapply Forall_impl; [exact Hw|]. intros [X e x]. by destruct e. Qed.

Lemma calls_no_writes {A} (p : io A) : wp p (fun tr _ => no_writes tr) -> calls_only serving_call p.
Proof. apply wp_mono. intros tr o. apply no_writes_serving. Qed.

Lemma calls_serve decode_event format_RFC1123 redirect healthz s limiter r :
  own_handlers decode_event s -> Forall no_pipeline_writes (ps_stratReg s) ->
  (forall r w, wp (healthz r w) (fun tr _ => reads_only tr)) ->
  calls_only serving_call (serve format_RFC1123 redirect healthz s limiter r).
Proof.
  intros [Hp Ha] Hstrat Hhealthz.
  assert (forall p header body, calls_only serving_call (verifyXSignature p header body)) as Hv.
  { intros p header body. apply calls_no_writes. eapply wp_mono; [|apply verifyXSignature_spec].
    intros tr o [Hr _]. by apply reads_no_writes. }
  assert (forall r w, calls_only serving_call (healthz r w)) as Hh.
  { intros r' w. apply calls_no_writes. eapply wp_mono; [|apply Hhealthz]. intros tr o Hr.
    by apply reads_no_writes. }
  assert (forall retry spec prom, calls_only serving_call (promote (ps_stratReg s) retry (Some spec) prom)) as Hpr.
  { intros retry spec prom. by apply calls_no_writes, promote_no_writes. }
  assert (forall spec prom, calls_only serving_call (Approval.promote (ps_stratReg s) (Some spec) prom)) as Hap.
  { intros spec prom. by apply calls_no_writes, strategy_no_writes. }
  assert (forall g, handler_of (Some g) = g) as Hof by done.
  unfold serve, rateLimitMiddleware, limiter_Hit, StripPrefix. rewrite Hp, Ha, !Hof.
  unfold PromotionHandler.ServeHTTP, Approval.ServeHTTP, setWaitingApproval_, Approval.resetWaitingApproval,
    SetWaitingApproval, ResetWaitingApproval, setWaitingApproval, GetWaitingApproval, respond_promoted, deref.
  repeat first [apply Hv|apply Hh|apply Hpr|apply Hap|progress eauto with calls nocore|calls_step].
Qed.

Lemma typed_preserves s tr :
  Forall serving_call tr ->
  typed tr -> consistent h s tr -> stored_well_formed s -> stored_well_formed (final h s tr).
Proof.
  intros Hcalls. revert s. induction Hcalls as [|[X e x] tr He _ IH]; intros s; [done|].
  intros [Hwf Hrest] [Hx Hc] Hs. cbn [final]. subst x.
  assert (wf_answer e (h X e s).1) as Hans.
  { destruct e; try done. simpl. destruct (h _ (GetPipeline k) s).1 as [p|err] eqn:Hget; [|done].
    apply api_get in Hget. by eapply Hs. }
  apply IH; [by apply Hrest|done|]. destruct (is_write e) eqn:Hw.
  - destruct e; try done. rename p into q. intros k p.
    destruct (h _ (StatusUpdate q) s).1 as [[]|err] eqn:Hup.
    + destruct (api_update s q Hup) as (old & Hold & Hnew). rewrite Hnew. case_decide; [|apply Hs].
      by intros [= <-].
    + rewrite (api_update_err s q err Hup). apply Hs.
  - intros k p. rewrite (api_other _ e s Hw). apply Hs.
Qed.

(** Whatever request reaches the server *)
Theorem serve_preserves_types decode_event format_RFC1123 redirect healthz srv limiter r s :
  own_handlers decode_event srv -> Forall no_pipeline_writes (ps_stratReg srv) ->
  (forall r w, wp (healthz r w) (fun tr _ => reads_only tr)) ->
  stored_well_formed s ->
  after h (serve format_RFC1123 redirect healthz srv limiter r) s (fun _ _ s' => stored_well_formed s').
Proof.
  intros Hown Hstrat Hhealthz Hs. apply after_by_runs, wp_runs. intros tr o Hr Hc.
  eapply typed_preserves; [| |done|done].
  - eapply runs_calls_only; [|exact Hr]. by eapply calls_serve.
  - refine (proj1 (wp_runs _ (fun tr _ => typed tr)) _ tr o Hr). eapply types_typed.
    by apply (types_serve (ps_stratReg srv) Hstrat decode_event).
Qed.
End preservation.

(** ** At a concrete server *)
#[local] Existing Instance Stock.stock.

Lemma sample_status_no_nil : no_nil sample_status.
Proof. intros env. simpl. destruct (decide (env = "prod")) as [->|Hne]; simplify_map_eq; done. Qed.

Lemma statuses_well_formed_witness :
  wp (serve any_time moved ping sample_notifying (server_limiter sample_notifying) notify_prod)
    (fun tr _ => typed tr) /\
  wp (LevelController.Reconcile level_reconciler [Notification.NewNotification] (MkKey "default" "podinfo"))
    (fun tr _ => typed tr) /\
  wp (SetWaitingApproval (E := sys) sample_status "prod" "5.0.1")
    (fun _ o => exists st', o = Done st' /\ no_nil st').
Proof.
  destruct (statuses_well_formed staging_event any_time moved ping sample_notifying level_reconciler
    [Notification.NewNotification] sample_own sample_strategies sample_strategies ping_reads)
    as (Hserve & _ & Hlevel & Hst).
  split_and!; [apply Hserve|apply Hlevel|apply (Hst _ "prod"), sample_status_no_nil].
Defined.
