(* ===== verification/Lifecycle.v ===== *)
(** * Running and stopping the promotion server
      (server/promotion_server.go [Start], the goroutine of main.go)

    [Start] serves in a goroutine, waits for its context, and shuts the
    limiter and the HTTP server down with that same context.  The goroutines
    are a transition system; of net/http's [Server] the parts [Start] relies
    on are modelled as documented: [Serve] accepts connections until the
    listener fails or the server is shut down, and closes the listener;
    [Shutdown] closes the listeners the server knows, which are those [Serve]
    was called with, then looks at the connections again and again, returning
    the error of closing the listeners when none is busy, and the context's
    error when the context is done in between.  Closing the listener can fail,
    and then leaves it open or not. *)

From S2P Require Export Prelude.

(** ** State *)

(** The goroutine of [srv.Serve]: not yet running, accepting, returned *)
Inductive serve_state := ServeNotYet | Accepting | ServeReturned.

(** [Start] itself: at [<-ctx.Done()], at [limiter.Shutdown()], at
    [srv.Shutdown(ctx)]; in there, with the error of closing the listeners,
    before a look at the connections and in the [select] on the context and a
    timer; returned *)
Inductive start_state :=
  | AwaitDone
  | AtLimiterShutdown
  | AtSrvShutdown
  | InShutdown (lnerr : option error)
  | InSelect (lnerr : option error)
  | Returned (err : option error).

(** [lc_closed] is what closing the listener gave, once it was closed. *)
Record lifecycle := MkLifecycle {
  lc_ctx_done : bool;
  lc_serve : serve_state;
  lc_start : start_state;
  lc_listening : bool;
  lc_closed : option (option error);
  lc_shutting_down : bool;
  lc_busy : nat;
  lc_ticker : bool;
  lc_logged : list error;
  lc_exit : option Z }.

(** [Start] has created the limiter and the mux and started the goroutine;
    the listener is open since [NewPromotionServer]. *)
Definition start : lifecycle := MkLifecycle false ServeNotYet AwaitDone true None false 0 true [] None.

Definition context_canceled : error := errorf "context canceled".

Definition set_serve (s : serve_state) (l : lifecycle) : lifecycle :=
  MkLifecycle (lc_ctx_done l) s (lc_start l) (lc_listening l) (lc_closed l) (lc_shutting_down l)
    (lc_busy l) (lc_ticker l) (lc_logged l) (lc_exit l).
Definition set_start (s : start_state) (l : lifecycle) : lifecycle :=
  MkLifecycle (lc_ctx_done l) (lc_serve l) s (lc_listening l) (lc_closed l) (lc_shutting_down l)
    (lc_busy l) (lc_ticker l) (lc_logged l) (lc_exit l).
Definition set_busy (n : nat) (l : lifecycle) : lifecycle :=
  MkLifecycle (lc_ctx_done l) (lc_serve l) (lc_start l) (lc_listening l) (lc_closed l) (lc_shutting_down l)
    n (lc_ticker l) (lc_logged l) (lc_exit l).
Definition cancel (l : lifecycle) : lifecycle :=
  MkLifecycle true (lc_serve l) (lc_start l) (lc_listening l) (lc_closed l) (lc_shutting_down l)
    (lc_busy l) (lc_ticker l) (lc_logged l) (lc_exit l).

(** What a first [Close] does: without an error the listener is closed. *)
Definition closes (cerr : option error) (open : bool) : Prop := cerr = None -> open = false.

(** The listener is closed by [Shutdown] or by [Serve] when it returns,
    whichever comes first; the other gets the same answer. *)
Definition close_listener (cerr : option error) (open : bool) (l : lifecycle) : lifecycle :=
  match lc_closed l with
  | Some _ => l
  | None =>
      MkLifecycle (lc_ctx_done l) (lc_serve l) (lc_start l) open (Some cerr) (lc_shutting_down l)
        (lc_busy l) (lc_ticker l) (lc_logged l) (lc_exit l)
  end.

Definition log_error (err : error) (l : lifecycle) : lifecycle :=
  MkLifecycle (lc_ctx_done l) (lc_serve l) (lc_start l) (lc_listening l) (lc_closed l) (lc_shutting_down l)
    (lc_busy l) (lc_ticker l) (lc_logged l ++ [wrapf "failed serving: " err]) (lc_exit l).

(** [srv.Serve] returned [err] and has closed the listener. *)
Definition serve_returned (err : option error) (cerr : option error) (open : bool) (l : lifecycle) : lifecycle :=
  let l := set_serve ServeReturned (close_listener cerr open l) in
  match err with Some err => log_error err l | None => l end.

(** An error is logged unless it is [http.ErrServerClosed]. *)
Definition serve_failed (err : error) (cerr : option error) (open : bool) (l : lifecycle) : lifecycle :=
  serve_returned (Some err) cerr open l.
Definition server_closed (cerr : option error) (open : bool) (l : lifecycle) : lifecycle :=
  serve_returned None cerr open l.

(** [limiter.Shutdown()] stops the ticker. *)
Definition limiter_shutdown (l : lifecycle) : lifecycle :=
  MkLifecycle (lc_ctx_done l) (lc_serve l) AtSrvShutdown (lc_listening l) (lc_closed l) (lc_shutting_down l)
    (lc_busy l) false (lc_logged l) (lc_exit l).

(** [srv.Shutdown] begins: from here [Serve] refuses to accept, and the
    listener is closed if [Serve] has it. *)
Definition srv_shutdown (cerr : option error) (open : bool) (l : lifecycle) : lifecycle :=
  let l := MkLifecycle (lc_ctx_done l) (lc_serve l) (lc_start l) (lc_listening l) (lc_closed l) true
             (lc_busy l) (lc_ticker l) (lc_logged l) (lc_exit l) in
  match lc_serve l with
  | Accepting => let l := close_listener cerr open l in set_start (InShutdown (mjoin (lc_closed l))) l
  | _ => set_start (InShutdown None) l
  end.

(** main.go: the goroutine around [Start] ends the process on an error. *)
Definition os_Exit (code : Z) (l : lifecycle) : lifecycle :=
  MkLifecycle (lc_ctx_done l) (lc_serve l) (lc_start l) (lc_listening l) (lc_closed l) (lc_shutting_down l)
    (lc_busy l) (lc_ticker l) (lc_logged l) (Some code).

(** ** Steps, while the process runs *)
Inductive lifecycle_step : lifecycle -> lifecycle -> Prop :=
  | step_serve l : lc_serve l = ServeNotYet -> lc_shutting_down l = false ->
      lifecycle_step l (set_serve Accepting l)
  | step_accept l : lc_serve l = Accepting -> lc_listening l = true ->
      lifecycle_step l (set_busy (S (lc_busy l)) l)
  | step_idle l n : lc_busy l = S n -> lifecycle_step l (set_busy n l)
  | step_serve_failed l err cerr open : lc_serve l = Accepting -> lc_shutting_down l = false ->
      closes cerr open -> lifecycle_step l (serve_failed err cerr open l)
  | step_server_closed l cerr open : lc_serve l <> ServeReturned -> lc_shutting_down l = true ->
      closes cerr open -> lifecycle_step l (server_closed cerr open l)
  | step_cancel l : lifecycle_step l (cancel l)
  | step_done l : lc_start l = AwaitDone -> lc_ctx_done l = true ->
      lifecycle_step l (set_start AtLimiterShutdown l)
  | step_limiter l : lc_start l = AtLimiterShutdown -> lifecycle_step l (limiter_shutdown l)
  | step_srv_shutdown l cerr open : lc_start l = AtSrvShutdown -> closes cerr open ->
      lifecycle_step l (srv_shutdown cerr open l)
  | step_all_idle l lnerr : lc_start l = InShutdown lnerr -> lc_busy l = 0 ->
      lifecycle_step l (set_start (Returned lnerr) l)
  | step_some_busy l lnerr : lc_start l = InShutdown lnerr -> lc_busy l <> 0 ->
      lifecycle_step l (set_start (InSelect lnerr) l)
  | step_timer l lnerr : lc_start l = InSelect lnerr -> lifecycle_step l (set_start (InShutdown lnerr) l)
  | step_ctx_done l lnerr : lc_start l = InSelect lnerr -> lc_ctx_done l = true ->
      lifecycle_step l (set_start (Returned (Some context_canceled)) l)
  | step_exit l err : lc_start l = Returned (Some err) -> lifecycle_step l (os_Exit 1 l).

Definition running_step (l l' : lifecycle) : Prop := lc_exit l = None /\ lifecycle_step l l'.
Definition reaches : lifecycle -> lifecycle -> Prop := rtc running_step.

(** ** The invariant *)

(** How far [Start] is *)
Definition phase (s : start_state) : nat :=
  match s with
  | AwaitDone => 0 | AtLimiterShutdown => 1 | AtSrvShutdown => 2
  | InShutdown _ | InSelect _ | Returned _ => 3
  end.

(** Closing the listener failed. *)
Definition close_failed (l : lifecycle) : Prop := exists err, lc_closed l = Some (Some err).

(** The error [Start] has at hand, or has returned *)
Definition start_error (s : start_state) : option error :=
  match s with InShutdown err | InSelect err | Returned err => err | _ => None end.

Record lifecycle_inv (l : lifecycle) : Prop := {
  inv_done : 0 < phase (lc_start l) -> lc_ctx_done l = true;
  inv_ticker : lc_ticker l = bool_decide (phase (lc_start l) < 2);
  inv_down : lc_shutting_down l = bool_decide (2 < phase (lc_start l));
  inv_closed : lc_closed l = Some None -> lc_listening l = false;
  inv_returned : lc_serve l = ServeReturned -> lc_closed l <> None;
  inv_accepting : lc_serve l = Accepting -> lc_shutting_down l = true -> lc_closed l <> None;
  inv_error : forall err, start_error (lc_start l) = Some err ->
    lc_closed l = Some (Some err) \/ lc_start l = Returned (Some context_canceled);
  inv_exit : forall code, lc_exit l = Some code ->
    code = 1%Z /\ exists err, lc_start l = Returned (Some err) }.

Lemma lifecycle_inv_start : lifecycle_inv start.
Proof. split; simpl; (done || lia). Qed.

Lemma close_listener_keeps cerr open l :
  let l' := close_listener cerr open l in
  lc_ctx_done l' = lc_ctx_done l /\ lc_serve l' = lc_serve l /\ lc_start l' = lc_start l /\
  lc_shutting_down l' = lc_shutting_down l /\ lc_ticker l' = lc_ticker l /\ lc_exit l' = lc_exit l /\
  lc_busy l' = lc_busy l.
Proof. unfold close_listener. by destruct (lc_closed l). Qed.

Lemma close_listener_closed cerr open l :
  closes cerr open -> (lc_closed l = Some None -> lc_listening l = false) ->
  let l' := close_listener cerr open l in
  lc_closed l' <> None /\ (lc_closed l' = Some None -> lc_listening l' = false) /\
  (forall err, lc_closed l = Some err -> lc_closed l' = Some err).
Proof.
  intros Hcl Hl. unfold close_listener. destruct (lc_closed l) eqn:Hc; simpl; [by rewrite Hc|].
  split_and!; [done| |done]. intros [= ->]. by apply Hcl.
Qed.

(** A return of [Serve] leaves [Start] where it is. *)
Lemma serve_returned_inv err cerr open l :
  closes cerr open -> lifecycle_inv l -> lifecycle_inv (serve_returned err cerr open l).
Proof.
  intros Hcl [Hdone Htick Hdown Hclosed Hret Hacc Herr Hexit].
  destruct (close_listener_closed cerr open l Hcl Hclosed) as (H1 & H2 & H3).
  destruct (close_listener_keeps cerr open l) as (K1 & K2 & K3 & K4 & K5 & K6 & _).
  assert (lifecycle_inv (set_serve ServeReturned (close_listener cerr open l))) as [].
  { split; simpl; rewrite ?K1, ?K3, ?K4, ?K5, ?K6; try done.
    intros e He. destruct (Herr e He); auto. }
  unfold serve_returned. by destruct err.
Qed.

Lemma srv_shutdown_inv cerr open l :
  closes cerr open -> lc_start l = AtSrvShutdown -> lifecycle_inv l -> lifecycle_inv (srv_shutdown cerr open l).
Proof.
  intros Hcl Hs [Hdone Htick Hdown Hclosed Hret Hacc Herr Hexit].
  assert (lc_exit l = None) as Hrun.
  { destruct (lc_exit l) eqn:He; [|done]. destruct (Hexit _ eq_refl) as (_ & err & ?). congruence. }
  rewrite Hs in *. assert (lc_ctx_done l = true) as Hd by (apply Hdone; simpl; lia).
  unfold srv_shutdown, close_listener. simpl.
  destruct (lc_serve l) eqn:Hserve; [|destruct (lc_closed l) as [c|] eqn:Hc|];
    split; simpl; rewrite ?Hd, ?Hrun, ?Htick, ?Hserve; try done; try by eauto.
  - intros err [= ->]. by left.
  - intros [= ->]. by apply Hcl.
  - intros e ->. by left.
Qed.

Lemma lifecycle_inv_step l l' : running_step l l' -> lifecycle_inv l -> lifecycle_inv l'.
Proof.
  intros [Hrun Hstep] Hinv. destruct Hstep as
    [l H1 H2|l H1 H2|l n H1|l err cerr open H1 H2 H3|l cerr open H1 H2 H3|l|l H1 H2|l H1|l cerr open H1 H2
    |l lnerr H1 H2|l lnerr H1 H2|l lnerr H1|l lnerr H1 H2|l err H1];
    [| | |by apply serve_returned_inv|by apply serve_returned_inv| | | |by apply srv_shutdown_inv|..];
    destruct Hinv as [Hdone Htick Hdown Hclosed Hret Hacc Herr Hexit];
    (split; simpl in *; rewrite ?H1 in *; simpl in *; rewrite ?Hrun; try done; auto with lia).
  - by rewrite H2.
  - intros err He. destruct (Herr err He); [by left|done].
  - intros err He. destruct (Herr err He); [by left|done].
  - intros err He. destruct (Herr err He); [by left|done].
  - intros code [= <-]. eauto.
Qed.

Lemma reaches_inv l : reaches start l -> lifecycle_inv l.
Proof.
  intros Hr. pattern l. eapply rtc_ind_r; [apply lifecycle_inv_start| |exact Hr].
  intros l1 l2 _ Hstep. by apply lifecycle_inv_step.
Qed.

(** ** What is promised, and what is not *)

(** C30.  Stopping the server, in every reachable state: [Start] returns only
    after its context is done, with the limiter stopped; from then on no
    connection is accepted, unless closing the listener failed; the listener
    itself is still open then only if closing it failed or [Serve] has not
    begun, so that the server does not know it; the error [Start] returns is
    the context's or that of closing the listener, and an error is what makes
    the goroutine of main.go end the process, with status 1.  It does not wait
    for requests: it returns nil only from a look at the connections that finds
    none busy, and after a look that finds one it can return the context's
    error at once, whatever the request does. *)
Theorem start_result l :
  reaches start l ->
  (forall err, lc_start l = Returned err ->
     lc_ctx_done l = true /\ lc_ticker l = false /\
     (lc_listening l = true -> lc_serve l = ServeNotYet \/ close_failed l) /\
     (forall l', running_step l l' -> lc_busy l < lc_busy l' -> close_failed l) /\
     (err = None \/ err = Some context_canceled \/ (err <> None /\ lc_closed l = Some err))) /\
  (forall l', running_step l l' -> lc_start l' <> lc_start l ->
     (lc_start l' = Returned None <-> lc_start l = InShutdown None /\ lc_busy l = 0)) /\
  (forall lnerr, lc_start l = InSelect lnerr -> lc_exit l = None -> exists l', running_step l l' /\
     lc_start l' = Returned (Some context_canceled) /\ lc_busy l' = lc_busy l) /\
  (forall code, lc_exit l = Some code -> code = 1%Z /\ exists err, lc_start l = Returned (Some err)).
Proof.
  intros Hr. apply reaches_inv in Hr as [Hdone Htick Hdown Hclosed Hret Hacc Herr Hexit].
  assert (lc_listening l = true -> lc_closed l <> None -> close_failed l) as Hfailed.
  { intros Hl Hc. destruct (lc_closed l) as [[e|]|] eqn:He; [by exists e|by rewrite Hclosed in Hl|done]. }
  split_and!; [| | |done].
  - intros err Hs. rewrite Hs in *. simpl in *.
    split_and!; [apply Hdone; lia|done| | |].
    + intros Hl. destruct (lc_serve l); [by left|right; auto..].
    + intros l' [_ Hstep] Hlt. inversion Hstep; subst; simpl in *; try lia; auto.
      * unfold serve_failed, serve_returned in Hlt. simpl in Hlt.
        destruct (close_listener_keeps cerr open l) as (_ & _ & _ & _ & _ & _ & K). lia.
      * unfold server_closed, serve_returned in Hlt. simpl in Hlt.
        destruct (close_listener_keeps cerr open l) as (_ & _ & _ & _ & _ & _ & K). lia.
      * congruence.
    + destruct err as [err|]; [|by left]. right. destruct (Herr err eq_refl) as [Hc|[= ->]]; auto.
  - intros l' [_ Hstep] Hne. destruct Hstep; simpl in *; try congruence;
      try (split; [intros ?|intros [? ?]]; congruence || done).
    + by destruct (close_listener_keeps cerr open l) as (_ & _ & K & _).
    + by destruct (close_listener_keeps cerr open l) as (_ & _ & K & _).
    + split; [|intros [? _]; congruence]. unfold srv_shutdown. simpl. by destruct (lc_serve l).
    + split; [intros [= ->]; done|intros [? ?]; congruence].
  - intros lnerr Hs Hrun. eexists. split; [split; [done|]|].
    + eapply step_ctx_done; [exact Hs|]. apply Hdone. rewrite Hs. simpl. lia.
    + done.
Qed.

(** [Start] can return nil with its listener open: when the context is done
    before the goroutine has called [Serve]; that call then closes it. *)
Theorem returns_with_listener_open : exists l,
  reaches start l /\ lc_start l = Returned None /\ lc_listening l = true /\
  forall l', running_step l l' -> lc_listening l' = false -> lc_serve l' = ServeReturned.
Proof.
  exists (set_start (Returned None) (srv_shutdown None false (limiter_shutdown (set_start AtLimiterShutdown (cancel start))))).
  split_and!; [|done|done|].
  - eapply rtc_l; [split; [done|apply step_cancel]|]. eapply rtc_l; [split; [done|by apply step_done]|].
    eapply rtc_l; [split; [done|by apply step_limiter]|].
    eapply rtc_l; [split; [done|by apply (step_srv_shutdown _ None false)]|].
    eapply rtc_l; [split; [done|by apply (step_all_idle _ None)]|]. apply rtc_refl.
  - intros l' [_ Hstep] Hl. inversion Hstep; subst; simpl in *; done.
Qed.

(** After [Serve] has failed nothing is accepted any more, and as long as the
    context lives the process goes on without its webhooks: [Start] does not
    return and the process does not end. *)
Definition no_webhooks (l : lifecycle) : Prop :=
  lc_serve l = ServeReturned /\ lc_start l = AwaitDone /\ lc_exit l = None.

Lemma no_webhooks_step l l' :
  running_step l l' -> lc_ctx_done l' = false -> no_webhooks l -> lc_ctx_done l = false ->
  no_webhooks l' /\ lc_busy l' <= lc_busy l.
Proof.
  intros [_ Hstep] Hctx' (H1 & H2 & H3) Hctx. unfold no_webhooks.
  destruct Hstep; simpl in *; try congruence; split_and!; done || lia.
Qed.

Lemma ctx_done_kept l l' : running_step l l' -> lc_ctx_done l = true -> lc_ctx_done l' = true.
Proof.
  intros [_ Hstep] Hctx. destruct Hstep; simpl in *; try done.
  - by destruct (close_listener_keeps cerr open l) as (-> & _).
  - by destruct (close_listener_keeps cerr open l) as (-> & _).
  - unfold srv_shutdown, close_listener. simpl. by destruct (lc_serve l), (lc_closed l).
Qed.

(** A listener that fails is only logged: from then on, until the
    context is cancelled, [Start] does not return, the process does not end,
    and no further connection is accepted. *)
Theorem serve_failure_unnoticed l err cerr open l' :
  reaches start l -> lc_serve l = Accepting -> lc_start l = AwaitDone -> lc_exit l = None ->
  reaches (serve_failed err cerr open l) l' -> lc_ctx_done l' = false ->
  no_webhooks l' /\ lc_busy l' <= lc_busy l.
Proof.
  intros _ _ Hs He Hr.
  destruct (close_listener_keeps cerr open l) as (_ & _ & K3 & _ & _ & K6 & K7).
  pattern l'. eapply rtc_ind_r; [| |exact Hr].
  - intros _. unfold no_webhooks, serve_failed, serve_returned. simpl. rewrite K3, K6, K7. by split_and!.
  - intros l1 l2 _ Hstep IH Hctx.
    assert (lc_ctx_done l1 = false) as Hctx1.
    { destruct (lc_ctx_done l1) eqn:Hc; [|done]. rewrite (ctx_done_kept _ _ Hstep Hc) in Hctx. done. }
    destruct (IH Hctx1) as [Hno Hb].
    destruct (no_webhooks_step l1 l2 Hstep Hctx Hno Hctx1) as [Hno' Hb']. split; [done|lia].
Qed.

(** ** A shutdown with a request in flight, of a listener that fails to close *)
Definition close_err : error := errorf "close tcp: input/output error".

Definition in_flight : lifecycle :=
  set_start (InSelect (Some close_err))
    (srv_shutdown (Some close_err) false
      (limiter_shutdown (set_start AtLimiterShutdown (cancel (set_busy 1 (set_serve Accepting start)))))).

Lemma in_flight_reaches : reaches start in_flight.
Proof.
  eapply rtc_l; [split; [done|by apply step_serve]|]. eapply rtc_l; [split; [done|by apply step_accept]|].
  eapply rtc_l; [split; [done|apply step_cancel]|]. eapply rtc_l; [split; [done|by apply step_done]|].
  eapply rtc_l; [split; [done|by apply step_limiter]|].
  eapply rtc_l; [split; [done|by apply (step_srv_shutdown _ (Some close_err) false)]|].
  eapply rtc_l; [split; [done|by apply step_some_busy]|]. apply rtc_refl.
Qed.

Lemma start_result_witness :
  lc_busy in_flight = 1 /\ lc_closed in_flight = Some (Some close_err) /\
  exists l', running_step in_flight l' /\
    lc_start l' = Returned (Some context_canceled) /\ lc_busy l' = lc_busy in_flight.
Proof.
  split; [reflexivity|]. split; [reflexivity|].
  apply (start_result in_flight in_flight_reaches) with (lnerr := Some close_err); reflexivity.
Defined.

Lemma serve_failure_unnoticed_witness :
  let l := set_serve Accepting start in
  let err := errorf "accept tcp: too many open files" in
  no_webhooks (serve_failed err None false l) /\ lc_busy (serve_failed err None false l) <= lc_busy l.
Proof.
  apply (serve_failure_unnoticed (set_serve Accepting start) (errorf "accept tcp: too many open files") None false);
    try reflexivity.
  eapply rtc_l; [split; [done|by apply step_serve]|apply rtc_refl].
Defined.
