(* ===== verification/Setup.v ===== *)
(** * Start-up (main.go, the SetupWithManager methods, the setup of the caches,
      the start of the garbage collector)

    The wiring of the program as programs over the calls it makes to the
    manager of controller-runtime; the values handed over (indexing functions,
    reconcilers, the promotion server) are the definitions of the other
    files.  [process_step] runs [main] beside the goroutine it starts for the
    promotion server, whose [Start] is the one of Lifecycle.v. *)

From S2P Require Import Lifecycle.
From S2P Require Export Server Protocol LevelController Caches.

(** ** What start-up hands to the manager *)
Inductive runnable := RunnerRunnable | GCRunnable.

(** A controller as [ctrl.NewControllerManagedBy(mgr)...Complete(r)] gets it:
    the map function of the watch on GitopsClusters, whether it watches the
    channel of application events, the reconciler *)
Record controller := MkController {
  ct_cluster_requests : ObjectKey -> io (list ObjectKey);
  ct_app_events : bool;
  ct_Reconcile : ObjectKey -> io (Result * option error) }.

(** [schema.GroupVersion] *)
Record GroupVersion := MkGroupVersion { gv_Group : string; gv_Version : string }.

Inductive mgr : Type -> Type :=
  | AddToScheme (gv : GroupVersion) : mgr (res unit)
  | NewManager (metricsAddr probeAddr : string) (leaderElection : bool) (leaderElectionID : string) :
      mgr (res unit)
  | NewRecorder (eventsAddr name : string) : mgr (res unit)
  | MgrAdd (r : runnable) : mgr (res unit)
  | IndexField (key : string) (fn : Pipeline -> list string) : mgr (res unit)
  | GetEventRecorderFor (name : string) : mgr unit
  | Complete (c : controller) : mgr (res unit)
  | AddHealthzCheck (name : string) : mgr (res unit)
  | AddReadyzCheck (name : string) : mgr (res unit)
  | SetupSignalHandler : mgr unit
  | Listen (addr : string) : mgr (res unit)
  | GoStart (s : PromotionServer) : mgr unit
  | MgrStart : mgr (res unit)
  (* the goroutine of [GoStart] *)
  | ServerStart (s : PromotionServer) : mgr (option error)
  | OsExit (code : Z) : mgr unit
  (* the collector's goroutine, its context and its queue *)
  | GoLoop (round : io bool) : mgr unit
  | CtxDone : mgr unit
  | QueueShutDown : mgr unit.

(** ** The garbage collector's start *)

(** [gc]: the two pointers [Start] looks at and the queue's rate limiter *)
Record gc := MkGC { gc_caches : bool; gc_queue : option (Z * Z) }.

Definition newGC : gc := MkGC true (Some (2 * time_Second, 512 * time_Second)%Z).

(** [gc.Start]; the loop runs [gc_round] until the queue shuts down. *)
Definition gc_Start `{ApiMachinery} (g : gc) : prog mgr (res unit) :=
  if negb (gc_caches g) || bool_decide (gc_queue g = None)
  then mret (Err (errorf "neither of caches nor queue can be nil"))
  else
    trigger (GoLoop gc_round);;
    trigger CtxDone;;
    trigger QueueShutDown;;
    mret (Ok tt).

(** ** Setting up the reconcilers *)
Section setup.
Context `{ApiMachinery}.

Definition err_index (err : error) : error := wrapf "failed setting index fields: " err.

(** caching.go: [setupWithManager] *)
Definition caches_setupWithManager : prog mgr (res unit) :=
  call _ <- trigger (MgrAdd RunnerRunnable) onerr err => mret (Err err);
  call _ <- trigger (MgrAdd GCRunnable) onerr err => mret (Err err);
  call _ <- trigger (IndexField cacheIndex indexTargetCache) onerr err => mret (Err (err_index err));
  call _ <- trigger (IndexField applicationKey indexApplication) onerr err => mret (Err (err_index err));
  mret (Ok tt).

(** The recorder is asked for when none was given. *)
Definition ensure_recorder (r : PipelineReconciler) : prog mgr PipelineReconciler :=
  if pr_recorder r then mret r
  else trigger (GetEventRecorderFor (pr_ControllerName r));;
       mret (MkPipelineReconciler (pr_ControllerName r) true).

(** leveltriggered/controller.go: [SetupWithManager]; an error of the caches'
    setup is dropped. *)
Definition level_SetupWithManager (r : PipelineReconciler) (stratReg : StrategyRegistry) :
    prog mgr (res unit) :=
  call _ <- caches_setupWithManager onerr err => mret (Ok tt);
  call _ <- trigger (IndexField gitopsClusterIndexKey (Level.indexClusterKind "GitopsCluster"))
    onerr err => mret (Err (err_index err));
  r ← ensure_recorder r;
  trigger (Complete (MkController (Level.requestsForCluster gitopsClusterIndexKey) true
                       (LevelController.Reconcile r stratReg))).

(** controllers/pipeline_controller.go: [SetupWithManager] *)
Definition edge_SetupWithManager (r : PipelineReconciler) : prog mgr (res unit) :=
  call _ <- trigger (IndexField gitopsClusterIndexKey (EdgeController.indexClusterKind "GitopsCluster"))
    onerr err => mret (Err (err_index err));
  r ← ensure_recorder r;
  trigger (Complete (MkController (EdgeController.requestsForCluster gitopsClusterIndexKey) false
                       (EdgeController.Reconcile r))).
End setup.

(** ** main.go *)
Definition controllerName := "pipeline-controller".

(** The flags with their defaults *)
Record flags := MkFlags {
  useLevelTriggeredController : bool;
  metricsAddr : string;
  eventsAddr : string;
  probeAddr : string;
  promServerAddr : string;
  enableLeaderElection : bool;
  promotionRateLimit : Z;
  promotionRateLimitIntervalSeconds : Z;
  promotionRetryDelaySeconds : Z;
  promotionRetryMaxDelaySeconds : Z;
  promotionRetryFailureThreshold : Z }.

Definition DefaultRetryDelay : Z := 2.
Definition DefaultRetryMaxDelay : Z := 20.
Definition DefaultRetryThreshold : Z := 3.

Definition default_flags : flags :=
  MkFlags false ":8080" "" ":8081" ":8082" false DefaultRateLimitCount DefaultRateLimitInterval
    DefaultRetryDelay DefaultRetryMaxDelay DefaultRetryThreshold.

(** groupversion_info.go *)
Definition v1alpha1_GroupVersion := MkGroupVersion "pipelines.weave.works" "v1alpha1".

(** [utilruntime.Must] *)
Definition Must (m : prog mgr (res unit)) : prog mgr unit :=
  r ← m; match r with Ok _ => mret tt | Err err => PPanic (Error err) end.

Section main.
Context `{ApiMachinery} `{GitLibs} (decode_event : string -> res Event).
(** The groups of client-go's scheme and of the cluster controller's *)
Context (clientgoscheme clusterctrl : GroupVersion).

Definition init : prog mgr unit :=
  Must (trigger (AddToScheme clientgoscheme));;
  Must (trigger (AddToScheme v1alpha1_GroupVersion));;
  Must (trigger (AddToScheme clusterctrl)).

(** The server's configuration, and [NewPromotionServer] with its call *)
Definition server_opts (fl : flags) (stratReg : StrategyRegistry) : list Opt :=
  main_opts (promotionRateLimit fl) (promotionRateLimitIntervalSeconds fl)
    (promotionRetryDelaySeconds fl) (promotionRetryMaxDelaySeconds fl)
    (promotionRetryFailureThreshold fl) (promServerAddr fl) stratReg.

Definition new_server (opts : list Opt) : prog mgr (res PromotionServer) :=
  match NewPromotionServer_opts decode_event false opts with
  | Err err => mret (Err err)
  | Ok s =>
      listening ← trigger (Listen (ps_addr s));
      mret (NewPromotionServer decode_event (fun _ => listening) false opts)
  end.

(** The reconciler of the chosen mode *)
Definition setup_controller (fl : flags) (stratReg : StrategyRegistry) : prog mgr (res unit) :=
  if useLevelTriggeredController fl
  then level_SetupWithManager (MkPipelineReconciler controllerName true) stratReg
  else edge_SetupWithManager (MkPipelineReconciler controllerName false).

(** The goroutine around [promServer.Start]; [GoStart] starts it. *)
Definition start_goroutine (s : PromotionServer) : prog mgr unit :=
  err ← trigger (ServerStart s);
  match err with
  | Some _ => trigger (OsExit 1)
  | None => mret tt
  end.

(** [main] after the flags are parsed; the value is the status it ends the
    process with, if its goroutine does not do so before. *)
Definition main (fl : flags) : prog mgr Z :=
  call _ <- trigger (NewManager (metricsAddr fl) (probeAddr fl) (enableLeaderElection fl)
                       (controllerName +:+ "-leader-election")) onerr err => mret 1%Z;
  match main_strategies with
  | Err err => mret 1%Z
  | Ok stratReg =>
      call _ <- trigger (NewRecorder (eventsAddr fl) controllerName) onerr err => mret 1%Z;
      call _ <- setup_controller fl stratReg onerr err => mret 1%Z;
      call _ <- trigger (AddHealthzCheck "healthz") onerr err => mret 1%Z;
      call _ <- trigger (AddReadyzCheck "readyz") onerr err => mret 1%Z;
      trigger SetupSignalHandler;;
      call s <- new_server (server_opts fl stratReg) onerr err => mret 1%Z;
      trigger (GoStart s);;
      call _ <- trigger MgrStart onerr err => mret 1%Z;
      mret 0%Z
  end.
End main.

(** ** What start-up establishes *)

(** The call failed. *)
Definition mgr_error {X} (e : mgr X) : X -> option error :=
  match e in mgr X return X -> option error with
  | AddToScheme _ | NewManager _ _ _ _ | NewRecorder _ _ | MgrAdd _ | IndexField _ _ | Complete _
  | AddHealthzCheck _ | AddReadyzCheck _ | Listen _ | MgrStart => fun r =>
      match r with Err err => Some err | Ok _ => None end
  | _ => fun _ => None
  end.

Definition ev_failed (ev : event mgr) : bool :=
  match ev with Ev e x => bool_decide (mgr_error e x <> None) end.

(** The calls of [caches.setupWithManager] *)
Definition is_caches_call (ev : event mgr) : bool :=
  match ev with
  | Ev e _ => match e with
              | MgrAdd _ => true
              | IndexField key _ => bool_decide (key = cacheIndex) || bool_decide (key = applicationKey)
              | _ => false
              end
  end.

Definition ev_IndexField (ev : event mgr) : option (string * (Pipeline -> list string)) :=
  match ev with Ev e _ => match e with IndexField k fn => Some (k, fn) | _ => None end end.

Definition ev_Complete (ev : event mgr) : option controller :=
  match ev with Ev e _ => match e with Complete c => Some c | _ => None end end.

Definition ev_MgrAdd (ev : event mgr) : option runnable :=
  match ev with Ev e _ => match e with MgrAdd r => Some r | _ => None end end.

Section established.
Context `{ApiMachinery}.

(** Every index the level-triggered controller looks things up in holds the
    keys its lookups print, the caches' two runnables are added, and the
    reconciler runs. *)
Record level_ready (r : PipelineReconciler) (stratReg : StrategyRegistry) (tr : list (event mgr)) : Prop := {
  ready_runnables : omap ev_MgrAdd tr = [RunnerRunnable; GCRunnable];
  ready_indices : omap ev_IndexField tr =
    [(cacheIndex, indexTargetCache); (applicationKey, indexApplication);
     (gitopsClusterIndexKey, EdgeController.indexClusterKind "GitopsCluster")];
  ready_controller : exists r', omap ev_Complete tr =
      [MkController (Level.requestsForCluster gitopsClusterIndexKey) true (LevelController.Reconcile r' stratReg)] /\
    pr_ControllerName r' = pr_ControllerName r /\ pr_recorder r' = true }.

(** Calls of the part that sets the controller up *)
Definition setup_call (ev : event mgr) : bool :=
  match ev with
  | Ev e _ => match e with
              | MgrAdd _ | IndexField _ _ | GetEventRecorderFor _ | Complete _ => true
              | _ => false
              end
  end.

(** The setup stopped at a failure of the caches' setup, which it does not
    report. *)
Definition caches_failed (tr : list (event mgr)) : Prop :=
  exists tr' ev, tr = tr' ++ [ev] /\ Forall (fun ev => ev_failed ev = false) tr' /\
    ev_failed ev = true /\ is_caches_call ev = true /\ omap ev_Complete tr = [].

Lemma level_setup_runs r stratReg :
  wp (level_SetupWithManager r stratReg) (fun tr o => Forall (fun ev => setup_call ev = true) tr /\
    exists ret, o = Done ret /\ (ret = Ok tt ->
      (level_ready r stratReg tr /\ Forall (fun ev => ev_failed ev = false) tr) \/ caches_failed tr)).
Proof.
  unfold level_SetupWithManager, caches_setupWithManager, caches_failed.
  cbn. intros [[]|err]; cbn.
  2: { split; [by repeat constructor|]. eexists. split; [done|]. intros _. right.
       exists [], (Ev (MgrAdd RunnerRunnable) (Err err)). by split_and!. }
  intros [[]|err]; cbn.
  2: { split; [by repeat constructor|]. eexists. split; [done|]. intros _. right.
       eexists [_], _. split_and!; (done || by repeat constructor). }
  intros [[]|err]; cbn.
  2: { split; [by repeat constructor|]. eexists. split; [done|]. intros _. right.
       eexists [_; _], _. split_and!; (done || by repeat constructor). }
  intros [[]|err]; cbn.
  2: { split; [by repeat constructor|]. eexists. split; [done|]. intros _. right.
       eexists [_; _; _], _. split_and!; (done || by repeat constructor). }
  intros [[]|err]; cbn; [|split; [by repeat constructor|by eexists]]. unfold ensure_recorder.
  destruct r as [name [|]]; cbn; [|intros []]; intros [[]|err]; (split; [by repeat constructor|]);
    eexists; (split; [done|]); intros Hdone; simplify_eq; left;
    (split; [split; cbn; [done..|by eexists]|by repeat constructor]).
Qed.

(** Setting up the level-triggered controller without an error means
    that it runs with its indices and runnables, or that the setup of the
    caches failed: that error is dropped, and then no controller was set up
    at all. *)
Theorem level_setup_drops_error r stratReg :
  wp (level_SetupWithManager r stratReg) (fun tr o => o = Done (Ok tt) ->
    (level_ready r stratReg tr /\ Forall (fun ev => ev_failed ev = false) tr) \/ caches_failed tr).
Proof.
  eapply wp_mono; [|apply level_setup_runs]. intros tr o (_ & ret & -> & Hret) [= ->]. by apply Hret.
Qed.
End established.

Definition ev_GoStart (ev : event mgr) : option PromotionServer :=
  match ev with Ev e _ => match e with GoStart s => Some s | _ => None end end.

(** The answers of listening and of the manager's run *)
Definition ev_Listen (ev : event mgr) : option (string * res unit) :=
  match ev with
  | Ev e x => match e in mgr X return X -> option (string * res unit) with
              | Listen addr => fun r => Some (addr, r)
              | _ => fun _ => None
              end x
  end.

Definition ev_MgrStart (ev : event mgr) : option (res unit) :=
  match ev with
  | Ev e x => match e in mgr X return X -> option (res unit) with
              | MgrStart => fun r => Some r
              | _ => fun _ => None
              end x
  end.

(** ** The process

    [main] and the goroutine it starts run side by side; the process ends with
    the first that ends it.  A panic ends it with status 2. *)
Inductive goroutine := Main | Starter.

Inductive process :=
  | Running (m : prog mgr Z) (g : option (prog mgr unit))
  | Exited (code : Z).

(** [Start] of promotion_server.go returns [err] (Lifecycle.v). *)
Definition start_returns (err : option error) : Prop :=
  exists l, Lifecycle.reaches Lifecycle.start l /\ lc_start l = Returned err.

Inductive process_step : process -> list (goroutine * event mgr) -> process -> Prop :=
  | main_call m ev m' g : prog_step m ev m' -> ev_GoStart ev = None ->
      process_step (Running m g) [(Main, ev)] (Running m' g)
  | main_go m s m' : prog_step m (Ev (GoStart s) tt) m' ->
      process_step (Running m None) [(Main, Ev (GoStart s) tt)] (Running m' (Some (start_goroutine s)))
  | server_start m g s err g' : prog_step g (Ev (ServerStart s) err) g' -> start_returns err ->
      process_step (Running m (Some g)) [(Starter, Ev (ServerStart s) err)] (Running m (Some g'))
  | goroutine_exit m g code g' : prog_step g (Ev (OsExit code) tt) g' ->
      process_step (Running m (Some g)) [(Starter, Ev (OsExit code) tt)] (Exited code)
  | main_return code g : process_step (Running (PRet code) g) [] (Exited code)
  | main_panic why g : process_step (Running (PPanic why) g) [] (Exited 2).

(** The calls of one goroutine *)
Definition call_of (w : goroutine) (x : goroutine * event mgr) : option (event mgr) :=
  match w, x with
  | Main, (Main, ev) | Starter, (Starter, ev) => Some ev
  | _, _ => None
  end.
Definition calls_of (w : goroutine) (tr : list (goroutine * event mgr)) : list (event mgr) :=
  omap (call_of w) tr.

Definition ev_OsExit (ev : event mgr) : option Z :=
  match ev with Ev e _ => match e with OsExit code => Some code | _ => None end end.

Definition ev_ServerStart (ev : event mgr) : option (PromotionServer * option error) :=
  match ev with
  | Ev e x => match e in mgr X return X -> option (PromotionServer * option error) with
              | ServerStart s => fun err => Some (s, err)
              | _ => fun _ => None
              end x
  end.

(** [main] is at [mgr.Start]. *)
Definition at_MgrStart (m : prog mgr Z) : Prop := exists ret m', prog_step m (Ev MgrStart ret) m'.

Lemma prog_step_inv {A} (p : prog mgr A) ev p' :
  prog_step p ev p' ->
  match p with PVis e k => exists x, ev = Ev e x /\ p' = k x | _ => False end.
Proof. intros Hs. destruct Hs. eauto. Qed.

Lemma calls_of_app w tr tr' : calls_of w (tr ++ tr') = calls_of w tr ++ calls_of w tr'.
Proof. apply omap_app. Qed.

Lemma calls_of_main tr : calls_of Starter tr = [] -> tr = (fun ev => (Main, ev)) <$> calls_of Main tr.
Proof. induction tr as [|[[] ev] tr IH]; simpl; [done| |done]. intros Htr. f_equal. by apply IH. Qed.

(** Where the first element with a property stands is unique. *)
Lemma first_unique {A B} (f : A -> option B) pre pre' x x' post post' :
  omap f pre = [] -> omap f pre' = [] -> f x <> None -> f x' <> None ->
  pre ++ x :: post = pre' ++ x' :: post' -> pre = pre' /\ x = x' /\ post = post'.
Proof.
  intros Hpre Hpre' Hx Hx'. revert pre' Hpre'.
  induction pre as [|y pre IH]; intros [|y' pre'] Hpre' Heq; simpl in *; injection Heq as <- Hrest.
  - done.
  - by destruct (f x).
  - by destruct (f y).
  - destruct (f y); [done|]. by destruct (IH Hpre pre' Hpre' Hrest) as (-> & -> & ->).
Qed.

(** The outside can always answer. *)
Lemma mgr_runs {A} (p : prog mgr A) : exists tr o, runs p tr o.
Proof.
  induction p as [a|why|X e k IH]; [by eexists _, _; constructor..|].
  assert (exists x : X, True) as [x _].
  { by destruct e; solve [exists tt; done|exists (Ok tt); done|exists None; done]. }
  destruct (IH x) as (tr & o & Hr). eexists _, _. by constructor.
Qed.

Section main_sound.
Context `{ApiMachinery} `{GitLibs} (decode_event : string -> res Event).

(** The edge-triggered controller runs with its index. *)
Definition edge_ready (r : PipelineReconciler) (tr : list (event mgr)) : Prop :=
  omap ev_IndexField tr = [(gitopsClusterIndexKey, EdgeController.indexClusterKind "GitopsCluster")] /\
  omap ev_Complete tr =
    [MkController (EdgeController.requestsForCluster gitopsClusterIndexKey) false (EdgeController.Reconcile r)] /\
  pr_recorder r = true.

(** A failure that start-up does not report *)
Definition dropped (fl : flags) (ev : event mgr) : Prop :=
  useLevelTriggeredController fl = true /\ is_caches_call ev = true.

(** What runs after the controller of the chosen mode was set up *)
Definition controller_ready (fl : flags) (stratReg : StrategyRegistry) (tr : list (event mgr)) : Prop :=
  if useLevelTriggeredController fl
  then level_ready (MkPipelineReconciler controllerName true) stratReg tr \/
       (omap ev_Complete tr = [] /\ Exists (fun ev => ev_failed ev = true /\ dropped fl ev) tr)
  else edge_ready (MkPipelineReconciler controllerName true) tr.

Lemma setup_controller_runs fl stratReg :
  wp (setup_controller fl stratReg) (fun tr o => Forall (fun ev => setup_call ev = true) tr /\
    exists ret, o = Done ret /\
    (ret = Ok tt -> controller_ready fl stratReg tr /\
       Forall (fun ev => ev_failed ev = true -> dropped fl ev) tr)).
Proof.
  unfold setup_controller, controller_ready, dropped. destruct (useLevelTriggeredController fl) eqn:Hfl.
  - eapply wp_mono; [|apply level_setup_runs]. cbv beta. intros tr o (Hcalls & ret & -> & Hret).
    split; [done|]. exists ret. split; [done|]. intros Hok.
    destruct (Hret Hok) as [[Hready Hnone]|(tr' & ev & -> & Hnone & Hev & Hcaches & Hcomplete)].
    + split; [by left|]. eapply Forall_impl; [exact Hnone|]. cbv beta. congruence.
    + split.
      * right. split; [done|]. apply Exists_app. right. by constructor.
      * apply Forall_app. split; [|by repeat constructor].
        eapply Forall_impl; [exact Hnone|]. cbv beta. congruence.
  - cbn. intros [[]|err]; cbn; [|split; [by repeat constructor|by eexists]].
    intros [] [[]|err]; cbn; (split; [by repeat constructor|]); eexists; (split; [done|]); [|done].
    intros _. split; [by split_and!|]. by repeat constructor.
Qed.

(** The server main.go starts: its own handlers with its own strategies *)
Lemma server_opts_config fl stratReg : exists s,
  NewPromotionServer_opts decode_event false (server_opts fl stratReg) = Ok s /\
  own_handlers decode_event s /\ ps_stratReg s = stratReg.
Proof. eexists. split; [reflexivity|]. by split. Qed.

(** What must have happened before [main] listens and starts the server [s] *)
Record started (fl : flags) (pre : list (event mgr)) (s : PromotionServer) : Prop := {
  started_strategies : main_strategies = Ok (ps_stratReg s);
  started_handlers : own_handlers decode_event s;
  started_controller : controller_ready fl (ps_stratReg s) pre;
  started_failures : Forall (fun ev => ev_failed ev = true -> dropped fl ev) pre }.

Lemma omap_none {A B} (P : A -> Prop) (f : A -> option B) l :
  (forall x, P x -> f x = None) -> Forall P l -> omap f l = [].
Proof. intros Hf Hl. induction Hl as [|x l Hx _ IH]; [done|]. simpl. by rewrite Hf. Qed.

Lemma setup_calls_silent tr :
  Forall (fun ev => setup_call ev = true) tr ->
  omap ev_GoStart tr = [] /\ omap ev_Listen tr = [] /\ omap ev_MgrStart tr = [].
Proof.
  intros Htr. split_and!; (eapply omap_none; [|exact Htr]); intros [X e x]; by destruct e.
Qed.

Lemma controller_ready_around fl stratReg pre tr post :
  Forall (fun ev => setup_call ev = false) pre -> Forall (fun ev => setup_call ev = false) post ->
  controller_ready fl stratReg tr -> controller_ready fl stratReg (pre ++ tr ++ post).
Proof.
  intros Hpre Hpost.
  assert (forall B (f : event mgr -> option B), (forall ev, setup_call ev = false -> f ev = None) ->
    omap f (pre ++ tr ++ post) = omap f tr) as Homap.
  { intros B f Hf. rewrite !omap_app, (omap_none _ f pre Hf Hpre), (omap_none _ f post Hf Hpost).
    by rewrite app_nil_r. }
  assert (forall ev, setup_call ev = false ->
    ev_IndexField ev = None /\ ev_Complete ev = None /\ ev_MgrAdd ev = None) as Hno.
  { intros [X e x]. by destruct e. }
  unfold controller_ready, edge_ready. destruct (useLevelTriggeredController fl).
  - intros [[Ha Hi Hc]|[Hc Hex]]; [left; split|right; split].
    + rewrite Homap; [done|apply Hno].
    + rewrite Homap; [done|apply Hno].
    + rewrite Homap; [done|apply Hno].
    + rewrite Homap; [done|apply Hno].
    + rewrite !Exists_app. auto.
  - by rewrite !Homap by apply Hno.
Qed.

(** What a run of [main] is: it ends with status 1 before it starts the
    server, or it starts it, then the manager, and ends as the manager's run
    does. *)
Inductive main_post (fl : flags) : list (event mgr) -> outcome Z -> Prop :=
  | main_gave_up tr : omap ev_GoStart tr = [] -> omap ev_MgrStart tr = [] -> main_post fl tr (Done 1%Z)
  | main_ran pre s ret :
      started fl pre s -> omap ev_GoStart pre = [] -> omap ev_MgrStart pre = [] ->
      main_post fl (pre ++ [Ev (Listen (ps_addr s)) (Ok tt); Ev (GoStart s) tt; Ev MgrStart ret])
        (Done (if ret is Ok _ then 0 else 1)%Z).

Lemma main_runs fl : wp (main decode_event fl) (main_post fl).
Proof.
  destruct main_strategies_spec as (stratReg & Hstrat & _). unfold main. rewrite Hstrat.
  rewrite wp_bind, wp_trigger. intros [[]|err]; cbn [wp_then]; [|by apply main_gave_up].
  rewrite wp_bind, wp_trigger. intros [[]|err]; cbn [wp_then]; [|by apply main_gave_up].
  rewrite wp_bind. eapply wp_mono; [|apply setup_controller_runs]. cbv beta.
  intros tr1 o (Hcalls & ret & -> & Hret). cbn [wp_then].
  destruct (setup_calls_silent _ Hcalls) as (Hgo & Hlisten & Hmgr).
  assert (forall pre post, omap ev_GoStart pre = [] -> omap ev_MgrStart pre = [] ->
    omap ev_GoStart post = [] -> omap ev_MgrStart post = [] ->
    main_post fl (pre ++ tr1 ++ post) (Done 1%Z)) as Hexit.
  { intros pre post H1 H2 H3 H4. apply main_gave_up; rewrite !omap_app;
      [by rewrite H1, Hgo, H3|by rewrite H2, Hmgr, H4]. }
  destruct ret as [[]|err]; [|by apply (Hexit [_; _] [])].
  destruct (Hret eq_refl) as [Hready Hfailed].
  destruct (server_opts_config fl stratReg) as (s & Hs & Hown & <-).
  rewrite wp_bind, wp_trigger. intros [[]|err]; cbn [wp_then]; [|by apply (Hexit [_; _] [_])].
  rewrite wp_bind, wp_trigger. intros [[]|err]; cbn [wp_then]; [|by apply (Hexit [_; _] [_; _])].
  rewrite wp_bind, wp_trigger. intros []; cbn [wp_then].
  rewrite wp_bind. unfold new_server, NewPromotionServer. rewrite Hs, wp_bind, wp_trigger.
  intros [[]|err]; cbn [wp_then wp mret prog_ret mbind res_bind];
    [|by apply (Hexit [_; _] [_; _; _; _])].
  rewrite wp_bind, wp_trigger. intros []. cbn [wp_then]. rewrite wp_bind, wp_trigger. intros ret.
  set (pre := [Ev (NewManager (metricsAddr fl) (probeAddr fl) (enableLeaderElection fl)
                     (controllerName +:+ "-leader-election")) (Ok tt);
               Ev (NewRecorder (eventsAddr fl) controllerName) (Ok tt)] ++
              tr1 ++ [Ev (AddHealthzCheck "healthz") (Ok tt); Ev (AddReadyzCheck "readyz") (Ok tt);
                      Ev SetupSignalHandler tt]).
  assert (main_post fl (pre ++ [Ev (Listen (ps_addr s)) (Ok tt); Ev (GoStart s) tt; Ev MgrStart ret])
            (Done (if ret is Ok _ then 0 else 1)%Z)) as Hrun.
  { apply main_ran; [split| |]; try done; unfold pre.
    - apply controller_ready_around; [by repeat constructor..|done].
    - rewrite !Forall_app. split_and!; [by repeat constructor|done|by repeat constructor].
    - rewrite !omap_app. by rewrite Hgo.
    - rewrite !omap_app. by rewrite Hmgr. }
  unfold pre in Hrun. rewrite <- !app_assoc in Hrun. destruct ret as [[]|err]; exact Hrun.
Qed.

(** *** The two goroutines *)

Inductive process_runs (fl : flags) : list (goroutine * event mgr) -> process -> Prop :=
  | process_begins : process_runs fl [] (Running (main decode_event fl) None)
  | process_goes tr p tr' p' : process_runs fl tr p -> process_step p tr' p' ->
      process_runs fl (tr ++ tr') p'.

(** What the goroutine has done *)
Definition starter_inv (s : PromotionServer) (calls : list (event mgr)) (g : prog mgr unit) : Prop :=
  (calls = [] /\ g = start_goroutine s) \/
  exists err, calls = [Ev (ServerStart s) err] /\ start_returns err /\
    g = if err is Some _ then trigger (OsExit 1) else mret tt.

Definition running_inv (fl : flags) (tr : list (goroutine * event mgr)) (m : prog mgr Z)
    (g : option (prog mgr unit)) : Prop :=
  leads (main decode_event fl) (calls_of Main tr) m /\
  match g with
  | None => omap ev_GoStart (calls_of Main tr) = [] /\ calls_of Starter tr = []
  | Some g => exists pre s post, tr = pre ++ (Main, Ev (GoStart s) tt) :: post /\
      omap ev_GoStart (calls_of Main pre) = [] /\ calls_of Starter pre = [] /\
      starter_inv s (calls_of Starter post) g
  end.

(** Its next call *)
Lemma starter_next s calls g ev g' :
  starter_inv s calls g -> prog_step g ev g' ->
  (exists err, calls = [] /\ ev = Ev (ServerStart s) err /\
     g' = if err is Some _ then trigger (OsExit 1) else mret tt) \/
  (exists err, calls = [Ev (ServerStart s) (Some err)] /\ ev = Ev (OsExit 1) tt /\ start_returns (Some err)).
Proof.
  intros [[-> ->]|([err|] & -> & Hret & ->)] Hs; apply prog_step_inv in Hs; cbn in Hs.
  - destruct Hs as (err & -> & ->). left. exists err. by destruct err.
  - destruct Hs as ([] & -> & _). right. by exists err.
  - done.
Qed.

Lemma process_running fl tr m g : process_runs fl tr (Running m g) -> running_inv fl tr m g.
Proof.
  intros Hr. remember (Running m g) as p eqn:Hp. revert m g Hp.
  induction Hr as [|tr p tr' p' _ IH Hs]; intros m g Hp; [injection Hp as <- <-; split; [constructor|done]|].
  destruct Hs as [m1 ev m1' g1 Hs Hgo|m1 s m1' Hs|m1 g1 s err g1' Hs Hret|?????|??|??]; simplify_eq;
    destruct (IH _ _ eq_refl) as [Hl Hg]; unfold running_inv; rewrite !calls_of_app; simpl.
  - split; [by eapply leads_snoc|]. rewrite omap_app. destruct g as [g|]; simpl.
    + destruct Hg as (pre & s & post & -> & Hpre & Hpre' & Hinv).
      exists pre, s, (post ++ [(Main, ev)]). rewrite calls_of_app, app_nil_r.
      split_and!; [by rewrite <- app_assoc|done..].
    + destruct Hg as [-> ->]. by rewrite Hgo.
  - split; [by eapply leads_snoc|]. destruct Hg as [Hgo Hnone].
    exists tr, s, []. split_and!; [done..|]. by left.
  - rewrite app_nil_r. split; [done|]. destruct Hg as (pre & s' & post & -> & Hpre & Hpre' & Hinv).
    destruct (starter_next _ _ _ _ _ Hinv Hs) as [(err' & Hc & Heq & ->)|(err' & _ & Heq & _)];
      apply (f_equal ev_ServerStart) in Heq; simpl in Heq; simplify_eq.
    exists pre, s', (post ++ [(Starter, Ev (ServerStart s') err')]). rewrite calls_of_app, Hc.
    split_and!; [by rewrite <- app_assoc|done..|]. right. by exists err'.
Qed.

(** When [main] has come to the manager, it has listened and started the
    server just before. *)
Lemma main_at_manager fl calls m :
  leads (main decode_event fl) calls m -> at_MgrStart m \/ omap ev_MgrStart calls <> [] ->
  exists pre s post, calls = pre ++ [Ev (Listen (ps_addr s)) (Ok tt); Ev (GoStart s) tt] ++ post /\
    started fl pre s /\ omap ev_GoStart pre = [].
Proof.
  intros Hl Hat. pose proof (wp_leads _ _ _ _ Hl (main_runs fl)) as Hwp.
  assert (exists tr o, runs m tr o /\ (omap ev_MgrStart calls = [] ->
    exists ret tr', tr = Ev MgrStart ret :: tr')) as (tr & o & Hr & Htr).
  { destruct Hat as [(ret & m' & Hs)|Hc].
    - destruct (mgr_runs m') as (tr & o & Hr). exists (Ev MgrStart ret :: tr), o. split; [|eauto].
      remember (Ev MgrStart ret) as ev. destruct Hs. by constructor.
    - destruct (mgr_runs m) as (tr & o & Hr). exists tr, o. by split. }
  apply (proj1 (wp_runs _ _) Hwp) in Hr. inversion Hr as [? _ Hno|pre s ret Hst Hgo Hmgr Heq]; subst.
  - rewrite omap_app in Hno. apply app_eq_nil in Hno as [Hno Hno'].
    destruct (Htr Hno) as (ret & tr' & ->). done.
  - exists pre, s.
    change (pre ++ [Ev (Listen (ps_addr s)) (Ok tt); Ev (GoStart s) tt; Ev MgrStart ret]) with
      (pre ++ [Ev (Listen (ps_addr s)) (Ok tt); Ev (GoStart s) tt] ++ [Ev MgrStart ret]) in Heq.
    rewrite app_assoc in Heq. symmetry in Heq.
    apply app_eq_app in Heq as (k & [[-> Hk]|[Hk ->]]); [exists k; by rewrite <- app_assoc|].
    assert (omap ev_MgrStart (calls ++ k) = []) as Hno by (rewrite <- Hk, omap_app, Hmgr; done).
    rewrite omap_app in Hno. apply app_eq_nil in Hno as [Hno Hno'].
    destruct (Htr Hno) as (ret' & tr' & Heq). destruct k as [|ev k].
    + exists []. by rewrite app_nil_r in *.
    + injection Heq as -> _. done.
Qed.

(** The manager runs, or has run. *)
Definition manager_runs (tr : list (goroutine * event mgr)) (p : process) : Prop :=
  (exists m g, p = Running m g /\ at_MgrStart m) \/ omap ev_MgrStart (calls_of Main tr) <> [].

Lemma manager_after fl tr m g :
  process_runs fl tr (Running m g) -> at_MgrStart m \/ omap ev_MgrStart (calls_of Main tr) <> [] ->
  exists pre s post,
    tr = ((fun ev => (Main, ev)) <$> pre ++ [Ev (Listen (ps_addr s)) (Ok tt); Ev (GoStart s) tt]) ++ post /\
    started fl pre s.
Proof.
  intros Hr Hat. apply process_running in Hr as [Hl Hg].
  destruct (main_at_manager _ _ _ Hl Hat) as (pre & s & post & Hcalls & Hst & Hgo).
  destruct g as [g|]; [|destruct Hg as [Hno _]; by rewrite Hcalls, omap_app, Hgo in Hno].
  destruct Hg as (pre' & s' & post' & -> & Hgo' & Hmain & _).
  rewrite calls_of_app in Hcalls. cbn in Hcalls.
  rewrite (app_assoc pre [_] (_ :: post) : pre ++ Ev (Listen (ps_addr s)) (Ok tt) :: Ev (GoStart s) tt :: post = _)
    in Hcalls.
  apply (first_unique ev_GoStart) in Hcalls as (Hpre & Heq & _); [|done|by rewrite omap_app, Hgo|done..].
  apply (f_equal ev_GoStart) in Heq. simpl in Heq. simplify_eq.
  exists pre, s, post'. split; [|done]. rewrite (calls_of_main _ Hmain), Hpre, !fmap_app. simpl.
  by rewrite <- !app_assoc.
Qed.

Lemma starter_silent s calls g : starter_inv s calls g -> omap ev_OsExit calls = [].
Proof. by intros [[-> _]|(err & -> & _)]. Qed.

Lemma running_no_exit fl tr m g :
  process_runs fl tr (Running m g) -> omap ev_OsExit (calls_of Starter tr) = [].
Proof.
  intros Hr. apply process_running in Hr as [_ Hg]. destruct g as [g|]; [|by destruct Hg as [_ ->]].
  destruct Hg as (pre & s & post & -> & _ & Hpre & Hinv).
  rewrite calls_of_app, Hpre. by eapply starter_silent.
Qed.

Lemma exited_from fl tr code :
  process_runs fl tr (Exited code) -> exists tr0 m g tr', tr = tr0 ++ tr' /\
    process_runs fl tr0 (Running m g) /\ process_step (Running m g) tr' (Exited code).
Proof.
  intros Hr. inversion Hr as [|tr0 p tr' p' Hr0 Hs]; subst.
  destruct p as [m g|]; [|by inversion Hs]. by exists tr0, m, g, tr'.
Qed.

(** The goroutine ends the process only after an error of the server. *)
Lemma exit_by_goroutine fl tr m g tr' code :
  process_runs fl tr (Running m g) -> process_step (Running m g) tr' (Exited code) ->
  omap ev_OsExit (calls_of Starter (tr ++ tr')) = [] \/
  Exited code = Exited 1 /\ exists s err, start_returns (Some err) /\
    calls_of Starter (tr ++ tr') = [Ev (ServerStart s) (Some err); Ev (OsExit 1) tt].
Proof.
  intros Hr Hs. pose proof (running_no_exit _ _ _ _ Hr) as Hno. rewrite calls_of_app.
  inversion Hs as [| | |? g1 ? g1' Hg| |]; subst; simpl; rewrite ?app_nil_r; [|by left..].
  right. apply process_running in Hr as [_ (pre & s & post & -> & _ & Hpre & Hinv)].
  rewrite calls_of_app, Hpre. simpl.
  destruct (starter_next _ _ _ _ _ Hinv Hg) as [(err & _ & Heq & _)|(err & -> & Heq & Hret)];
    apply (f_equal ev_OsExit) in Heq; simpl in Heq; simplify_eq.
  split; [done|]. by exists s, err.
Qed.

Lemma exit_status fl tr m g tr' code :
  process_runs fl tr (Running m g) -> process_step (Running m g) tr' (Exited code) ->
  (code = 0 \/ code = 1)%Z /\
  (code = 0%Z <-> omap ev_MgrStart (calls_of Main (tr ++ tr')) = [Ok tt] /\
                  omap ev_OsExit (calls_of Starter (tr ++ tr')) = []) /\
  (code = 0%Z -> Forall (fun ev => ev_failed ev = true -> dropped fl ev) (calls_of Main (tr ++ tr'))).
Proof.
  intros Hr Hs. pose proof (running_no_exit _ _ _ _ Hr) as Hno.
  pose proof (process_running _ _ _ _ Hr) as [Hl _].
  pose proof (wp_leads _ _ _ _ Hl (main_runs fl)) as Hwp. rewrite !calls_of_app.
  inversion Hs as [| | |? g1 ? g1' Hg|code1 g1|]; subst; simpl in *; rewrite ?app_nil_r in *.
  - destruct (exit_by_goroutine _ _ _ _ _ _ Hr Hs) as [Hexit|[[= ->] _]].
    + rewrite calls_of_app, omap_app in Hexit. by apply app_eq_nil in Hexit as [_ Hexit].
    + split; [by right|]. split; [|done]. split; [done|]. rewrite omap_app. intros [_ Hexit].
      by apply app_eq_nil in Hexit as [_ Hexit].
  - inversion Hwp as [? _ Hmgr|pre s ret [_ _ _ Hfail] _ Hmgr]; subst.
    + rewrite Hmgr. split_and!; [by right| |done]. by split; [|intros [? _]].
    + rewrite omap_app, Hmgr, Hno. destruct ret as [[]|err]; simpl.
      * split_and!; [by left|done|]. intros _. apply Forall_app. split; [done|by repeat constructor].
      * split_and!; [by right| |done]. split; [done|]. by intros [[= ?] _].
  - inversion Hwp.
Qed.

(** ... and then does. *)
Lemma exit_follows fl tr m g s err :
  process_runs fl tr (Running m g) -> calls_of Starter tr = [Ev (ServerStart s) (Some err)] ->
  process_step (Running m g) [(Starter, Ev (OsExit 1) tt)] (Exited 1).
Proof.
  intros Hr Hcalls. apply process_running in Hr as [_ Hg]. destruct g as [g|].
  - destruct Hg as (pre & s' & post & -> & _ & Hpre & Hinv). rewrite calls_of_app, Hpre in Hcalls. simpl in Hcalls.
    destruct Hinv as [[Hno _]|(err' & Hc & _ & ->)]; [congruence|].
    rewrite Hc in Hcalls. apply (f_equal (omap ev_ServerStart)) in Hcalls. simpl in Hcalls. simplify_eq.
    eapply goroutine_exit. constructor.
  - destruct Hg as [_ Hno]. congruence.
Qed.


(** The webhooks of the process are the protocol: whenever the manager runs,
    a promotion server was started, and each request to it, against an API
    server that keeps its promises, performs one action of the approval
    protocol. *)
Theorem process_refines_protocol {S} (h : handler (E := sys) S) `{!ApiServer h} fl
    format_RFC1123 redirect healthz :
  (forall r w, wp (healthz r w) (fun tr _ => reads_only tr)) ->
  wp (main decode_event fl) (fun tr _ => omap ev_MgrStart tr <> [] ->
    exists s, omap ev_GoStart tr = [s] /\ forall limiter r st,
      after h (serve format_RFC1123 redirect healthz s limiter r) st
        (fun tr o st' => performs h decode_event s r st tr (answer o) st')).
Proof.
  intros Hhealthz. eapply wp_mono; [|apply main_runs].
  intros tr o [? _ Hno|pre s ret [Hreg Hown _ _] Hgo _] Hrun; [by rewrite Hno in Hrun|].
  exists s. split; [by rewrite omap_app, Hgo|]. intros limiter r st.
  destruct main_strategies_spec as (reg & Hreg' & Hstrat & _). rewrite Hreg in Hreg'.
  injection Hreg' as <-. by apply serve_performs.
Qed.

(** The level-triggered controller can be missing from a process that ends
    well: when the runner cannot be added, the manager still runs, without any
    controller. *)
Theorem main_without_controller fl err :
  useLevelTriggeredController fl = true ->
  exists tr, runs (main decode_event fl) tr (Done 0%Z) /\
    Ev (MgrAdd RunnerRunnable) (Err err) ∈ tr /\ omap ev_Complete tr = [] /\
    omap ev_MgrStart tr = [Ok tt].
Proof.
  intros Hfl. destruct main_strategies_spec as (stratReg & Hstrat & _).
  destruct (server_opts_config fl stratReg) as (s & Hs & _).
  eexists. split; [|split; [|split]].
  - unfold main. rewrite Hstrat. unfold setup_controller, new_server, NewPromotionServer. rewrite Hfl, Hs.
    cbn. apply (runs_vis _ (Ok tt)). apply (runs_vis _ (Ok tt)). apply (runs_vis _ (Err err)).
    apply (runs_vis _ (Ok tt)). apply (runs_vis _ (Ok tt)). apply (runs_vis _ tt).
    apply (runs_vis _ (Ok tt)). apply (runs_vis _ tt). apply (runs_vis _ (Ok tt)). constructor.
  - set_solver.
  - done.
  - done.
Qed.
End main_sound.

(** ** A process whose manager ends well *)
Section shutdown.
Local Existing Instance Stock.stock.
Local Existing Instance StockGit.libs.

Definition no_event (_ : string) : res Event := Err (errorf "unexpected end of JSON input").

(** The context's error, with a request in flight *)
Lemma start_returns_canceled : start_returns (Some context_canceled).
Proof.
  exists (Lifecycle.set_start (Returned (Some context_canceled)) in_flight). split; [|done].
  eapply rtc_r; [exact in_flight_reaches|]. split; [done|]. by eapply step_ctx_done.
Qed.

(** One more call of [main], answered with [x] *)
Ltac main_calls H x :=
  lazymatch type of H with
  | process_runs _ _ _ (Running ?m ?g) =>
      lazymatch eval hnf in m with
      | PVis ?e ?k =>
          first
            [apply (fun Hr => process_goes _ _ _ _ _ _ Hr (main_call m (Ev e x) (k x) g (prog_step_vis e x k) eq_refl)) in H
            |apply (fun Hr => process_goes _ _ _ _ _ _ Hr (main_go m _ (k x) (prog_step_vis e x k))) in H]
      end
  end.

(** The server's [Start] returns the context's error, the manager returns nil,
    and the goroutine ends the process. *)
Lemma status_1_after_manager : exists tr,
  process_runs no_event default_flags tr (Exited 1) /\
  omap ev_MgrStart (calls_of Main tr) = [Ok tt].
Proof.
  pose proof (process_begins no_event default_flags) as H.
  do 3 main_calls H (@Ok unit tt). main_calls H tt. do 3 main_calls H (@Ok unit tt).
  main_calls H tt. main_calls H (@Ok unit tt). main_calls H tt.
  lazymatch type of H with
  | process_runs _ _ _ (Running ?m (Some (start_goroutine ?s))) =>
      apply (fun Hr => process_goes _ _ _ _ _ _ Hr
        (server_start m _ s (Some context_canceled) _ (prog_step_vis _ _ _) start_returns_canceled)) in H
  end.
  main_calls H (@Ok unit tt).
  apply (fun Hr => process_goes _ _ _ _ _ _ Hr (goroutine_exit _ _ 1 _ (prog_step_vis _ _ _))) in H.
  eexists. split; [exact H|reflexivity].
Qed.

End shutdown.
